(** * Real-estate financial engine: amortization, cash flow, break-even,
      scenarios, projections and IRR

    A shallow embedding of [realestate-financial-tool/realestate] (packages
    [financing] and [property]) and of the parts of the arbitrary-precision
    decimal library and of IEEE-754 binary64 that these packages use.

    - Decimals are exact rationals; only division rounds (16 fractional
      digits, half away from zero), as in shopspring/decimal.
    - [float64] is the Standard Library's [spec_float] at precision 53 and
      maximal exponent 1024.
    - Pointers ([*Property], [*Financial], [*Unit]) are addresses into an
      explicit heap, and every function of package [property] threads that
      heap, so that the in-place defaulting done by [Financial.Normalize]
      is visible.
    - A Go panic is the outcome [Panic]. *)

From Stdlib Require Import ZArith QArith Qround Qabs Qpower Lia Lqa List Bool String Ascii.
From Stdlib Require Import SpecFloat.
Import ListNotations.

Local Open Scope Z_scope.

(** ** Outcomes: a returned value, or a panic *)

Inductive panic : Type :=
| DivisionByZero     (* decimal: "decimal division by 0" *)
| NotFinite          (* decimal: "Cannot create a Decimal from NaN/Inf" *)
| NilDereference     (* runtime: invalid memory address *)
| IndexOutOfRange    (* runtime: index out of range *)
| MakeSliceOutOfRange (* runtime: makeslice: len or cap out of range *)
| InvalidLoanTerm    (* financing: "Invalid loan term" *)
| UnknownLoanTerm    (* financing: "Unknown loan term" *)
| OutOfFuel.         (* the model's loop budget was too small; never a Go outcome *)

Inductive result (A : Type) : Type :=
| Ok (a : A)
| Panic (e : panic).
Arguments Ok {A} a.
Arguments Panic {A} e.

Definition rbind {A B} (x : result A) (f : A -> result B) : result B :=
  match x with
  | Ok a => f a
  | Panic e => Panic e
  end.

Declare Scope result_scope.
Delimit Scope result_scope with result.
Notation "x <- c ;; k" := (rbind c (fun x => k))
  (at level 61, c at next level, right associativity) : result_scope.

(** 64-bit two's complement wrap-around of Go's [int] and [int64]. *)
Definition wrap64 (z : Z) : Z := (z + 2 ^ 63) mod 2 ^ 64 - 2 ^ 63.

(** ** The decimal library (github.com/shopspring/decimal)

    A [Decimal] is [value * 10^exp] with an unbounded integer [value]; every
    operation used here depends on that number only, so a decimal is
    modelled by the rational it denotes, kept in lowest terms.  [Add],
    [Sub], [Mul], [Neg] and [Abs] are exact.  [Div] is [DivRound] at
    [DivisionPrecision = 16]. *)
Module decimal.

Definition Decimal : Type := Q.

Definition DivisionPrecision : Z := 16.
Definition PowPrecisionNegativeExponent : Z := 16.

Definition Zero : Decimal := 0%Q.
Definition NewFromInt (z : Z) : Decimal := inject_Z z.

Definition Add (a b : Decimal) : Decimal := Qred (a + b).
Definition Sub (a b : Decimal) : Decimal := Qred (a - b).
Definition Mul (a b : Decimal) : Decimal := Qred (a * b).
Definition Neg (a : Decimal) : Decimal := Qred (- a).
Definition Abs (a : Decimal) : Decimal := Qred (Qabs a).

Definition Sign (a : Decimal) : Z := Z.sgn (Qnum a).
Definition IsZero (a : Decimal) : bool := Sign a =? 0.
Definition Equal (a b : Decimal) : bool := Qeq_bool a b.
Definition LessThanOrEqual (a b : Decimal) : bool := Qle_bool a b.
Definition LessThan (a b : Decimal) : bool := negb (Qle_bool b a).
Definition GreaterThan (a b : Decimal) : bool := negb (Qle_bool a b).

(** Rounding of a rational to the nearest integer, ties away from zero:
    what [DivRound] does with the remainder of [QuoRem], and what [Round]
    does by adding [sign * 0.5] and truncating. *)
Definition round_half_away (x : Q) : Z :=
  if Qle_bool 0 x then Qfloor (x + (1 # 2)) else - Qfloor (- x + (1 # 2)).

Definition pow10 (k : Z) : Q := inject_Z (10 ^ k).

(** [d.DivRound(d2, precision)] for [d2 <> 0] and [0 <= precision]. *)
Definition DivRound (d d2 : Decimal) (precision : Z) : Decimal :=
  Qred (inject_Z (round_half_away (d / d2 * pow10 precision)) / pow10 precision).

Definition Div (d d2 : Decimal) : result Decimal :=
  if IsZero d2 then Panic DivisionByZero
  else Ok (DivRound d d2 DivisionPrecision).

(** [d.Round(places)] for [0 <= places]. *)
Definition Round (d : Decimal) (places : Z) : Decimal :=
  Qred (inject_Z (round_half_away (d * pow10 places)) / pow10 places).

(** [d.Pow(NewFromInt e)].  For [1 <= e] the power is exact (square and
    multiply with exact [Mul]) in every release of the library; the other
    cases follow release 1.4: [0^e = 0] for every [e <= 0], [d^0 = 1], and
    a negative power is [1] divided by the positive power at
    [PowPrecisionNegativeExponent]. *)
Definition Pow (d : Decimal) (e : Z) : Decimal :=
  match e with
  | Zpos p => Qred (Qpower_positive d p)
  | Z0 => if IsZero d then Zero else 1%Q
  | Zneg p =>
      if IsZero d then Zero
      else DivRound 1%Q (Qpower_positive d p) PowPrecisionNegativeExponent
  end.

End decimal.
Import decimal.

(** ** IEEE-754 binary64 ([float64])

    Arithmetic and comparisons are the Standard Library's [SpecFloat]
    operations at precision 53; values are finite numbers, signed zeros,
    infinities and NaN. *)
Module float64.

Definition prec : Z := 53.
Definition emax : Z := 1024.

Definition t : Type := spec_float.

Definition add : t -> t -> t := SFadd prec emax.
Definition sub : t -> t -> t := SFsub prec emax.
Definition mul : t -> t -> t := SFmul prec emax.
Definition div : t -> t -> t := SFdiv prec emax.
Definition eqb : t -> t -> bool := SFeqb.
Definition ltb : t -> t -> bool := SFltb.

Definition is_finite (x : t) : bool :=
  match x with
  | S754_zero _ | S754_finite _ _ _ => true
  | _ => false
  end.

(** The rational denoted by a finite float (0 for the others). *)
Definition to_Q (x : t) : Q :=
  match x with
  | S754_finite s m e =>
      ((if s then -1 else 1) * inject_Z (Zpos m) * Qpower 2 e)%Q
  | _ => 0%Q
  end.

(** Rounding of a rational to the nearest integer, ties to even. *)
Definition round_half_even (x : Q) : Z :=
  let f := Qfloor x in
  match (x - inject_Z f ?= 1 # 2)%Q with
  | Lt => f
  | Gt => f + 1
  | Eq => if Z.even f then f else f + 1
  end.

(** Correct rounding (to nearest, ties to even) of a positive rational
    [q] with sign [s]: with [2^(k-1) <= q < 2^k], the result is the
    multiple of [2^e] nearest to [q], for [e = max (k - 53) (-1074)];
    a mantissa that reaches [2^53] moves to the next binade, and an
    exponent above [emax - prec] overflows to infinity. *)
Definition of_Qpos (s : bool) (q : Q) : t :=
  let a := Z.log2 (Qnum q) in
  let b := Z.log2 (Zpos (Qden q)) in
  let k := if Qle_bool (Qpower 2 (a - b)) q then a - b + 1 else a - b in
  let e := Z.max (k - prec) (emin prec emax) in
  let m := round_half_even (q / Qpower 2 e) in
  if m =? 0 then S754_zero s
  else
    let '(m', e') := if m =? 2 ^ prec then (2 ^ (prec - 1), e + 1) else (m, e) in
    if e' <=? emax - prec then S754_finite s (Z.to_pos m') e'
    else S754_infinity s.

(** The float64 nearest to a rational: float64 constants written in
    decimal in the source, and [big.Rat.Float64]. *)
Definition of_Q (q : Q) : t :=
  match Qnum q with
  | Z0 => S754_zero false
  | Zpos _ => of_Qpos false q
  | Zneg _ => of_Qpos true (- q)
  end.

(** [float64(i)] for an integer [i]. *)
Definition of_Z (z : Z) : t := binary_normalize prec emax z 0 false.

Definition min_int64 : Z := - 2 ^ 63.

(** [int64(x)]: truncation toward zero; outside the range of int64 (and
    for NaN) Go leaves the result to the implementation, and amd64 gives
    the least int64. *)
Definition to_int64 (x : t) : Z :=
  match x with
  | S754_zero _ => 0
  | S754_finite s m e =>
      let a := match e with
               | Z0 => Zpos m
               | Zpos _ => Zpos m * 2 ^ e
               | Zneg _ => Z.shiftr (Zpos m) (- e)
               end in
      let z := if s then - a else a in
      if (min_int64 <=? z) && (z <? 2 ^ 63) then z else min_int64
  | _ => min_int64
  end.

(** *** Shortest decimal that reads back as the same float

    [strconv]'s and shopspring's [roundShortest]: the digits are cut at the
    first (most significant) position at which the value rounded down or
    up still lies within the interval of reals that round to [x]; when
    both do, the nearer one is taken (ties to the even digit). *)

(** Interval of the reals rounding to [m * 2^e]: bounds and inclusiveness. *)
Definition shortest_interval (m : positive) (e : Z) : Q * Q * bool :=
  let upper := (inject_Z (2 * Zpos m + 1) * Qpower 2 (e - 1))%Q in
  let lower :=
    if (Zpos m =? 2 ^ (prec - 1)) && negb (e =? emin prec emax)
    then (inject_Z (4 * Zpos m - 1) * Qpower 2 (e - 2))%Q
    else (inject_Z (2 * Zpos m - 1) * Qpower 2 (e - 1))%Q in
  (lower, upper, Z.even (Zpos m)).

(** Scan positions [p], [p - 1], ... ; the result [(c, p)] denotes
    [c * 10^p]. *)
Fixpoint shortest_scan (fuel : nat) (v lower upper : Q) (inclusive : bool)
         (p : Z) : Z * Z :=
  let unit := Qpower 10 p in
  let c := Qfloor (v / unit) in
  let down := (inject_Z c * unit)%Q in
  let up := (inject_Z (c + 1) * unit)%Q in
  let okdown := if inclusive then Qle_bool lower down
                else negb (Qle_bool down lower) in
  let okup := if inclusive then Qle_bool up upper
              else negb (Qle_bool upper up) in
  let nearest :=
    match (v - down ?= up - v)%Q with
    | Lt => c
    | Gt => c + 1
    | Eq => if Z.even c then c else c + 1
    end in
  match okdown, okup with
  | true, true => (nearest, p)
  | true, false => (c, p)
  | false, true => (c + 1, p)
  | false, false =>
      match fuel with
      | O => (c, p)
      | S fuel' => shortest_scan fuel' v lower upper inclusive (p - 1)
      end
  end.

(** Shortest digits of a positive finite float [m * 2^e]: the first
    position tried is above the leading digit of the upper bound, and at
    position [min e 0] the value itself is a candidate. *)
Definition shortest (m : positive) (e : Z) : Z * Z :=
  let '(lower, upper, inclusive) := shortest_interval m e in
  let v := (inject_Z (Zpos m) * Qpower 2 e)%Q in
  let start := Z.log2_up (Qceiling upper) in
  let stop := Z.min e 0 in
  shortest_scan (Z.to_nat (start - stop)) v lower upper inclusive start.

End float64.

(** *** Conversions between decimals and floats (shopspring/decimal) *)

Definition NewFromFloat (value : float64.t) : result Decimal :=
  match value with
  | S754_zero _ => Ok Zero
  | S754_finite s m e =>
      let '(c, p) := float64.shortest m e in
      Ok (Qred ((if s then -1 else 1) * inject_Z c * Qpower 10 p))
  | _ => Panic NotFinite
  end.

Definition InexactFloat64 (d : Decimal) : float64.t := float64.of_Q d.

(** *** [%g] of package fmt ([strconv.FormatFloat(x, 'g', -1, 64)]) *)
Module fmt.

Local Open Scope string_scope.
Local Open Scope Z_scope.

Definition digit_char (d : Z) : ascii := ascii_of_nat (48 + Z.to_nat d).

(** Decimal digits of a non-negative integer, most significant first. *)
Fixpoint digits_aux (fuel : nat) (z : Z) (acc : list Z) : list Z :=
  match fuel with
  | O => acc
  | S fuel' =>
      if z <? 10 then z :: acc
      else digits_aux fuel' (z / 10) (z mod 10 :: acc)
  end.

Definition digits (z : Z) : list Z := digits_aux (S (Z.to_nat (Z.log2 z))) z [].

Fixpoint string_of_digits (ds : list Z) : string :=
  match ds with
  | [] => ""
  | d :: ds' => String (digit_char d) (string_of_digits ds')
  end.

(** Digit [j] of the digit string, ['0'] outside it. *)
Definition digit_at (ds : list Z) (j : Z) : Z :=
  if j <? 0 then 0 else nth (Z.to_nat j) ds 0.

Definition digit_range (ds : list Z) (from : Z) (count : nat) : list Z :=
  map (fun i => digit_at ds (from + Z.of_nat i)) (seq 0 count).

(** [%e] with [nd - 1] fractional digits. *)
Definition fmtE (ds : list Z) (dp : Z) : string :=
  let exp := dp - 1 in
  let mant :=
    match ds with
    | [] => "0"
    | [d] => string_of_digits [d]
    | d :: rest => string_of_digits [d] ++ "." ++ string_of_digits rest
    end in
  let e := Z.abs exp in
  mant ++ "e" ++ (if exp <? 0 then "-" else "+")
       ++ (if e <? 10 then "0" else "") ++ string_of_digits (digits e).

(** [%f] with [max (nd - dp) 0] fractional digits. *)
Definition fmtF (ds : list Z) (dp : Z) : string :=
  let nd := Z.of_nat (List.length ds) in
  let int_part :=
    if 0 <? dp then string_of_digits (digit_range ds 0 (Z.to_nat dp)) else "0" in
  let prec := Z.max (nd - dp) 0 in
  if 0 <? prec
  then int_part ++ "." ++ string_of_digits (digit_range ds dp (Z.to_nat prec))
  else int_part.

(** [%g] at the shortest precision: [%e] when the decimal exponent is
    below -4 or at least 6 (the value [eprec] takes for shortest
    formatting), [%f] otherwise. *)
Definition format_g (x : float64.t) : string :=
  match x with
  | S754_nan => "NaN"
  | S754_infinity false => "+Inf"
  | S754_infinity true => "-Inf"
  | S754_zero s => if s then "-0" else "0"
  | S754_finite s m e =>
      let '(c, p) := float64.shortest m e in
      let ds := digits c in
      let dp := Z.of_nat (List.length ds) + p in
      let exp := dp - 1 in
      (if s then "-" else "")
        ++ (if (exp <? -4) || (6 <=? exp) then fmtE ds dp else fmtF ds dp)
  end.

End fmt.

(** ** Package financing *)
Module financing.

Local Open Scope result_scope.

(** *** interes-rate.go *)

Definition pointDevider : Z := 100.

(** [interestRate], the implementation of interface [InterestRate], and
    its methods. *)
Module interestRate.
Record t : Type := { rate : decimal.Decimal }.

Definition Decimal (ir : t) : decimal.Decimal := rate ir.

Definition Points (ir : t) : decimal.Decimal :=
  Mul (rate ir) (NewFromInt (pointDevider * 100)).

Definition String (ir : t) : string :=
  (fmt.format_g (InexactFloat64 (Mul (rate ir) (NewFromInt pointDevider)))
     ++ "%")%string.

Definition AnnualRate (ir : t) : float64.t :=
  InexactFloat64 (Mul (rate ir) (NewFromInt pointDevider)).
End interestRate.

Definition NewInterestRate (percent : float64.t) : result interestRate.t :=
  d <- NewFromFloat percent ;;
  r <- Div d (NewFromInt pointDevider) ;;
  Ok {| interestRate.rate := r |}.

(** *** loan.go *)

(** [type LoanTerm int], with its four constants numbered by [iota]. *)
Module LoanTerm.
Definition t : Type := Z.

Definition Term30Years : t := 0.
Definition Term20Years : t := 1.
Definition Term15Years : t := 2.
Definition Term10Years : t := 3.

(** [Years()]: a value that is none of the four constants panics. *)
Definition Years (lt : t) : result Z :=
  match lt with
  | 0 => Ok 30
  | 1 => Ok 20
  | 2 => Ok 15
  | 3 => Ok 10
  | _ => Panic UnknownLoanTerm
  end.
End LoanTerm.

(** [StartDate] and [EndDate] are left out: they are set from the clock
    and no function below reads them. *)
Module Loan.
Record t : Type := {
  HomePrice : Decimal;
  DownPayment : Decimal;
  InterestRate : interestRate.t;
  TermYears : Z;
  EnableRounding : bool;
  RoundingPlaces : Z;
  RoundingErrorTolerance : Decimal
}.
End Loan.

(** [NewLoan] calls [years.Years()] three times on the same value; the
    first call is the one that can panic. *)
Definition NewLoan (homePrice downPayment : Z) (interestRate : float64.t)
           (years : LoanTerm.t) (roundingErrorTolerance : Decimal)
  : result Loan.t :=
  termYears <- LoanTerm.Years years ;;
  if termYears <=? 0 then Panic InvalidLoanTerm
  else
    ir <- NewInterestRate interestRate ;;
    Ok {| Loan.HomePrice := NewFromInt homePrice;
          Loan.DownPayment := NewFromInt downPayment;
          Loan.InterestRate := ir;
          Loan.TermYears := termYears;
          Loan.EnableRounding := true;
          Loan.RoundingPlaces := 0;
          Loan.RoundingErrorTolerance := roundingErrorTolerance |}.

(** [n := int64(years * 12)]: the product of two [int]s wraps at 64 bits. *)
Definition MonthlyPayment (l : Loan.t) : result Decimal :=
  let P := Sub (Loan.HomePrice l) (Loan.DownPayment l) in
  let years := Loan.TermYears l in
  r <- Div (interestRate.Decimal (Loan.InterestRate l)) (NewFromInt 12) ;;
  let n := wrap64 (years * 12) in
  let one := NewFromInt 1 in
  if IsZero r || (n =? 0) then Ok Zero
  else
    let num := Mul (Mul r P) (Pow (Add one r) n) in
    let den := Sub (Pow (Add one r) n) one in
    Div num den.

Definition LoanAmount (l : Loan.t) : Decimal :=
  Sub (Loan.HomePrice l) (Loan.DownPayment l).

(** Go's [error] values. *)
Inductive error : Type := InvalidTermError.

Module Row.
Record t : Type := {
  Period : Z;
  Payment : Decimal;
  Interest : Decimal;
  Principal : Decimal;
  Balance : Decimal
}.
End Row.

(** Modelled from the spec: package [internal/gofinancial]
    ([NewAmortization], [GenerateTable]) is not among the sources.  Rows
    follow the specification's Amortization Engine: for period
    [i = 1..n], [interest_i = balance_(i-1) * r],
    [principal_i = M - interest_i], [balance_i = balance_(i-1) -
    principal_i], [balance_0 = P]; monetary outputs are rounded to the
    configured places when rounding is enabled. *)
Fixpoint generateRows (count : nat) (i : Z) (M r balance : Decimal)
         (out : Decimal -> Decimal) : list Row.t :=
  match count with
  | O => []
  | S count' =>
      let interest := Mul balance r in
      let principal := Sub M interest in
      let balance' := Sub balance principal in
      {| Row.Period := i; Row.Payment := out M; Row.Interest := out interest;
         Row.Principal := out principal; Row.Balance := out balance' |}
        :: generateRows count' (i + 1) M r balance' out
  end.

(** Modelled from the spec: [Loan.AmortizationSchedule] delegates to the
    missing [gofinancial]; a term of zero years or less fails with
    [InvalidTermError] before any row is generated, otherwise there are
    [years * 12] rows for the monthly rate [annual rate / 12] and the
    fixed payment [M] of the Amortization Engine. *)
Definition AmortizationSchedule (l : Loan.t)
  : result (list Row.t * option error) :=
  if Loan.TermYears l <=? 0 then Ok ([], Some InvalidTermError)
  else
    M <- MonthlyPayment l ;;
    r <- Div (interestRate.Decimal (Loan.InterestRate l)) (NewFromInt 12) ;;
    let out := fun d => if Loan.EnableRounding l
                        then Round d (Loan.RoundingPlaces l) else d in
    Ok (generateRows (Z.to_nat (Loan.TermYears l * 12)) 1 M r (LoanAmount l) out,
        None).

Definition GetTotalInterest (l : Loan.t) : result (Decimal * option error) :=
  sched <- AmortizationSchedule l ;;
  match sched with
  | (_, Some err) => Ok (Zero, Some err)
  | (rows, None) =>
      Ok (fold_left (fun totalInterest row => Add totalInterest (Row.Interest row))
                    rows Zero, None)
  end.

Definition GetTotalPrincipal (l : Loan.t) : result (Decimal * option error) :=
  sched <- AmortizationSchedule l ;;
  match sched with
  | (_, Some err) => Ok (Zero, Some err)
  | (rows, None) =>
      Ok (fold_left (fun totalPrincipal row => Add totalPrincipal (Row.Principal row))
                    rows Zero, None)
  end.

End financing.

(** ** Package strconv and the formatting of floats by package fmt *)
Module strconv.

Local Open Scope string_scope.
Local Open Scope Z_scope.

(** [strconv.Itoa(i)], which is also [fmt.Sprintf("%d", i)]. *)
Definition Itoa (i : Z) : string :=
  if i <? 0 then "-" ++ fmt.string_of_digits (fmt.digits (- i))
  else fmt.string_of_digits (fmt.digits i).

(** The [count] low decimal digits of [z], most significant first. *)
Definition low_digits (count : nat) (z : Z) : list Z :=
  map (fun i => (z / 10 ^ Z.of_nat (count - 1 - i)) mod 10) (seq 0 count).

(** Digits of a non-negative integer scaled by [10^prec]: the integer
    part, and after a point the [prec] fractional digits. *)
Definition fixed_digits (n : Z) (prec : nat) : string :=
  fmt.string_of_digits (fmt.digits (n / 10 ^ Z.of_nat prec))
    ++ (if (prec =? 0)%nat then ""
        else "." ++ fmt.string_of_digits
                      (low_digits prec (n mod 10 ^ Z.of_nat prec))).

(** [strconv.FormatFloat(x, 'f', prec, 64)], which [fmt]'s [%.<prec>f]
    prints: the exact value rounded to [prec] fractional digits, ties to
    even. *)
Definition FormatFixed (x : float64.t) (prec : nat) : string :=
  match x with
  | S754_nan => "NaN"
  | S754_infinity false => "+Inf"
  | S754_infinity true => "-Inf"
  | S754_zero s => (if s then "-" else "") ++ fixed_digits 0 prec
  | S754_finite s m e =>
      let q := float64.to_Q (S754_finite false m e) in
      let n := float64.round_half_even (q * inject_Z (10 ^ Z.of_nat prec)) in
      (if s then "-" else "") ++ fixed_digits n prec
  end.

End strconv.

(** ** Package uuid (github.com/google/uuid) *)
Module uuid.

Local Open Scope Z_scope.

Definition hexDigit (d : Z) : ascii :=
  nth (Z.to_nat d)
      ["0"; "1"; "2"; "3"; "4"; "5"; "6"; "7";
       "8"; "9"; "a"; "b"; "c"; "d"; "e"; "f"]%char "0"%char.

(** The [count] low hexadecimal digits of [z], most significant first. *)
Definition hexDigits (count : nat) (z : Z) : list ascii :=
  map (fun i => hexDigit ((z / 16 ^ Z.of_nat (count - 1 - i)) mod 16))
      (seq 0 count).

(** [UUID.String]: the 16 bytes, here the 128-bit number they spell, in
    the form xxxxxxxx-xxxx-xxxx-xxxx-xxxxxxxxxxxx. *)
Definition String (u : Z) : string :=
  let ds := hexDigits 32 u in
  string_of_list_ascii
    (firstn 8 ds ++ "-"%char :: firstn 4 (skipn 8 ds)
       ++ "-"%char :: firstn 4 (skipn 12 ds)
       ++ "-"%char :: firstn 4 (skipn 16 ds)
       ++ "-"%char :: skipn 20 ds).

End uuid.

(** ** Package property *)
Module property.

Import financing.

(** *** Data (unit.go, financial.go, property.go, scenarios.go,
        cashflow.go, projections.go) *)

(** A pointer is an address of the heap; [nil] and every address that is
    not allocated panic when dereferenced. *)
Definition ptr : Type := nat.

Module Unit.
Record t : Type := {
  Uuid : Z;
  Name : string;
  Bedrooms : Z;
  Bathrooms : Z;
  Size : float64.t;
  Rent : float64.t;
  Occupied : bool
}.
End Unit.

Module ExpensesMonthly.
Record t : Type := {
  Taxes : float64.t;
  Insurance : float64.t;
  PMI : float64.t;
  Utilities : float64.t;
  RepairsMaintenance : float64.t;
  ManagementFee : float64.t;
  OtherExpenses : float64.t;
  CapitalReserves : float64.t;
  VacancyRate : float64.t
}.
End ExpensesMonthly.

Module Financial.
Record t : Type := {
  AskingPrice : float64.t;
  PurchasePrice : float64.t;
  DownPayment : float64.t;
  LoanAmount : float64.t;
  InterestRate : float64.t;       (* in basis points *)
  LoanTermYears : LoanTerm.t;
  Expenses : ExpensesMonthly.t
}.
End Financial.

Module Property.
Record t : Type := {
  PropertyName : string;
  Address : string;
  City : string;
  State : string;
  ZipCode : string;
  County : string;
  YearBuilt : Z;
  NumberOfUnits : Z;
  BuildingSF : float64.t;
  LotSF : float64.t;
  Units : list ptr;      (* []*Unit *)
  Financial : ptr        (* *Financial *)
}.
End Property.

Module Scenario.
Record t : Type := {
  Name : string;
  DownPayment : float64.t;
  InterestRate : float64.t;
  LoanTerm : LoanTerm.t;
  RentMultiplier : float64.t
}.
End Scenario.

Module ScenarioResult.
Record t : Type := {
  Scenario : Scenario.t;
  MonthlyCashFlow : Decimal;
  AnnualCashFlow : Decimal;
  CashOnCash : Decimal;
  CapRate : Decimal;
  IsPositive : bool
}.
End ScenarioResult.

Module CashFlowAnalysis.
Record t : Type := {
  MonthlyGrossIncome : Decimal;
  AnnualGrossIncome : Decimal;
  MonthlyExpenses : Decimal;
  AnnualExpenses : Decimal;
  MonthlyNOI : Decimal;
  AnnualNOI : Decimal;
  MonthlyMortgage : Decimal;
  AnnualMortgage : Decimal;
  MonthlyCashFlow : Decimal;
  AnnualCashFlow : Decimal;
  CapRate : Decimal;
  CashOnCash : Decimal;
  GRM : Decimal;
  DSCR : Decimal;
  BreakEvenRatio : Decimal;
  TotalInvestment : Decimal;
  PurchasePrice : Decimal;
  DownPayment : Decimal;
  LoanAmount : Decimal;
  InterestRate : Decimal;
  LoanTermYears : Z
}.
End CashFlowAnalysis.

Module ProjectionConfig.
Record t : Type := {
  Years : Z;
  RentGrowthRate : float64.t;
  ExpenseGrowthRate : float64.t;
  AppreciationRate : float64.t;
  VacancyRate : float64.t
}.
End ProjectionConfig.

Module YearlyProjection.
Record t : Type := {
  Year : Z;
  GrossIncome : Decimal;
  VacancyLoss : Decimal;
  EffectiveIncome : Decimal;
  Expenses : Decimal;
  NOI : Decimal;
  MortgagePayment : Decimal;
  CashFlow : Decimal;
  CumulativeCF : Decimal;
  PropertyValue : Decimal;
  LoanBalance : Decimal;
  PrincipalPaid : Decimal;
  Equity : Decimal;
  EquityAtSale : Decimal;
  TotalReturn : Decimal;
  CashOnCash : Decimal
}.
End YearlyProjection.

(** *** The heap and the monad of heap-threading, panicking computations *)

Record Heap : Type := {
  units : list Unit.t;
  financials : list Financial.t;
  properties : list Property.t
}.

Definition M (A : Type) : Type := Heap -> result (A * Heap).

Definition ret {A} (a : A) : M A := fun h => Ok (a, h).

Definition bind {A B} (m : M A) (f : A -> M B) : M B :=
  fun h => match m h with
           | Ok (a, h') => f a h'
           | Panic e => Panic e
           end.

Definition lift {A} (r : result A) : M A :=
  fun h => match r with
           | Ok a => Ok (a, h)
           | Panic e => Panic e
           end.

Declare Scope heap_scope.
Delimit Scope heap_scope with heap.
Notation "x <- c ;; k" := (bind c (fun x => k))
  (at level 61, c at next level, right associativity) : heap_scope.
Notation "c ;;; k" := (bind c (fun _ => k))
  (at level 61, right associativity) : heap_scope.
Local Open Scope heap_scope.

Definition load {A} (sel : Heap -> list A) (a : ptr) : M A :=
  fun h => match nth_error (sel h) a with
           | Some x => Ok (x, h)
           | None => Panic NilDereference
           end.

Definition loadUnit : ptr -> M Unit.t := load units.
Definition loadFinancial : ptr -> M Financial.t := load financials.
Definition loadProperty : ptr -> M Property.t := load properties.

(** Replacement of element [a]; the list is unchanged when [a] is out of
    range. *)
Fixpoint update {A} (l : list A) (a : nat) (x : A) : list A :=
  match l, a with
  | [], _ => []
  | _ :: l', O => x :: l'
  | y :: l', S a' => y :: update l' a' x
  end.

Definition storeFinancial (a : ptr) (f : Financial.t) : M unit :=
  fun h => match nth_error (financials h) a with
           | Some _ => Ok (tt, {| units := units h;
                                  financials := update (financials h) a f;
                                  properties := properties h |})
           | None => Panic NilDereference
           end.

Definition storeProperty (a : ptr) (p : Property.t) : M unit :=
  fun h => match nth_error (properties h) a with
           | Some _ => Ok (tt, {| units := units h;
                                  financials := financials h;
                                  properties := update (properties h) a p |})
           | None => Panic NilDereference
           end.

(** Allocation ([&T{...}]) takes the next free address. *)
Definition newUnit (u : Unit.t) : M ptr :=
  fun h => Ok (List.length (units h),
               {| units := units h ++ [u];
                  financials := financials h;
                  properties := properties h |}).

Definition newFinancial (f : Financial.t) : M ptr :=
  fun h => Ok (List.length (financials h),
               {| units := units h;
                  financials := financials h ++ [f];
                  properties := properties h |}).

Definition newProperty (p : Property.t) : M ptr :=
  fun h => Ok (List.length (properties h),
               {| units := units h;
                  financials := financials h;
                  properties := properties h ++ [p] |}).

(** [for _, x := range xs { acc = body(acc, x) }] *)
Fixpoint forRange {A B} (xs : list A) (body : B -> A -> M B) (acc : B) : M B :=
  match xs with
  | [] => ret acc
  | x :: xs' => acc' <- body acc x ;; forRange xs' body acc'
  end.

(** float64 constants of the source. *)
Definition f0 : float64.t := S754_zero false.
Definition f1 : float64.t := float64.of_Q 1.
Definition f12 : float64.t := float64.of_Q 12.
Definition f100 : float64.t := float64.of_Q 100.

(** *** financial.go *)

Definition DefaultDownPaymentPercent : Q := 20.

(** [f.PurchasePrice * (DefaultDownPaymentPercent / 100)]: the quotient of
    the two constants is the exact constant 0.2, converted to float64. *)
Definition defaultDownPaymentFactor : float64.t :=
  float64.of_Q (DefaultDownPaymentPercent / 100).

(** The two defaulting steps of [Normalize], on the value of [*f]. *)
Definition normalize (f : Financial.t) : Financial.t :=
  let fa1 :=
    if float64.eqb (Financial.DownPayment f) f0
       && float64.ltb f0 (Financial.PurchasePrice f)
    then {| Financial.AskingPrice := Financial.AskingPrice f;
            Financial.PurchasePrice := Financial.PurchasePrice f;
            Financial.DownPayment :=
              float64.mul (Financial.PurchasePrice f) defaultDownPaymentFactor;
            Financial.LoanAmount := Financial.LoanAmount f;
            Financial.InterestRate := Financial.InterestRate f;
            Financial.LoanTermYears := Financial.LoanTermYears f;
            Financial.Expenses := Financial.Expenses f |}
    else f in
  if float64.eqb (Financial.LoanAmount fa1) f0
     && float64.ltb f0 (Financial.PurchasePrice fa1)
  then {| Financial.AskingPrice := Financial.AskingPrice fa1;
          Financial.PurchasePrice := Financial.PurchasePrice fa1;
          Financial.DownPayment := Financial.DownPayment fa1;
          Financial.LoanAmount :=
            float64.sub (Financial.PurchasePrice fa1) (Financial.DownPayment fa1);
          Financial.InterestRate := Financial.InterestRate fa1;
          Financial.LoanTermYears := Financial.LoanTermYears fa1;
          Financial.Expenses := Financial.Expenses fa1 |}
  else fa1.

(** [func (f *Financial) Normalize()]: the defaults are written through
    the pointer. *)
Definition Normalize (fa : ptr) : M unit :=
  f <- loadFinancial fa ;;
  storeFinancial fa (normalize f).

Definition InterestRatePercent (f : Financial.t) : float64.t :=
  float64.div (Financial.InterestRate f) f100.

Definition Loan (fa : ptr) : M Loan.t :=
  Normalize fa ;;;
  f <- loadFinancial fa ;;
  lift (NewLoan (float64.to_int64 (Financial.PurchasePrice f))
                (float64.to_int64 (Financial.DownPayment f))
                (InterestRatePercent f)
                (Financial.LoanTermYears f)
                Zero).

Definition TotalMonthly (e : ExpensesMonthly.t) : float64.t :=
  float64.add
    (float64.add
       (float64.add
          (float64.add
             (float64.add
                (float64.add
                   (float64.add (ExpensesMonthly.Taxes e)
                                (ExpensesMonthly.Insurance e))
                   (ExpensesMonthly.Utilities e))
                (ExpensesMonthly.RepairsMaintenance e))
             (ExpensesMonthly.ManagementFee e))
          (ExpensesMonthly.OtherExpenses e))
       (ExpensesMonthly.CapitalReserves e))
    (ExpensesMonthly.PMI e).

Definition TotalYearly (e : ExpensesMonthly.t) : float64.t :=
  float64.mul (TotalMonthly e) f12.

(** *** cashflow.go *)

(** [for _, unit := range p.Units { monthlyIncome =
    monthlyIncome.Add(decimal.NewFromFloat(unit.Rent)) }] *)
Definition sumRents (us : list ptr) : M Decimal :=
  forRange us
    (fun monthlyIncome ua =>
       unit <- loadUnit ua ;;
       rent <- lift (NewFromFloat (Unit.Rent unit)) ;;
       ret (Add monthlyIncome rent))
    Zero.

Definition AnalyzeCashFlow (p : ptr) : M CashFlowAnalysis.t :=
  prop <- loadProperty p ;;
  monthlyIncome <- sumRents (Property.Units prop) ;;
  let MonthlyGrossIncome := monthlyIncome in
  let AnnualGrossIncome := Mul monthlyIncome (NewFromInt 12) in
  f <- loadFinancial (Property.Financial prop) ;;
  let expenses := Financial.Expenses f in
  MonthlyExpenses <- lift (NewFromFloat (TotalMonthly expenses)) ;;
  AnnualExpenses <- lift (NewFromFloat (TotalYearly expenses)) ;;
  let MonthlyNOI := Sub MonthlyGrossIncome MonthlyExpenses in
  let AnnualNOI := Sub AnnualGrossIncome AnnualExpenses in
  loan <- Loan (Property.Financial prop) ;;
  payment <- lift (MonthlyPayment loan) ;;
  let MonthlyMortgage := Abs payment in
  let AnnualMortgage := Mul MonthlyMortgage (NewFromInt 12) in
  let MonthlyCashFlow := Sub MonthlyNOI MonthlyMortgage in
  let AnnualCashFlow := Sub AnnualNOI AnnualMortgage in
  f' <- loadFinancial (Property.Financial prop) ;;
  PurchasePrice <- lift (NewFromFloat (Financial.PurchasePrice f')) ;;
  DownPayment <- lift (NewFromFloat (Financial.DownPayment f')) ;;
  LoanAmount <- lift (NewFromFloat (Financial.LoanAmount f')) ;;
  InterestRate <- lift (NewFromFloat (InterestRatePercent f')) ;;
  LoanTermYears <- lift (LoanTerm.Years (Financial.LoanTermYears f')) ;;
  let TotalInvestment := DownPayment in
  CapRate <-
    (if GreaterThan PurchasePrice Zero
     then q <- lift (Div AnnualNOI PurchasePrice) ;; ret (Mul q (NewFromInt 100))
     else ret Zero) ;;
  CashOnCash <-
    (if GreaterThan DownPayment Zero
     then q <- lift (Div AnnualCashFlow DownPayment) ;; ret (Mul q (NewFromInt 100))
     else ret Zero) ;;
  grm_ber <-
    (if GreaterThan AnnualGrossIncome Zero
     then GRM <- lift (Div PurchasePrice AnnualGrossIncome) ;;
          let totalDebtService := Add AnnualExpenses AnnualMortgage in
          q <- lift (Div totalDebtService AnnualGrossIncome) ;;
          ret (GRM, Mul q (NewFromInt 100))
     else ret (Zero, Zero)) ;;
  DSCR <-
    (if GreaterThan AnnualMortgage Zero
     then lift (Div AnnualNOI AnnualMortgage)
     else ret Zero) ;;
  ret {| CashFlowAnalysis.MonthlyGrossIncome := MonthlyGrossIncome;
         CashFlowAnalysis.AnnualGrossIncome := AnnualGrossIncome;
         CashFlowAnalysis.MonthlyExpenses := MonthlyExpenses;
         CashFlowAnalysis.AnnualExpenses := AnnualExpenses;
         CashFlowAnalysis.MonthlyNOI := MonthlyNOI;
         CashFlowAnalysis.AnnualNOI := AnnualNOI;
         CashFlowAnalysis.MonthlyMortgage := MonthlyMortgage;
         CashFlowAnalysis.AnnualMortgage := AnnualMortgage;
         CashFlowAnalysis.MonthlyCashFlow := MonthlyCashFlow;
         CashFlowAnalysis.AnnualCashFlow := AnnualCashFlow;
         CashFlowAnalysis.CapRate := CapRate;
         CashFlowAnalysis.CashOnCash := CashOnCash;
         CashFlowAnalysis.GRM := fst grm_ber;
         CashFlowAnalysis.DSCR := DSCR;
         CashFlowAnalysis.BreakEvenRatio := snd grm_ber;
         CashFlowAnalysis.TotalInvestment := TotalInvestment;
         CashFlowAnalysis.PurchasePrice := PurchasePrice;
         CashFlowAnalysis.DownPayment := DownPayment;
         CashFlowAnalysis.LoanAmount := LoanAmount;
         CashFlowAnalysis.InterestRate := InterestRate;
         CashFlowAnalysis.LoanTermYears := LoanTermYears |}.

Definition IsCashFlowPositive (a : CashFlowAnalysis.t) : bool :=
  GreaterThan (CashFlowAnalysis.MonthlyCashFlow a) Zero.

(** *** scenarios.go *)

Definition DefaultScenario (p : ptr) : M Scenario.t :=
  prop <- loadProperty p ;;
  f <- loadFinancial (Property.Financial prop) ;;
  ret {| Scenario.Name := "Current";
         Scenario.DownPayment := Financial.DownPayment f;
         Scenario.InterestRate := Financial.InterestRate f;
         Scenario.LoanTerm := Financial.LoanTermYears f;
         Scenario.RentMultiplier := f1 |}.

Definition analyzeScenario (p : ptr) (scenario : Scenario.t) : M ScenarioResult.t :=
  prop <- loadProperty p ;;
  f <- loadFinancial (Property.Financial prop) ;;
  modifiedFinancial <-
    newFinancial
      {| Financial.AskingPrice := Financial.AskingPrice f;
         Financial.PurchasePrice := Financial.PurchasePrice f;
         Financial.DownPayment := Scenario.DownPayment scenario;
         Financial.LoanAmount :=
           float64.sub (Financial.PurchasePrice f) (Scenario.DownPayment scenario);
         Financial.InterestRate := Scenario.InterestRate scenario;
         Financial.LoanTermYears := Scenario.LoanTerm scenario;
         Financial.Expenses := Financial.Expenses f |} ;;
  modifiedProperty <-
    newProperty
      {| Property.PropertyName := Property.PropertyName prop;
         Property.Address := Property.Address prop;
         Property.City := Property.City prop;
         Property.State := Property.State prop;
         Property.ZipCode := Property.ZipCode prop;
         Property.County := Property.County prop;
         Property.YearBuilt := Property.YearBuilt prop;
         Property.NumberOfUnits := Property.NumberOfUnits prop;
         Property.BuildingSF := Property.BuildingSF prop;
         Property.LotSF := Property.LotSF prop;
         Property.Units := [];
         Property.Financial := modifiedFinancial |} ;;
  forRange (Property.Units prop)
    (fun _ ua =>
       unit <- loadUnit ua ;;
       modifiedUnit <-
         newUnit {| Unit.Uuid := Unit.Uuid unit;
                    Unit.Name := Unit.Name unit;
                    Unit.Bedrooms := Unit.Bedrooms unit;
                    Unit.Bathrooms := Unit.Bathrooms unit;
                    Unit.Size := Unit.Size unit;
                    Unit.Rent :=
                      float64.mul (Unit.Rent unit) (Scenario.RentMultiplier scenario);
                    Unit.Occupied := Unit.Occupied unit |} ;;
       mp <- loadProperty modifiedProperty ;;
       storeProperty modifiedProperty
         {| Property.PropertyName := Property.PropertyName mp;
            Property.Address := Property.Address mp;
            Property.City := Property.City mp;
            Property.State := Property.State mp;
            Property.ZipCode := Property.ZipCode mp;
            Property.County := Property.County mp;
            Property.YearBuilt := Property.YearBuilt mp;
            Property.NumberOfUnits := Property.NumberOfUnits mp;
            Property.BuildingSF := Property.BuildingSF mp;
            Property.LotSF := Property.LotSF mp;
            Property.Units := Property.Units mp ++ [modifiedUnit];
            Property.Financial := Property.Financial mp |})
    tt ;;;
  analysis <- AnalyzeCashFlow modifiedProperty ;;
  ret {| ScenarioResult.Scenario := scenario;
         ScenarioResult.MonthlyCashFlow := CashFlowAnalysis.MonthlyCashFlow analysis;
         ScenarioResult.AnnualCashFlow := CashFlowAnalysis.AnnualCashFlow analysis;
         ScenarioResult.CashOnCash := CashFlowAnalysis.CashOnCash analysis;
         ScenarioResult.CapRate := CashFlowAnalysis.CapRate analysis;
         ScenarioResult.IsPositive := IsCashFlowPositive analysis |}.

Definition CompareScenarios (p : ptr) (scenarios : list Scenario.t)
  : M (list ScenarioResult.t) :=
  forRange scenarios
    (fun results scenario =>
       result <- analyzeScenario p scenario ;;
       ret (results ++ [result]))
    [].

Definition FindBreakEvenRent (p : ptr) : M Decimal :=
  prop <- loadProperty p ;;
  if (Z.of_nat (List.length (Property.Units prop)) =? 0)%Z then ret Zero
  else
    f <- loadFinancial (Property.Financial prop) ;;
    expenses <- lift (NewFromFloat (TotalMonthly (Financial.Expenses f))) ;;
    loan <- Loan (Property.Financial prop) ;;
    payment <- lift (MonthlyPayment loan) ;;
    let mortgage := Abs payment in
    let totalMonthlyCost := Add expenses mortgage in
    let numUnits := NewFromInt (Z.of_nat (List.length (Property.Units prop))) in
    lift (Div totalMonthlyCost numUnits).

(** The binary search of [FindBreakEvenDownPayment]:
    [for high.Sub(low).GreaterThan(tolerance) { ... }], returning the final
    [high].  [fuel] bounds the number of iterations of the model. *)
Fixpoint breakEvenSearch (fuel : nat) (p : ptr) (low high tolerance : Decimal)
  : M Decimal :=
  if GreaterThan (Sub high low) tolerance then
    match fuel with
    | O => lift (Panic OutOfFuel)
    | S fuel' =>
        mid <- lift (Div (Add low high) (NewFromInt 2)) ;;
        prop <- loadProperty p ;;
        f <- loadFinancial (Property.Financial prop) ;;
        let scenario :=
          {| Scenario.Name := "test";
             Scenario.DownPayment := InexactFloat64 mid;
             Scenario.InterestRate := Financial.InterestRate f;
             Scenario.LoanTerm := Financial.LoanTermYears f;
             Scenario.RentMultiplier := f1 |} in
        result <- analyzeScenario p scenario ;;
        if ScenarioResult.IsPositive result
        then breakEvenSearch fuel' p low mid tolerance
        else breakEvenSearch fuel' p mid high tolerance
    end
  else ret high.

Definition FindBreakEvenDownPayment (fuel : nat) (p : ptr) : M Decimal :=
  prop <- loadProperty p ;;
  monthlyIncome <- sumRents (Property.Units prop) ;;
  f <- loadFinancial (Property.Financial prop) ;;
  expenses <- lift (NewFromFloat (TotalMonthly (Financial.Expenses f))) ;;
  let availableForMortgage := Sub monthlyIncome expenses in
  if LessThanOrEqual availableForMortgage Zero then ret (NewFromInt (-1))
  else
    purchasePrice <- lift (NewFromFloat (Financial.PurchasePrice f)) ;;
    let low := Zero in
    let high := purchasePrice in
    tolerance <- lift (NewFromFloat f100) ;;
    high' <- breakEvenSearch fuel p low high tolerance ;;
    ret (Round high' 0).

(** *** projections.go *)

(** The variables that [ProjectCashFlow] carries from one year to the
    next. *)
Record projState : Type := {
  cumulativeCashFlow : Decimal;
  currentRent : Decimal;
  currentExpenses : Decimal;
  currentPropertyValue : Decimal;
  projections : list YearlyProjection.t
}.

(** [for i := 0; i <= monthIndex; i++ { totalPrincipalPaid =
    totalPrincipalPaid.Add(schedule[i].Principal.Abs()) }] *)
Definition principalPaidThrough (schedule : list Row.t) (monthIndex : Z) : Decimal :=
  fold_left (fun totalPrincipalPaid row =>
               Add totalPrincipalPaid (Abs (Row.Principal row)))
            (firstn (Z.to_nat (monthIndex + 1)) schedule) Zero.

(** One iteration of [for year := 1; year <= config.Years; year++]. *)
Definition projectYear (p : ptr) (schedule : list Row.t * option error)
           (rentGrowth expenseGrowth appreciation vacancyRate : Decimal)
           (annualMortgage downPayment : Decimal)
           (year : Z) (st : projState) : M projState :=
  let growing := 1 <? year in
  let currentRent := if growing then Mul (currentRent st) rentGrowth
                     else currentRent st in
  let currentExpenses := if growing then Mul (currentExpenses st) expenseGrowth
                         else currentExpenses st in
  let currentPropertyValue :=
    if growing then Mul (currentPropertyValue st) appreciation
    else currentPropertyValue st in
  let GrossIncome := currentRent in
  let VacancyLoss := Mul currentRent vacancyRate in
  let EffectiveIncome := Sub GrossIncome VacancyLoss in
  let Expenses := currentExpenses in
  let NOI := Sub EffectiveIncome Expenses in
  let MortgagePayment := annualMortgage in
  let CashFlow := Sub NOI MortgagePayment in
  let cumulativeCashFlow := Add (cumulativeCashFlow st) CashFlow in
  let CumulativeCF := cumulativeCashFlow in
  let PropertyValue := currentPropertyValue in
  let monthIndex := year * 12 - 1 in
  prop <- loadProperty p ;;
  f <- loadFinancial (Property.Financial prop) ;;
  initialLoanAmount <- lift (NewFromFloat (Financial.LoanAmount f)) ;;
  paid_balance <-
    (if (match snd schedule with None => true | Some _ => false end)
        && (monthIndex <? Z.of_nat (List.length (fst schedule)))
     then
       let totalPrincipalPaid := principalPaidThrough (fst schedule) monthIndex in
       ret (totalPrincipalPaid, Sub initialLoanAmount totalPrincipalPaid)
     else
       termYears <- lift (LoanTerm.Years (Financial.LoanTermYears f)) ;;
       let yearsRemaining := termYears - year in
       LoanBalance <-
         (if 0 <? yearsRemaining then
            termYears' <- lift (LoanTerm.Years (Financial.LoanTermYears f)) ;;
            frac <- lift (NewFromFloat
                            (float64.div (float64.of_Z yearsRemaining)
                               (float64.of_Z termYears'))) ;;
            ret (Mul initialLoanAmount frac)
          else ret Zero) ;;
       ret (Sub initialLoanAmount LoanBalance, LoanBalance)) ;;
  let PrincipalPaid := fst paid_balance in
  let LoanBalance := snd paid_balance in
  let Equity := Add downPayment PrincipalPaid in
  let EquityAtSale := Sub PropertyValue LoanBalance in
  let equityGain := PrincipalPaid in
  let TotalReturn := Add CumulativeCF equityGain in
  CashOnCash <-
    (if GreaterThan downPayment Zero
     then q <- lift (Div CashFlow downPayment) ;; ret (Mul q (NewFromInt 100))
     else ret Zero) ;;
  let proj :=
    {| YearlyProjection.Year := year;
       YearlyProjection.GrossIncome := GrossIncome;
       YearlyProjection.VacancyLoss := VacancyLoss;
       YearlyProjection.EffectiveIncome := EffectiveIncome;
       YearlyProjection.Expenses := Expenses;
       YearlyProjection.NOI := NOI;
       YearlyProjection.MortgagePayment := MortgagePayment;
       YearlyProjection.CashFlow := CashFlow;
       YearlyProjection.CumulativeCF := CumulativeCF;
       YearlyProjection.PropertyValue := PropertyValue;
       YearlyProjection.LoanBalance := LoanBalance;
       YearlyProjection.PrincipalPaid := PrincipalPaid;
       YearlyProjection.Equity := Equity;
       YearlyProjection.EquityAtSale := EquityAtSale;
       YearlyProjection.TotalReturn := TotalReturn;
       YearlyProjection.CashOnCash := CashOnCash |} in
  ret {| cumulativeCashFlow := cumulativeCashFlow;
         currentRent := currentRent;
         currentExpenses := currentExpenses;
         currentPropertyValue := currentPropertyValue;
         projections := projections st ++ [proj] |}.

(** [count] iterations starting at [year]. *)
Fixpoint projectLoop (count : nat) (step : Z -> projState -> M projState)
         (year : Z) (st : projState) : M projState :=
  match count with
  | O => ret st
  | S count' => st' <- step year st ;; projectLoop count' step (year + 1) st'
  end.

Definition ProjectCashFlow (p : ptr) (config : ProjectionConfig.t)
  : M (list YearlyProjection.t) :=
  if ProjectionConfig.Years config <? 0 then lift (Panic MakeSliceOutOfRange)
  else
    prop <- loadProperty p ;;
    baseMonthlyRent <- sumRents (Property.Units prop) ;;
    let baseAnnualRent := Mul baseMonthlyRent (NewFromInt 12) in
    f <- loadFinancial (Property.Financial prop) ;;
    baseAnnualExpenses <- lift (NewFromFloat (TotalYearly (Financial.Expenses f))) ;;
    propertyValue <- lift (NewFromFloat (Financial.PurchasePrice f)) ;;
    downPayment <- lift (NewFromFloat (Financial.DownPayment f)) ;;
    loan <- Loan (Property.Financial prop) ;;
    payment <- lift (MonthlyPayment loan) ;;
    let annualMortgage := Mul (Abs payment) (NewFromInt 12) in
    schedule <- lift (AmortizationSchedule loan) ;;
    rentGrowth <-
      lift (NewFromFloat (float64.add f1 (ProjectionConfig.RentGrowthRate config))) ;;
    expenseGrowth <-
      lift (NewFromFloat (float64.add f1 (ProjectionConfig.ExpenseGrowthRate config))) ;;
    appreciation <-
      lift (NewFromFloat (float64.add f1 (ProjectionConfig.AppreciationRate config))) ;;
    vacancyRate <- lift (NewFromFloat (ProjectionConfig.VacancyRate config)) ;;
    st <- projectLoop (Z.to_nat (ProjectionConfig.Years config))
            (projectYear p schedule rentGrowth expenseGrowth appreciation
                         vacancyRate annualMortgage downPayment)
            1
            {| cumulativeCashFlow := Zero;
               currentRent := baseAnnualRent;
               currentExpenses := baseAnnualExpenses;
               currentPropertyValue := propertyValue;
               projections := [] |} ;;
    ret (projections st).

(** [for i, cf := range cashFlows { npv = npv.Add(cf.Div((1 + rate)^i)) }],
    from index [i] on. *)
Fixpoint npvFrom (cashFlows : list Decimal) (i : Z) (rate npv : Decimal)
  : result Decimal :=
  match cashFlows with
  | [] => Ok npv
  | cf :: rest =>
      let discountFactor := Pow (Add (NewFromInt 1) rate) i in
      rbind (Div cf discountFactor)
            (fun q => npvFrom rest (i + 1) rate (Add npv q))
  end.

Definition calculateNPV (cashFlows : list Decimal) (rate : Decimal) : result Decimal :=
  npvFrom cashFlows 0 rate Zero.

(** The bisection loop [for i := 0; i < 100; i++] of [CalculateIRR], with
    [iters] iterations left, and the statement after it. *)
Fixpoint bisection (iters : nat) (cashFlows : list Decimal)
         (low high npvLow tolerance : Decimal) : result Decimal :=
  match iters with
  | O =>
      rbind (Div (Add low high) (NewFromInt 2))
            (fun m => Ok (Mul m (NewFromInt 100)))
  | S iters' =>
      rbind (Div (Add low high) (NewFromInt 2)) (fun mid =>
      rbind (calculateNPV cashFlows mid) (fun npvMid =>
      if LessThan (Abs npvMid) tolerance
         || LessThan (Abs (Sub high low)) tolerance
      then Ok (Mul mid (NewFromInt 100))
      else if Sign npvMid =? Sign npvLow
           then bisection iters' cashFlows mid high npvMid tolerance
           else bisection iters' cashFlows low mid npvLow tolerance))
  end.

(** [cashFlows]: [make([]Decimal, holdingYears+1)], element 0 the initial
    investment, elements [1..holdingYears] the yearly cash flows, and the
    sale proceeds added to the last one. *)
Definition buildCashFlows (initialInvestment saleProceeds : Decimal)
           (projs : list YearlyProjection.t) (holdingYears : Z) : list Decimal :=
  let flows :=
    initialInvestment
      :: map YearlyProjection.CashFlow (firstn (Z.to_nat holdingYears) projs) in
  let h := Z.to_nat holdingYears in
  update flows h (Add (nth h flows Zero) saleProceeds).

Definition CalculateIRR (p : ptr) (projs : list YearlyProjection.t)
           (holdingYears : Z) : M Decimal :=
  if (Z.of_nat (List.length projs) =? 0)
     || (Z.of_nat (List.length projs) <? holdingYears)
  then ret Zero
  else
    prop <- loadProperty p ;;
    f <- loadFinancial (Property.Financial prop) ;;
    downPayment <- lift (NewFromFloat (Financial.DownPayment f)) ;;
    if IsZero downPayment then ret Zero
    else
      let initialInvestment := Neg downPayment in
      if holdingYears - 1 <? 0 then lift (Panic IndexOutOfRange)
      else
        match nth_error projs (Z.to_nat (holdingYears - 1)) with
        | None => lift (Panic IndexOutOfRange)
        | Some saleYear =>
            let saleProceeds := YearlyProjection.EquityAtSale saleYear in
            let cashFlows :=
              buildCashFlows initialInvestment saleProceeds projs holdingYears in
            low <- lift (NewFromFloat (float64.of_Q (-99 # 100))) ;;
            high <- lift (NewFromFloat (float64.of_Q 2)) ;;
            tolerance <- lift (NewFromFloat (float64.of_Q (1 # 10000))) ;;
            npvLow <- lift (calculateNPV cashFlows low) ;;
            npvHigh <- lift (calculateNPV cashFlows high) ;;
            if Sign npvLow =? Sign npvHigh then
              let totalCashFlow :=
                fold_left (fun totalCashFlow cf => Add totalCashFlow cf)
                          cashFlows Zero in
              if IsZero downPayment then ret Zero
              else
                q <- lift (Div totalCashFlow downPayment) ;;
                annualReturn <- lift (Div q (NewFromInt holdingYears)) ;;
                ret (Mul annualReturn (NewFromInt 100))
            else lift (bisection 100 cashFlows low high npvLow tolerance)
        end.

(** *** unit.go: units and their lookup *)

Definition storeUnit (a : ptr) (u : Unit.t) : M unit :=
  fun h => match nth_error (units h) a with
           | Some _ => Ok (tt, {| units := update (units h) a u;
                                  financials := financials h;
                                  properties := properties h |})
           | None => Panic NilDereference
           end.

(** [fmt.Errorf("Unit Income Not Set")] *)
Inductive unitError : Type := UnitIncomeNotSet.

(** [NewUnit]; the identifier that [uuid.New()] draws is an argument. *)
Definition NewUnit (id : Z) (beds baths : Z) (squareFootage : float64.t) : M ptr :=
  newUnit {| Unit.Uuid := id;
             Unit.Name := "";
             Unit.Bedrooms := beds;
             Unit.Bathrooms := baths;
             Unit.Size := squareFootage;
             Unit.Rent := f0;
             Unit.Occupied := false |}.

Definition SetRent (ua : ptr) (i : float64.t) : M unit :=
  u <- loadUnit ua ;;
  storeUnit ua {| Unit.Uuid := Unit.Uuid u;
                  Unit.Name := Unit.Name u;
                  Unit.Bedrooms := Unit.Bedrooms u;
                  Unit.Bathrooms := Unit.Bathrooms u;
                  Unit.Size := Unit.Size u;
                  Unit.Rent := i;
                  Unit.Occupied := Unit.Occupied u |}.

Definition IncomePerBedRoom (ua : ptr) : M (float64.t * option unitError) :=
  u <- loadUnit ua ;;
  if float64.eqb (Unit.Rent u) f0 then ret (f0, Some UnitIncomeNotSet)
  else ret (float64.div (float64.of_Z (Unit.Bedrooms u)) (Unit.Rent u), None).

Module Units.

(** [func (u *Units) AddUnit]: the slice after the append is returned. *)
Definition AddUnit (u : list ptr) (id : Z) (beds baths : Z)
           (squareFootage : float64.t) : M (list ptr) :=
  nu <- NewUnit id beds baths squareFootage ;;
  unit <- loadUnit nu ;;
  storeUnit nu {| Unit.Uuid := Unit.Uuid unit;
                  Unit.Name :=
                    ("unit" ++ strconv.Itoa (Z.of_nat (List.length u) + 1))%string;
                  Unit.Bedrooms := Unit.Bedrooms unit;
                  Unit.Bathrooms := Unit.Bathrooms unit;
                  Unit.Size := Unit.Size unit;
                  Unit.Rent := Unit.Rent unit;
                  Unit.Occupied := Unit.Occupied unit |} ;;;
  ret (u ++ [nu]).

(** [func (u Units) GetUnit]: the first unit whose name or identifier is
    [id]; [None] is [nil]. *)
Fixpoint GetUnit (u : list ptr) (id : string) : M (option ptr) :=
  match u with
  | [] => ret None
  | ua :: rest =>
      unit <- loadUnit ua ;;
      if String.eqb (Unit.Name unit) id
         || String.eqb (uuid.String (Unit.Uuid unit)) id
      then ret (Some ua)
      else GetUnit rest id
  end.

End Units.

(** *** financial.go: the constructor *)

Definition zeroExpenses : ExpensesMonthly.t :=
  {| ExpensesMonthly.Taxes := f0; ExpensesMonthly.Insurance := f0;
     ExpensesMonthly.PMI := f0; ExpensesMonthly.Utilities := f0;
     ExpensesMonthly.RepairsMaintenance := f0;
     ExpensesMonthly.ManagementFee := f0;
     ExpensesMonthly.OtherExpenses := f0;
     ExpensesMonthly.CapitalReserves := f0;
     ExpensesMonthly.VacancyRate := f0 |}.

Definition NewFinancial (askingPrice purchasePrice downPayment
                         interestRate : float64.t)
           (loanTermYears : LoanTerm.t) : M ptr :=
  let downPayment :=
    if float64.eqb downPayment f0
    then float64.mul purchasePrice defaultDownPaymentFactor
    else downPayment in
  newFinancial {| Financial.AskingPrice := askingPrice;
                  Financial.PurchasePrice := purchasePrice;
                  Financial.DownPayment := downPayment;
                  Financial.LoanAmount := float64.sub purchasePrice downPayment;
                  Financial.InterestRate := interestRate;
                  Financial.LoanTermYears := loanTermYears;
                  Financial.Expenses := zeroExpenses |}.

(** *** property.go: the builder *)

Module Builder.

(** [func (p *Property) AddUnit]; a unit that [GetUnit] does not find is
    a nil receiver of [SetRent]. *)
Definition AddUnit (p : ptr) (id : Z) (beds baths : Z)
           (sqft rent : float64.t) : M ptr :=
  prop <- loadProperty p ;;
  us <- Units.AddUnit (Property.Units prop) id beds baths sqft ;;
  storeProperty p {| Property.PropertyName := Property.PropertyName prop;
                     Property.Address := Property.Address prop;
                     Property.City := Property.City prop;
                     Property.State := Property.State prop;
                     Property.ZipCode := Property.ZipCode prop;
                     Property.County := Property.County prop;
                     Property.YearBuilt := Property.YearBuilt prop;
                     Property.NumberOfUnits := Property.NumberOfUnits prop;
                     Property.BuildingSF := Property.BuildingSF prop;
                     Property.LotSF := Property.LotSF prop;
                     Property.Units := us;
                     Property.Financial := Property.Financial prop |} ;;;
  prop <- loadProperty p ;;
  let unitName :=
    ("unit" ++ strconv.Itoa (Z.of_nat (List.length (Property.Units prop))))%string in
  found <- Units.GetUnit (Property.Units prop) unitName ;;
  match found with
  | Some ua => SetRent ua rent
  | None => lift (Panic NilDereference)
  end ;;;
  prop <- loadProperty p ;;
  storeProperty p {| Property.PropertyName := Property.PropertyName prop;
                     Property.Address := Property.Address prop;
                     Property.City := Property.City prop;
                     Property.State := Property.State prop;
                     Property.ZipCode := Property.ZipCode prop;
                     Property.County := Property.County prop;
                     Property.YearBuilt := Property.YearBuilt prop;
                     Property.NumberOfUnits :=
                       Z.of_nat (List.length (Property.Units prop));
                     Property.BuildingSF := Property.BuildingSF prop;
                     Property.LotSF := Property.LotSF prop;
                     Property.Units := Property.Units prop;
                     Property.Financial := Property.Financial prop |} ;;;
  ret p.

(** [&Financial{}] *)
Definition zeroFinancial : Financial.t :=
  {| Financial.AskingPrice := f0; Financial.PurchasePrice := f0;
     Financial.DownPayment := f0; Financial.LoanAmount := f0;
     Financial.InterestRate := f0;
     Financial.LoanTermYears := LoanTerm.Term30Years;
     Financial.Expenses := zeroExpenses |}.

(** [func New(name string) *Property] *)
Definition New (name : string) : M ptr :=
  financial <- newFinancial zeroFinancial ;;
  newProperty {| Property.PropertyName := name;
                 Property.Address := ""; Property.City := "";
                 Property.State := ""; Property.ZipCode := "";
                 Property.County := ""; Property.YearBuilt := 0;
                 Property.NumberOfUnits := 0;
                 Property.BuildingSF := f0; Property.LotSF := f0;
                 Property.Units := [];
                 Property.Financial := financial |}.

(** An assignment [p.Financial.X = v] through the two pointers: [set]
    is the assignment on the value of [*p.Financial]. *)
Definition assign (p : ptr) (set : Financial.t -> Financial.t) : M unit :=
  prop <- loadProperty p ;;
  f <- loadFinancial (Property.Financial prop) ;;
  storeFinancial (Property.Financial prop) (set f).

(** [func (p *Property) Purchase(purchasePrice float64,
    askingPrice ...float64)] *)
Definition Purchase (p : ptr) (purchasePrice : float64.t)
           (askingPrice : list float64.t) : M ptr :=
  assign p (fun f =>
    {| Financial.AskingPrice := Financial.AskingPrice f;
       Financial.PurchasePrice := purchasePrice;
       Financial.DownPayment := Financial.DownPayment f;
       Financial.LoanAmount := Financial.LoanAmount f;
       Financial.InterestRate := Financial.InterestRate f;
       Financial.LoanTermYears := Financial.LoanTermYears f;
       Financial.Expenses := Financial.Expenses f |}) ;;;
  assign p (fun f =>
    {| Financial.AskingPrice :=
         match askingPrice with
         | first :: _ => first
         | [] => purchasePrice
         end;
       Financial.PurchasePrice := Financial.PurchasePrice f;
       Financial.DownPayment := Financial.DownPayment f;
       Financial.LoanAmount := Financial.LoanAmount f;
       Financial.InterestRate := Financial.InterestRate f;
       Financial.LoanTermYears := Financial.LoanTermYears f;
       Financial.Expenses := Financial.Expenses f |}) ;;;
  ret p.

(** [func (p *Property) Loan(interestRateBasisPoints float64,
    term financing.LoanTerm)] *)
Definition Loan (p : ptr) (interestRateBasisPoints : float64.t)
           (term : LoanTerm.t) : M ptr :=
  assign p (fun f =>
    {| Financial.AskingPrice := Financial.AskingPrice f;
       Financial.PurchasePrice := Financial.PurchasePrice f;
       Financial.DownPayment := Financial.DownPayment f;
       Financial.LoanAmount := Financial.LoanAmount f;
       Financial.InterestRate := interestRateBasisPoints;
       Financial.LoanTermYears := Financial.LoanTermYears f;
       Financial.Expenses := Financial.Expenses f |}) ;;;
  assign p (fun f =>
    {| Financial.AskingPrice := Financial.AskingPrice f;
       Financial.PurchasePrice := Financial.PurchasePrice f;
       Financial.DownPayment := Financial.DownPayment f;
       Financial.LoanAmount := Financial.LoanAmount f;
       Financial.InterestRate := Financial.InterestRate f;
       Financial.LoanTermYears := term;
       Financial.Expenses := Financial.Expenses f |}) ;;;
  ret p.

(** [func (p *Property) WithDownPayment(amount float64)] *)
Definition WithDownPayment (p : ptr) (amount : float64.t) : M ptr :=
  assign p (fun f =>
    {| Financial.AskingPrice := Financial.AskingPrice f;
       Financial.PurchasePrice := Financial.PurchasePrice f;
       Financial.DownPayment := amount;
       Financial.LoanAmount := Financial.LoanAmount f;
       Financial.InterestRate := Financial.InterestRate f;
       Financial.LoanTermYears := Financial.LoanTermYears f;
       Financial.Expenses := Financial.Expenses f |}) ;;;
  ret p.

(** [func (p *Property) WithDownPaymentPercent(percent float64)] *)
Definition WithDownPaymentPercent (p : ptr) (percent : float64.t) : M ptr :=
  assign p (fun f =>
    {| Financial.AskingPrice := Financial.AskingPrice f;
       Financial.PurchasePrice := Financial.PurchasePrice f;
       Financial.DownPayment :=
         float64.mul (Financial.PurchasePrice f) (float64.div percent f100);
       Financial.LoanAmount := Financial.LoanAmount f;
       Financial.InterestRate := Financial.InterestRate f;
       Financial.LoanTermYears := Financial.LoanTermYears f;
       Financial.Expenses := Financial.Expenses f |}) ;;;
  ret p.

End Builder.

(** *** scenarios.go: generated scenarios and the report's names *)

Definition GenerateDownPaymentScenarios (p : ptr) (percentages : list float64.t)
  : M (list Scenario.t) :=
  prop <- loadProperty p ;;
  f <- loadFinancial (Property.Financial prop) ;;
  let purchasePrice := Financial.PurchasePrice f in
  forRange percentages
    (fun scenarios pct =>
       let downPayment := float64.mul purchasePrice (float64.div pct f100) in
       prop <- loadProperty p ;;
       f <- loadFinancial (Property.Financial prop) ;;
       ret (scenarios ++
            [{| Scenario.Name := (strconv.FormatFixed pct 0 ++ "% Down")%string;
                Scenario.DownPayment := downPayment;
                Scenario.InterestRate := Financial.InterestRate f;
                Scenario.LoanTerm := Financial.LoanTermYears f;
                Scenario.RentMultiplier := f1 |}]))
    [].

Definition GenerateInterestRateScenarios (p : ptr) (rates : list float64.t)
  : M (list Scenario.t) :=
  forRange rates
    (fun scenarios rate =>
       prop <- loadProperty p ;;
       f <- loadFinancial (Property.Financial prop) ;;
       ret (scenarios ++
            [{| Scenario.Name := (strconv.FormatFixed rate 2 ++ "% Rate")%string;
                Scenario.DownPayment := Financial.DownPayment f;
                Scenario.InterestRate := float64.mul rate f100;
                Scenario.LoanTerm := Financial.LoanTermYears f;
                Scenario.RentMultiplier := f1 |}]))
    [].

(** [truncateString]; [None] is the panic of a slice bound below zero. *)
Definition truncateString (s : string) (maxLen : Z) : option string :=
  if Z.of_nat (String.length s) <=? maxLen then Some s
  else if maxLen - 2 <? 0 then None
       else Some (String.substring 0 (Z.to_nat (maxLen - 2)) s ++ "..")%string.

(** *** projections.go: the default configuration *)

Definition DefaultProjectionConfig : ProjectionConfig.t :=
  {| ProjectionConfig.Years := 10;
     ProjectionConfig.RentGrowthRate := float64.of_Q (3 # 100);
     ProjectionConfig.ExpenseGrowthRate := float64.of_Q (2 # 100);
     ProjectionConfig.AppreciationRate := f0;
     ProjectionConfig.VacancyRate := float64.of_Q (5 # 100) |}.

(** *** analysis.go *)

Module PropertyInfo.
Record t : Type := {
  Name : string;
  Address : string;
  City : string;
  State : string;
  ZipCode : string;
  County : string;
  YearBuilt : Z;
  NumberOfUnits : Z;
  BuildingSF : float64.t;
  LotSF : float64.t
}.
End PropertyInfo.

Module UnitInfo.
Record t : Type := {
  Name : string;
  Bedrooms : Z;
  Bathrooms : Z;
  Size : float64.t;
  Rent : Decimal
}.
End UnitInfo.

Module BreakEvenAnalysis.
Record t : Type := {
  BreakEvenRentPerUnit : Decimal;
  BreakEvenDownPayment : Decimal;
  CanBreakEven : bool
}.
End BreakEvenAnalysis.

Module IRRAnalysis.
Record t : Type := {
  FiveYearIRR : Decimal;
  TenYearIRR : Decimal;
  HoldingYears : Z
}.

(** The zero value [IRRAnalysis{}]. *)
Definition zero : t :=
  {| FiveYearIRR := Zero; TenYearIRR := Zero; HoldingYears := 0 |}.
End IRRAnalysis.

Module FullAnalysis.
Record t : Type := {
  Property : PropertyInfo.t;
  Units : list UnitInfo.t;
  CashFlow : CashFlowAnalysis.t;
  BreakEven : BreakEvenAnalysis.t;
  Scenarios : list ScenarioResult.t;
  Projections : list YearlyProjection.t;
  IRR : IRRAnalysis.t
}.

Definition TotalMonthlyRent (a : t) : Decimal :=
  fold_left (fun total unit => Add total (UnitInfo.Rent unit)) (Units a) Zero.

Definition IsCashFlowPositive (a : t) : bool :=
  property.IsCashFlowPositive (CashFlow a).
End FullAnalysis.

(** [AnalyzeWithConfig]; [fuel] bounds the iterations of the break-even
    search. *)
Definition AnalyzeWithConfig (fuel : nat) (p : ptr) (projConfig : ProjectionConfig.t)
  : M FullAnalysis.t :=
  prop <- loadProperty p ;;
  let info :=
    {| PropertyInfo.Name := Property.PropertyName prop;
       PropertyInfo.Address := Property.Address prop;
       PropertyInfo.City := Property.City prop;
       PropertyInfo.State := Property.State prop;
       PropertyInfo.ZipCode := Property.ZipCode prop;
       PropertyInfo.County := Property.County prop;
       PropertyInfo.YearBuilt := Property.YearBuilt prop;
       PropertyInfo.NumberOfUnits := Property.NumberOfUnits prop;
       PropertyInfo.BuildingSF := Property.BuildingSF prop;
       PropertyInfo.LotSF := Property.LotSF prop |} in
  units <- forRange (Property.Units prop)
             (fun units ua =>
                unit <- loadUnit ua ;;
                rent <- lift (NewFromFloat (Unit.Rent unit)) ;;
                ret (units ++ [{| UnitInfo.Name := Unit.Name unit;
                                  UnitInfo.Bedrooms := Unit.Bedrooms unit;
                                  UnitInfo.Bathrooms := Unit.Bathrooms unit;
                                  UnitInfo.Size := Unit.Size unit;
                                  UnitInfo.Rent := rent |}]))
             [] ;;
  cashFlow <- AnalyzeCashFlow p ;;
  breakEvenRent <- FindBreakEvenRent p ;;
  breakEvenDown <- FindBreakEvenDownPayment fuel p ;;
  scenarios <- GenerateDownPaymentScenarios p
                 [float64.of_Q 10; float64.of_Q 15; float64.of_Q 20;
                  float64.of_Q 25; float64.of_Q 30] ;;
  results <- CompareScenarios p scenarios ;;
  projections <- ProjectCashFlow p projConfig ;;
  irr <- (if 5 <=? Z.of_nat (List.length projections)
          then
            five <- CalculateIRR p projections 5 ;;
            ten <- CalculateIRR p projections
                     (Z.min 10 (Z.of_nat (List.length projections))) ;;
            ret {| IRRAnalysis.FiveYearIRR := five;
                   IRRAnalysis.TenYearIRR := ten;
                   IRRAnalysis.HoldingYears :=
                     Z.of_nat (List.length projections) |}
          else ret IRRAnalysis.zero) ;;
  ret {| FullAnalysis.Property := info;
         FullAnalysis.Units := units;
         FullAnalysis.CashFlow := cashFlow;
         FullAnalysis.BreakEven :=
           {| BreakEvenAnalysis.BreakEvenRentPerUnit := breakEvenRent;
              BreakEvenAnalysis.BreakEvenDownPayment := breakEvenDown;
              BreakEvenAnalysis.CanBreakEven := GreaterThan breakEvenDown Zero |};
         FullAnalysis.Scenarios := results;
         FullAnalysis.Projections := projections;
         FullAnalysis.IRR := irr |}.

Definition Analyze (fuel : nat) (p : ptr) : M FullAnalysis.t :=
  AnalyzeWithConfig fuel p DefaultProjectionConfig.

End property.

(** * Vocabulary of the statements *)
Import financing property.

(** [preserves h h']: every object of [h] is still there, unchanged, in [h']. *)
Definition preserves (h h' : Heap) : Prop :=
  (forall a x, nth_error (units h) a = Some x -> nth_error (units h') a = Some x) /\
  (forall a x, nth_error (financials h) a = Some x ->
               nth_error (financials h') a = Some x) /\
  (forall a x, nth_error (properties h) a = Some x ->
               nth_error (properties h') a = Some x).

(** The rents of the units at the given addresses, when all are allocated. *)
Fixpoint rentsAt (h : Heap) (us : list ptr) : option (list float64.t) :=
  match us with
  | [] => Some []
  | ua :: us' =>
      match nth_error (units h) ua, rentsAt h us' with
      | Some u, Some rs => Some (Unit.Rent u :: rs)
      | _, _ => None
      end
  end.

(** The decimal sum of a list of float64 amounts, added to [acc]. *)
Fixpoint sumFloats (rs : list float64.t) (acc : Decimal) : result Decimal :=
  match rs with
  | [] => Ok acc
  | r :: rs' => rbind (NewFromFloat r) (fun d => sumFloats rs' (Add acc d))
  end.

(** The heap after [*fa = f]. *)
Definition setFinancial (h : Heap) (fa : ptr) (f : Financial.t) : Heap :=
  {| units := units h;
     financials := update (financials h) fa f;
     properties := properties h |}.

(** The loan that [Financial.Loan] builds from the normalized block. *)
Definition loanOf (f : Financial.t) : result Loan.t :=
  NewLoan (float64.to_int64 (Financial.PurchasePrice f))
          (float64.to_int64 (Financial.DownPayment f))
          (InterestRatePercent f)
          (Financial.LoanTermYears f)
          Zero.

(** The record that [AnalyzeCashFlow] assembles from the monthly income, the
    monthly and annual expenses, the loan payment and the decimal images of
    the (normalized) purchase price, down payment, loan amount and rate. *)
Definition analysisOf (income me ae pay pp dp la ir : Decimal) (years : Z)
  : CashFlowAnalysis.t :=
  let AnnualGrossIncome := Mul income (NewFromInt 12) in
  let MonthlyNOI := Sub income me in
  let AnnualNOI := Sub AnnualGrossIncome ae in
  let MonthlyMortgage := Abs pay in
  let AnnualMortgage := Mul MonthlyMortgage (NewFromInt 12) in
  {| CashFlowAnalysis.MonthlyGrossIncome := income;
     CashFlowAnalysis.AnnualGrossIncome := AnnualGrossIncome;
     CashFlowAnalysis.MonthlyExpenses := me;
     CashFlowAnalysis.AnnualExpenses := ae;
     CashFlowAnalysis.MonthlyNOI := MonthlyNOI;
     CashFlowAnalysis.AnnualNOI := AnnualNOI;
     CashFlowAnalysis.MonthlyMortgage := MonthlyMortgage;
     CashFlowAnalysis.AnnualMortgage := AnnualMortgage;
     CashFlowAnalysis.MonthlyCashFlow := Sub MonthlyNOI MonthlyMortgage;
     CashFlowAnalysis.AnnualCashFlow := Sub AnnualNOI AnnualMortgage;
     CashFlowAnalysis.CapRate :=
       if GreaterThan pp Zero
       then Mul (DivRound AnnualNOI pp DivisionPrecision) (NewFromInt 100)
       else Zero;
     CashFlowAnalysis.CashOnCash :=
       if GreaterThan dp Zero
       then Mul (DivRound (Sub AnnualNOI AnnualMortgage) dp DivisionPrecision)
                (NewFromInt 100)
       else Zero;
     CashFlowAnalysis.GRM :=
       if GreaterThan AnnualGrossIncome Zero
       then DivRound pp AnnualGrossIncome DivisionPrecision
       else Zero;
     CashFlowAnalysis.DSCR :=
       if GreaterThan AnnualMortgage Zero
       then DivRound AnnualNOI AnnualMortgage DivisionPrecision
       else Zero;
     CashFlowAnalysis.BreakEvenRatio :=
       if GreaterThan AnnualGrossIncome Zero
       then Mul (DivRound (Add ae AnnualMortgage) AnnualGrossIncome DivisionPrecision)
                (NewFromInt 100)
       else Zero;
     CashFlowAnalysis.TotalInvestment := dp;
     CashFlowAnalysis.PurchasePrice := pp;
     CashFlowAnalysis.DownPayment := dp;
     CashFlowAnalysis.LoanAmount := la;
     CashFlowAnalysis.InterestRate := ir;
     CashFlowAnalysis.LoanTermYears := years |}.

(** ** Sample data: a one-unit property bought for 200,000 with no down
       payment given, at 600 basis points over ten years, renting at 3,000 a
       month with 500 a month of taxes. *)
Definition sample_unit (rent : Q) : Unit.t :=
  {| Unit.Uuid := 0; Unit.Name := "unit1"; Unit.Bedrooms := 2;
     Unit.Bathrooms := 1; Unit.Size := float64.of_Q 800;
     Unit.Rent := float64.of_Q rent; Unit.Occupied := true |}.

Definition sample_expenses (taxes : Q) : ExpensesMonthly.t :=
  {| ExpensesMonthly.Taxes := float64.of_Q taxes;
     ExpensesMonthly.Insurance := f0; ExpensesMonthly.PMI := f0;
     ExpensesMonthly.Utilities := f0; ExpensesMonthly.RepairsMaintenance := f0;
     ExpensesMonthly.ManagementFee := f0; ExpensesMonthly.OtherExpenses := f0;
     ExpensesMonthly.CapitalReserves := f0; ExpensesMonthly.VacancyRate := f0 |}.

Definition sample_financial (price down points taxes : Q) : Financial.t :=
  {| Financial.AskingPrice := float64.of_Q price;
     Financial.PurchasePrice := float64.of_Q price;
     Financial.DownPayment := float64.of_Q down;
     Financial.LoanAmount := f0;
     Financial.InterestRate := float64.of_Q points;
     Financial.LoanTermYears := LoanTerm.Term10Years;
     Financial.Expenses := sample_expenses taxes |}.

Definition sample_property : Property.t :=
  {| Property.PropertyName := "Sample"; Property.Address := "";
     Property.City := ""; Property.State := ""; Property.ZipCode := "";
     Property.County := ""; Property.YearBuilt := 2000;
     Property.NumberOfUnits := 1; Property.BuildingSF := f0;
     Property.LotSF := f0; Property.Units := [0%nat];
     Property.Financial := 0%nat |}.

Definition sample_heap (price down points rent taxes : Q) : Heap :=
  {| units := [sample_unit rent];
     financials := [sample_financial price down points taxes];
     properties := [sample_property] |}.

Definition sample_scenario (down : Q) : Scenario.t :=
  {| Scenario.Name := "test";
     Scenario.DownPayment := float64.of_Q down;
     Scenario.InterestRate := float64.of_Q 600;
     Scenario.LoanTerm := LoanTerm.Term10Years;
     Scenario.RentMultiplier := f1 |}.

(** A property without units. *)
Definition vacant_property : Property.t :=
  {| Property.PropertyName := "Vacant"; Property.Address := "";
     Property.City := ""; Property.State := ""; Property.ZipCode := "";
     Property.County := ""; Property.YearBuilt := 2000;
     Property.NumberOfUnits := 0; Property.BuildingSF := f0;
     Property.LotSF := f0; Property.Units := [];
     Property.Financial := 0%nat |}.

Definition vacant_heap : Heap :=
  {| units := [];
     financials := [sample_financial 200000 0 600 500];
     properties := [vacant_property] |}.

(** ** Vocabulary for loans *)

(** The monthly rate [r], the number of periods [n] and the growth factor
    [(1 + r)^n] that [MonthlyPayment] computes. *)
Definition monthlyRate (l : Loan.t) : Decimal :=
  DivRound (interestRate.Decimal (Loan.InterestRate l)) (NewFromInt 12)
           DivisionPrecision.

Definition periods (l : Loan.t) : Z := wrap64 (Loan.TermYears l * 12).

Definition growth (l : Loan.t) : Decimal :=
  Pow (Add (NewFromInt 1) (monthlyRate l)) (periods l).

(** Ten-year loans of 240,000: at 6% a year, and at no interest. *)
Definition loan_6pct_10y : Loan.t :=
  {| Loan.HomePrice := 300000%Q; Loan.DownPayment := 60000%Q;
     Loan.InterestRate := {| interestRate.rate := (6 # 100)%Q |};
     Loan.TermYears := 10; Loan.EnableRounding := true;
     Loan.RoundingPlaces := 0; Loan.RoundingErrorTolerance := 0%Q |}.

Definition loan_0pct_10y : Loan.t :=
  {| Loan.HomePrice := 300000%Q; Loan.DownPayment := 60000%Q;
     Loan.InterestRate := {| interestRate.rate := 0%Q |};
     Loan.TermYears := 10; Loan.EnableRounding := true;
     Loan.RoundingPlaces := 0; Loan.RoundingErrorTolerance := 0%Q |}.

(** ** Vocabulary for scenarios *)

(** The Financial block, the units and the property that [analyzeScenario]
    builds. *)
Definition scenarioFinancial (f : Financial.t) (scenario : Scenario.t) : Financial.t :=
  {| Financial.AskingPrice := Financial.AskingPrice f;
     Financial.PurchasePrice := Financial.PurchasePrice f;
     Financial.DownPayment := Scenario.DownPayment scenario;
     Financial.LoanAmount :=
       float64.sub (Financial.PurchasePrice f) (Scenario.DownPayment scenario);
     Financial.InterestRate := Scenario.InterestRate scenario;
     Financial.LoanTermYears := Scenario.LoanTerm scenario;
     Financial.Expenses := Financial.Expenses f |}.

Definition scaledUnit (multiplier : float64.t) (unit : Unit.t) : Unit.t :=
  {| Unit.Uuid := Unit.Uuid unit;
     Unit.Name := Unit.Name unit;
     Unit.Bedrooms := Unit.Bedrooms unit;
     Unit.Bathrooms := Unit.Bathrooms unit;
     Unit.Size := Unit.Size unit;
     Unit.Rent := float64.mul (Unit.Rent unit) multiplier;
     Unit.Occupied := Unit.Occupied unit |}.

Definition withUnits (prop : Property.t) (us : list ptr) : Property.t :=
  {| Property.PropertyName := Property.PropertyName prop;
     Property.Address := Property.Address prop;
     Property.City := Property.City prop;
     Property.State := Property.State prop;
     Property.ZipCode := Property.ZipCode prop;
     Property.County := Property.County prop;
     Property.YearBuilt := Property.YearBuilt prop;
     Property.NumberOfUnits := Property.NumberOfUnits prop;
     Property.BuildingSF := Property.BuildingSF prop;
     Property.LotSF := Property.LotSF prop;
     Property.Units := us;
     Property.Financial := Property.Financial prop |}.

(** The monthly cash flow that a scenario yields for a base property with
    Financial block [f] and rents [rs]: income of the scaled rents, less the
    expenses, less the payment of the scenario's loan. *)
Definition scenarioCashFlow (f : Financial.t) (rs : list float64.t)
           (scenario : Scenario.t) : result Decimal :=
  rbind (sumFloats (map (fun r => float64.mul r (Scenario.RentMultiplier scenario)) rs)
                   Zero) (fun income =>
  rbind (NewFromFloat (TotalMonthly (Financial.Expenses f))) (fun expenses =>
  rbind (loanOf (normalize (scenarioFinancial f scenario))) (fun loan =>
  rbind (MonthlyPayment loan) (fun payment =>
  Ok (Sub (Sub income expenses) (Abs payment)))))).

(** The scenario that the break-even search tries at down payment [d]. *)
Definition testScenario (f : Financial.t) (d : Decimal) : Scenario.t :=
  {| Scenario.Name := "test";
     Scenario.DownPayment := InexactFloat64 d;
     Scenario.InterestRate := Financial.InterestRate f;
     Scenario.LoanTerm := Financial.LoanTermYears f;
     Scenario.RentMultiplier := f1 |}.

(** ** Vocabulary for projections *)

(** [projected g year r e v l]: the rows [l] are those of the years [year],
    [year + 1], ... of a projection whose rent, expenses and property value
    stood at [r], [e] and [v] before year [year], with growth factors [g]:
    the values of a year after the first are the previous ones times the
    factors. *)
Fixpoint projected (g : Decimal * Decimal * Decimal) (year : Z)
         (r e v : Decimal) (l : list YearlyProjection.t) : Prop :=
  match l with
  | [] => True
  | row :: rest =>
      let '(rentGrowth, expenseGrowth, appreciation) := g in
      let r' := if 1 <? year then Mul r rentGrowth else r in
      let e' := if 1 <? year then Mul e expenseGrowth else e in
      let v' := if 1 <? year then Mul v appreciation else v in
      YearlyProjection.Year row = year /\
      YearlyProjection.GrossIncome row = r' /\
      YearlyProjection.Expenses row = e' /\
      YearlyProjection.PropertyValue row = v' /\
      projected g (year + 1) r' e' v' rest
  end.

(** A two-year projection at 3% rent growth, 2% expense growth, 4%
    appreciation and 5% vacancy. *)
Definition sample_config : ProjectionConfig.t :=
  {| ProjectionConfig.Years := 2;
     ProjectionConfig.RentGrowthRate := float64.of_Q (3 # 100);
     ProjectionConfig.ExpenseGrowthRate := float64.of_Q (2 # 100);
     ProjectionConfig.AppreciationRate := float64.of_Q (4 # 100);
     ProjectionConfig.VacancyRate := float64.of_Q (5 # 100) |}.

(** ** Vocabulary for the internal rate of return *)

(** A bisection bracket for the cash flows: the net present value at [low]
    has sign [s], the one at [high] has another sign. *)
Definition bracket (cashFlows : list Decimal) (s : Z) (low high : Decimal) : Prop :=
  (exists v, calculateNPV cashFlows low = Ok v /\ Sign v = s) /\
  (exists v, calculateNPV cashFlows high = Ok v /\ Sign v <> s).

(** The bounds and the tolerance of the search of [CalculateIRR]. *)
Definition lowest : Decimal := (-99 # 100)%Q.
Definition highest : Decimal := 2%Q.
Definition irrTolerance : Decimal := (1 # 10000)%Q.

(** The width that a bracket may have with [S n] iterations left: it halves,
    up to the rounding of the midpoint, at each iteration and is below the
    tolerance at the last. *)
Definition width_bound (n : nat) : Q :=
  (inject_Z (2 ^ Z.of_nat n) * (9 # 100000) + (2 # 10000000000000000))%Q.

(** One projected year with a cash flow of 1,000 and equity at sale of
    50,000. *)
Definition sample_year : YearlyProjection.t :=
  {| YearlyProjection.Year := 1;
     YearlyProjection.GrossIncome := 36000%Q;
     YearlyProjection.VacancyLoss := 0%Q;
     YearlyProjection.EffectiveIncome := 36000%Q;
     YearlyProjection.Expenses := 6000%Q;
     YearlyProjection.NOI := 30000%Q;
     YearlyProjection.MortgagePayment := 29000%Q;
     YearlyProjection.CashFlow := 1000%Q;
     YearlyProjection.CumulativeCF := 1000%Q;
     YearlyProjection.PropertyValue := 200000%Q;
     YearlyProjection.LoanBalance := 150000%Q;
     YearlyProjection.PrincipalPaid := 10000%Q;
     YearlyProjection.Equity := 50000%Q;
     YearlyProjection.EquityAtSale := 50000%Q;
     YearlyProjection.TotalReturn := 11000%Q;
     YearlyProjection.CashOnCash := (5 # 2)%Q |}.

(** ** Vocabulary for the break-even search *)

(** The loan of a scenario of the block [f] with a down payment of [k]
    whole dollars, and the monthly cash flow it leaves of the rents [rs]. *)
Definition scenarioLoan (f : Financial.t) (k : Z) : result Loan.t :=
  NewLoan (float64.to_int64 (Financial.PurchasePrice f)) k
          (InterestRatePercent f) (Financial.LoanTermYears f) Zero.

Definition cashFlowAt (f : Financial.t) (rs : list float64.t) (k : Z)
  : result Decimal :=
  rbind (sumFloats (map (fun r => float64.mul r f1) rs) Zero) (fun income =>
  rbind (NewFromFloat (TotalMonthly (Financial.Expenses f))) (fun expenses =>
  rbind (scenarioLoan f k) (fun loan =>
  rbind (MonthlyPayment loan) (fun payment =>
  Ok (Sub (Sub income expenses) (Abs payment)))))).


(** What the break-even search knows of its bounds: both lie between 0 and
    the price; the lower one is 0 or a down payment that was tried and left
    no positive cash flow; the upper one is the price or a down payment that
    was tried and left a positive cash flow. *)
Definition searchBounds (f : Financial.t) (rs : list float64.t) (price : Z)
           (low high : Decimal) : Prop :=
  (0 <= low)%Q /\ (low <= inject_Z price)%Q /\
  (0 <= high)%Q /\ (high <= inject_Z price)%Q /\
  ((low == 0)%Q \/
   ((1 <= low)%Q /\
    exists c, cashFlowAt f rs (float64.to_int64 (InexactFloat64 low)) = Ok c /\
              (c <= 0)%Q)) /\
  ((high == inject_Z price)%Q \/
   ((1 <= high)%Q /\
    exists c, cashFlowAt f rs (float64.to_int64 (InexactFloat64 high)) = Ok c /\
              (0 < c)%Q)).


(** ** Vocabulary for the yearly ledger *)

(** The identities between the fields of one projected year, given the
    vacancy rate, the yearly mortgage, the down payment and the loan amount
    that the projection read. *)
Definition ledgerRow (vacancyRate annualMortgage downPayment initialLoan : Decimal)
           (row : YearlyProjection.t) : Prop :=
  YearlyProjection.VacancyLoss row
    = Mul (YearlyProjection.GrossIncome row) vacancyRate /\
  YearlyProjection.EffectiveIncome row
    = Sub (YearlyProjection.GrossIncome row) (YearlyProjection.VacancyLoss row) /\
  YearlyProjection.NOI row
    = Sub (YearlyProjection.EffectiveIncome row) (YearlyProjection.Expenses row) /\
  YearlyProjection.MortgagePayment row = annualMortgage /\
  YearlyProjection.CashFlow row
    = Sub (YearlyProjection.NOI row) (YearlyProjection.MortgagePayment row) /\
  (YearlyProjection.LoanBalance row + YearlyProjection.PrincipalPaid row
   == initialLoan)%Q /\
  YearlyProjection.Equity row
    = Add downPayment (YearlyProjection.PrincipalPaid row) /\
  YearlyProjection.EquityAtSale row
    = Sub (YearlyProjection.PropertyValue row) (YearlyProjection.LoanBalance row) /\
  YearlyProjection.TotalReturn row
    = Add (YearlyProjection.CumulativeCF row) (YearlyProjection.PrincipalPaid row) /\
  YearlyProjection.CashOnCash row
    = if GreaterThan downPayment Zero
      then Mul (DivRound (YearlyProjection.CashFlow row) downPayment
                         DivisionPrecision) (NewFromInt 100)
      else Zero.

(** The cumulative cash flow of each row is the one before, [acc] for the
    first row, plus the cash flow of the row. *)
Fixpoint runningTotal (acc : Decimal) (rows : list YearlyProjection.t) : Prop :=
  match rows with
  | [] => True
  | row :: rest =>
      YearlyProjection.CumulativeCF row = Add acc (YearlyProjection.CashFlow row) /\
      runningTotal (YearlyProjection.CumulativeCF row) rest
  end.

(** What a scenario result says of its scenario, for a base property with
    Financial block [f] and rents [rs]. *)
Definition resultOf (f : Financial.t) (rs : list float64.t)
           (scenario : Scenario.t) (result : ScenarioResult.t) : Prop :=
  ScenarioResult.Scenario result = scenario /\
  scenarioCashFlow f rs scenario = Ok (ScenarioResult.MonthlyCashFlow result) /\
  ScenarioResult.IsPositive result
  = GreaterThan (ScenarioResult.MonthlyCashFlow result) Zero.

(** The scenario of the current values of the sample property bought
    without interest. *)
Definition sample_current : Scenario.t :=
  {| Scenario.Name := "Current";
     Scenario.DownPayment := float64.of_Q 0;
     Scenario.InterestRate := float64.of_Q 0;
     Scenario.LoanTerm := LoanTerm.Term10Years;
     Scenario.RentMultiplier := f1 |}.

(** ** Vocabulary for units *)

(** A unit answers to [id] when [id] is its name or its identifier. *)
Definition answers (u : Unit.t) (id : string) : Prop :=
  Unit.Name u = id \/ uuid.String (Unit.Uuid u) = id.

(** The units at the addresses [us] are allocated and none answers to
    [id]. *)
Definition noneAnswers (h : Heap) (us : list ptr) (id : string) : Prop :=
  Forall (fun ua => exists u, nth_error (units h) ua = Some u /\ ~ answers u id) us.

(** The unit that [NewUnit] allocates, once named and rented. *)
Definition builtUnit (id : Z) (name : string) (beds baths : Z)
           (sqft rent : float64.t) : Unit.t :=
  {| Unit.Uuid := id; Unit.Name := name; Unit.Bedrooms := beds;
     Unit.Bathrooms := baths; Unit.Size := sqft; Unit.Rent := rent;
     Unit.Occupied := false |}.

(** [unit.Rent = i] *)
Definition withRent (u : Unit.t) (i : float64.t) : Unit.t :=
  {| Unit.Uuid := Unit.Uuid u; Unit.Name := Unit.Name u;
     Unit.Bedrooms := Unit.Bedrooms u; Unit.Bathrooms := Unit.Bathrooms u;
     Unit.Size := Unit.Size u; Unit.Rent := i;
     Unit.Occupied := Unit.Occupied u |}.

(** [p.Units = us; p.NumberOfUnits = len(p.Units)] *)
Definition withCountedUnits (prop : Property.t) (us : list ptr) : Property.t :=
  {| Property.PropertyName := Property.PropertyName prop;
     Property.Address := Property.Address prop;
     Property.City := Property.City prop;
     Property.State := Property.State prop;
     Property.ZipCode := Property.ZipCode prop;
     Property.County := Property.County prop;
     Property.YearBuilt := Property.YearBuilt prop;
     Property.NumberOfUnits := Z.of_nat (List.length us);
     Property.BuildingSF := Property.BuildingSF prop;
     Property.LotSF := Property.LotSF prop;
     Property.Units := us;
     Property.Financial := Property.Financial prop |}.

(** The name that the builder gives to the next unit of a property. *)
Definition nextUnitName (prop : Property.t) : string :=
  ("unit" ++ strconv.Itoa (Z.of_nat (List.length (Property.Units prop)) + 1))%string.

(** ** Vocabulary for generated scenarios *)

(** The scenario that [GenerateDownPaymentScenarios] makes of a percentage,
    for a property with Financial block [f]. *)
Definition downPaymentScenario (f : Financial.t) (pct : float64.t) : Scenario.t :=
  {| Scenario.Name := (strconv.FormatFixed pct 0 ++ "% Down")%string;
     Scenario.DownPayment :=
       float64.mul (Financial.PurchasePrice f) (float64.div pct f100);
     Scenario.InterestRate := Financial.InterestRate f;
     Scenario.LoanTerm := Financial.LoanTermYears f;
     Scenario.RentMultiplier := f1 |}.

(** The scenario that [GenerateInterestRateScenarios] makes of a rate in
    percent. *)
Definition interestRateScenario (f : Financial.t) (rate : float64.t) : Scenario.t :=
  {| Scenario.Name := (strconv.FormatFixed rate 2 ++ "% Rate")%string;
     Scenario.DownPayment := Financial.DownPayment f;
     Scenario.InterestRate := float64.mul rate f100;
     Scenario.LoanTerm := Financial.LoanTermYears f;
     Scenario.RentMultiplier := f1 |}.

(** The figures that two scenario results report are the same. *)
Definition sameFigures (r r' : ScenarioResult.t) : Prop :=
  ScenarioResult.MonthlyCashFlow r = ScenarioResult.MonthlyCashFlow r' /\
  ScenarioResult.AnnualCashFlow r = ScenarioResult.AnnualCashFlow r' /\
  ScenarioResult.CashOnCash r = ScenarioResult.CashOnCash r' /\
  ScenarioResult.CapRate r = ScenarioResult.CapRate r' /\
  ScenarioResult.IsPositive r = ScenarioResult.IsPositive r'.

(** A heap whose only property has one unit, already named ["unit2"]. *)
Definition clash_heap : Heap :=
  {| units := [builtUnit 0 "unit2" 1 1 f0 f0];
     financials := [];
     properties := [sample_property] |}.

(** ** Vocabulary for the full analysis *)

(** The entry [ui] of the analysis describes the unit at address [ua]. *)
Definition describes (h : Heap) (ua : ptr) (ui : UnitInfo.t) : Prop :=
  exists u,
    nth_error (units h) ua = Some u /\
    UnitInfo.Name ui = Unit.Name u /\
    UnitInfo.Bedrooms ui = Unit.Bedrooms u /\
    UnitInfo.Bathrooms ui = Unit.Bathrooms u /\
    UnitInfo.Size ui = Unit.Size u /\
    NewFromFloat (Unit.Rent u) = Ok (UnitInfo.Rent ui).

(** ** Vocabulary for the builder *)

(** The heap after [New]: one more Financial block, all zero, and one more
    property that points to it. *)
Definition afterNew (name : string) (h : Heap) : Heap :=
  {| units := units h;
     financials := financials h ++ [Builder.zeroFinancial];
     properties :=
       properties h ++
       [{| Property.PropertyName := name;
           Property.Address := ""; Property.City := "";
           Property.State := ""; Property.ZipCode := "";
           Property.County := ""; Property.YearBuilt := 0;
           Property.NumberOfUnits := 0;
           Property.BuildingSF := f0; Property.LotSF := f0;
           Property.Units := [];
           Property.Financial := List.length (financials h) |}] |}.

(** ** Vocabulary for sums *)

(** The exact sum of a list of decimals. *)
Definition sumQ (l : list Decimal) : Q := fold_right Qplus 0%Q l.

(** * Theorems *)
(** * Facts about the decimal operations *)
Section DecimalFacts.

Local Open Scope Q_scope.

Lemma Add_correct a b : Add a b == a + b.
Proof. apply Qred_correct. Qed.

Lemma Sub_correct a b : Sub a b == a - b.
Proof. apply Qred_correct. Qed.

Lemma Mul_correct a b : Mul a b == a * b.
Proof. apply Qred_correct. Qed.

Lemma Neg_correct a : Neg a == - a.
Proof. apply Qred_correct. Qed.

Lemma Abs_correct a : Abs a == Qabs a.
Proof. apply Qred_correct. Qed.

Lemma Sign_pos a : (Sign a = 1)%Z <-> 0 < a.
Proof.
  unfold Sign, Qlt. destruct a as [n d]; simpl. rewrite Z.mul_1_r.
  destruct n; simpl; split; intro H; try lia; try discriminate.
Qed.

Lemma Sign_neg a : (Sign a = -1)%Z <-> a < 0.
Proof.
  unfold Sign, Qlt. destruct a as [n d]; simpl. rewrite Z.mul_1_r.
  destruct n; simpl; split; intro H; try lia; try discriminate.
Qed.

Lemma Sign_zero a : (Sign a = 0)%Z <-> a == 0.
Proof.
  unfold Sign, Qeq. destruct a as [n d]; simpl. rewrite Z.mul_1_r.
  destruct n; simpl; split; intro H; try lia; try discriminate.
Qed.

Lemma IsZero_true a : IsZero a = true <-> a == 0.
Proof. unfold IsZero. rewrite Z.eqb_eq. apply Sign_zero. Qed.

Lemma IsZero_false a : IsZero a = false <-> ~ a == 0.
Proof.
  rewrite <- IsZero_true. destruct (IsZero a); split; congruence.
Qed.

Lemma GreaterThan_true a b : GreaterThan a b = true <-> b < a.
Proof.
  unfold GreaterThan. rewrite negb_true_iff.
  destruct (Qle_bool a b) eqn:E.
  - apply Qle_bool_iff in E. split; [discriminate | intro; lra].
  - split; [intros _ | reflexivity].
    apply Qnot_le_lt. intro H. apply Qle_bool_iff in H. congruence.
Qed.

Lemma GreaterThan_false a b : GreaterThan a b = false <-> a <= b.
Proof.
  unfold GreaterThan. rewrite negb_false_iff. apply Qle_bool_iff.
Qed.

Lemma LessThan_true a b : LessThan a b = true <-> a < b.
Proof. apply (GreaterThan_true b a). Qed.

Lemma LessThan_false a b : LessThan a b = false <-> b <= a.
Proof. apply (GreaterThan_false b a). Qed.


Lemma LessThanOrEqual_false a b : LessThanOrEqual a b = false <-> b < a.
Proof.
  unfold LessThanOrEqual. destruct (Qle_bool a b) eqn:E.
  - apply Qle_bool_iff in E. split; [discriminate | intro; lra].
  - split; [intros _ | reflexivity].
    apply Qnot_le_lt. intro H. apply Qle_bool_iff in H. congruence.
Qed.

(** Rounding half away from zero stays within one half. *)
Lemma round_half_away_bounds x :
  x - (1 # 2) <= inject_Z (round_half_away x) <= x + (1 # 2).
Proof.
  unfold round_half_away. destruct (Qle_bool 0 x) eqn:E.
  - pose proof (Qfloor_le (x + (1 # 2))) as H1.
    pose proof (Qlt_floor (x + (1 # 2))) as H2.
    rewrite inject_Z_plus in H2. change (inject_Z 1) with 1 in H2. lra.
  - pose proof (Qfloor_le (- x + (1 # 2))) as H1.
    pose proof (Qlt_floor (- x + (1 # 2))) as H2.
    rewrite inject_Z_plus in H2. change (inject_Z 1) with 1 in H2.
    rewrite inject_Z_opp. lra.
Qed.

Lemma Qle_bool_false a b : Qle_bool a b = false <-> b < a.
Proof. apply LessThanOrEqual_false. Qed.

(** It is monotone. *)
Lemma round_half_away_mono x y :
  x <= y -> (round_half_away x <= round_half_away y)%Z.
Proof.
  intro Hxy. unfold round_half_away.
  destruct (Qle_bool 0 x) eqn:Ex; destruct (Qle_bool 0 y) eqn:Ey.
  - apply Qfloor_resp_le. lra.
  - apply Qle_bool_iff in Ex. apply Qle_bool_false in Ey. lra.
  - apply Qle_bool_false in Ex. apply Qle_bool_iff in Ey.
    assert (0 <= Qfloor (- x + (1 # 2)))%Z.
    { change 0%Z with (Qfloor 0). apply Qfloor_resp_le. lra. }
    assert (0 <= Qfloor (y + (1 # 2)))%Z.
    { change 0%Z with (Qfloor 0). apply Qfloor_resp_le. lra. }
    lia.
  - apply Qle_bool_false in Ex. apply Qle_bool_false in Ey.
    assert (Qfloor (- y + (1 # 2)) <= Qfloor (- x + (1 # 2)))%Z.
    { apply Qfloor_resp_le. lra. }
    lia.
Qed.

(** It respects equality of rationals. *)
Lemma round_half_away_comp x y : x == y -> round_half_away x = round_half_away y.
Proof.
  intro H. apply Z.le_antisymm; apply round_half_away_mono; lra.
Qed.

Lemma Zle_of_Qlt_succ a b : inject_Z a < inject_Z b + 1 -> (a <= b)%Z.
Proof.
  intro H. change 1 with (inject_Z 1) in H. rewrite <- inject_Z_plus in H.
  rewrite <- Zlt_Qlt in H. lia.
Qed.

Lemma round_half_away_Z z : round_half_away (inject_Z z) = z.
Proof.
  unfold round_half_away. destruct (Qle_bool 0 (inject_Z z)) eqn:E.
  - pose proof (Qfloor_le (inject_Z z + (1 # 2))) as H1.
    pose proof (Qlt_floor (inject_Z z + (1 # 2))) as H2.
    rewrite inject_Z_plus in H2. change (inject_Z 1) with 1 in H2.
    set (k := Qfloor (inject_Z z + (1 # 2))) in *.
    assert (k <= z)%Z by (apply Zle_of_Qlt_succ; lra).
    assert (z <= k)%Z by (apply Zle_of_Qlt_succ; lra).
    lia.
  - pose proof (Qfloor_le (- inject_Z z + (1 # 2))) as H1.
    pose proof (Qlt_floor (- inject_Z z + (1 # 2))) as H2.
    rewrite inject_Z_plus in H2. change (inject_Z 1) with 1 in H2.
    set (k := Qfloor (- inject_Z z + (1 # 2))) in *.
    assert (k <= - z)%Z by (apply Zle_of_Qlt_succ; rewrite inject_Z_opp; lra).
    assert (- z <= k)%Z by (apply Zle_of_Qlt_succ; rewrite inject_Z_opp; lra).
    lia.
Qed.

Lemma round_half_away_opp x : round_half_away (- x) = (- round_half_away x)%Z.
Proof.
  unfold round_half_away.
  destruct (Qle_bool 0 x) eqn:Ex; destruct (Qle_bool 0 (- x)) eqn:Ey.
  - apply Qle_bool_iff in Ex. apply Qle_bool_iff in Ey.
    assert (x == 0) by lra.
    rewrite (Qfloor_comp (- x + (1#2)) (1#2)) by lra.
    rewrite (Qfloor_comp (x + (1#2)) (1#2)) by lra. reflexivity.
  - rewrite (Qfloor_comp (- - x + (1#2)) (x + (1#2))) by lra. reflexivity.
  - lia.
  - apply Qle_bool_false in Ex. apply Qle_bool_false in Ey. lra.
Qed.

Lemma pow10_pos k : (0 <= k)%Z -> 0 < pow10 k.
Proof.
  intro Hk. unfold pow10. change 0 with (inject_Z 0). rewrite <- Zlt_Qlt.
  apply Z.pow_pos_nonneg; lia.
Qed.

Lemma DivRound_correct d d2 p :
  DivRound d d2 p ==
  inject_Z (round_half_away (d / d2 * pow10 p)) / pow10 p.
Proof. apply Qred_correct. Qed.

(** [DivRound] is within half a unit of the last place of the exact
    quotient. *)
Lemma DivRound_error d d2 p :
  (0 <= p)%Z ->
  Qabs (DivRound d d2 p - d / d2) <= (1 # 2) / pow10 p.
Proof.
  intro Hp0. rewrite DivRound_correct.
  pose proof (pow10_pos p Hp0) as Hp.
  pose proof (round_half_away_bounds (d / d2 * pow10 p)) as [H1 H2].
  set (z := inject_Z (round_half_away (d / d2 * pow10 p))) in *.
  set (q := d / d2) in *.
  assert (E : z / pow10 p - q == (z - q * pow10 p) / pow10 p).
  { field. lra. }
  rewrite E. unfold Qdiv. rewrite Qabs_Qmult.
  rewrite (Qabs_pos (/ pow10 p)).
  2:{ apply Qlt_le_weak, Qinv_lt_0_compat, Hp. }
  apply Qmult_le_compat_r.
  - apply Qabs_case; intros; lra.
  - apply Qlt_le_weak, Qinv_lt_0_compat, Hp.
Qed.

Lemma Qpower_positive_pos a p : 0 < a -> 0 < Qpower_positive a p.
Proof.
  intro Ha. change (Qpower_positive a p) with (Qpower a (Zpos p)).
  apply Qpower_0_lt. exact Ha.
Qed.

Lemma Qpower_positive_gt_1 a p : 1 < a -> 1 < Qpower_positive a p.
Proof.
  intro Ha. change (Qpower_positive a p) with (Qpower a (Zpos p)).
  apply Qpower_1_lt; [exact Ha | reflexivity].
Qed.

Lemma Pow_pos_correct d p : Pow d (Zpos p) == Qpower_positive d p.
Proof. apply Qred_correct. Qed.

End DecimalFacts.

(** * Loan.MonthlyPayment *)
Section LoanPayment.

Import financing.
Local Open Scope Q_scope.

Lemma wrap64_small z : (- 2 ^ 63 <= z < 2 ^ 63)%Z -> wrap64 z = z.
Proof. intro H. unfold wrap64. rewrite Z.mod_small; lia. Qed.

Lemma MonthlyPayment_unfold l :
  MonthlyPayment l =
  if IsZero (monthlyRate l) || (periods l =? 0)%Z then Ok Zero
  else Div (Mul (Mul (monthlyRate l) (LoanAmount l)) (growth l))
           (Sub (growth l) (NewFromInt 1)).
Proof. reflexivity. Qed.

Lemma MonthlyPayment_zero_rate l :
  monthlyRate l == 0 -> MonthlyPayment l = Ok Zero.
Proof.
  intro Hr. rewrite MonthlyPayment_unfold.
  apply IsZero_true in Hr. rewrite Hr. reflexivity.
Qed.

Lemma growth_positive_periods l :
  (0 < periods l)%Z -> growth l == (1 + monthlyRate l) ^ periods l.
Proof.
  intro Hn. unfold growth. destruct (periods l) as [|p|p]; try lia.
  rewrite Pow_pos_correct. simpl Qpower.
  assert (E : Add (NewFromInt 1) (monthlyRate l) == 1 + monthlyRate l)
    by apply Add_correct.
  change (Qpower_positive ?a p) with (Qpower a (Zpos p)).
  rewrite E. reflexivity.
Qed.

Lemma growth_gt_1 l :
  0 < monthlyRate l -> (0 < periods l)%Z -> 1 < growth l.
Proof.
  intros Hr Hn. rewrite growth_positive_periods by exact Hn.
  apply Qpower_1_lt; [lra | exact Hn].
Qed.

(** C1. With P = HomePrice - DownPayment, r the annual rate divided by 12
    and n = TermYears * 12 (all in the program's own arithmetic: decimal
    division keeps 16 fractional digits, the product of ints wraps at 64
    bits), [MonthlyPayment] returns 0 when r = 0 or n = 0, and otherwise the
    decimal quotient of r*P*(1+r)^n by (1+r)^n - 1; that quotient is
    undefined, and the call panics, exactly when (1+r)^n = 1.  For n > 0
    the returned decimal is within half a unit of the 16th fractional digit
    of the exact rational r*P*(1+r)^n / ((1+r)^n - 1), and a positive rate
    never meets the undefined case. *)
Theorem MonthlyPayment_closed_form (l : Loan.t) :
  let P := LoanAmount l in
  let r := monthlyRate l in
  let n := periods l in
  (r == 0 \/ n = 0%Z -> MonthlyPayment l = Ok Zero) /\
  (~ r == 0 -> n <> 0%Z -> ~ growth l == 1 ->
     MonthlyPayment l =
     Ok (DivRound (Mul (Mul r P) (growth l)) (Sub (growth l) (NewFromInt 1))
                  DivisionPrecision)) /\
  (~ r == 0 -> n <> 0%Z -> growth l == 1 ->
     MonthlyPayment l = Panic DivisionByZero) /\
  (~ r == 0 -> (0 < n)%Z -> ~ (1 + r) ^ n == 1 ->
     exists m, MonthlyPayment l = Ok m /\
       Qabs (m - r * P * (1 + r) ^ n / ((1 + r) ^ n - 1))
         <= 1 # 20000000000000000) /\
  (0 < r -> (0 < n)%Z -> 1 < (1 + r) ^ n).
Proof.
  intros P r n.
  assert (Hzero : r == 0 \/ n = 0%Z -> MonthlyPayment l = Ok Zero).
  { intros [Hr | Hn]; rewrite MonthlyPayment_unfold.
    - apply IsZero_true in Hr. fold r. rewrite Hr. reflexivity.
    - fold n. rewrite Hn. rewrite orb_true_r. reflexivity. }
  assert (Hguard : ~ r == 0 -> n <> 0%Z ->
                   IsZero (monthlyRate l) || (periods l =? 0)%Z = false).
  { intros Hr Hn. apply IsZero_false in Hr. fold r n. rewrite Hr.
    apply Z.eqb_neq in Hn. rewrite Hn. reflexivity. }
  assert (Hret : ~ r == 0 -> n <> 0%Z -> ~ growth l == 1 ->
     MonthlyPayment l =
     Ok (DivRound (Mul (Mul r P) (growth l)) (Sub (growth l) (NewFromInt 1))
                  DivisionPrecision)).
  { intros Hr Hn Hg. rewrite MonthlyPayment_unfold, (Hguard Hr Hn).
    unfold Div.
    assert (E : IsZero (Sub (growth l) (NewFromInt 1)) = false).
    { apply IsZero_false. rewrite Sub_correct.
      change (NewFromInt 1) with 1. intro H. apply Hg. lra. }
    rewrite E. reflexivity. }
  split; [exact Hzero |]. split; [exact Hret |]. split; [| split].
  - intros Hr Hn Hg. rewrite MonthlyPayment_unfold, (Hguard Hr Hn).
    unfold Div.
    assert (E : IsZero (Sub (growth l) (NewFromInt 1)) = true).
    { apply IsZero_true. rewrite Sub_correct.
      change (NewFromInt 1) with 1. lra. }
    rewrite E. reflexivity.
  - intros Hr Hn Hg.
    pose proof (growth_positive_periods l Hn) as Eg. fold r n in Eg.
    eexists. split.
    + apply Hret; [exact Hr | lia | rewrite Eg; exact Hg].
    + pose proof (DivRound_error (Mul (Mul r P) (growth l))
                    (Sub (growth l) (NewFromInt 1)) DivisionPrecision) as Hb.
      assert (Hp : (0 <= DivisionPrecision)%Z) by (unfold DivisionPrecision; lia).
      specialize (Hb Hp).
      assert (E1 : Mul (Mul r P) (growth l) == r * P * (1 + r) ^ n).
      { rewrite !Mul_correct, Eg. reflexivity. }
      assert (E2 : Sub (growth l) (NewFromInt 1) == (1 + r) ^ n - 1).
      { rewrite Sub_correct, Eg. reflexivity. }
      rewrite E1, E2 in Hb at 2.
      setoid_replace (1 # 20000000000000000)
        with ((1 # 2) / pow10 DivisionPrecision) by reflexivity.
      exact Hb.
  - intros Hr Hn. apply Qpower_1_lt; [lra | exact Hn].
Qed.

Lemma MonthlyPayment_closed_form_witness :
  exists m, MonthlyPayment loan_6pct_10y = Ok m /\
    Qabs (m - (1 # 200) * 240000 * (1 + (1 # 200)) ^ 120
              / ((1 + (1 # 200)) ^ 120 - 1))
      <= 1 # 20000000000000000.
Proof.
  destruct (MonthlyPayment_closed_form loan_6pct_10y) as (_ & _ & _ & H & _).
  apply H.
  - intro E. vm_compute in E. discriminate E.
  - reflexivity.
  - intro E. vm_compute in E. discriminate E.
Defined.

End LoanPayment.

(** * Zero-rate loans and interest rates *)
Section ZeroRate.

Import financing.
Local Open Scope Q_scope.

Lemma round_half_away_zero x : x == 0 -> round_half_away x = 0%Z.
Proof.
  intro H. rewrite (round_half_away_comp x (inject_Z 0)) by exact H.
  apply round_half_away_Z.
Qed.

Lemma DivRound_zero d d2 p : d == 0 -> DivRound d d2 p == 0.
Proof.
  intro H. rewrite DivRound_correct.
  rewrite round_half_away_zero; [reflexivity |].
  rewrite H. unfold Qdiv. ring.
Qed.

Lemma Round_zero d p : d == 0 -> Round d p == 0.
Proof.
  intro H. unfold Round. rewrite Qred_correct.
  rewrite round_half_away_zero; [reflexivity |].
  rewrite H. ring.
Qed.

Lemma generateRows_interest_zero (out : Decimal -> Decimal) r :
  r == 0 -> (forall d, d == 0 -> out d == 0) ->
  forall count i M balance,
    Forall (fun row => Row.Interest row == 0)
           (generateRows count i M r balance out).
Proof.
  intros Hr Hout. induction count as [| count IH]; intros i M balance; simpl.
  - constructor.
  - constructor; [| apply IH].
    simpl. apply Hout. rewrite Mul_correct, Hr. ring.
Qed.

Lemma total_interest_zero rows :
  Forall (fun row => Row.Interest row == 0) rows ->
  forall acc, acc == 0 ->
    fold_left (fun totalInterest row => Add totalInterest (Row.Interest row))
              rows acc == 0.
Proof.
  induction 1 as [| row rows Hrow _ IH]; intros acc Hacc; simpl.
  - exact Hacc.
  - apply IH. rewrite Add_correct, Hacc, Hrow. reflexivity.
Qed.

Lemma monthlyRate_zero l :
  interestRate.Decimal (Loan.InterestRate l) == 0 -> monthlyRate l == 0.
Proof. intro H. unfold monthlyRate. apply DivRound_zero, H. Qed.

(** C5, counterexample: a loan of 240,000 at 0% over 120 months has the
    monthly payment 0, which is not 240,000 / 120 = 2,000. *)
Lemma zero_rate_payment_counterexample :
  interestRate.Decimal (Loan.InterestRate loan_0pct_10y) == 0 /\
  periods loan_0pct_10y = 120%Z /\
  MonthlyPayment loan_0pct_10y = Ok Zero /\
  LoanAmount loan_0pct_10y / inject_Z (periods loan_0pct_10y) == 2000 /\
  ~ Zero == LoanAmount loan_0pct_10y / inject_Z (periods loan_0pct_10y).
Proof.
  split; [reflexivity |]. split; [reflexivity |]. split; [reflexivity |].
  split; [reflexivity |]. intro E. vm_compute in E. discriminate E.
Qed.

(** C5, amended.  For every loan with a zero interest rate and a positive
    term, the monthly payment is 0 (the guard on a zero rate returns
    before the formula), and the interest summed over the amortization
    schedule is zero. *)
Theorem zero_rate_loan (l : Loan.t) :
  interestRate.Decimal (Loan.InterestRate l) == 0 ->
  (0 < Loan.TermYears l)%Z ->
  MonthlyPayment l = Ok Zero /\
  exists totalInterest,
    GetTotalInterest l = Ok (totalInterest, None) /\ totalInterest == 0.
Proof.
  intros Hrate Hterm.
  pose proof (monthlyRate_zero l Hrate) as Hr.
  assert (Hpay : MonthlyPayment l = Ok Zero).
  { apply MonthlyPayment_zero_rate. exact Hr. }
  split; [exact Hpay |].
  unfold GetTotalInterest, AmortizationSchedule.
  assert (E : (Loan.TermYears l <=? 0)%Z = false) by (apply Z.leb_gt; lia).
  rewrite E, Hpay. simpl rbind.
  eexists. split; [reflexivity |].
  apply total_interest_zero; [| reflexivity].
  apply generateRows_interest_zero.
  - exact Hr.
  - intros d Hd. destruct (Loan.EnableRounding l); [apply Round_zero |]; exact Hd.
Qed.

Lemma zero_rate_loan_witness :
  MonthlyPayment loan_0pct_10y = Ok Zero /\
  exists totalInterest,
    GetTotalInterest loan_0pct_10y = Ok (totalInterest, None) /\
    totalInterest == 0.
Proof.
  apply zero_rate_loan; reflexivity.
Defined.

Lemma NewFromFloat_finite x :
  float64.is_finite x = true -> exists d, NewFromFloat x = Ok d.
Proof.
  destruct x as [s | s | | s m e]; simpl; intro H; try discriminate.
  - eexists. reflexivity.
  - destruct (float64.shortest m e) as [c p]. eexists. reflexivity.
Qed.

Lemma NewFromFloat_not_finite x :
  float64.is_finite x = false -> NewFromFloat x = Panic NotFinite.
Proof.
  destruct x as [s | s | | s m e]; simpl; intro H; try discriminate; reflexivity.
Qed.

(** C8. Every interest rate that [NewInterestRate] constructs has
    [Points() = Decimal() * 10000]; one is constructed for every finite
    percentage (NaN and the infinities make the constructor panic).  For
    5.0 the points are 500 and the string is "5%"; for 0.0 the points are
    0. *)
Theorem NewInterestRate_points :
  (forall p ir, NewInterestRate p = Ok ir ->
     interestRate.Points ir == interestRate.Decimal ir * 10000) /\
  (forall p, float64.is_finite p = true -> exists ir, NewInterestRate p = Ok ir) /\
  (forall p, float64.is_finite p = false -> NewInterestRate p = Panic NotFinite) /\
  (exists ir, NewInterestRate (float64.of_Q 5) = Ok ir /\
              interestRate.Points ir == 500 /\
              interestRate.String ir = "5%"%string) /\
  (exists ir, NewInterestRate (float64.of_Q 0) = Ok ir /\
              interestRate.Points ir == 0).
Proof.
  split; [| split; [| split; [| split]]].
  - intros p ir _. unfold interestRate.Points, interestRate.Decimal.
    rewrite Mul_correct. reflexivity.
  - intros p Hp. destruct (NewFromFloat_finite p Hp) as [d Hd].
    unfold NewInterestRate. rewrite Hd. simpl. eexists. reflexivity.
  - intros p Hp. unfold NewInterestRate.
    rewrite (NewFromFloat_not_finite p Hp). reflexivity.
  - eexists. split; [vm_compute; reflexivity |]. split; reflexivity.
  - eexists. split; [vm_compute; reflexivity |]. reflexivity.
Qed.

Lemma NewInterestRate_points_witness :
  exists ir, NewInterestRate (float64.of_Q (13 # 4)) = Ok ir /\
             interestRate.Points ir == interestRate.Decimal ir * 10000.
Proof.
  destruct (proj1 (proj2 NewInterestRate_points) (float64.of_Q (13 # 4)) eq_refl)
    as [ir Hir].
  exists ir. split; [exact Hir |].
  apply (proj1 NewInterestRate_points (float64.of_Q (13 # 4)) ir Hir).
Defined.

End ZeroRate.

(** * The heap monad *)
Section HeapFacts.

Local Open Scope nat_scope.
Local Open Scope heap_scope.

Lemma bind_inv {A B} (m : M A) (f : A -> M B) h b h' :
  bind m f h = Ok (b, h') ->
  exists a h1, m h = Ok (a, h1) /\ f a h1 = Ok (b, h').
Proof.
  unfold bind. destruct (m h) as [[a h1] | e]; [| discriminate].
  intro H. exists a, h1. split; [reflexivity | exact H].
Qed.

Lemma bind_Ok {A B} (m : M A) (f : A -> M B) h a h1 :
  m h = Ok (a, h1) -> bind m f h = f a h1.
Proof. intro H. unfold bind. rewrite H. reflexivity. Qed.

Lemma ret_inv {A} (a b : A) h h' : ret a h = Ok (b, h') -> b = a /\ h' = h.
Proof. unfold ret. intro H. inversion H. auto. Qed.

Lemma lift_inv {A} (r : result A) h a h' :
  lift r h = Ok (a, h') -> r = Ok a /\ h' = h.
Proof. unfold lift. destruct r; intro H; inversion H. auto. Qed.

Lemma lift_Ok {A} (r : result A) h a : r = Ok a -> lift r h = Ok (a, h).
Proof. intro H. unfold lift. rewrite H. reflexivity. Qed.

Lemma load_inv {A} (sel : Heap -> list A) a h x h' :
  load sel a h = Ok (x, h') -> nth_error (sel h) a = Some x /\ h' = h.
Proof.
  unfold load. destruct (nth_error (sel h) a); intro H; inversion H. auto.
Qed.

Lemma load_Ok {A} (sel : Heap -> list A) a h x :
  nth_error (sel h) a = Some x -> load sel a h = Ok (x, h).
Proof. intro H. unfold load. rewrite H. reflexivity. Qed.

Lemma preserves_refl h : preserves h h.
Proof. unfold preserves. auto. Qed.

Lemma preserves_trans h1 h2 h3 :
  preserves h1 h2 -> preserves h2 h3 -> preserves h1 h3.
Proof.
  intros (A1 & B1 & C1) (A2 & B2 & C2). unfold preserves. repeat split; auto.
Qed.

Lemma nth_error_app_old {A} (l l' : list A) a x :
  nth_error l a = Some x -> nth_error (l ++ l') a = Some x.
Proof.
  intro H. rewrite nth_error_app1; [exact H |].
  apply nth_error_Some. congruence.
Qed.

Lemma nth_error_update_same {A} (l : list A) a x :
  a < List.length l -> nth_error (update l a x) a = Some x.
Proof.
  revert a. induction l as [| y l IH]; intros [| a] H; simpl in *; try lia.
  - reflexivity.
  - apply IH. lia.
Qed.

Lemma nth_error_update_other {A} (l : list A) a b x :
  a <> b -> nth_error (update l a x) b = nth_error l b.
Proof.
  revert a b. induction l as [| y l IH]; intros [| a] [| b] H; simpl; try reflexivity.
  - congruence.
  - apply IH. congruence.
Qed.

Lemma length_update {A} (l : list A) a x : List.length (update l a x) = List.length l.
Proof.
  revert a. induction l as [| y l IH]; intros [| a]; simpl; auto.
Qed.

End HeapFacts.

(** Inversion of the successful monadic steps found in the context. *)
Ltac minvs :=
  repeat match goal with
  | H : bind _ _ _ = Ok (_, _) |- _ =>
      apply bind_inv in H; destruct H as (? & ? & ? & H)
  | H : ret _ _ = Ok (_, _) |- _ =>
      apply ret_inv in H; destruct H as [? ?]; subst
  | H : lift _ _ = Ok (_, _) |- _ =>
      apply lift_inv in H; destruct H as [H ?]; subst
  | H : load _ _ _ = Ok (_, _) |- _ =>
      apply load_inv in H; destruct H as [H ?]; subst
  | H : loadUnit _ _ = Ok (_, _) |- _ =>
      apply load_inv in H; destruct H as [H ?]; subst
  | H : loadFinancial _ _ = Ok (_, _) |- _ =>
      apply load_inv in H; destruct H as [H ?]; subst
  | H : loadProperty _ _ = Ok (_, _) |- _ =>
      apply load_inv in H; destruct H as [H ?]; subst
  end.

(** * Cash-flow analysis *)
Section CashFlowFacts.

Local Open Scope nat_scope.

Local Open Scope heap_scope.

Lemma sumRents_loop_inv us : forall acc h d h',
  forRange us
    (fun monthlyIncome ua =>
       unit <- loadUnit ua ;;
       rent <- lift (NewFromFloat (Unit.Rent unit)) ;;
       ret (Add monthlyIncome rent)) acc h = Ok (d, h') ->
  h' = h /\ exists rs, rentsAt h us = Some rs /\ sumFloats rs acc = Ok d.
Proof.
  induction us as [| ua us IH]; intros acc h d h' H; simpl in H.
  - minvs. split; [reflexivity |]. exists []. split; reflexivity.
  - minvs. apply IH in H. destruct H as [-> (rs & Hr & Hsum)].
    split; [reflexivity |].
    match goal with
    | Hu : nth_error (units _) ua = Some ?u, Hx : NewFromFloat _ = Ok _ |- _ =>
        exists (Unit.Rent u :: rs); split;
        [simpl; rewrite Hu, Hr; reflexivity | simpl; rewrite Hx; exact Hsum]
    end.
Qed.

Lemma sumRents_inv us h d h' :
  sumRents us h = Ok (d, h') ->
  h' = h /\ exists rs, rentsAt h us = Some rs /\ sumFloats rs Zero = Ok d.
Proof. apply sumRents_loop_inv. Qed.

Lemma sumRents_loop_Ok us : forall acc h rs d,
  rentsAt h us = Some rs -> sumFloats rs acc = Ok d ->
  forRange us
    (fun monthlyIncome ua =>
       unit <- loadUnit ua ;;
       rent <- lift (NewFromFloat (Unit.Rent unit)) ;;
       ret (Add monthlyIncome rent)) acc h = Ok (d, h).
Proof.
  induction us as [| ua us IH]; intros acc h rs d Hr Hsum; simpl in *.
  - inversion Hr; subst. simpl in Hsum. inversion Hsum. reflexivity.
  - destruct (nth_error (units h) ua) as [u |] eqn:Hu; [| discriminate].
    destruct (rentsAt h us) as [rs' |] eqn:Hr'; [| discriminate].
    inversion Hr; subst. simpl in Hsum.
    destruct (NewFromFloat (Unit.Rent u)) as [x |] eqn:Hx; [| discriminate].
    simpl in Hsum.
    erewrite bind_Ok.
    2:{ erewrite bind_Ok; [| apply load_Ok; exact Hu].
        erewrite bind_Ok; [| apply lift_Ok; exact Hx]. reflexivity. }
    eapply IH; [exact Hr' | exact Hsum].
Qed.

Lemma sumRents_Ok us h rs d :
  rentsAt h us = Some rs -> sumFloats rs Zero = Ok d ->
  sumRents us h = Ok (d, h).
Proof. apply sumRents_loop_Ok. Qed.

Lemma storeFinancial_inv fa f h u h' :
  storeFinancial fa f h = Ok (u, h') ->
  fa < List.length (financials h) /\ h' = setFinancial h fa f.
Proof.
  unfold storeFinancial.
  destruct (nth_error (financials h) fa) eqn:E; intro H; inversion H.
  split; [| reflexivity]. apply nth_error_Some. congruence.
Qed.

Lemma Normalize_inv fa h u h' :
  Normalize fa h = Ok (u, h') ->
  exists f, nth_error (financials h) fa = Some f /\
            h' = setFinancial h fa (normalize f).
Proof.
  unfold Normalize. intro H. minvs.
  apply storeFinancial_inv in H. destruct H as [_ ->].
  eexists. split; [eassumption | reflexivity].
Qed.

Lemma Normalize_Ok fa h f :
  nth_error (financials h) fa = Some f ->
  Normalize fa h = Ok (tt, setFinancial h fa (normalize f)).
Proof.
  intro H. unfold Normalize. erewrite bind_Ok; [| apply load_Ok; exact H].
  unfold storeFinancial. rewrite H. reflexivity.
Qed.

Lemma Loan_inv fa h l h' :
  Loan fa h = Ok (l, h') ->
  exists f, nth_error (financials h) fa = Some f /\
            h' = setFinancial h fa (normalize f) /\
            loanOf (normalize f) = Ok l.
Proof.
  unfold Loan. intro H. apply bind_inv in H. destruct H as (u & h1 & Hn & H).
  apply Normalize_inv in Hn. destruct Hn as (f & Hf & ->).
  minvs.
  exists f. split; [exact Hf |]. split; [reflexivity |].
  match goal with
  | Hs : nth_error (financials (setFinancial _ _ _)) _ = Some _ |- _ =>
      simpl in Hs; rewrite nth_error_update_same in Hs;
      [inversion Hs; subst; assumption | apply nth_error_Some; congruence]
  end.
Qed.

Lemma Loan_Ok fa h f l :
  nth_error (financials h) fa = Some f ->
  loanOf (normalize f) = Ok l ->
  Loan fa h = Ok (l, setFinancial h fa (normalize f)).
Proof.
  intros Hf Hl. unfold Loan.
  erewrite bind_Ok; [| apply Normalize_Ok; exact Hf].
  erewrite bind_Ok.
  2:{ apply load_Ok. simpl. apply nth_error_update_same.
      apply nth_error_Some. congruence. }
  apply lift_Ok. exact Hl.
Qed.

Lemma Div_positive n d :
  GreaterThan d Zero = true -> Div n d = Ok (DivRound n d DivisionPrecision).
Proof.
  intro H. apply GreaterThan_true in H. unfold Div.
  assert (E : IsZero d = false).
  { apply IsZero_false. unfold Zero in H. intro E. rewrite E in H.
    apply (Qlt_irrefl 0). exact H. }
  rewrite E. reflexivity.
Qed.

Lemma guarded_percent n d h :
  (if GreaterThan d Zero
   then q <- lift (Div n d) ;; ret (Mul q (NewFromInt 100))
   else ret Zero) h
  = Ok (if GreaterThan d Zero
        then Mul (DivRound n d DivisionPrecision) (NewFromInt 100)
        else Zero, h).
Proof.
  destruct (GreaterThan d Zero) eqn:G; [| reflexivity].
  erewrite bind_Ok; [| apply lift_Ok, Div_positive, G]. reflexivity.
Qed.

Lemma guarded_quotient n d h :
  (if GreaterThan d Zero then lift (Div n d) else ret Zero) h
  = Ok (if GreaterThan d Zero then DivRound n d DivisionPrecision else Zero, h).
Proof.
  destruct (GreaterThan d Zero) eqn:G; [| reflexivity].
  apply lift_Ok, Div_positive, G.
Qed.

Lemma guarded_grm_ber pp agi tds h :
  (if GreaterThan agi Zero
   then GRM <- lift (Div pp agi) ;;
        q <- lift (Div tds agi) ;;
        ret (GRM, Mul q (NewFromInt 100))
   else ret (Zero, Zero)) h
  = Ok (if GreaterThan agi Zero
        then (DivRound pp agi DivisionPrecision,
              Mul (DivRound tds agi DivisionPrecision) (NewFromInt 100))
        else (Zero, Zero), h).
Proof.
  destruct (GreaterThan agi Zero) eqn:G; [| reflexivity].
  erewrite bind_Ok; [| apply lift_Ok, Div_positive, G].
  erewrite bind_Ok; [| apply lift_Ok, Div_positive, G]. reflexivity.
Qed.

(** The term of a loan is the number of years of the term it was made
    for, which is one of the four constants. *)
Lemma NewLoan_TermYears homePrice downPayment rate years tolerance l :
  NewLoan homePrice downPayment rate years tolerance = Ok l ->
  LoanTerm.Years years = Ok (Loan.TermYears l).
Proof.
  unfold NewLoan. destruct (LoanTerm.Years years) as [y | e]; [| discriminate].
  cbn [rbind]. destruct (y <=? 0)%Z; [discriminate |].
  destruct (NewInterestRate rate) as [ir | e]; [| discriminate].
  cbn [rbind]. intro H. inversion H. reflexivity.
Qed.

Lemma loanOf_TermYears f l :
  loanOf f = Ok l ->
  LoanTerm.Years (Financial.LoanTermYears f) = Ok (Loan.TermYears l).
Proof. apply NewLoan_TermYears. Qed.

(** The analysis is a function of the rents, of the Financial block as
    [Normalize] leaves it, and of the loan payment; the only write is the
    normalization of the Financial block. *)
Lemma AnalyzeCashFlow_inv p h a h' :
  AnalyzeCashFlow p h = Ok (a, h') ->
  exists prop f rs income me ae loan pay pp dp la ir,
    nth_error (properties h) p = Some prop /\
    nth_error (financials h) (Property.Financial prop) = Some f /\
    rentsAt h (Property.Units prop) = Some rs /\
    sumFloats rs Zero = Ok income /\
    NewFromFloat (TotalMonthly (Financial.Expenses f)) = Ok me /\
    NewFromFloat (TotalYearly (Financial.Expenses f)) = Ok ae /\
    loanOf (normalize f) = Ok loan /\
    MonthlyPayment loan = Ok pay /\
    NewFromFloat (Financial.PurchasePrice (normalize f)) = Ok pp /\
    NewFromFloat (Financial.DownPayment (normalize f)) = Ok dp /\
    NewFromFloat (Financial.LoanAmount (normalize f)) = Ok la /\
    NewFromFloat (InterestRatePercent (normalize f)) = Ok ir /\
    h' = setFinancial h (Property.Financial prop) (normalize f) /\
    a = analysisOf income me ae pay pp dp la ir (Loan.TermYears loan).
Proof.
  unfold AnalyzeCashFlow. intro H.
  apply bind_inv in H. destruct H as (prop & h1 & Hprop & H).
  apply load_inv in Hprop. destruct Hprop as [Hprop ->].
  apply bind_inv in H. destruct H as (income & h1 & Hinc & H).
  apply sumRents_inv in Hinc. destruct Hinc as [-> (rs & Hrs & Hsum)].
  apply bind_inv in H. destruct H as (f & h1 & Hf & H).
  apply load_inv in Hf. destruct Hf as [Hf ->].
  apply bind_inv in H. destruct H as (me & h1 & Hme & H).
  apply lift_inv in Hme. destruct Hme as [Hme ->].
  apply bind_inv in H. destruct H as (ae & h1 & Hae & H).
  apply lift_inv in Hae. destruct Hae as [Hae ->].
  apply bind_inv in H. destruct H as (loan & h1 & Hloan & H).
  apply Loan_inv in Hloan. destruct Hloan as (f0 & Hf0 & -> & Hloan).
  rewrite Hf in Hf0. inversion Hf0; subst f0. clear Hf0.
  apply bind_inv in H. destruct H as (pay & h1 & Hpay & H).
  apply lift_inv in Hpay. destruct Hpay as [Hpay ->].
  apply bind_inv in H. destruct H as (f' & h1 & Hf' & H).
  apply load_inv in Hf'. destruct Hf' as [Hf' ->].
  simpl in Hf'. rewrite nth_error_update_same in Hf'
    by (apply nth_error_Some; congruence).
  inversion Hf'; subst f'. clear Hf'.
  apply bind_inv in H. destruct H as (pp & h1 & Hpp & H).
  apply lift_inv in Hpp. destruct Hpp as [Hpp ->].
  apply bind_inv in H. destruct H as (dp & h1 & Hdp & H).
  apply lift_inv in Hdp. destruct Hdp as [Hdp ->].
  apply bind_inv in H. destruct H as (la & h1 & Hla & H).
  apply lift_inv in Hla. destruct Hla as [Hla ->].
  apply bind_inv in H. destruct H as (ir & h1 & Hir & H).
  apply lift_inv in Hir. destruct Hir as [Hir ->].
  rewrite (bind_Ok _ _ _ _ _ (lift_Ok _ _ _ (loanOf_TermYears _ _ Hloan))) in H.
  exists prop, f, rs, income, me, ae, loan, pay, pp, dp, la, ir.
  repeat (split; [assumption |]).
  unfold analysisOf.
  rewrite (bind_Ok _ _ _ _ _ (guarded_percent _ _ _)) in H.
  rewrite (bind_Ok _ _ _ _ _ (guarded_percent _ _ _)) in H.
  rewrite (bind_Ok _ _ _ _ _ (guarded_grm_ber _ _ _ _)) in H.
  rewrite (bind_Ok _ _ _ _ _ (guarded_quotient _ _ _)) in H.
  apply ret_inv in H. destruct H as [-> ->].
  split; [reflexivity |].
  destruct (GreaterThan (Mul income (NewFromInt 12)) Zero); reflexivity.
Qed.

Lemma AnalyzeCashFlow_Ok p h prop f rs income me ae loan pay pp dp la ir :
  nth_error (properties h) p = Some prop ->
  nth_error (financials h) (Property.Financial prop) = Some f ->
  rentsAt h (Property.Units prop) = Some rs ->
  sumFloats rs Zero = Ok income ->
  NewFromFloat (TotalMonthly (Financial.Expenses f)) = Ok me ->
  NewFromFloat (TotalYearly (Financial.Expenses f)) = Ok ae ->
  loanOf (normalize f) = Ok loan ->
  MonthlyPayment loan = Ok pay ->
  NewFromFloat (Financial.PurchasePrice (normalize f)) = Ok pp ->
  NewFromFloat (Financial.DownPayment (normalize f)) = Ok dp ->
  NewFromFloat (Financial.LoanAmount (normalize f)) = Ok la ->
  NewFromFloat (InterestRatePercent (normalize f)) = Ok ir ->
  AnalyzeCashFlow p h =
  Ok (analysisOf income me ae pay pp dp la ir (Loan.TermYears loan),
      setFinancial h (Property.Financial prop) (normalize f)).
Proof.
  intros Hprop Hf Hrs Hsum Hme Hae Hloan Hpay Hpp Hdp Hla Hir.
  unfold AnalyzeCashFlow.
  erewrite bind_Ok; [| apply load_Ok; exact Hprop].
  erewrite bind_Ok; [| eapply sumRents_Ok; eassumption].
  erewrite bind_Ok; [| apply load_Ok; exact Hf].
  erewrite bind_Ok; [| apply lift_Ok; exact Hme].
  erewrite bind_Ok; [| apply lift_Ok; exact Hae].
  erewrite bind_Ok; [| eapply Loan_Ok; eassumption].
  erewrite bind_Ok; [| apply lift_Ok; exact Hpay].
  erewrite bind_Ok.
  2:{ apply load_Ok. simpl. apply nth_error_update_same.
      apply nth_error_Some. congruence. }
  erewrite bind_Ok; [| apply lift_Ok; exact Hpp].
  erewrite bind_Ok; [| apply lift_Ok; exact Hdp].
  erewrite bind_Ok; [| apply lift_Ok; exact Hla].
  erewrite bind_Ok; [| apply lift_Ok; exact Hir].
  erewrite bind_Ok; [| apply lift_Ok, loanOf_TermYears; exact Hloan].
  rewrite (bind_Ok _ _ _ _ _ (guarded_percent _ _ _)).
  rewrite (bind_Ok _ _ _ _ _ (guarded_percent _ _ _)).
  rewrite (bind_Ok _ _ _ _ _ (guarded_grm_ber _ _ _ _)).
  rewrite (bind_Ok _ _ _ _ _ (guarded_quotient _ _ _)).
  unfold ret, analysisOf.
  destruct (GreaterThan (Mul income (NewFromInt 12)) Zero); reflexivity.
Qed.

End CashFlowFacts.

(** * C4: the guarded ratios of AnalyzeCashFlow *)
Section CashFlowGuards.

Local Open Scope Q_scope.

Lemma normalize_DownPayment f :
  Financial.DownPayment (normalize f) =
  if float64.eqb (Financial.DownPayment f) f0
     && float64.ltb f0 (Financial.PurchasePrice f)
  then float64.mul (Financial.PurchasePrice f) defaultDownPaymentFactor
  else Financial.DownPayment f.
Proof.
  unfold normalize.
  destruct (float64.eqb (Financial.DownPayment f) f0
            && float64.ltb f0 (Financial.PurchasePrice f)); simpl;
    match goal with |- context [if ?c then _ else _] => destruct c end;
    reflexivity.
Qed.

Lemma normalize_PurchasePrice f :
  Financial.PurchasePrice (normalize f) = Financial.PurchasePrice f.
Proof.
  unfold normalize.
  destruct (float64.eqb (Financial.DownPayment f) f0
            && float64.ltb f0 (Financial.PurchasePrice f)); simpl;
    match goal with |- context [if ?c then _ else _] => destruct c end;
    reflexivity.
Qed.

(** C4, counterexample: the sample property has no down payment set, and
    its cash-on-cash return is not 0: [Normalize] has replaced the down
    payment by 40,000 before the ratio is computed. *)
Lemma AnalyzeCashFlow_zero_down_counterexample :
  exists f a h',
    nth_error (financials (sample_heap 200000 0 600 3000 500)) 0 = Some f /\
    Financial.DownPayment f = S754_zero false /\
    AnalyzeCashFlow 0%nat (sample_heap 200000 0 600 3000 500) = Ok (a, h') /\
    CashFlowAnalysis.DownPayment a == 40000 /\
    ~ CashFlowAnalysis.CashOnCash a == 0.
Proof.
  eexists. eexists. eexists.
  split; [reflexivity |]. split; [reflexivity |].
  split; [vm_compute; reflexivity |].
  split; [reflexivity |].
  intro E. vm_compute in E. discriminate E.
Qed.

(** C4, amended.  Whenever [AnalyzeCashFlow] returns, each ratio whose
    denominator is not positive has been left at 0: the cap rate for the
    purchase price, cash-on-cash for the down payment as [Normalize] left
    it (a zero down payment with a positive price has been replaced by 20%
    of the price), GRM and break-even ratio for the annual gross income,
    DSCR for the annual mortgage.  It does return, with every field
    produced, as soon as the property's floats convert to decimals and the
    loan payment is computed: no ratio can raise. *)
Theorem AnalyzeCashFlow_guarded_ratios (p : ptr) (h : Heap) :
  (forall a h', AnalyzeCashFlow p h = Ok (a, h') ->
     (CashFlowAnalysis.PurchasePrice a <= 0 -> CashFlowAnalysis.CapRate a = Zero) /\
     (CashFlowAnalysis.DownPayment a <= 0 -> CashFlowAnalysis.CashOnCash a = Zero) /\
     (CashFlowAnalysis.AnnualGrossIncome a <= 0 ->
        CashFlowAnalysis.GRM a = Zero /\ CashFlowAnalysis.BreakEvenRatio a = Zero) /\
     (CashFlowAnalysis.AnnualMortgage a <= 0 -> CashFlowAnalysis.DSCR a = Zero) /\
     exists prop f,
       nth_error (properties h) p = Some prop /\
       nth_error (financials h) (Property.Financial prop) = Some f /\
       NewFromFloat (Financial.PurchasePrice f)
         = Ok (CashFlowAnalysis.PurchasePrice a) /\
       NewFromFloat
         (if float64.eqb (Financial.DownPayment f) f0
             && float64.ltb f0 (Financial.PurchasePrice f)
          then float64.mul (Financial.PurchasePrice f) defaultDownPaymentFactor
          else Financial.DownPayment f)
         = Ok (CashFlowAnalysis.DownPayment a)) /\
  (forall prop f rs income me ae loan pay pp dp la ir,
     nth_error (properties h) p = Some prop ->
     nth_error (financials h) (Property.Financial prop) = Some f ->
     rentsAt h (Property.Units prop) = Some rs ->
     sumFloats rs Zero = Ok income ->
     NewFromFloat (TotalMonthly (Financial.Expenses f)) = Ok me ->
     NewFromFloat (TotalYearly (Financial.Expenses f)) = Ok ae ->
     loanOf (normalize f) = Ok loan ->
     MonthlyPayment loan = Ok pay ->
     NewFromFloat (Financial.PurchasePrice (normalize f)) = Ok pp ->
     NewFromFloat (Financial.DownPayment (normalize f)) = Ok dp ->
     NewFromFloat (Financial.LoanAmount (normalize f)) = Ok la ->
     NewFromFloat (InterestRatePercent (normalize f)) = Ok ir ->
     exists a h', AnalyzeCashFlow p h = Ok (a, h')).
Proof.
  split.
  - intros a h' H. apply AnalyzeCashFlow_inv in H.
    destruct H as (prop & f & rs & income & me & ae & loan & pay & pp & dp
                   & la & ir & Hprop & Hf & _ & _ & _ & _ & _ & _ & Hpp & Hdp
                   & _ & _ & _ & ->).
    unfold analysisOf;
      cbn [CashFlowAnalysis.PurchasePrice CashFlowAnalysis.CapRate
           CashFlowAnalysis.DownPayment CashFlowAnalysis.CashOnCash
           CashFlowAnalysis.AnnualGrossIncome CashFlowAnalysis.GRM
           CashFlowAnalysis.BreakEvenRatio CashFlowAnalysis.AnnualMortgage
           CashFlowAnalysis.DSCR].
    split; [| split; [| split; [| split]]].
    + intro Hle. apply (GreaterThan_false _ Zero) in Hle. rewrite Hle. reflexivity.
    + intro Hle. apply (GreaterThan_false _ Zero) in Hle. rewrite Hle. reflexivity.
    + intro Hle. apply (GreaterThan_false _ Zero) in Hle. rewrite Hle.
      split; reflexivity.
    + intro Hle. apply (GreaterThan_false _ Zero) in Hle. rewrite Hle. reflexivity.
    + exists prop, f. rewrite <- (normalize_DownPayment f).
      rewrite <- (normalize_PurchasePrice f) at 1. auto.
  - intros prop f rs income me ae loan pay pp dp la ir
           Hprop Hf Hrs Hsum Hme Hae Hloan Hpay Hpp Hdp Hla Hir.
    eexists. eexists. eapply AnalyzeCashFlow_Ok; eassumption.
Qed.

Lemma AnalyzeCashFlow_guarded_ratios_witness :
  exists a h',
    AnalyzeCashFlow 0%nat (sample_heap 0 0 600 3000 500) = Ok (a, h') /\
    CashFlowAnalysis.CapRate a = Zero /\
    CashFlowAnalysis.CashOnCash a = Zero.
Proof.
  destruct (AnalyzeCashFlow_guarded_ratios 0%nat (sample_heap 0 0 600 3000 500))
    as [Hret _].
  eexists. eexists. split; [vm_compute; reflexivity |].
  match goal with
  | |- CashFlowAnalysis.CapRate ?a = _ /\ _ =>
      destruct (Hret a (setFinancial (sample_heap 0 0 600 3000 500) 0%nat
                          (normalize (sample_financial 0 0 600 500))))
        as (Hcap & Hcoc & _)
  end.
  - vm_compute. reflexivity.
  - split; [apply Hcap | apply Hcoc]; vm_compute; discriminate.
Defined.

End CashFlowGuards.

(** * Scenarios: the base property is not written to *)
Section ScenarioFrame.

Local Open Scope nat_scope.
Local Open Scope heap_scope.

Lemma forRange_invariant {A B} (I : Heap -> Prop) (body : B -> A -> M B) xs :
  (forall acc x hc acc' hc', I hc -> body acc x hc = Ok (acc', hc') -> I hc') ->
  forall acc hc acc' hc',
    I hc -> forRange xs body acc hc = Ok (acc', hc') -> I hc'.
Proof.
  intro Hbody. induction xs as [| x xs IH]; intros acc hc acc' hc' HI H; simpl in H.
  - apply ret_inv in H. destruct H as [_ ->]. exact HI.
  - apply bind_inv in H. destruct H as (acc1 & h1 & Hstep & H).
    eapply IH; [| exact H]. eapply Hbody; eassumption.
Qed.

Lemma preserves_newUnit u h a h' : newUnit u h = Ok (a, h') -> preserves h h'.
Proof.
  unfold newUnit. intro H. inversion H; subst. unfold preserves; simpl.
  repeat split; auto. intros. apply nth_error_app_old. assumption.
Qed.

Lemma preserves_newFinancial f h a h' :
  newFinancial f h = Ok (a, h') ->
  preserves h h' /\ a = List.length (financials h) /\
  financials h' = financials h ++ [f] /\
  units h' = units h /\ properties h' = properties h.
Proof.
  unfold newFinancial. intro H. inversion H; subst. unfold preserves; simpl.
  repeat split; auto. intros. apply nth_error_app_old. assumption.
Qed.

Lemma preserves_newProperty x h a h' :
  newProperty x h = Ok (a, h') ->
  preserves h h' /\ a = List.length (properties h) /\
  properties h' = properties h ++ [x] /\
  units h' = units h /\ financials h' = financials h.
Proof.
  unfold newProperty. intro H. inversion H; subst. unfold preserves; simpl.
  repeat split; auto. intros. apply nth_error_app_old. assumption.
Qed.

Lemma nth_error_fresh {A} (l : list A) : nth_error l (List.length l) = None.
Proof. apply nth_error_None. lia. Qed.

(** A write to an address that the base heap has not allocated leaves
    the base heap's objects alone. *)
Lemma preserves_storeProperty h0 a x h u h' :
  nth_error (properties h0) a = None ->
  preserves h0 h -> storeProperty a x h = Ok (u, h') -> preserves h0 h'.
Proof.
  intros Hfresh (HU & HF & HP). unfold storeProperty.
  destruct (nth_error (properties h) a); intro H; inversion H; subst.
  unfold preserves; simpl. repeat split; auto.
  intros b y Hb. rewrite nth_error_update_other; [auto |].
  intro E. subst b. congruence.
Qed.

Lemma preserves_setFinancial h0 a f h :
  nth_error (financials h0) a = None ->
  preserves h0 h -> preserves h0 (setFinancial h a f).
Proof.
  intros Hfresh (HU & HF & HP).
  unfold preserves, setFinancial; simpl. repeat split; auto.
  intros b y Hb. rewrite nth_error_update_other; [auto |].
  intro E. subst b. congruence.
Qed.

Lemma preserves_None_properties h h' a :
  preserves h h' -> nth_error (properties h') a = None ->
  nth_error (properties h) a = None.
Proof.
  intros (_ & _ & HP) H. destruct (nth_error (properties h) a) eqn:E; [| reflexivity].
  apply HP in E. congruence.
Qed.

Lemma analyzeScenario_preserves p scenario h result h' :
  analyzeScenario p scenario h = Ok (result, h') -> preserves h h'.
Proof.
  unfold analyzeScenario. intro H.
  apply bind_inv in H. destruct H as (prop & h1 & Hprop & H).
  apply load_inv in Hprop. destruct Hprop as [Hprop ->].
  apply bind_inv in H. destruct H as (f & h1 & Hf & H).
  apply load_inv in Hf. destruct Hf as [Hf ->].
  apply bind_inv in H. destruct H as (mfa & h1 & Hmf & H).
  apply preserves_newFinancial in Hmf.
  destruct Hmf as (P1 & -> & Hfin1 & Hun1 & Hpr1).
  apply bind_inv in H. destruct H as (mpa & h2 & Hmp & H).
  apply preserves_newProperty in Hmp.
  destruct Hmp as (P2 & -> & Hpr2 & Hun2 & Hfin2).
  apply bind_inv in H. destruct H as (u & h3 & Hloop & H).
  apply bind_inv in H. destruct H as (a & h4 & Han & H).
  apply ret_inv in H. destruct H as [_ ->].
  assert (P02 : preserves h h2) by (eapply preserves_trans; eassumption).
  assert (Hfresh : nth_error (properties h) (List.length (properties h1)) = None).
  { rewrite Hpr1. apply nth_error_fresh. }
  assert (Hmp0 : exists x, nth_error (properties h2) (List.length (properties h1)) = Some x
                           /\ Property.Financial x = List.length (financials h)).
  { rewrite Hpr2. eexists. split.
    - rewrite nth_error_app2 by lia. rewrite Nat.sub_diag. reflexivity.
    - reflexivity. }
  assert (P03 : preserves h h3 /\
                exists x, nth_error (properties h3) (List.length (properties h1)) = Some x
                          /\ Property.Financial x = List.length (financials h)).
  { revert Hloop.
    apply forRange_invariant
      with (I := fun hc => preserves h hc /\
                 exists x, nth_error (properties hc) (List.length (properties h1)) = Some x
                           /\ Property.Financial x = List.length (financials h));
      [| split; assumption].
    intros acc ua hc acc' hc' [HI (x & Hx & Hxf)] Hbody.
    apply bind_inv in Hbody. destruct Hbody as (unit & hc1 & Hu & Hbody).
    apply load_inv in Hu. destruct Hu as [Hu ->].
    apply bind_inv in Hbody. destruct Hbody as (mua & hc1 & Hnu & Hbody).
    pose proof (preserves_newUnit _ _ _ _ Hnu) as Pnu.
    apply bind_inv in Hbody. destruct Hbody as (mp & hc2 & Hl & Hbody).
    apply load_inv in Hl. destruct Hl as [Hl ->].
    split.
    - eapply preserves_storeProperty; [exact Hfresh | | exact Hbody].
      eapply preserves_trans; eassumption.
    - destruct Pnu as (_ & _ & PP). apply PP in Hx. rewrite Hx in Hl.
      inversion Hl; subst mp. clear Hl.
      unfold storeProperty in Hbody. rewrite Hx in Hbody.
      inversion Hbody; subst. simpl.
      eexists. split.
      + apply nth_error_update_same. apply nth_error_Some. congruence.
      + simpl. exact Hxf. }
  destruct P03 as [P03 (x & Hx & Hxf)].
  apply AnalyzeCashFlow_inv in Han.
  destruct Han as (prop' & f' & rs & income & me & ae & loan & pay & pp & dp
                   & la & ir & Hprop' & _ & _ & _ & _ & _ & _ & _ & _ & _
                   & _ & _ & -> & _).
  rewrite Hx in Hprop'. inversion Hprop'; subst prop'.
  apply preserves_setFinancial; [| exact P03].
  rewrite Hxf. apply nth_error_fresh.
Qed.

Lemma CompareScenarios_preserves p scenarios h results h' :
  CompareScenarios p scenarios h = Ok (results, h') -> preserves h h'.
Proof.
  unfold CompareScenarios.
  apply forRange_invariant with (I := preserves h); [| apply preserves_refl].
  intros acc scenario hc acc' hc' HI Hbody.
  apply bind_inv in Hbody. destruct Hbody as (r & h1 & Hr & Hbody).
  apply ret_inv in Hbody. destruct Hbody as [_ ->].
  eapply preserves_trans; [exact HI |].
  eapply analyzeScenario_preserves. exact Hr.
Qed.

(** C9. [CompareScenarios], and each [analyzeScenario] call under it,
    leaves every object of the heap it starts from unchanged: in
    particular the base Property (its identity fields and its list of
    units), each of its units (rents included) and its Financial block
    (down payment, loan amount, interest rate, term, expenses) read the
    same before and after the call. *)
Theorem CompareScenarios_base_unchanged (p : ptr) (h : Heap) :
  (forall scenarios results h',
     CompareScenarios p scenarios h = Ok (results, h') ->
     preserves h h' /\
     forall prop,
       nth_error (properties h) p = Some prop ->
       nth_error (properties h') p = Some prop /\
       (forall f, nth_error (financials h) (Property.Financial prop) = Some f ->
                  nth_error (financials h') (Property.Financial prop) = Some f) /\
       (forall ua u, In ua (Property.Units prop) ->
                     nth_error (units h) ua = Some u ->
                     nth_error (units h') ua = Some u)) /\
  (forall scenario result h',
     analyzeScenario p scenario h = Ok (result, h') ->
     preserves h h' /\
     forall prop,
       nth_error (properties h) p = Some prop ->
       nth_error (properties h') p = Some prop /\
       (forall f, nth_error (financials h) (Property.Financial prop) = Some f ->
                  nth_error (financials h') (Property.Financial prop) = Some f) /\
       (forall ua u, In ua (Property.Units prop) ->
                     nth_error (units h) ua = Some u ->
                     nth_error (units h') ua = Some u)).
Proof.
  split.
  - intros scenarios results h' H. apply CompareScenarios_preserves in H.
    split; [exact H |]. destruct H as (HU & HF & HP).
    intros prop Hprop. repeat split; auto.
  - intros scenario result h' H. apply analyzeScenario_preserves in H.
    split; [exact H |]. destruct H as (HU & HF & HP).
    intros prop Hprop. repeat split; auto.
Qed.

Lemma CompareScenarios_base_unchanged_witness :
  exists results h',
    CompareScenarios 0 [sample_scenario 0; sample_scenario 50000]
                     (sample_heap 200000 0 600 3000 500) = Ok (results, h') /\
    nth_error (properties h') 0 = Some sample_property /\
    nth_error (financials h') 0 = Some (sample_financial 200000 0 600 500) /\
    nth_error (units h') 0 = Some (sample_unit 3000).
Proof.
  assert (E : exists results h',
             CompareScenarios 0 [sample_scenario 0; sample_scenario 50000]
                              (sample_heap 200000 0 600 3000 500)
             = Ok (results, h')).
  { vm_compute. eexists. eexists. reflexivity. }
  destruct E as (results & h' & E).
  destruct (CompareScenarios_base_unchanged 0 (sample_heap 200000 0 600 3000 500))
    as [Hcmp _].
  exists results, h'. split; [exact E |].
  destruct (Hcmp _ _ _ E) as [_ Hbase].
  destruct (Hbase sample_property eq_refl) as (Hp & Hf & Hu).
  split; [exact Hp |]. split.
  - apply Hf. reflexivity.
  - apply Hu; [left |]; reflexivity.
Defined.

(** C10. With no units [FindBreakEvenRent] returns 0 at once; when the
    quotient by the number of units is taken there is at least one unit,
    so that its divisor is not zero and it cannot raise. *)
Theorem FindBreakEvenRent_no_units (p : ptr) (h : Heap) (prop : Property.t) :
  nth_error (properties h) p = Some prop ->
  (Property.Units prop = [] -> FindBreakEvenRent p h = Ok (Zero, h)) /\
  (Property.Units prop <> [] ->
     forall totalMonthlyCost,
       Div totalMonthlyCost
           (NewFromInt (Z.of_nat (List.length (Property.Units prop))))
       = Ok (DivRound totalMonthlyCost
                      (NewFromInt (Z.of_nat (List.length (Property.Units prop))))
                      DivisionPrecision)) /\
  (Property.Units prop <> [] ->
     forall d h', FindBreakEvenRent p h = Ok (d, h') ->
     exists totalMonthlyCost,
       d = DivRound totalMonthlyCost
                    (NewFromInt (Z.of_nat (List.length (Property.Units prop))))
                    DivisionPrecision).
Proof.
  intro Hprop.
  assert (Hdiv : Property.Units prop <> [] ->
     forall totalMonthlyCost,
       Div totalMonthlyCost
           (NewFromInt (Z.of_nat (List.length (Property.Units prop))))
       = Ok (DivRound totalMonthlyCost
                      (NewFromInt (Z.of_nat (List.length (Property.Units prop))))
                      DivisionPrecision)).
  { intros Hne total. unfold Div.
    destruct (Property.Units prop) as [| ua us]; [congruence |].
    reflexivity. }
  split; [| split; [exact Hdiv |]].
  - intro Hnil. unfold FindBreakEvenRent.
    erewrite bind_Ok; [| apply load_Ok; exact Hprop].
    rewrite Hnil. reflexivity.
  - intros Hne d h' H. unfold FindBreakEvenRent in H.
    erewrite bind_Ok in H; [| apply load_Ok; exact Hprop].
    destruct (Z.of_nat (List.length (Property.Units prop)) =? 0)%Z eqn:E.
    + apply Z.eqb_eq in E. destruct (Property.Units prop); [congruence |].
      simpl in E. lia.
    + apply bind_inv in H. destruct H as (f & h1 & _ & H).
      apply bind_inv in H. destruct H as (expenses & h2 & _ & H).
      apply bind_inv in H. destruct H as (loan & h3 & _ & H).
      apply bind_inv in H. destruct H as (payment & h4 & _ & H).
      apply lift_inv in H. destruct H as [H _].
      rewrite (Hdiv Hne) in H. inversion H. eexists. reflexivity.
Qed.

Lemma FindBreakEvenRent_no_units_witness :
  FindBreakEvenRent 0 vacant_heap = Ok (Zero, vacant_heap).
Proof.
  apply (proj1 (FindBreakEvenRent_no_units 0 vacant_heap vacant_property eq_refl)).
  reflexivity.
Defined.

End ScenarioFrame.

(** * What a scenario computes *)
Section ScenarioValue.

Local Open Scope nat_scope.
Local Open Scope heap_scope.

Lemma update_update {A} (l : list A) a x y :
  update (update l a x) a y = update l a y.
Proof.
  revert a. induction l as [| z l IH]; intros [| a]; simpl; try reflexivity.
  rewrite IH. reflexivity.
Qed.

Lemma update_same_value {A} (l : list A) a x :
  nth_error l a = Some x -> update l a x = l.
Proof.
  revert a. induction l as [| z l IH]; intros [| a] H; simpl in *;
    try discriminate.
  - inversion H. reflexivity.
  - rewrite IH by exact H. reflexivity.
Qed.

Lemma withUnits_same mp : withUnits mp (Property.Units mp) = mp.
Proof. destruct mp; reflexivity. Qed.

(** The units read at addresses [us]. *)
Lemma rentsAt_Forall2 h us rs :
  rentsAt h us = Some rs ->
  exists loaded,
    Forall2 (fun ua u => nth_error (units h) ua = Some u) us loaded /\
    map Unit.Rent loaded = rs.
Proof.
  revert rs. induction us as [| ua us IH]; intros rs H; simpl in H.
  - inversion H. exists []. split; constructor.
  - destruct (nth_error (units h) ua) as [u |] eqn:Hu; [| discriminate].
    destruct (rentsAt h us) as [rs' |] eqn:Hr; [| discriminate].
    inversion H; subst. destruct (IH rs' eq_refl) as (loaded & HF & Hm).
    exists (u :: loaded). split; [constructor; assumption | simpl; congruence].
Qed.

Lemma rentsAt_seq U (L : list Unit.t) F P :
  rentsAt {| units := U ++ L; financials := F; properties := P |}
          (seq (List.length U) (List.length L))
  = Some (map Unit.Rent L).
Proof.
  revert U. induction L as [| u L IH]; intro U; simpl.
  - reflexivity.
  - rewrite nth_error_app2 by lia. rewrite Nat.sub_diag. simpl.
    specialize (IH (U ++ [u])). rewrite <- app_assoc in IH. simpl in IH.
    rewrite length_app in IH. simpl in IH. rewrite Nat.add_1_r in IH.
    rewrite IH. reflexivity.
Qed.

(** The loop of [analyzeScenario] over the base units. *)
Lemma scenario_units_loop multiplier mpa : forall us loaded hc mp h3 u,
  Forall2 (fun ua unit => nth_error (units hc) ua = Some unit) us loaded ->
  nth_error (properties hc) mpa = Some mp ->
  forRange us
    (fun _ ua =>
       unit <- loadUnit ua ;;
       modifiedUnit <-
         newUnit {| Unit.Uuid := Unit.Uuid unit;
                    Unit.Name := Unit.Name unit;
                    Unit.Bedrooms := Unit.Bedrooms unit;
                    Unit.Bathrooms := Unit.Bathrooms unit;
                    Unit.Size := Unit.Size unit;
                    Unit.Rent := float64.mul (Unit.Rent unit) multiplier;
                    Unit.Occupied := Unit.Occupied unit |} ;;
       mp <- loadProperty mpa ;;
       storeProperty mpa
         {| Property.PropertyName := Property.PropertyName mp;
            Property.Address := Property.Address mp;
            Property.City := Property.City mp;
            Property.State := Property.State mp;
            Property.ZipCode := Property.ZipCode mp;
            Property.County := Property.County mp;
            Property.YearBuilt := Property.YearBuilt mp;
            Property.NumberOfUnits := Property.NumberOfUnits mp;
            Property.BuildingSF := Property.BuildingSF mp;
            Property.LotSF := Property.LotSF mp;
            Property.Units := Property.Units mp ++ [modifiedUnit];
            Property.Financial := Property.Financial mp |})
    tt hc = Ok (u, h3) ->
  units h3 = units hc ++ map (scaledUnit multiplier) loaded /\
  financials h3 = financials hc /\
  properties h3 =
    update (properties hc) mpa
      (withUnits mp (Property.Units mp
                     ++ seq (List.length (units hc)) (List.length loaded))).
Proof.
  induction us as [| ua us IH]; intros loaded hc mp h3 u HF Hmp H.
  - inversion HF; subst. simpl in H. apply ret_inv in H. destruct H as [_ ->].
    simpl. rewrite !app_nil_r. repeat split.
    rewrite withUnits_same. symmetry. apply update_same_value. exact Hmp.
  - inversion HF as [| ? unit ? loaded' Hu HF']; subst.
    cbn [forRange] in H.
    apply bind_inv in H. destruct H as (acc1 & h1 & Hstep & H).
    destruct acc1.
    apply bind_inv in Hstep. destruct Hstep as (unit' & hx & Hl & Hstep).
    apply load_inv in Hl. destruct Hl as [Hl ->].
    rewrite Hu in Hl. inversion Hl; subst unit'. clear Hl.
    apply bind_inv in Hstep. destruct Hstep as (mua & hx & Hnu & Hstep).
    unfold newUnit in Hnu. inversion Hnu; subst mua hx. clear Hnu.
    apply bind_inv in Hstep. destruct Hstep as (mp' & hx & Hl & Hstep).
    apply load_inv in Hl. destruct Hl as [Hl ->]. cbn [properties] in Hl.
    rewrite Hmp in Hl. inversion Hl; subst mp'. clear Hl.
    unfold storeProperty in Hstep. cbn [properties units financials] in Hstep.
    rewrite Hmp in Hstep.
    inversion Hstep; subst h1. clear Hstep.
    match type of H with
    | forRange _ _ _ ?hn = _ =>
        assert (HF'' : Forall2 (fun ua unit => nth_error (units hn) ua = Some unit)
                               us loaded')
          by (cbn [units]; clear -HF'; induction HF'; constructor; auto;
              apply nth_error_app_old; assumption);
        assert (Hmp'' : nth_error (properties hn) mpa
                        = Some (withUnits mp (Property.Units mp
                                              ++ [List.length (units hc)])))
          by (cbn [properties]; apply nth_error_update_same;
              apply nth_error_Some; congruence)
    end.
    destruct (IH loaded' _ _ _ _ HF'' Hmp'' H) as (HU & HFi & HP).
    cbn [properties units financials] in HU, HFi, HP.
    rewrite HU, HFi, HP. rewrite update_update.
    rewrite <- app_assoc. split; [reflexivity |]. split; [reflexivity |].
    f_equal. unfold withUnits. cbn [Property.Units Property.PropertyName
      Property.Address Property.City Property.State Property.ZipCode
      Property.County Property.YearBuilt Property.NumberOfUnits
      Property.BuildingSF Property.LotSF Property.Financial].
    f_equal.
    rewrite <- app_assoc. cbn [List.length app map]. rewrite length_app.
    cbn [List.length]. rewrite Nat.add_1_r. reflexivity.
Qed.

(** The monthly cash flow of a scenario is [scenarioCashFlow] of the base
    Financial block and rents, and the flag says whether it is positive. *)
Lemma analyzeScenario_value p scenario h result h' prop f rs :
  nth_error (properties h) p = Some prop ->
  nth_error (financials h) (Property.Financial prop) = Some f ->
  rentsAt h (Property.Units prop) = Some rs ->
  analyzeScenario p scenario h = Ok (result, h') ->
  scenarioCashFlow f rs scenario = Ok (ScenarioResult.MonthlyCashFlow result) /\
  ScenarioResult.IsPositive result
    = GreaterThan (ScenarioResult.MonthlyCashFlow result) Zero /\
  ScenarioResult.Scenario result = scenario.
Proof.
  intros Hprop Hf Hrs H. unfold analyzeScenario in H.
  apply bind_inv in H. destruct H as (prop' & h1 & Hl & H).
  apply load_inv in Hl. destruct Hl as [Hl ->].
  rewrite Hprop in Hl. inversion Hl; subst prop'. clear Hl.
  apply bind_inv in H. destruct H as (f' & h1 & Hl & H).
  apply load_inv in Hl. destruct Hl as [Hl ->].
  rewrite Hf in Hl. inversion Hl; subst f'. clear Hl.
  apply bind_inv in H. destruct H as (mfa & h1 & Hmf & H).
  unfold newFinancial in Hmf. inversion Hmf; subst mfa h1. clear Hmf.
  apply bind_inv in H. destruct H as (mpa & h2 & Hmp & H).
  unfold newProperty in Hmp. cbn [properties units financials] in Hmp.
  inversion Hmp; subst mpa h2. clear Hmp.
  apply bind_inv in H. destruct H as (u & h3 & Hloop & H).
  apply bind_inv in H. destruct H as (a & h4 & Han & H).
  apply ret_inv in H. destruct H as [-> ->].
  destruct (rentsAt_Forall2 _ _ _ Hrs) as (loaded & HF & Hmap).
  eapply scenario_units_loop with (loaded := loaded) in Hloop.
  2:{ cbn [units]. exact HF. }
  2:{ cbn [properties]. rewrite nth_error_app2 by lia.
      rewrite Nat.sub_diag. reflexivity. }
  cbn [units financials properties] in Hloop.
  destruct Hloop as (HU & HFi & HP).
  apply AnalyzeCashFlow_inv in Han.
  destruct Han as (prop' & f' & rs' & income & me & ae & loan & pay & pp & dp
                   & la & ir & Hprop' & Hf' & Hrs' & Hsum & Hme & _ & Hloan
                   & Hpay & _ & _ & _ & _ & _ & ->).
  rewrite HP in Hprop'.
  rewrite nth_error_update_same in Hprop'
    by (rewrite length_app; simpl; lia).
  inversion Hprop'; subst prop'. clear Hprop'.
  cbn [withUnits Property.Financial Property.Units app] in Hf', Hrs'.
  rewrite HFi in Hf'. rewrite nth_error_app2 in Hf' by lia.
  rewrite Nat.sub_diag in Hf'. inversion Hf'; subst f'. clear Hf'.
  assert (Ers : rs' = map (fun r => float64.mul r (Scenario.RentMultiplier scenario)) rs).
  { destruct h3 as [U3 F3 P3]. cbn [units] in HU. subst U3.
    rewrite <- (length_map (scaledUnit (Scenario.RentMultiplier scenario)) loaded)
      in Hrs'.
    rewrite rentsAt_seq in Hrs'. inversion Hrs'; subst rs'.
    rewrite <- Hmap. rewrite !map_map. reflexivity. }
  subst rs'.
  split; [| split; reflexivity].
  unfold scenarioCashFlow. rewrite Hsum. cbn [rbind].
  cbn [scenarioFinancial Financial.Expenses] in Hme |- *.
  change (Financial.Expenses (scenarioFinancial f scenario))
    with (Financial.Expenses f).
  rewrite Hme. cbn [rbind].
  change (loanOf (normalize (scenarioFinancial f scenario)) = Ok loan) in Hloan.
  rewrite Hloan. cbn [rbind]. rewrite Hpay. reflexivity.
Qed.

End ScenarioValue.

(** * The break-even search *)
Section BreakEvenSearch.

Local Open Scope Q_scope.

Lemma rentsAt_preserves h h' us rs :
  preserves h h' -> rentsAt h us = Some rs -> rentsAt h' us = Some rs.
Proof.
  intros (HU & _ & _). revert rs.
  induction us as [| ua us IH]; intros rs H; simpl in *; [exact H |].
  destruct (nth_error (units h) ua) as [u |] eqn:Hu; [| discriminate].
  destruct (rentsAt h us) as [rs' |] eqn:Hr; [| discriminate].
  rewrite (HU _ _ Hu), (IH _ eq_refl). exact H.
Qed.

Lemma NewFromFloat_100 : NewFromFloat f100 = Ok 100.
Proof. vm_compute. reflexivity. Qed.

Lemma DivRound_nonneg d d2 p : 0 <= d / d2 -> (0 <= p)%Z -> 0 <= DivRound d d2 p.
Proof.
  intros H Hp. rewrite DivRound_correct.
  pose proof (pow10_pos p Hp) as Hpos.
  assert (Hz : (0 <= round_half_away (d / d2 * pow10 p))%Z).
  { rewrite <- (round_half_away_Z 0). apply round_half_away_mono.
    change (inject_Z 0) with 0. nra. }
  apply Qle_shift_div_l; [exact Hpos |]. rewrite Qmult_0_l.
  change 0 with (inject_Z 0). rewrite <- Zle_Qle. exact Hz.
Qed.

Lemma Round_0_correct d : Round d 0 == inject_Z (round_half_away d).
Proof.
  unfold Round. rewrite Qred_correct. change (pow10 0) with 1.
  rewrite (round_half_away_comp (d * 1) d) by ring.
  unfold Qdiv. change (/ 1) with 1. ring.
Qed.


Variables (p : ptr) (h0 : Heap) (prop : Property.t) (f : Financial.t)
          (rs : list float64.t).
Hypothesis Hprop : nth_error (properties h0) p = Some prop.
Hypothesis Hf : nth_error (financials h0) (Property.Financial prop) = Some f.
Hypothesis Hrs : rentsAt h0 (Property.Units prop) = Some rs.

(** Any relation between the bounds that each step of the search
    maintains, given what the oracle said at the midpoint, holds of the
    final bounds, which are within the tolerance of each other. *)
Lemma breakEvenSearch_invariant (I : Decimal -> Decimal -> Prop) tolerance :
  (forall low high cf,
      I low high -> tolerance < Sub high low ->
      scenarioCashFlow f rs
        (testScenario f (DivRound (Add low high) (NewFromInt 2) DivisionPrecision))
        = Ok cf ->
      (0 < cf -> I low (DivRound (Add low high) (NewFromInt 2) DivisionPrecision)) /\
      (cf <= 0 -> I (DivRound (Add low high) (NewFromInt 2) DivisionPrecision) high)) ->
  forall fuel low high hc high' h',
    preserves h0 hc -> I low high ->
    breakEvenSearch fuel p low high tolerance hc = Ok (high', h') ->
    exists low', I low' high' /\ Sub high' low' <= tolerance /\ preserves h0 h'.
Proof.
  intro Hstep. induction fuel as [| fuel IH]; intros low high hc high' h' Hpres HI H.
  - simpl in H. destruct (GreaterThan (Sub high low) tolerance) eqn:G.
    + discriminate H.
    + apply ret_inv in H. destruct H as [-> ->].
      exists low. split; [exact HI |]. split; [| exact Hpres].
      apply GreaterThan_false. exact G.
  - simpl in H. destruct (GreaterThan (Sub high low) tolerance) eqn:G.
    + apply bind_inv in H. destruct H as (mid & h1 & Hmid & H).
      apply lift_inv in Hmid. destruct Hmid as [Hmid ->].
      change (Div (Add low high) (NewFromInt 2)
              = Ok mid) in Hmid.
      unfold Div in Hmid. change (IsZero (NewFromInt 2)) with false in Hmid.
      inversion Hmid; subst mid. clear Hmid.
      apply bind_inv in H. destruct H as (prop' & h1 & Hl & H).
      apply load_inv in Hl. destruct Hl as [Hl ->].
      pose proof Hpres as (HU & HF & HP).
      rewrite (HP _ _ Hprop) in Hl. inversion Hl; subst prop'. clear Hl.
      apply bind_inv in H. destruct H as (f' & h1 & Hl & H).
      apply load_inv in Hl. destruct Hl as [Hl ->].
      rewrite (HF _ _ Hf) in Hl. inversion Hl; subst f'. clear Hl.
      apply bind_inv in H. destruct H as (res & h1 & Hres & H).
      pose proof (analyzeScenario_preserves _ _ _ _ _ Hres) as Hp1.
      apply (analyzeScenario_value _ _ _ _ _ prop f rs) in Hres;
        [| apply HP, Hprop | apply HF, Hf
         | eapply rentsAt_preserves; [exact Hpres | exact Hrs]].
      destruct Hres as (Hcf & Hpos & _).
      apply GreaterThan_true in G.
      destruct (Hstep low high _ HI G Hcf) as [Hup Hdown].
      assert (Hpres1 : preserves h0 h1) by (eapply preserves_trans; eassumption).
      destruct (ScenarioResult.IsPositive res) eqn:Epos.
      * symmetry in Hpos. apply GreaterThan_true in Hpos.
        eapply IH; [exact Hpres1 | apply Hup, Hpos | exact H].
      * symmetry in Hpos. apply GreaterThan_false in Hpos.
        eapply IH; [exact Hpres1 | apply Hdown, Hpos | exact H].
    + apply ret_inv in H. destruct H as [-> ->].
      exists low. split; [exact HI |]. split; [| exact Hpres].
      apply GreaterThan_false. exact G.
Qed.

End BreakEvenSearch.

(** * Feasibility of the break-even down payment *)
Section BreakEvenFeasibility.

Local Open Scope Q_scope.

Variables (p : ptr) (h : Heap) (prop : Property.t) (f : Financial.t)
          (rs : list float64.t) (income expenses : Decimal).
Hypothesis Hprop : nth_error (properties h) p = Some prop.
Hypothesis Hf : nth_error (financials h) (Property.Financial prop) = Some f.
Hypothesis Hrs : rentsAt h (Property.Units prop) = Some rs.
Hypothesis Hincome : sumFloats rs Zero = Ok income.
Hypothesis Hexpenses :
  NewFromFloat (TotalMonthly (Financial.Expenses f)) = Ok expenses.

(** The prefix of [FindBreakEvenDownPayment] up to the feasibility test. *)
Lemma FindBreakEvenDownPayment_unfold fuel :
  FindBreakEvenDownPayment fuel p h =
  if LessThanOrEqual (Sub income expenses) Zero
  then Ok (NewFromInt (-1), h)
  else
    (purchasePrice <- lift (NewFromFloat (Financial.PurchasePrice f)) ;;
     tolerance <- lift (NewFromFloat f100) ;;
     high' <- breakEvenSearch fuel p Zero purchasePrice tolerance ;;
     ret (Round high' 0))%heap h.
Proof.
  unfold FindBreakEvenDownPayment.
  unfold loadProperty, loadFinancial.
  rewrite (bind_Ok _ _ _ _ _ (load_Ok properties p h prop Hprop)).
  rewrite (bind_Ok _ _ _ _ _ (sumRents_Ok _ _ _ _ Hrs Hincome)).
  rewrite (bind_Ok _ _ _ _ _ (load_Ok financials _ h f Hf)).
  rewrite (bind_Ok _ _ _ _ _ (lift_Ok _ h _ Hexpenses)).
  destruct (LessThanOrEqual (Sub income expenses) Zero); reflexivity.
Qed.


End BreakEvenFeasibility.




(** * Multi-year projections *)
Section Projections.

Local Open Scope Z_scope.

Variables (p : ptr) (schedule : list Row.t * option error)
          (rentGrowth expenseGrowth appreciation vacancyRate : Decimal)
          (annualMortgage downPayment : Decimal).

Local Notation step :=
  (projectYear p schedule rentGrowth expenseGrowth appreciation
               vacancyRate annualMortgage downPayment).
Local Notation g := (rentGrowth, expenseGrowth, appreciation).

Lemma projectYear_inv year st h st' h' :
  step year st h = Ok (st', h') ->
  exists row,
    projections st' = projections st ++ [row] /\
    projected g year (currentRent st) (currentExpenses st)
              (currentPropertyValue st) [row] /\
    YearlyProjection.GrossIncome row = currentRent st' /\
    YearlyProjection.Expenses row = currentExpenses st' /\
    YearlyProjection.PropertyValue row = currentPropertyValue st'.
Proof.
  unfold projectYear. intro H.
  apply bind_inv in H. destruct H as (prop & h1 & _ & H).
  apply bind_inv in H. destruct H as (f & h2 & _ & H).
  apply bind_inv in H. destruct H as (la & h3 & _ & H).
  apply bind_inv in H. destruct H as (pb & h4 & _ & H).
  apply bind_inv in H. destruct H as (coc & h5 & _ & H).
  apply ret_inv in H. destruct H as [-> _].
  eexists. cbn [projections currentRent currentExpenses currentPropertyValue].
  split; [reflexivity |].
  cbn [projected YearlyProjection.Year YearlyProjection.GrossIncome
       YearlyProjection.Expenses YearlyProjection.PropertyValue].
  repeat split; reflexivity.
Qed.

Lemma projectLoop_inv count : forall year st h st' h',
  projectLoop count step year st h = Ok (st', h') ->
  exists rows,
    projections st' = projections st ++ rows /\
    List.length rows = count /\
    projected g year (currentRent st) (currentExpenses st)
              (currentPropertyValue st) rows.
Proof.
  induction count as [| count IH]; intros year st h st' h' H.
  - apply ret_inv in H. destruct H as [-> _].
    exists []. rewrite app_nil_r. repeat split.
  - cbn [projectLoop] in H.
    apply bind_inv in H. destruct H as (st1 & h1 & H1 & H).
    apply projectYear_inv in H1.
    destruct H1 as (row & Hrow & Hproj & Hr & He & Hv).
    apply IH in H. destruct H as (rows & Hrows & Hlen & Hrest).
    exists (row :: rows). rewrite Hrows, Hrow, <- app_assoc. cbn [app].
    split; [reflexivity |]. split; [cbn; rewrite Hlen; reflexivity |].
    cbn [projected] in Hproj |- *.
    destruct Hproj as (Hy & Hr' & He' & Hv' & _).
    rewrite <- Hr', <- He', <- Hv'.
    repeat (split; [reflexivity || assumption |]).
    rewrite Hr, He, Hv. exact Hrest.
Qed.

(** Consecutive rows of a projection, from the second year on. *)
Lemma projected_step rows : forall year r e v i prev cur,
  1 <= year -> projected g year r e v rows ->
  nth_error rows i = Some prev -> nth_error rows (S i) = Some cur ->
  YearlyProjection.Year cur = year + Z.of_nat i + 1 /\
  YearlyProjection.GrossIncome cur
    = Mul (YearlyProjection.GrossIncome prev) rentGrowth /\
  YearlyProjection.Expenses cur
    = Mul (YearlyProjection.Expenses prev) expenseGrowth /\
  YearlyProjection.PropertyValue cur
    = Mul (YearlyProjection.PropertyValue prev) appreciation.
Proof.
  induction rows as [| row rows IH]; intros year r e v i prev cur Hy H Hp Hc.
  - destruct i; discriminate.
  - cbn [projected] in H. destruct H as (Hyr & Hr & He & Hv & Hrest).
    destruct i as [| i].
    + cbn in Hp, Hc. inversion Hp; subst prev. clear Hp.
      destruct rows as [| row2 rows]; [discriminate |].
      cbn in Hc. inversion Hc; subst cur. clear Hc.
      cbn [projected] in Hrest.
      destruct Hrest as (Hyr2 & Hr2 & He2 & Hv2 & _).
      assert (E : (1 <? year + 1) = true) by (apply Z.ltb_lt; lia).
      rewrite E in Hr2, He2, Hv2.
      rewrite Hyr2, Hr2, He2, Hv2, Hr, He, Hv.
      repeat split. cbn. lia.
    + cbn [nth_error] in Hp, Hc.
      destruct (IH (year + 1) _ _ _ i prev cur ltac:(lia) Hrest Hp Hc)
        as (Hy' & Hrest').
      split; [rewrite Hy'; lia | exact Hrest'].
Qed.

End Projections.

(** C7.  A projection over [N >= 2] years that [ProjectCashFlow] returns has
    [N] rows.  The row of year 1 carries the base annual rent (twelve times
    the sum of the monthly rents), the base annual expenses and the purchase
    price as they are.  For every year [y] from 2 to [N] the gross income,
    the expenses and the property value of the row of year [y] are those of
    the row of year [y - 1] multiplied by one plus the rent growth rate, one
    plus the expense growth rate and one plus the appreciation rate. *)
Theorem ProjectCashFlow_growth
        (p : ptr) (config : ProjectionConfig.t) (h h' : Heap)
        (prop : Property.t) (f : Financial.t) (rs : list float64.t)
        (projs : list YearlyProjection.t) :
  nth_error (properties h) p = Some prop ->
  nth_error (financials h) (Property.Financial prop) = Some f ->
  rentsAt h (Property.Units prop) = Some rs ->
  2 <= ProjectionConfig.Years config ->
  ProjectCashFlow p config h = Ok (projs, h') ->
  exists baseMonthlyRent baseAnnualExpenses purchasePrice
         rentGrowth expenseGrowth appreciation,
    sumFloats rs Zero = Ok baseMonthlyRent /\
    NewFromFloat (TotalYearly (Financial.Expenses f)) = Ok baseAnnualExpenses /\
    NewFromFloat (Financial.PurchasePrice f) = Ok purchasePrice /\
    NewFromFloat (float64.add f1 (ProjectionConfig.RentGrowthRate config))
      = Ok rentGrowth /\
    NewFromFloat (float64.add f1 (ProjectionConfig.ExpenseGrowthRate config))
      = Ok expenseGrowth /\
    NewFromFloat (float64.add f1 (ProjectionConfig.AppreciationRate config))
      = Ok appreciation /\
    Z.of_nat (List.length projs) = ProjectionConfig.Years config /\
    (exists first,
        nth_error projs 0 = Some first /\
        YearlyProjection.Year first = 1 /\
        YearlyProjection.GrossIncome first = Mul baseMonthlyRent (NewFromInt 12) /\
        YearlyProjection.Expenses first = baseAnnualExpenses /\
        YearlyProjection.PropertyValue first = purchasePrice) /\
    (forall y, 2 <= y <= ProjectionConfig.Years config ->
       exists prev cur,
         nth_error projs (Z.to_nat (y - 2)) = Some prev /\
         nth_error projs (Z.to_nat (y - 1)) = Some cur /\
         YearlyProjection.Year prev = y - 1 /\
         YearlyProjection.Year cur = y /\
         YearlyProjection.GrossIncome cur
           = Mul (YearlyProjection.GrossIncome prev) rentGrowth /\
         YearlyProjection.Expenses cur
           = Mul (YearlyProjection.Expenses prev) expenseGrowth /\
         YearlyProjection.PropertyValue cur
           = Mul (YearlyProjection.PropertyValue prev) appreciation).
Proof.
  intros Hprop Hf Hrs HN H. unfold ProjectCashFlow in H.
  destruct (ProjectionConfig.Years config <? 0) eqn:Eneg;
    [apply Z.ltb_lt in Eneg; lia |].
  apply bind_inv in H. destruct H as (prop' & h1 & Hl & H).
  apply load_inv in Hl. destruct Hl as [Hl ->].
  rewrite Hprop in Hl. inversion Hl; subst prop'. clear Hl.
  apply bind_inv in H. destruct H as (rent & h1 & Hsum & H).
  apply sumRents_inv in Hsum. destruct Hsum as (-> & rs' & Hrs' & Hsum).
  rewrite Hrs in Hrs'. inversion Hrs'; subst rs'. clear Hrs'.
  apply bind_inv in H. destruct H as (f' & h1 & Hl & H).
  apply load_inv in Hl. destruct Hl as [Hl ->].
  rewrite Hf in Hl. inversion Hl; subst f'. clear Hl.
  apply bind_inv in H. destruct H as (ae & h1 & Hae & H).
  apply lift_inv in Hae. destruct Hae as [Hae ->].
  apply bind_inv in H. destruct H as (pv & h1 & Hpv & H).
  apply lift_inv in Hpv. destruct Hpv as [Hpv ->].
  apply bind_inv in H. destruct H as (dp & h1 & _ & H).
  apply bind_inv in H. destruct H as (loan & h2 & _ & H).
  apply bind_inv in H. destruct H as (pay & h3 & _ & H).
  apply bind_inv in H. destruct H as (sched & h4 & _ & H).
  apply bind_inv in H. destruct H as (rg & h5 & Hrg & H).
  apply lift_inv in Hrg. destruct Hrg as [Hrg _].
  apply bind_inv in H. destruct H as (eg & h6 & Heg & H).
  apply lift_inv in Heg. destruct Heg as [Heg _].
  apply bind_inv in H. destruct H as (ap & h7 & Hap & H).
  apply lift_inv in Hap. destruct Hap as [Hap _].
  apply bind_inv in H. destruct H as (vr & h8 & _ & H).
  apply bind_inv in H. destruct H as (st & h9 & Hloop & H).
  apply ret_inv in H. destruct H as [-> _].
  apply projectLoop_inv in Hloop.
  cbn [projections currentRent currentExpenses currentPropertyValue app] in Hloop.
  destruct Hloop as (rows & -> & Hlen & Hrows).
  exists rent, ae, pv, rg, eg, ap.
  repeat (split; [assumption |]).
  split; [rewrite Hlen; apply Z2Nat.id; lia |].
  split.
  - destruct rows as [| first rows]; [cbn in Hlen; lia |].
    exists first. cbn [projected] in Hrows.
    destruct Hrows as (Hy & Hr & He & Hv & _).
    change (1 <? 1) with false in Hr, He, Hv.
    repeat (split; [reflexivity || assumption |]). assumption.
  - intros y Hy.
    assert (Hlt : (Z.to_nat (y - 1) < List.length rows)%nat) by lia.
    assert (Hlt' : (Z.to_nat (y - 2) < List.length rows)%nat) by lia.
    destruct (nth_error rows (Z.to_nat (y - 1))) as [cur |] eqn:Ecur;
      [| apply nth_error_None in Ecur; lia].
    destruct (nth_error rows (Z.to_nat (y - 2))) as [prev |] eqn:Eprev;
      [| apply nth_error_None in Eprev; lia].
    exists prev, cur. split; [reflexivity |]. split; [reflexivity |].
    replace (Z.to_nat (y - 1)) with (S (Z.to_nat (y - 2))) in Ecur by lia.
    destruct (projected_step rg eg ap rows 1 _ _ _ _ prev cur
                ltac:(lia) Hrows Eprev Ecur) as (Hyc & Hrest).
    split; [| split; [rewrite Hyc; lia | exact Hrest]].
    (* the year of the previous row *)
    clear - Hrows Eprev Hy. revert Hrows Eprev.
    generalize (Mul rent (NewFromInt 12)) ae pv.
    replace (y - 1) with (1 + Z.of_nat (Z.to_nat (y - 2))) by lia.
    generalize (Z.to_nat (y - 2)) as i. generalize 1 as year.
    induction rows as [| row rows IH]; intros year i r e v Hrows Hp.
    + destruct i; discriminate.
    + cbn [projected] in Hrows. destruct Hrows as (Hyr & _ & _ & _ & Hrest).
      destruct i as [| i].
      * cbn in Hp. inversion Hp; subst. lia.
      * cbn [nth_error] in Hp. rewrite (IH _ _ _ _ _ Hrest Hp). lia.
Qed.

Lemma ProjectCashFlow_growth_witness :
  exists projs h' prev cur,
    ProjectCashFlow 0%nat sample_config (sample_heap 200000 40000 0 3000 500)
    = Ok (projs, h') /\
    nth_error projs 0 = Some prev /\ nth_error projs 1 = Some cur /\
    YearlyProjection.GrossIncome prev = 36000%Q /\
    YearlyProjection.GrossIncome cur
    = Mul (YearlyProjection.GrossIncome prev) (103 # 100)%Q.
Proof.
  assert (E : exists projs h',
             ProjectCashFlow 0%nat sample_config
                             (sample_heap 200000 40000 0 3000 500)
             = Ok (projs, h')).
  { vm_compute. eexists. eexists. reflexivity. }
  destruct E as (projs & h' & E).
  destruct (ProjectCashFlow_growth
              0%nat sample_config (sample_heap 200000 40000 0 3000 500) h'
              sample_property (sample_financial 200000 40000 0 500)
              [float64.of_Q 3000] projs
              eq_refl eq_refl eq_refl ltac:(vm_compute; discriminate) E)
    as (rent & ae & pv & rg & eg & ap & Hrent & _ & _ & Hrg & _ & _ & _
        & Hfirst & Hnext).
  destruct Hfirst as (first & Hn0 & _ & Hgi & _).
  destruct (Hnext 2 ltac:(vm_compute; split; discriminate))
    as (prev & cur & Hp & Hc & _ & _ & Hg & _).
  change (Z.to_nat (2 - 2)) with 0%nat in Hp.
  change (Z.to_nat (2 - 1)) with 1%nat in Hc.
  exists projs, h', prev, cur.
  split; [exact E |]. split; [exact Hp |]. split; [exact Hc |].
  assert (Erent : sumFloats [float64.of_Q 3000] Zero = Ok 3000%Q)
    by (vm_compute; reflexivity).
  assert (Erg : NewFromFloat
                  (float64.add f1 (ProjectionConfig.RentGrowthRate sample_config))
                = Ok (103 # 100)%Q)
    by (vm_compute; reflexivity).
  rewrite Erent in Hrent. rewrite Erg in Hrg.
  inversion Hrent; subst rent. inversion Hrg; subst rg.
  rewrite Hn0 in Hp. inversion Hp; subst first.
  split; [exact Hgi | exact Hg].
Defined.

(** * Net present value and the bisection of [CalculateIRR] *)
Section Bisection.

Local Open Scope Q_scope.

Lemma Pow_positive d e : 0 < d -> (0 <= e)%Z -> 0 < Pow d e.
Proof.
  intros Hd He. destruct e as [| q | q]; [| | lia].
  - cbn [Pow]. assert (E : IsZero d = false) by (apply IsZero_false; lra).
    rewrite E. reflexivity.
  - rewrite Pow_pos_correct. apply Qpower_positive_pos, Hd.
Qed.

(** Discounting at a rate above -1 never divides by zero. *)
Lemma npvFrom_total cashFlows : forall i rate npv,
  -(1) < rate -> (0 <= i)%Z -> exists v, npvFrom cashFlows i rate npv = Ok v.
Proof.
  induction cashFlows as [| cf rest IH]; intros i rate npv Hr Hi.
  - exists npv. reflexivity.
  - cbn [npvFrom]. unfold Div.
    assert (Hpos : 0 < Pow (Add (NewFromInt 1) rate) i).
    { apply Pow_positive; [| exact Hi]. rewrite Add_correct.
      change (NewFromInt 1) with 1. lra. }
    assert (E : IsZero (Pow (Add (NewFromInt 1) rate) i) = false)
      by (apply IsZero_false; lra).
    rewrite E. cbn [rbind]. apply IH; [exact Hr | lia].
Qed.

Lemma calculateNPV_total cashFlows rate :
  -(1) < rate -> exists v, calculateNPV cashFlows rate = Ok v.
Proof. intro Hr. apply npvFrom_total; [exact Hr | lia]. Qed.

Lemma midpoint_Ok low high :
  Div (Add low high) (NewFromInt 2)
  = Ok (DivRound (Add low high) (NewFromInt 2) DivisionPrecision).
Proof. reflexivity. Qed.

Lemma midpoint_lower low high :
  lowest <= low -> lowest <= high ->
  lowest <= DivRound (Add low high) (NewFromInt 2) DivisionPrecision.
Proof.
  intros Hl Hh. rewrite DivRound_correct.
  assert (Hp : 0 < pow10 DivisionPrecision)
    by (apply pow10_pos; unfold DivisionPrecision; lia).
  apply Qle_shift_div_l; [exact Hp |].
  assert (E : lowest * pow10 DivisionPrecision == inject_Z (-9900000000000000))
    by reflexivity.
  rewrite E. rewrite <- Zle_Qle.
  rewrite <- (round_half_away_Z (-9900000000000000)).
  apply round_half_away_mono. rewrite <- E, Add_correct.
  change (NewFromInt 2) with 2.
  apply Qmult_le_compat_r; [| lra].
  apply Qle_shift_div_l; lra.
Qed.

Lemma midpoint_error low high :
  Qabs (DivRound (Add low high) (NewFromInt 2) DivisionPrecision
        - (low + high) / 2) <= 1 # 20000000000000000.
Proof.
  pose proof (DivRound_error (Add low high) (NewFromInt 2) DivisionPrecision
                ltac:(unfold DivisionPrecision; lia)) as H.
  assert (E : Add low high / NewFromInt 2 == (low + high) / 2)
    by (rewrite Add_correct; reflexivity).
  rewrite E in H. exact H.
Qed.

Lemma bisection_S iters cashFlows low high npvLow tolerance :
  bisection (S iters) cashFlows low high npvLow tolerance =
  rbind (Div (Add low high) (NewFromInt 2)) (fun mid =>
  rbind (calculateNPV cashFlows mid) (fun npvMid =>
  if LessThan (Abs npvMid) tolerance
     || LessThan (Abs (Sub high low)) tolerance
  then Ok (Mul mid (NewFromInt 100))
  else if (Sign npvMid =? Sign npvLow)%Z
       then bisection iters cashFlows mid high npvMid tolerance
       else bisection iters cashFlows low mid npvLow tolerance)).
Proof. reflexivity. Qed.

Lemma width_bound_S n : width_bound (S n) == 2 * width_bound n - (2 # 10000000000000000).
Proof.
  unfold width_bound. rewrite Nat2Z.inj_succ, Z.pow_succ_r by lia.
  rewrite inject_Z_mult. change (inject_Z 2) with 2. ring.
Qed.

Lemma bisection_converges cashFlows s : forall n low high npvLow,
  Qabs (high - low) <= width_bound n ->
  lowest <= low -> lowest <= high ->
  Sign npvLow = s ->
  bracket cashFlows s low high ->
  exists low' high' mid npvMid,
    bisection (S n) cashFlows low high npvLow irrTolerance
    = Ok (Mul mid (NewFromInt 100)) /\
    Div (Add low' high') (NewFromInt 2) = Ok mid /\
    calculateNPV cashFlows mid = Ok npvMid /\
    (Qabs npvMid < irrTolerance \/ Qabs (high' - low') < irrTolerance) /\
    lowest <= low' /\ lowest <= high' /\
    bracket cashFlows s low' high'.
Proof.
  induction n as [| n IH]; intros low high npvLow Hw Hl Hh Hs Hb;
    rewrite bisection_S, midpoint_Ok; cbn [rbind];
    pose proof (midpoint_lower low high Hl Hh) as Hm;
    pose proof (midpoint_error low high) as He;
    set (mid := DivRound (Add low high) (NewFromInt 2) DivisionPrecision) in *;
    destruct (calculateNPV_total cashFlows mid) as [npvMid Hnpv];
    try (unfold lowest in Hm; lra);
    rewrite Hnpv; cbn [rbind].
  - assert (E : LessThan (Abs (Sub high low)) irrTolerance = true).
    { apply LessThan_true. rewrite Abs_correct, Sub_correct.
      unfold width_bound in Hw. change (inject_Z (2 ^ Z.of_nat 0)) with 1 in Hw.
      unfold irrTolerance. lra. }
    rewrite E, orb_true_r.
    exists low, high, mid, npvMid.
    repeat (split; [reflexivity || assumption |]).
    split; [right | auto].
    apply LessThan_true in E. rewrite Abs_correct, Sub_correct in E. exact E.
  - destruct (LessThan (Abs npvMid) irrTolerance
              || LessThan (Abs (Sub high low)) irrTolerance) eqn:C.
    + exists low, high, mid, npvMid.
      repeat (split; [reflexivity || assumption |]).
      split; [| auto].
      apply orb_true_iff in C. destruct C as [C | C]; apply LessThan_true in C.
      * left. rewrite Abs_correct in C. exact C.
      * right. rewrite Abs_correct, Sub_correct in C. exact C.
    + rewrite width_bound_S in Hw.
      apply Qabs_Qle_condition in Hw. apply Qabs_Qle_condition in He.
      destruct Hw as [Hw1 Hw2]. destruct He as [He1 He2].
      unfold Qdiv in He1, He2. change (/ 2) with (1 # 2) in He1, He2.
      destruct (Sign npvMid =? Sign npvLow)%Z eqn:S.
      * apply Z.eqb_eq in S.
        apply IH; [apply Qabs_Qle_condition; split; lra | assumption | assumption
                  | congruence |].
        destruct Hb as [_ Hhigh]. split; [| exact Hhigh].
        exists npvMid. split; [exact Hnpv | congruence].
      * apply Z.eqb_neq in S.
        apply IH; [apply Qabs_Qle_condition; split; lra | assumption | assumption
                  | assumption |].
        destruct Hb as [Hlow _]. split; [exact Hlow |].
        exists npvMid. split; [exact Hnpv | congruence].
Qed.

End Bisection.

Lemma NewFromFloat_lowest : NewFromFloat (float64.of_Q (-99 # 100)) = Ok lowest.
Proof. vm_compute. reflexivity. Qed.

Lemma NewFromFloat_highest : NewFromFloat (float64.of_Q 2) = Ok highest.
Proof. vm_compute. reflexivity. Qed.

Lemma NewFromFloat_irrTolerance :
  NewFromFloat (float64.of_Q (1 # 10000)) = Ok irrTolerance.
Proof. vm_compute. reflexivity. Qed.

Lemma initial_width : (Qabs (highest - lowest) <= width_bound 99)%Q.
Proof. vm_compute. discriminate. Qed.

(** C2.  For a property whose down payment is not zero and a holding period
    of [H >= 1] years among the projected ones, when the net present values
    of the cash flows (minus the down payment, then the yearly cash flows,
    the sale proceeds added to the last) at the rates -0.99 and 2.00 differ
    in sign, [CalculateIRR] returns [mid * 100] where [mid] is the midpoint
    of a bisection bracket and the net present value at [mid] is below
    0.0001 in absolute value or the bracket is narrower than 0.0001. *)
Theorem CalculateIRR_bisection
        (p : ptr) (projs : list YearlyProjection.t) (holdingYears : Z) (h : Heap)
        (prop : Property.t) (f : Financial.t) (downPayment : Decimal)
        (saleYear : YearlyProjection.t) (npvLow npvHigh : Decimal) :
  nth_error (properties h) p = Some prop ->
  nth_error (financials h) (Property.Financial prop) = Some f ->
  NewFromFloat (Financial.DownPayment f) = Ok downPayment ->
  ~ (downPayment == 0)%Q ->
  1 <= holdingYears <= Z.of_nat (List.length projs) ->
  nth_error projs (Z.to_nat (holdingYears - 1)) = Some saleYear ->
  let cashFlows :=
    buildCashFlows (Neg downPayment) (YearlyProjection.EquityAtSale saleYear)
                   projs holdingYears in
  calculateNPV cashFlows lowest = Ok npvLow ->
  calculateNPV cashFlows highest = Ok npvHigh ->
  Sign npvLow <> Sign npvHigh ->
  exists low high mid npvMid,
    CalculateIRR p projs holdingYears h = Ok (Mul mid (NewFromInt 100), h) /\
    Div (Add low high) (NewFromInt 2) = Ok mid /\
    calculateNPV cashFlows mid = Ok npvMid /\
    ((Qabs npvMid < irrTolerance)%Q \/ (Qabs (high - low) < irrTolerance)%Q) /\
    (lowest <= low)%Q /\ (lowest <= high)%Q /\
    bracket cashFlows (Sign npvLow) low high.
Proof.
  intros Hprop Hf Hdp Hnz HH Hsale cashFlows Hlow Hhigh Hsign.
  destruct (bisection_converges cashFlows (Sign npvLow) 99 lowest highest npvLow)
    as (low & high & mid & npvMid & Hbis & Hrest).
  - exact initial_width.
  - apply Qle_refl.
  - vm_compute. discriminate.
  - reflexivity.
  - split; [exists npvLow | exists npvHigh]; split; congruence.
  - exists low, high, mid, npvMid. split; [| exact Hrest].
    unfold CalculateIRR.
    assert (E1 : (Z.of_nat (List.length projs) =? 0) = false)
      by (apply Z.eqb_neq; lia).
    assert (E2 : (Z.of_nat (List.length projs) <? holdingYears) = false)
      by (apply Z.ltb_ge; lia).
    rewrite E1, E2. cbn [orb].
    unfold loadProperty, loadFinancial.
    rewrite (bind_Ok _ _ _ _ _ (load_Ok properties p h prop Hprop)).
    rewrite (bind_Ok _ _ _ _ _ (load_Ok financials _ h f Hf)).
    rewrite (bind_Ok _ _ _ _ _ (lift_Ok _ h _ Hdp)).
    apply IsZero_false in Hnz. rewrite Hnz.
    assert (E3 : (holdingYears - 1 <? 0) = false) by (apply Z.ltb_ge; lia).
    rewrite E3, Hsale.
    rewrite (bind_Ok _ _ _ _ _ (lift_Ok _ h _ NewFromFloat_lowest)).
    rewrite (bind_Ok _ _ _ _ _ (lift_Ok _ h _ NewFromFloat_highest)).
    rewrite (bind_Ok _ _ _ _ _ (lift_Ok _ h _ NewFromFloat_irrTolerance)).
    fold cashFlows.
    rewrite (bind_Ok _ _ _ _ _ (lift_Ok _ h _ Hlow)).
    rewrite (bind_Ok _ _ _ _ _ (lift_Ok _ h _ Hhigh)).
    apply Z.eqb_neq in Hsign. rewrite Hsign.
    apply lift_Ok. exact Hbis.
Qed.

Lemma CalculateIRR_bisection_witness :
  exists low high mid npvMid,
    CalculateIRR 0%nat [sample_year] 1 (sample_heap 200000 40000 600 3000 500)
    = Ok (Mul mid (NewFromInt 100), sample_heap 200000 40000 600 3000 500) /\
    Div (Add low high) (NewFromInt 2) = Ok mid /\
    calculateNPV [(-40000)%Q; 51000%Q] mid = Ok npvMid /\
    ((Qabs npvMid < irrTolerance)%Q \/ (Qabs (high - low) < irrTolerance)%Q).
Proof.
  edestruct (CalculateIRR_bisection
               0%nat [sample_year] 1 (sample_heap 200000 40000 600 3000 500)
               sample_property (sample_financial 200000 40000 600 500)
               40000%Q sample_year)
    as (low & high & mid & npvMid & Hirr & Hmid & Hnpv & Hclose & _).
  - reflexivity.
  - reflexivity.
  - vm_compute. reflexivity.
  - vm_compute. discriminate.
  - vm_compute. split; discriminate.
  - reflexivity.
  - vm_compute. reflexivity.
  - vm_compute. reflexivity.
  - vm_compute. discriminate.
  - exists low, high, mid, npvMid. repeat split; assumption.
Defined.

(** * Conversions between decimals, floats and integers *)
Section FloatFacts.

Local Open Scope Q_scope.

Lemma round_half_even_cases x :
  let f := Qfloor x in
  (float64.round_half_even x = f /\ x - inject_Z f <= 1 # 2) \/
  (float64.round_half_even x = (f + 1)%Z /\ 1 # 2 <= x - inject_Z f).
Proof.
  intro f. unfold float64.round_half_even. fold f.
  destruct (Qcompare_spec (x - inject_Z f) (1 # 2)) as [E | E | E].
  - destruct (Z.even f); [left | right]; split; try reflexivity; lra.
  - left. split; [reflexivity | lra].
  - right. split; [reflexivity | lra].
Qed.

Lemma round_half_even_Z z : float64.round_half_even (inject_Z z) = z.
Proof.
  pose proof (round_half_even_cases (inject_Z z)) as H. cbv zeta in H.
  rewrite Qfloor_Z in H.
  destruct H as [[H _] | [_ H]]; [exact H | lra].
Qed.

Lemma round_half_even_mono x y :
  x <= y -> (float64.round_half_even x <= float64.round_half_even y)%Z.
Proof.
  intro Hxy.
  pose proof (Qfloor_resp_le _ _ Hxy) as Hf.
  pose proof (Qfloor_le x) as Hx1. pose proof (Qlt_floor x) as Hx2.
  pose proof (Qfloor_le y) as Hy1. pose proof (Qlt_floor y) as Hy2.
  destruct (Z.eq_dec (Qfloor x) (Qfloor y)) as [E | N].
  - unfold float64.round_half_even. rewrite <- E.
    destruct (Qcompare_spec (x - inject_Z (Qfloor x)) (1 # 2)) as [E1 | E1 | E1];
      destruct (Qcompare_spec (y - inject_Z (Qfloor x)) (1 # 2)) as [E2 | E2 | E2];
      try destruct (Z.even (Qfloor x)); try lia; exfalso; lra.
  - pose proof (round_half_even_cases x) as Cx.
    pose proof (round_half_even_cases y) as Cy. cbv zeta in Cx, Cy.
    destruct Cx as [[-> _] | [-> _]]; destruct Cy as [[-> _] | [-> _]]; lia.
Qed.

Lemma round_half_even_lower x : x - (1 # 2) <= inject_Z (float64.round_half_even x).
Proof.
  pose proof (Qlt_floor x) as H2. rewrite inject_Z_plus in H2.
  change (inject_Z 1) with 1 in H2.
  destruct (round_half_even_cases x) as [[-> H] | [-> H]].
  - lra.
  - rewrite inject_Z_plus. change (inject_Z 1) with 1. lra.
Qed.

Lemma round_half_even_upper x : inject_Z (float64.round_half_even x) <= x + (1 # 2).
Proof.
  pose proof (Qfloor_le x) as H1.
  destruct (round_half_even_cases x) as [[-> H] | [-> H]].
  - lra.
  - rewrite inject_Z_plus. change (inject_Z 1) with 1. lra.
Qed.

(** The binade that [of_Qpos] finds for a rational in [[1, 2^52)]. *)
Lemma of_Qpos_binade (n d : positive) :
  1 <= Zpos n # d -> Zpos n # d < inject_Z (2 ^ 52) ->
  let a := Z.log2 (Zpos n) in
  let b := Z.log2 (Zpos d) in
  let k := if Qle_bool (Qpower 2 (a - b)) (Zpos n # d) then (a - b + 1)%Z
           else (a - b)%Z in
  (0 <= k <= 52)%Z.
Proof.
  intros H1 H2 a b k.
  assert (Hdn : (Zpos d <= Zpos n)%Z).
  { unfold Qle in H1. cbn in H1. lia. }
  assert (Hn : (Zpos n < 2 ^ 52 * Zpos d)%Z).
  { unfold Qlt in H2. cbn in H2. lia. }
  assert (Hab : (b <= a)%Z) by (apply Z.log2_le_mono; exact Hdn).
  pose proof (Z.log2_spec (Zpos n) ltac:(lia)) as [Ha1 Ha2].
  pose proof (Z.log2_spec (Zpos d) ltac:(lia)) as [Hb1 Hb2].
  fold a in Ha1, Ha2. fold b in Hb1, Hb2.
  pose proof (Z.log2_nonneg (Zpos d)) as Hb0. fold b in Hb0.
  assert (Hlt : (a < b + 53)%Z).
  { apply (Z.pow_lt_mono_r_iff 2); [lia | lia |].
    replace (b + 53)%Z with (52 + Z.succ b)%Z by lia.
    rewrite Z.pow_add_r by lia. nia. }
  subst k. destruct (Qle_bool (Qpower 2 (a - b)) (Zpos n # d)) eqn:E.
  - split; [lia |].
    destruct (Z.eq_dec (a - b) 52) as [E52 | N52]; [| lia].
    exfalso. apply Qle_bool_iff in E. rewrite E52 in E.
    assert (E2 : Qpower 2 52 == inject_Z (2 ^ 52)) by reflexivity.
    rewrite E2 in E. lra.
  - lia.
Qed.

Lemma round_half_even_comp x y :
  x == y -> float64.round_half_even x = float64.round_half_even y.
Proof. intro H. apply Z.le_antisymm; apply round_half_even_mono; lra. Qed.

Lemma Qdiv_power2_neg q e :
  (e < 0)%Z -> q / Qpower 2 e == q * inject_Z (2 ^ (- e)).
Proof.
  intro He. rewrite <- (Z.opp_involutive e) at 1. rewrite Qpower_opp.
  rewrite Zpower_Qpower by lia. change (inject_Z 2) with 2.
  unfold Qdiv. rewrite Qinv_involutive. reflexivity.
Qed.

Lemma to_int64_finite m e :
  (e <= 0)%Z -> (Zpos m / 2 ^ (- e) < 2 ^ 63)%Z ->
  float64.to_int64 (S754_finite false m e) = (Zpos m / 2 ^ (- e))%Z.
Proof.
  intros He Hlt.
  assert (Hnn : (0 <= Zpos m / 2 ^ (- e))%Z)
    by (apply Z.div_pos; [lia | apply Z.pow_pos_nonneg; lia]).
  assert (Ea : match e with
               | Z0 => Zpos m
               | Zpos _ => (Zpos m * 2 ^ e)%Z
               | Zneg _ => Z.shiftr (Zpos m) (- e)
               end = (Zpos m / 2 ^ (- e))%Z).
  { destruct e as [| p | p]; [| lia |].
    - cbn. rewrite Z.div_1_r. reflexivity.
    - apply Z.shiftr_div_pow2. lia. }
  unfold float64.to_int64. rewrite Ea.
  assert (E1 : (float64.min_int64 <=? Zpos m / 2 ^ (- e))%Z = true)
    by (apply Z.leb_le; unfold float64.min_int64; lia).
  assert (E2 : (Zpos m / 2 ^ (- e) <? 2 ^ 63)%Z = true)
    by (apply Z.ltb_lt; exact Hlt).
  rewrite E1, E2. reflexivity.
Qed.

(** What [of_Q] builds for a rational in [[1, 2^52)]: the mantissa is
    the rounding of [q * 2^(-e)] for an exponent [e < 0]. *)
Lemma of_Q_finite q :
  1 <= q -> q < inject_Z (2 ^ 52) ->
  exists e m m' e',
    (-53 <= e <= -1)%Z /\
    m = float64.round_half_even (q * inject_Z (2 ^ (- e))) /\
    ((m = 2 ^ 53 /\ m' = 2 ^ 52 /\ e' = e + 1)%Z \/
     (m <> 2 ^ 53 /\ m' = m /\ e' = e)%Z) /\
    (1 <= m <= 2 ^ 52 * 2 ^ (- e))%Z /\
    float64.of_Q q = S754_finite false (Z.to_pos m') e'.
Proof.
  intros H1 H2. destruct q as [n d].
  destruct n as [| n | n];
    try (exfalso; unfold Qle in H1; cbn in H1; lia).
  pose proof (of_Qpos_binade n d H1 H2) as Hk. cbv zeta in Hk.
  unfold float64.of_Q. cbn [Qnum]. unfold float64.of_Qpos. cbn [Qnum Qden].
  remember (if Qle_bool (Qpower 2 (Z.log2 (Zpos n) - Z.log2 (Zpos d))) (Zpos n # d)
            then (Z.log2 (Zpos n) - Z.log2 (Zpos d) + 1)%Z
            else (Z.log2 (Zpos n) - Z.log2 (Zpos d))%Z) as k eqn:Ek.
  clear Ek.
  remember (Z.max (k - float64.prec) (emin float64.prec float64.emax)) as e eqn:Ee.
  assert (He : (-53 <= e <= -1)%Z).
  { subst e. change (emin float64.prec float64.emax) with (-1074)%Z.
    unfold float64.prec. lia. }
  clear Ee.
  assert (Hs : (0 < 2 ^ (- e))%Z) by (apply Z.pow_pos_nonneg; lia).
  assert (Em : float64.round_half_even ((Zpos n # d) / Qpower 2 e)
               = float64.round_half_even ((Zpos n # d) * inject_Z (2 ^ (- e))))
    by (apply round_half_even_comp, Qdiv_power2_neg; lia).
  rewrite Em.
  remember (float64.round_half_even ((Zpos n # d) * inject_Z (2 ^ (- e)))) as m eqn:Hm.
  assert (Hs1 : 1 <= inject_Z (2 ^ (- e))).
  { change 1 with (inject_Z 1). rewrite <- Zle_Qle. lia. }
  assert (Hm1 : (1 <= m)%Z).
  { rewrite <- (round_half_even_Z 1). subst m. apply round_half_even_mono.
    change (inject_Z 1) with 1. nra. }
  assert (Hm2 : (m <= 2 ^ 52 * 2 ^ (- e))%Z).
  { rewrite <- (round_half_even_Z (2 ^ 52 * 2 ^ (- e))). subst m.
    apply round_half_even_mono. rewrite inject_Z_mult. nra. }
  assert (E0 : (m =? 0)%Z = false) by (apply Z.eqb_neq; lia).
  rewrite E0.
  exists e, m.
  destruct (m =? 2 ^ float64.prec)%Z eqn:E53.
  - exists (2 ^ 52)%Z, (e + 1)%Z.
    assert (El : (e + 1 <=? float64.emax - float64.prec)%Z = true)
      by (apply Z.leb_le; unfold float64.emax, float64.prec; lia).
    rewrite El. apply Z.eqb_eq in E53. unfold float64.prec in E53.
    split; [exact He |]. split; [exact Hm |].
    split; [left; lia |]. split; [lia | reflexivity].
  - exists m, e.
    assert (El : (e <=? float64.emax - float64.prec)%Z = true)
      by (apply Z.leb_le; unfold float64.emax, float64.prec; lia).
    rewrite El. apply Z.eqb_neq in E53. unfold float64.prec in E53.
    split; [exact He |]. split; [exact Hm |].
    split; [right; lia |]. split; [lia | reflexivity].
Qed.

(** [int64(float64(q))] for a rational in [[1, 2^52)]: the integer part of
    [q], or the next integer when [q] is within a half of it. *)
Lemma to_int64_of_Q q :
  1 <= q -> q < inject_Z (2 ^ 52) ->
  (Qfloor q <= float64.to_int64 (float64.of_Q q) <= round_half_away q)%Z /\
  float64.eqb (float64.of_Q q) f0 = false.
Proof.
  intros H1 H2.
  destruct (of_Q_finite q H1 H2)
    as (e & m & m' & e' & He & Hm & Hcase & Hmb & ->).
  split; [| reflexivity].
  assert (Hs : (0 < 2 ^ (- e))%Z) by (apply Z.pow_pos_nonneg; lia).
  assert (Hdiv : (Zpos (Z.to_pos m') / 2 ^ (- e') = m / 2 ^ (- e))%Z).
  { destruct Hcase as [(E1 & E2 & E3) | (_ & E2 & E3)].
    - subst m' e'. rewrite E1. rewrite Z2Pos.id by lia.
      assert (Ep : (2 ^ (- e) = 2 * 2 ^ (- (e + 1)))%Z).
      { rewrite <- Z.pow_succ_r by lia. f_equal. lia. }
      rewrite Ep. change (2 ^ 53)%Z with (2 * 2 ^ 52)%Z.
      symmetry. apply Z.div_mul_cancel_l; [| lia].
      apply Z.pow_nonzero; lia.
    - subst m' e'. rewrite Z2Pos.id by lia. reflexivity. }
  assert (He' : (e' <= 0)%Z) by (destruct Hcase as [(_ & _ & ->) | (_ & _ & ->)]; lia).
  assert (Hup : (m / 2 ^ (- e) <= 2 ^ 52)%Z).
  { apply Z.div_le_upper_bound; [exact Hs | lia]. }
  rewrite to_int64_finite; [| exact He' | rewrite Hdiv; lia].
  rewrite Hdiv.
  pose proof (Qfloor_le q) as Hf1. pose proof (Qlt_floor q) as Hf2.
  rewrite inject_Z_plus in Hf2. change (inject_Z 1) with 1 in Hf2.
  assert (Hsq : 1 <= inject_Z (2 ^ (- e))).
  { change 1 with (inject_Z 1). rewrite <- Zle_Qle. lia. }
  assert (Hlow : (Qfloor q * 2 ^ (- e) <= m)%Z).
  { rewrite <- (round_half_even_Z (Qfloor q * 2 ^ (- e))). rewrite Hm.
    apply round_half_even_mono. rewrite inject_Z_mult. nra. }
  assert (Hhigh : (m <= (Qfloor q + 1) * 2 ^ (- e))%Z).
  { rewrite <- (round_half_even_Z ((Qfloor q + 1) * 2 ^ (- e))). rewrite Hm.
    apply round_half_even_mono. rewrite inject_Z_mult, inject_Z_plus.
    change (inject_Z 1) with 1. nra. }
  assert (Hfr : (Qfloor q <= round_half_away q)%Z).
  { rewrite <- (round_half_away_Z (Qfloor q)) at 1.
    apply round_half_away_mono. exact Hf1. }
  split.
  - apply Z.div_le_lower_bound; [exact Hs | lia].
  - destruct (Z.eq_dec m ((Qfloor q + 1) * 2 ^ (- e))) as [E | N].
    + rewrite E, Z.div_mul by lia.
      pose proof (round_half_even_upper (q * inject_Z (2 ^ (- e)))) as Hl.
      rewrite <- Hm, E, inject_Z_mult, inject_Z_plus in Hl.
      change (inject_Z 1) with 1 in Hl.
      assert (Hq : inject_Z (Qfloor q + 1) <= q + (1 # 2)).
      { rewrite inject_Z_plus. change (inject_Z 1) with 1. nra. }
      unfold round_half_away.
      assert (E0 : Qle_bool 0 q = true) by (apply Qle_bool_iff; lra).
      rewrite E0. rewrite <- (Qfloor_Z (Qfloor q + 1)).
      apply Qfloor_resp_le. exact Hq.
    + assert (m / 2 ^ (- e) < Qfloor q + 1)%Z
        by (apply Z.div_lt_upper_bound; [exact Hs | lia]).
      lia.
Qed.

Lemma f1_eq : f1 = S754_finite false 4503599627370496 (-52).
Proof. vm_compute. reflexivity. Qed.

(** Multiplying a float64 by 1.0 leaves it as it is. *)
Lemma mul_f1 x :
  valid_binary float64.prec float64.emax x = true -> float64.mul x f1 = x.
Proof.
  intro Hv. rewrite f1_eq. unfold float64.mul.
  destruct x as [s | s | | s m e]; cbn [SFmul];
    try (destruct s; reflexivity); try reflexivity.
  cbn [valid_binary] in Hv. unfold bounded, canonical_mantissa in Hv.
  apply andb_true_iff in Hv. destruct Hv as [Hc Hb].
  apply Z.eqb_eq in Hc.
  assert (Hd : Zdigits2 (Zpos (m * 4503599627370496))
               = (Zpos (digits2_pos m) + 52)%Z).
  { rewrite Pos.mul_comm. cbn [Pos.mul Zdigits2 digits2_pos]. lia. }
  assert (A : shr_fexp float64.prec float64.emax
                       (Zpos (m * 4503599627370496)) (e + -52) loc_Exact
              = ({| shr_m := Zpos m; shr_r := false; shr_s := false |}, e)).
  { unfold shr_fexp. rewrite Hd.
    replace (Zpos (digits2_pos m) + 52 + (e + -52))%Z
      with (Zpos (digits2_pos m) + e)%Z by lia.
    rewrite Hc. replace (e - (e + -52))%Z with 52%Z by lia.
    rewrite Pos.mul_comm. cbn. f_equal. lia. }
  assert (B : shr_fexp float64.prec float64.emax (Zpos m) e loc_Exact
              = ({| shr_m := Zpos m; shr_r := false; shr_s := false |}, e)).
  { unfold shr_fexp. cbn [Zdigits2]. rewrite Hc, Z.sub_diag. reflexivity. }
  unfold binary_round_aux. rewrite A.
  cbn [shr_m loc_of_shr_record round_nearest_even]. rewrite B.
  cbn [shr_m]. rewrite Hb. destruct s; reflexivity.
Qed.

End FloatFacts.

(** * The payment grows with the amount borrowed *)
Section PaymentMonotone.

Import financing.
Local Open Scope Q_scope.

Lemma DivRound_mono d1 e1 d2 e2 p :
  (0 <= p)%Z -> d1 / e1 <= d2 / e2 -> DivRound d1 e1 p <= DivRound d2 e2 p.
Proof.
  intros Hp H. rewrite !DivRound_correct.
  pose proof (pow10_pos p Hp) as Hpos.
  unfold Qdiv at 1 3. apply Qmult_le_compat_r.
  - rewrite <- Zle_Qle. apply round_half_away_mono.
    apply Qmult_le_compat_r; [exact H | lra].
  - apply Qlt_le_weak, Qinv_lt_0_compat, Hpos.
Qed.

Lemma DivRound_nonpos d d2 p : (0 <= p)%Z -> d / d2 <= 0 -> DivRound d d2 p <= 0.
Proof.
  intros Hp H. rewrite <- (DivRound_zero 0 1 p) by reflexivity.
  apply DivRound_mono; [exact Hp |].
  apply (Qle_trans _ 0); [exact H | apply Qle_refl].
Qed.

(** Two loans at the same rate over the same term: the one that borrows
    less pays less. *)
Lemma MonthlyPayment_monotone l1 l2 m1 m2 :
  Loan.InterestRate l1 = Loan.InterestRate l2 ->
  Loan.TermYears l1 = Loan.TermYears l2 ->
  0 <= LoanAmount l1 -> LoanAmount l1 <= LoanAmount l2 ->
  MonthlyPayment l1 = Ok m1 -> MonthlyPayment l2 = Ok m2 ->
  Abs m1 <= Abs m2.
Proof.
  intros Hi Ht H0 H12 E1 E2.
  rewrite MonthlyPayment_unfold in E1, E2.
  unfold monthlyRate, periods, growth, monthlyRate, periods in E1, E2.
  rewrite Hi, Ht in E1.
  fold (monthlyRate l2) in E1, E2. fold (periods l2) in E1, E2.
  fold (growth l2) in E1, E2.
  destruct (IsZero (monthlyRate l2) || (periods l2 =? 0)%Z).
  - inversion E1. inversion E2. apply Qle_refl.
  - unfold Div in E1, E2.
    destruct (IsZero (Sub (growth l2) (NewFromInt 1))); [discriminate |].
    inversion E1 as [M1]. inversion E2 as [M2]. clear E1 E2 M1 M2.
    set (c := monthlyRate l2 * growth l2 * / Sub (growth l2) (NewFromInt 1)).
    assert (Q1 : Mul (Mul (monthlyRate l2) (LoanAmount l1)) (growth l2)
                 / Sub (growth l2) (NewFromInt 1) == c * LoanAmount l1).
    { rewrite !Mul_correct. unfold c, Qdiv. ring. }
    assert (Q2 : Mul (Mul (monthlyRate l2) (LoanAmount l2)) (growth l2)
                 / Sub (growth l2) (NewFromInt 1) == c * LoanAmount l2).
    { rewrite !Mul_correct. unfold c, Qdiv. ring. }
    assert (Hp : (0 <= DivisionPrecision)%Z) by (unfold DivisionPrecision; lia).
    rewrite !Abs_correct.
    destruct (Qlt_le_dec c 0) as [Hc | Hc].
    + assert (Hle : DivRound (Mul (Mul (monthlyRate l2) (LoanAmount l2)) (growth l2))
                      (Sub (growth l2) (NewFromInt 1)) DivisionPrecision
                    <= DivRound (Mul (Mul (monthlyRate l2) (LoanAmount l1)) (growth l2))
                         (Sub (growth l2) (NewFromInt 1)) DivisionPrecision).
      { apply DivRound_mono; [exact Hp |]. rewrite Q1, Q2. nra. }
      assert (Hn : DivRound (Mul (Mul (monthlyRate l2) (LoanAmount l1)) (growth l2))
                     (Sub (growth l2) (NewFromInt 1)) DivisionPrecision <= 0).
      { apply DivRound_nonpos; [exact Hp |]. rewrite Q1. nra. }
      rewrite !Qabs_neg by lra. lra.
    + assert (Hle : DivRound (Mul (Mul (monthlyRate l2) (LoanAmount l1)) (growth l2))
                      (Sub (growth l2) (NewFromInt 1)) DivisionPrecision
                    <= DivRound (Mul (Mul (monthlyRate l2) (LoanAmount l2)) (growth l2))
                         (Sub (growth l2) (NewFromInt 1)) DivisionPrecision).
      { apply DivRound_mono; [exact Hp |]. rewrite Q1, Q2. nra. }
      assert (Hn : 0 <= DivRound (Mul (Mul (monthlyRate l2) (LoanAmount l1)) (growth l2))
                     (Sub (growth l2) (NewFromInt 1)) DivisionPrecision).
      { apply DivRound_nonneg; [| exact Hp]. rewrite Q1. nra. }
      rewrite !Qabs_pos by lra. lra.
Qed.

(** Whether the payment is defined depends on the rate and the term
    only. *)
Lemma MonthlyPayment_defined l1 l2 m2 :
  Loan.InterestRate l1 = Loan.InterestRate l2 ->
  Loan.TermYears l1 = Loan.TermYears l2 ->
  MonthlyPayment l2 = Ok m2 -> exists m1, MonthlyPayment l1 = Ok m1.
Proof.
  intros Hi Ht E2.
  rewrite MonthlyPayment_unfold in E2 |- *.
  unfold monthlyRate, periods, growth, monthlyRate, periods in E2 |- *.
  rewrite Hi, Ht.
  destruct (IsZero _ || _); [eexists; reflexivity |].
  unfold Div in E2 |- *.
  destruct (IsZero (Sub _ (NewFromInt 1))); [discriminate | eexists; reflexivity].
Qed.

End PaymentMonotone.

(** * Cash flow of a scenario as a function of the down payment *)
Section ScenarioCashFlow.

Import financing.
Local Open Scope Q_scope.

Variables (f : Financial.t) (rs : list float64.t).

Lemma scenarioCashFlow_at d :
  float64.eqb (InexactFloat64 d) f0 = false ->
  scenarioCashFlow f rs (testScenario f d)
  = cashFlowAt f rs (float64.to_int64 (InexactFloat64 d)).
Proof.
  intro Hnz. unfold scenarioCashFlow, cashFlowAt, scenarioLoan, loanOf, normalize.
  cbn [testScenario scenarioFinancial Scenario.RentMultiplier
       Scenario.DownPayment Scenario.InterestRate Scenario.LoanTerm
       Financial.DownPayment Financial.PurchasePrice Financial.LoanAmount
       Financial.InterestRate Financial.LoanTermYears Financial.Expenses].
  rewrite Hnz. cbn [andb].
  destruct (float64.eqb _ f0 && float64.ltb f0 _); reflexivity.
Qed.

Lemma scenarioLoan_inv k l :
  scenarioLoan f k = Ok l ->
  exists ir y,
    l = {| Loan.HomePrice := NewFromInt (float64.to_int64 (Financial.PurchasePrice f));
           Loan.DownPayment := NewFromInt k;
           Loan.InterestRate := ir;
           Loan.TermYears := y;
           Loan.EnableRounding := true;
           Loan.RoundingPlaces := 0;
           Loan.RoundingErrorTolerance := Zero |} /\
    forall k', scenarioLoan f k' =
               Ok {| Loan.HomePrice :=
                       NewFromInt (float64.to_int64 (Financial.PurchasePrice f));
                     Loan.DownPayment := NewFromInt k';
                     Loan.InterestRate := ir;
                     Loan.TermYears := y;
                     Loan.EnableRounding := true;
                     Loan.RoundingPlaces := 0;
                     Loan.RoundingErrorTolerance := Zero |}.
Proof.
  unfold scenarioLoan, NewLoan.
  destruct (LoanTerm.Years (Financial.LoanTermYears f)) as [y | e];
    [| discriminate].
  cbn [rbind]. destruct (y <=? 0)%Z; [discriminate |].
  destruct (NewInterestRate (InterestRatePercent f)) as [ir | e]; [| discriminate].
  cbn [rbind]. intro H. inversion H. exists ir, y. split; reflexivity.
Qed.

Lemma LoanAmount_scenario hp k ir y :
  LoanAmount {| Loan.HomePrice := NewFromInt hp;
                Loan.DownPayment := NewFromInt k;
                Loan.InterestRate := ir;
                Loan.TermYears := y;
                Loan.EnableRounding := true;
                Loan.RoundingPlaces := 0;
                Loan.RoundingErrorTolerance := Zero |}
  == inject_Z (hp - k).
Proof.
  unfold LoanAmount. cbn [Loan.HomePrice Loan.DownPayment].
  rewrite Sub_correct. unfold NewFromInt, Zminus.
  rewrite inject_Z_plus, inject_Z_opp. reflexivity.
Qed.

(** A larger down payment, up to the price, leaves a larger cash flow. *)
Lemma cashFlowAt_monotone k1 k2 c1 c2 :
  (k1 <= k2 <= float64.to_int64 (Financial.PurchasePrice f))%Z ->
  cashFlowAt f rs k1 = Ok c1 -> cashFlowAt f rs k2 = Ok c2 -> c1 <= c2.
Proof.
  intros Hk. unfold cashFlowAt.
  destruct (sumFloats _ Zero) as [income | e]; [| discriminate].
  destruct (NewFromFloat _) as [expenses | e]; [| discriminate].
  cbn [rbind].
  destruct (scenarioLoan f k1) as [l1 | e] eqn:E1; [| discriminate].
  destruct (scenarioLoan_inv k1 l1 E1) as (ir & y & -> & Hl).
  rewrite (Hl k2). cbn [rbind].
  match goal with
  | |- context [MonthlyPayment ?l1] =>
      destruct (MonthlyPayment l1) as [m1 | e] eqn:M1; [| discriminate]
  end.
  match goal with
  | |- context [MonthlyPayment ?l2] =>
      destruct (MonthlyPayment l2) as [m2 | e] eqn:M2; [| intros _; discriminate]
  end.
  cbn [rbind]. intros H1 H2. inversion H1. inversion H2.
  assert (Hm : Abs m2 <= Abs m1).
  { eapply MonthlyPayment_monotone; [| | | | exact M2 | exact M1];
      try reflexivity; rewrite !LoanAmount_scenario.
    - change 0 with (inject_Z 0). rewrite <- Zle_Qle. lia.
    - rewrite <- Zle_Qle. lia. }
  rewrite !Sub_correct. lra.
Qed.

Lemma cashFlowAt_defined k1 k2 c1 :
  cashFlowAt f rs k1 = Ok c1 -> exists c2, cashFlowAt f rs k2 = Ok c2.
Proof.
  unfold cashFlowAt.
  destruct (sumFloats _ Zero) as [income | e]; [| discriminate].
  destruct (NewFromFloat _) as [expenses | e]; [| discriminate].
  cbn [rbind].
  destruct (scenarioLoan f k1) as [l1 | e] eqn:E1; [| discriminate].
  destruct (scenarioLoan_inv k1 l1 E1) as (ir & y & -> & Hl).
  rewrite (Hl k2). cbn [rbind].
  match goal with
  | |- rbind (MonthlyPayment ?a) _ = _ ->
       exists c2, rbind (MonthlyPayment ?b) _ = _ =>
      destruct (MonthlyPayment a) as [m1 | e] eqn:M1; [| discriminate];
      intros _;
      destruct (MonthlyPayment_defined b a m1 eq_refl eq_refl M1) as [m2 E2];
      rewrite E2
  end.
  cbn [rbind]. eexists. reflexivity.
Qed.

End ScenarioCashFlow.

(** * The bounds of the break-even search *)
Section BreakEvenBounds.

Import financing.
Local Open Scope Q_scope.

Lemma map_mul_f1 rs :
  Forall (fun r => valid_binary float64.prec float64.emax r = true) rs ->
  map (fun r => float64.mul r f1) rs = rs.
Proof.
  induction 1 as [| r rs Hr _ IH]; [reflexivity |].
  cbn [map]. rewrite (mul_f1 r Hr), IH. reflexivity.
Qed.

(** Bought without a loan, the property leaves its income less its
    expenses. *)
Lemma cashFlowAt_full f rs income expenses c :
  Forall (fun r => valid_binary float64.prec float64.emax r = true) rs ->
  sumFloats rs Zero = Ok income ->
  NewFromFloat (TotalMonthly (Financial.Expenses f)) = Ok expenses ->
  cashFlowAt f rs (float64.to_int64 (Financial.PurchasePrice f)) = Ok c ->
  c == income - expenses.
Proof.
  intros Hv Hi He. unfold cashFlowAt.
  rewrite (map_mul_f1 rs Hv), Hi, He. cbn [rbind].
  destruct (scenarioLoan f _) as [l | e] eqn:El; [| discriminate].
  destruct (scenarioLoan_inv f _ l El) as (ir & y & -> & _). cbn [rbind].
  match goal with
  | |- context [MonthlyPayment ?l] =>
      destruct (MonthlyPayment l) as [m | e] eqn:M; [| discriminate];
      pose proof (LoanAmount_scenario
                    (float64.to_int64 (Financial.PurchasePrice f))
                    (float64.to_int64 (Financial.PurchasePrice f))
                    ir y) as HP;
      rewrite MonthlyPayment_unfold in M
  end.
  rewrite Z.sub_diag in HP.
  cbn [rbind]. intro H. inversion H as [Hc]. clear H Hc.
  assert (Hm : m == 0).
  { destruct (IsZero _ || _) in M.
    - inversion M. reflexivity.
    - unfold Div in M. destruct (IsZero (Sub _ _)) in M; [discriminate |].
      inversion M. apply DivRound_zero.
      rewrite !Mul_correct, HP. change (inject_Z 0) with 0. ring. }
  rewrite !Sub_correct, Abs_correct, Hm. change (Qabs 0) with 0. ring.
Qed.

Lemma DivRound_Z z p : (0 <= p)%Z -> DivRound (inject_Z z) 1 p == inject_Z z.
Proof.
  intro Hp. rewrite DivRound_correct.
  pose proof (pow10_pos p Hp) as Hpos.
  rewrite (round_half_away_comp _ (inject_Z (z * 10 ^ p))).
  - rewrite round_half_away_Z, inject_Z_mult. fold (pow10 p).
    field. lra.
  - rewrite inject_Z_mult. fold (pow10 p). field.
Qed.

Lemma Qfloor_inject q z : q == inject_Z z -> Qfloor q = z.
Proof. intro H. rewrite (Qfloor_comp _ _ H). apply Qfloor_Z. Qed.

Lemma round_half_away_inject q z : q == inject_Z z -> round_half_away q = z.
Proof.
  intro H. rewrite (round_half_away_comp _ _ H). apply round_half_away_Z.
Qed.

(** A whole amount in [[1, 2^52)] survives the trip through float64. *)
Lemma to_int64_whole q z :
  q == inject_Z z -> (1 <= z < 2 ^ 52)%Z ->
  float64.to_int64 (InexactFloat64 q) = z /\
  float64.eqb (InexactFloat64 q) f0 = false.
Proof.
  intros H Hz. unfold InexactFloat64.
  assert (H1 : 1 <= q).
  { rewrite H. change 1 with (inject_Z 1). rewrite <- Zle_Qle. lia. }
  assert (H2 : q < inject_Z (2 ^ 52)).
  { rewrite H. rewrite <- Zlt_Qlt. lia. }
  destruct (to_int64_of_Q q H1 H2) as [Hb Hnz]. split; [| exact Hnz].
  rewrite (Qfloor_inject q z H), (round_half_away_inject q z H) in Hb. lia.
Qed.

Lemma midpoint_range low high price :
  0 <= low -> low <= inject_Z price -> high <= inject_Z price ->
  100 < Sub high low ->
  let mid := DivRound (Add low high) (NewFromInt 2) DivisionPrecision in
  1 <= mid /\ mid <= inject_Z price.
Proof.
  intros Hl0 Hl Hh Hw mid. rewrite Sub_correct in Hw.
  assert (Hp : (0 <= DivisionPrecision)%Z) by (unfold DivisionPrecision; lia).
  assert (Hq : Add low high / NewFromInt 2 == (low + high) * (1 # 2)).
  { rewrite Add_correct. reflexivity. }
  split.
  - rewrite <- (DivRound_Z 1 DivisionPrecision Hp).
    apply DivRound_mono; [exact Hp |]. rewrite Hq.
    change (inject_Z 1 / 1) with 1. lra.
  - rewrite <- (DivRound_Z price DivisionPrecision Hp).
    apply DivRound_mono; [exact Hp |]. rewrite Hq.
    unfold Qdiv. change (/ 1) with 1. lra.
Qed.

Variables (f : Financial.t) (rs : list float64.t) (price : Z).
Hypothesis Hprice : (1 <= price < 2 ^ 52)%Z.

Lemma tested_at d :
  1 <= d -> d <= inject_Z price ->
  scenarioCashFlow f rs (testScenario f d)
  = cashFlowAt f rs (float64.to_int64 (InexactFloat64 d)) /\
  (Qfloor d <= float64.to_int64 (InexactFloat64 d) <= round_half_away d)%Z.
Proof.
  intros H1 H2.
  assert (H3 : d < inject_Z (2 ^ 52)).
  { apply (Qle_lt_trans _ _ _ H2). rewrite <- Zlt_Qlt. lia. }
  destruct (to_int64_of_Q d H1 H3) as [Hb Hnz].
  split; [apply scenarioCashFlow_at; exact Hnz | exact Hb].
Qed.

(** Each step of the search keeps [searchBounds]. *)
Lemma searchBounds_step low high cf :
  searchBounds f rs price low high -> 100 < Sub high low ->
  scenarioCashFlow f rs
    (testScenario f (DivRound (Add low high) (NewFromInt 2) DivisionPrecision))
  = Ok cf ->
  (0 < cf ->
   searchBounds f rs price low
                (DivRound (Add low high) (NewFromInt 2) DivisionPrecision)) /\
  (cf <= 0 ->
   searchBounds f rs price
                (DivRound (Add low high) (NewFromInt 2) DivisionPrecision) high).
Proof.
  intros (Hl0 & Hl & Hh0 & Hh & Hlow & Hhigh) Hw Hcf.
  destruct (midpoint_range low high price Hl0 Hl Hh Hw) as [Hm1 Hm2].
  destruct (tested_at _ Hm1 Hm2) as [Eat _]. rewrite Eat in Hcf.
  split; intro Hs; unfold searchBounds.
  - repeat (split; [assumption || lra |]).
    right. split; [exact Hm1 |]. exists cf. split; assumption.
  - split; [lra |]. split; [exact Hm2 |]. split; [exact Hh0 |].
    split; [exact Hh |]. split; [| exact Hhigh].
    right. split; [exact Hm1 |]. exists cf. split; assumption.
Qed.

Hypothesis Hwhole : float64.to_int64 (Financial.PurchasePrice f) = price.

(** What the final bounds say of the rounded upper bound. *)
Lemma searchBounds_result low high income expenses c0 :
  searchBounds f rs price low high -> Sub high low <= 100 ->
  Forall (fun r => valid_binary float64.prec float64.emax r = true) rs ->
  sumFloats rs Zero = Ok income ->
  NewFromFloat (TotalMonthly (Financial.Expenses f)) = Ok expenses ->
  expenses < income ->
  cashFlowAt f rs price = Ok c0 ->
  exists d : Z,
    Round high 0 == inject_Z d /\ (1 <= d <= price)%Z /\
    (exists cf, scenarioCashFlow f rs (testScenario f (Round high 0)) = Ok cf /\
                0 < cf) /\
    ((101 < d)%Z ->
     exists cf,
       scenarioCashFlow f rs
         (testScenario f (Sub (Round high 0) (NewFromInt 101))) = Ok cf /\
       cf <= 0).
Proof.
  intros (Hl0 & Hl & Hh0 & Hh & Hlow & Hhigh) Hw Hv Hi He Hav Hc0.
  rewrite Sub_correct in Hw.
  pose proof (Round_0_correct high) as HD.
  set (d := round_half_away high) in *.
  assert (Hd2 : (d <= price)%Z).
  { unfold d. rewrite <- (round_half_away_Z price).
    apply round_half_away_mono, Hh. }
  assert (Hh1 : 1 <= high).
  { destruct Hhigh as [E | [H1 _]]; [| exact H1].
    rewrite E. change 1 with (inject_Z 1). rewrite <- Zle_Qle. lia. }
  assert (Hd1 : (1 <= d)%Z).
  { unfold d. rewrite <- (round_half_away_Z 1).
    apply round_half_away_mono, Hh1. }
  exists d. split; [exact HD |]. split; [lia |].
  destruct (to_int64_whole (Round high 0) d HD ltac:(lia)) as [KD ND].
  split.
  - rewrite (scenarioCashFlow_at f rs _ ND), KD.
    destruct Hhigh as [E | (_ & c & Hc & Hpos)].
    + assert (Ed : d = price).
      { unfold d. apply round_half_away_inject, E. }
      rewrite Ed. exists c0. split; [exact Hc0 |].
      rewrite <- Hwhole in Hc0.
      rewrite (cashFlowAt_full f rs income expenses c0 Hv Hi He Hc0). lra.
    + destruct (tested_at high Hh1 Hh) as [_ [_ Kh]]. fold d in Kh.
      destruct (cashFlowAt_defined f rs _ d c Hc) as [c2 Hc2].
      exists c2. split; [exact Hc2 |].
      apply (Qlt_le_trans _ c); [exact Hpos |].
      apply (cashFlowAt_monotone f rs
               (float64.to_int64 (InexactFloat64 high)) d c c2);
        [| exact Hc | exact Hc2].
      rewrite Hwhole. lia.
  - intro Hd.
    assert (E101 : Sub (Round high 0) (NewFromInt 101) == inject_Z (d - 101)).
    { rewrite Sub_correct, HD. unfold NewFromInt, Zminus.
      rewrite inject_Z_plus, inject_Z_opp. reflexivity. }
    destruct (to_int64_whole _ (d - 101)%Z E101 ltac:(lia)) as [K N].
    rewrite (scenarioCashFlow_at f rs _ N), K.
    pose proof (round_half_away_bounds high) as [_ Hup]. fold d in Hup.
    destruct Hlow as [E | (Hl1 & c & Hc & Hneg)].
    + exfalso.
      assert (Hle : (d <= 100)%Z).
      { unfold d. rewrite <- (round_half_away_Z 100).
        apply round_half_away_mono. change (inject_Z 100) with 100. lra. }
      lia.
    + destruct (tested_at low Hl1 Hl) as [_ [Kl1 Kl2]].
      destruct (cashFlowAt_defined f rs _ (d - 101)%Z c Hc) as [c2 Hc2].
      exists c2. split; [exact Hc2 |].
      apply (Qle_trans _ c); [| exact Hneg].
      apply (cashFlowAt_monotone f rs (d - 101)%Z
               (float64.to_int64 (InexactFloat64 low)) c2 c);
        [| exact Hc2 | exact Hc].
      rewrite Hwhole. split.
      * apply (Z.le_trans _ (Qfloor low)); [| exact Kl1].
        rewrite <- (Qfloor_Z (d - 101)). apply Qfloor_resp_le.
        unfold Zminus. rewrite inject_Z_plus, inject_Z_opp.
        change (inject_Z 101) with 101. lra.
      * apply (Z.le_trans _ (round_half_away low)); [exact Kl2 |].
        rewrite <- (round_half_away_Z price).
        apply round_half_away_mono, Hl.
Qed.

End BreakEvenBounds.
(** * Finiteness of float64 differences *)
Section FloatFinite.

Local Open Scope Z_scope.

Lemma Zdigits2_log2 (p : positive) :
  Zdigits2 (Zpos p) = Z.log2 (Zpos p) + 1.
Proof.
  cbn [Zdigits2].
  destruct p as [q | q |]; cbn [digits2_pos Z.log2]; try reflexivity.
  - assert (E : forall r, digits2_pos r = Pos.size r)
      by (induction r as [r IH | r IH |]; cbn; try rewrite IH; reflexivity).
    rewrite E. lia.
  - assert (E : forall r, digits2_pos r = Pos.size r)
      by (induction r as [r IH | r IH |]; cbn; try rewrite IH; reflexivity).
    rewrite E. lia.
Qed.

Lemma Zdigits2_nonneg z : 0 <= Zdigits2 z.
Proof. destruct z; cbn; lia. Qed.

(** A number below [2^k] in absolute value has at most [k] digits. *)
Lemma Zdigits2_bound z k : 0 <= k -> Z.abs z < 2 ^ k -> Zdigits2 z <= k.
Proof.
  intros Hk H. destruct z as [| p | p]; [cbn; lia | |].
  - rewrite Zdigits2_log2.
    assert (Z.log2 (Zpos p) < k) by (apply Z.log2_lt_pow2; lia). lia.
  - change (Zdigits2 (Zneg p)) with (Zdigits2 (Zpos p)).
    rewrite Zdigits2_log2.
    assert (Z.log2 (Zpos p) < k) by (apply Z.log2_lt_pow2; lia). lia.
Qed.

Lemma Zdigits2_spec (p : positive) : Zpos p < 2 ^ Zdigits2 (Zpos p).
Proof.
  rewrite Zdigits2_log2.
  pose proof (Z.log2_spec (Zpos p) ltac:(lia)) as [_ H].
  replace (Z.log2 (Zpos p) + 1) with (Z.succ (Z.log2 (Zpos p))) by lia.
  exact H.
Qed.

Lemma Zdigits2_lower (p : positive) : 2 ^ (Zdigits2 (Zpos p) - 1) <= Zpos p.
Proof.
  rewrite Zdigits2_log2.
  pose proof (Z.log2_spec (Zpos p) ltac:(lia)) as [H _].
  replace (Z.log2 (Zpos p) + 1 - 1) with (Z.log2 (Zpos p)) by lia.
  exact H.
Qed.

(** One step of the right shift keeps the mantissa non-negative and does
    not lengthen it. *)
Lemma shr_1_bound mrs D :
  0 <= shr_m mrs /\ Zdigits2 (shr_m mrs) <= D ->
  0 <= shr_m (shr_1 mrs) /\ Zdigits2 (shr_m (shr_1 mrs)) <= D.
Proof.
  destruct mrs as [m r s]. cbn [shr_m]. intros [H0 HD].
  destruct m as [| p | p]; [cbn; split; [lia | exact HD] | | lia].
  destruct p as [q | q |]; cbn [shr_1 shr_m orb].
  - split; [lia |]. cbn [Zdigits2 digits2_pos] in HD |- *. lia.
  - split; [lia |]. cbn [Zdigits2 digits2_pos] in HD |- *. lia.
  - split; [lia |]. cbn in HD |- *. lia.
Qed.

Lemma iter_pos_invariant {A} (f : A -> A) (I : A -> Prop) :
  (forall x, I x -> I (f x)) ->
  forall n x, I x -> I (iter_pos f n x).
Proof.
  intro Hf. induction n as [n IH | n IH |]; intros x Hx; cbn [iter_pos].
  - apply IH, IH, Hf, Hx.
  - apply IH, IH, Hx.
  - apply Hf, Hx.
Qed.

(** The shift to the exponent that the format asks for. *)
Lemma shr_fexp_bound m e l mrs' e' :
  0 <= m ->
  shr_fexp float64.prec float64.emax m e l = (mrs', e') ->
  0 <= shr_m mrs' /\ Zdigits2 (shr_m mrs') <= Zdigits2 m /\
  e' <= Z.max e (fexp float64.prec float64.emax (Zdigits2 m + e)).
Proof.
  intros H0. unfold shr_fexp, shr.
  assert (Hrec : 0 <= shr_m (shr_record_of_loc m l) /\
                 Zdigits2 (shr_m (shr_record_of_loc m l)) <= Zdigits2 m).
  { destruct l as [| []]; cbn [shr_record_of_loc shr_m]; split; lia. }
  destruct (fexp float64.prec float64.emax (Zdigits2 m + e) - e) as [| n | n] eqn:En;
    intro H; inversion H; subst mrs' e'.
  - destruct Hrec. split; [assumption |]. split; [assumption | lia].
  - pose proof (iter_pos_invariant shr_1
                  (fun x => 0 <= shr_m x /\ Zdigits2 (shr_m x) <= Zdigits2 m)
                  (fun x Hx => shr_1_bound x _ Hx) n _ Hrec) as [Ha Hb].
    split; [exact Ha |]. split; [exact Hb | lia].
  - destruct Hrec. split; [assumption |]. split; [assumption | lia].
Qed.

Lemma round_nearest_even_bound m l :
  0 <= m ->
  0 <= round_nearest_even m l /\
  Zdigits2 (round_nearest_even m l) <= Zdigits2 m + 1.
Proof.
  intro H0.
  assert (H1 : Zdigits2 (m + 1) <= Zdigits2 m + 1).
  { destruct m as [| p | p]; [cbn; lia | | lia].
    apply Zdigits2_bound; [pose proof (Zdigits2_nonneg (Zpos p)); lia |].
    pose proof (Zdigits2_spec p) as Hs.
    rewrite Z.pow_add_r by (pose proof (Zdigits2_nonneg (Zpos p)); lia).
    rewrite Z.abs_eq by lia. lia. }
  destruct l as [| []]; cbn [round_nearest_even];
    try (split; lia).
  - destruct (Z.even m); split; lia.
Qed.

(** Rounding gives a finite result for a mantissa and an exponent that
    are far from the largest float64. *)
Lemma binary_round_aux_finite sx mx ex lx :
  0 <= mx -> Zdigits2 mx <= 300 -> ex <= 300 ->
  float64.is_finite (binary_round_aux float64.prec float64.emax sx mx ex lx) = true.
Proof.
  intros H0 HD He. unfold binary_round_aux.
  destruct (shr_fexp float64.prec float64.emax mx ex lx) as [mrs' e'] eqn:E1.
  destruct (shr_fexp_bound mx ex lx mrs' e' H0 E1) as (Ha & Hb & Hc).
  destruct (round_nearest_even_bound (shr_m mrs') (loc_of_shr_record mrs') Ha)
    as [Hr0 Hr1].
  destruct (shr_fexp float64.prec float64.emax
              (round_nearest_even (shr_m mrs') (loc_of_shr_record mrs')) e'
              loc_Exact) as [mrs'' e''] eqn:E2.
  destruct (shr_fexp_bound _ e' loc_Exact mrs'' e'' Hr0 E2) as (Ha' & Hb' & Hc').
  unfold fexp, emin, float64.prec, float64.emax in *.
  destruct (shr_m mrs'') as [| m | m]; [reflexivity | | lia].
  assert (E : (e'' <=? 1024 - 53) = true) by (apply Z.leb_le; lia).
  rewrite E. reflexivity.
Qed.

Lemma digits2_pos_shift (m d : positive) :
  Zpos (digits2_pos (Pos.iter xO m d)) = Zpos (digits2_pos m) + Zpos d.
Proof.
  induction d as [| d IH] using Pos.peano_ind.
  - cbn [Pos.iter digits2_pos]. lia.
  - rewrite Pos.iter_succ. cbn [digits2_pos]. lia.
Qed.

Lemma binary_round_finite sx mx ex :
  Zdigits2 (Zpos mx) <= 300 -> ex <= 300 ->
  float64.is_finite (binary_round float64.prec float64.emax sx mx ex) = true.
Proof.
  intros HD He. unfold binary_round, shl_align.
  destruct (fexp float64.prec float64.emax (Zpos (digits2_pos mx) + ex) - ex)
    as [| d | d] eqn:Ed.
  - apply binary_round_aux_finite; [lia | exact HD | exact He].
  - apply binary_round_aux_finite; [lia | exact HD | exact He].
  - apply binary_round_aux_finite; [lia | |].
    + cbn [Zdigits2] in HD |- *. rewrite digits2_pos_shift.
      unfold fexp, emin, float64.prec, float64.emax in Ed. lia.
    + unfold fexp, emin, float64.prec, float64.emax in *. lia.
Qed.

Lemma binary_normalize_finite m e szero :
  Zdigits2 m <= 300 -> e <= 300 ->
  float64.is_finite (binary_normalize float64.prec float64.emax m e szero) = true.
Proof.
  intros HD He. destruct m as [| p | p]; cbn [binary_normalize].
  - reflexivity.
  - apply binary_round_finite; assumption.
  - apply binary_round_finite; assumption.
Qed.

(** The mantissa that [shl_align] brings to a smaller exponent. *)
Lemma shl_align_digits mx ex ez :
  ez <= ex ->
  Zdigits2 (Zpos (fst (shl_align mx ex ez))) = Zdigits2 (Zpos mx) + (ex - ez).
Proof.
  intro H. unfold shl_align.
  destruct (ez - ex) as [| d | d] eqn:Ed; cbn [fst Zdigits2]; try lia.
  rewrite digits2_pos_shift. lia.
Qed.

(** The difference of two finite floats of moderate size is finite. *)
Lemma sub_finite sx mx ex sy my ey :
  Zdigits2 (Zpos mx) <= 120 -> Zdigits2 (Zpos my) <= 120 ->
  -60 <= ex <= 60 -> -60 <= ey <= 60 ->
  float64.is_finite
    (float64.sub (S754_finite sx mx ex) (S754_finite sy my ey)) = true.
Proof.
  intros Hx Hy Hex Hey. unfold float64.sub. cbn [SFsub].
  set (ez := Z.min ex ey).
  set (A := fst (shl_align mx ex ez)). set (B := fst (shl_align my ey ez)).
  assert (HA : Zdigits2 (Zpos A) <= 240).
  { unfold A. rewrite shl_align_digits by (unfold ez; lia). unfold ez. lia. }
  assert (HB : Zdigits2 (Zpos B) <= 240).
  { unfold B. rewrite shl_align_digits by (unfold ez; lia). unfold ez. lia. }
  assert (PA : Zpos A < 2 ^ 240).
  { apply (Z.lt_le_trans _ _ _ (Zdigits2_spec A)).
    apply Z.pow_le_mono_r; lia. }
  assert (PB : Zpos B < 2 ^ 240).
  { apply (Z.lt_le_trans _ _ _ (Zdigits2_spec B)).
    apply Z.pow_le_mono_r; lia. }
  apply binary_normalize_finite; [| unfold ez; lia].
  apply (Z.le_trans _ 241); [| lia].
  apply Zdigits2_bound; [lia |].
  change (2 ^ 241) with (2 ^ 240 + 2 ^ 240).
  destruct sx, sy; cbn [cond_Zopp]; lia.
Qed.

(** A float64 value whose integer part lies in [[1, 2^52)]. *)
Lemma whole_float_shape x price :
  valid_binary float64.prec float64.emax x = true ->
  float64.to_int64 x = price -> 1 <= price < 2 ^ 52 ->
  exists m e, x = S754_finite false m e /\
              Zdigits2 (Zpos m) <= 53 /\ -60 <= e <= 60.
Proof.
  intros Hv Hi Hp.
  destruct x as [s | s | | s m e]; cbn [float64.to_int64] in Hi;
    try (unfold float64.min_int64 in Hi; lia).
  cbn [valid_binary] in Hv. unfold bounded, canonical_mantissa in Hv.
  apply andb_true_iff in Hv. destruct Hv as [Hc Hb].
  apply Z.eqb_eq in Hc. apply Z.leb_le in Hb.
  unfold fexp, emin, float64.prec, float64.emax in Hc, Hb.
  assert (HD : Zdigits2 (Zpos m) <= 53) by (cbn [Zdigits2]; lia).
  pose proof (Zdigits2_spec m) as Hs.
  assert (Hs53 : Zpos m < 2 ^ 53).
  { apply (Z.lt_le_trans _ _ _ Hs). apply Z.pow_le_mono_r; lia. }
  set (a := match e with
            | 0 => Zpos m
            | Zpos _ => Zpos m * 2 ^ e
            | Zneg _ => Z.shiftr (Zpos m) (- e)
            end) in Hi.
  assert (Ha0 : 0 <= a).
  { unfold a. destruct e as [| q | q]; [lia | |].
    - apply Z.mul_nonneg_nonneg; [lia | apply Z.pow_nonneg; lia].
    - apply Z.shiftr_nonneg. lia. }
  destruct s.
  { exfalso.
    destruct ((float64.min_int64 <=? - a) && (- a <? 2 ^ 63));
      unfold float64.min_int64 in Hi; lia. }
  assert (Ea : a = price).
  { destruct ((float64.min_int64 <=? a) && (a <? 2 ^ 63));
      [exact Hi | unfold float64.min_int64 in Hi; lia]. }
  exists m, e. split; [reflexivity |]. split; [exact HD |].
  unfold a in Ea. destruct e as [| q | q]; [lia | |].
  - assert (H2 : 2 ^ Zpos q <= Zpos m * 2 ^ Zpos q).
    { assert (0 < 2 ^ Zpos q) by (apply Z.pow_pos_nonneg; lia). nia. }
    assert (Hq : Zpos q < 52).
    { apply (Z.pow_lt_mono_r_iff 2); lia. }
    lia.
  - rewrite Z.shiftr_div_pow2 in Ea by lia.
    assert (Hpow : 0 < 2 ^ (- Zneg q)) by (apply Z.pow_pos_nonneg; lia).
    assert (Hge : 2 ^ (- Zneg q) <= Zpos m).
    { destruct (Z_lt_le_dec (Zpos m) (2 ^ (- Zneg q))) as [Hlt | Hle];
        [| exact Hle].
      rewrite Z.div_small in Ea by lia. lia. }
    assert (Hq : - Zneg q < 53).
    { apply (Z.pow_lt_mono_r_iff 2); lia. }
    lia.
Qed.

(** The float64 of a rational in [[1, 2^52)]. *)
Lemma of_Q_shape q :
  (1 <= q)%Q -> (q < inject_Z (2 ^ 52))%Q ->
  exists m e, float64.of_Q q = S754_finite false m e /\
              Zdigits2 (Zpos m) <= 120 /\ -60 <= e <= 60.
Proof.
  intros H1 H2.
  destruct (of_Q_finite q H1 H2) as (e & m & m' & e' & He & _ & Hc & Hm & E).
  exists (Z.to_pos m'), e'. split; [exact E |].
  assert (Hpow : 2 ^ (- e) <= 2 ^ 53) by (apply Z.pow_le_mono_r; lia).
  assert (Hm' : 1 <= m' <= 2 ^ 105).
  { change (2 ^ 105) with (2 ^ 52 * 2 ^ 53).
    destruct Hc as [(_ & -> & _) | (_ & -> & _)]; [lia | nia]. }
  split; [| destruct Hc as [(_ & _ & ->) | (_ & _ & ->)]; lia].
  apply Zdigits2_bound; [lia |].
  rewrite Z2Pos.id by lia. rewrite Z.abs_eq by lia.
  apply (Z.le_lt_trans _ (2 ^ 105)); [lia |].
  apply Z.pow_lt_mono_r; lia.
Qed.

(** The loan amount of a tested scenario is a finite float64. *)
Lemma sub_price_finite x price q :
  valid_binary float64.prec float64.emax x = true ->
  float64.to_int64 x = price -> 1 <= price < 2 ^ 52 ->
  (1 <= q)%Q -> (q < inject_Z (2 ^ 52))%Q ->
  float64.is_finite (float64.sub x (float64.of_Q q)) = true.
Proof.
  intros Hv Hi Hp H1 H2.
  destruct (whole_float_shape x price Hv Hi Hp) as (mx & ex & -> & Hx & Hex).
  destruct (of_Q_shape q H1 H2) as (my & ey & -> & Hy & Hey).
  apply sub_finite; lia.
Qed.

End FloatFinite.
(** * Every scenario of the break-even search runs *)
Section ScenarioRuns.

Local Open Scope nat_scope.
Local Open Scope heap_scope.

(** The loop of [analyzeScenario] runs through when the base units are
    allocated. *)
Lemma scenario_units_loop_Ok multiplier mpa : forall us loaded hc mp,
  Forall2 (fun ua unit => nth_error (units hc) ua = Some unit) us loaded ->
  nth_error (properties hc) mpa = Some mp ->
  exists h3,
    forRange us
      (fun _ ua =>
         unit <- loadUnit ua ;;
         modifiedUnit <-
           newUnit {| Unit.Uuid := Unit.Uuid unit;
                      Unit.Name := Unit.Name unit;
                      Unit.Bedrooms := Unit.Bedrooms unit;
                      Unit.Bathrooms := Unit.Bathrooms unit;
                      Unit.Size := Unit.Size unit;
                      Unit.Rent := float64.mul (Unit.Rent unit) multiplier;
                      Unit.Occupied := Unit.Occupied unit |} ;;
         mp <- loadProperty mpa ;;
         storeProperty mpa
           {| Property.PropertyName := Property.PropertyName mp;
              Property.Address := Property.Address mp;
              Property.City := Property.City mp;
              Property.State := Property.State mp;
              Property.ZipCode := Property.ZipCode mp;
              Property.County := Property.County mp;
              Property.YearBuilt := Property.YearBuilt mp;
              Property.NumberOfUnits := Property.NumberOfUnits mp;
              Property.BuildingSF := Property.BuildingSF mp;
              Property.LotSF := Property.LotSF mp;
              Property.Units := Property.Units mp ++ [modifiedUnit];
              Property.Financial := Property.Financial mp |})
      tt hc = Ok (tt, h3).
Proof.
  induction us as [| ua us IH]; intros loaded hc mp HF Hmp.
  - exists hc. reflexivity.
  - inversion HF as [| ? unit ? loaded' Hu HF']; subst.
    cbn [forRange].
    erewrite bind_Ok.
    2:{ erewrite bind_Ok; [| apply load_Ok; exact Hu].
        erewrite bind_Ok; [| unfold newUnit; reflexivity].
        erewrite bind_Ok; [| apply load_Ok; cbn [properties]; exact Hmp].
        unfold storeProperty. cbn [properties units financials].
        rewrite Hmp. reflexivity. }
    eapply (IH loaded').
    + cbn [units]. clear -HF'. induction HF'; constructor; auto.
      apply nth_error_app_old. assumption.
    + cbn [properties]. apply nth_error_update_same.
      apply nth_error_Some. congruence.
Qed.

(** A scenario whose figures are all defined is analysed without a
    panic. *)
Lemma analyzeScenario_Ok p scenario h prop f rs cf ae :
  nth_error (properties h) p = Some prop ->
  nth_error (financials h) (Property.Financial prop) = Some f ->
  rentsAt h (Property.Units prop) = Some rs ->
  scenarioCashFlow f rs scenario = Ok cf ->
  NewFromFloat (TotalYearly (Financial.Expenses f)) = Ok ae ->
  float64.is_finite
    (Financial.PurchasePrice (normalize (scenarioFinancial f scenario))) = true ->
  float64.is_finite
    (Financial.DownPayment (normalize (scenarioFinancial f scenario))) = true ->
  float64.is_finite
    (Financial.LoanAmount (normalize (scenarioFinancial f scenario))) = true ->
  float64.is_finite
    (InterestRatePercent (normalize (scenarioFinancial f scenario))) = true ->
  exists result h', analyzeScenario p scenario h = Ok (result, h').
Proof.
  intros Hprop Hf Hrs Hcf Hae Fpp Fdp Fla Fir.
  unfold scenarioCashFlow in Hcf.
  destruct (sumFloats _ Zero) as [income | e] eqn:Hsum; [| discriminate].
  destruct (NewFromFloat (TotalMonthly _)) as [me | e] eqn:Hme; [| discriminate].
  cbn [rbind] in Hcf.
  destruct (loanOf _) as [loan | e] eqn:Hloan; [| discriminate].
  cbn [rbind] in Hcf.
  destruct (MonthlyPayment loan) as [pay | e] eqn:Hpay; [| discriminate].
  clear Hcf.
  destruct (NewFromFloat_finite _ Fpp) as [pp Hpp].
  destruct (NewFromFloat_finite _ Fdp) as [dp Hdp].
  destruct (NewFromFloat_finite _ Fla) as [la Hla].
  destruct (NewFromFloat_finite _ Fir) as [ir Hir].
  destruct (rentsAt_Forall2 _ _ _ Hrs) as (loaded & HF & Hmap).
  unfold analyzeScenario.
  erewrite bind_Ok; [| apply load_Ok; exact Hprop].
  erewrite bind_Ok; [| apply load_Ok; exact Hf].
  erewrite bind_Ok; [| unfold newFinancial; reflexivity].
  erewrite bind_Ok; [| unfold newProperty; reflexivity].
  cbn [properties units financials].
  match goal with
  | |- context [bind (forRange _ _ tt) _ ?hc] => set (h2 := hc)
  end.
  assert (HF2 : Forall2 (fun ua unit => nth_error (units h2) ua = Some unit)
                        (Property.Units prop) loaded) by exact HF.
  eassert (Hmp2 : nth_error (properties h2) (List.length (properties h))
                  = Some _).
  { unfold h2. cbn [properties]. rewrite nth_error_app2 by lia.
    rewrite Nat.sub_diag. reflexivity. }
  destruct (scenario_units_loop_Ok (Scenario.RentMultiplier scenario) _ _ _ _ _
              HF2 Hmp2) as [h3 Hloop].
  rewrite (bind_Ok _ _ _ _ _ Hloop).
  destruct (scenario_units_loop _ _ _ _ _ _ _ _ HF2 Hmp2 Hloop)
    as (HU & HFi & HP).
  unfold h2 in HU, HFi, HP. cbn [units financials properties] in HU, HFi, HP.
  erewrite bind_Ok.
  2:{ eapply (AnalyzeCashFlow_Ok _ h3 _ (scenarioFinancial f scenario)
                (map (fun r => float64.mul r (Scenario.RentMultiplier scenario)) rs)
                income me ae loan pay pp dp la ir).
      - rewrite HP. apply nth_error_update_same.
        rewrite length_app. simpl. lia.
      - cbn [withUnits Property.Financial]. rewrite HFi.
        rewrite nth_error_app2 by lia. rewrite Nat.sub_diag. reflexivity.
      - cbn [withUnits Property.Units app].
        destruct h3 as [U3 F3 P3]. cbn [units] in HU. subst U3.
        rewrite <- (length_map (scaledUnit (Scenario.RentMultiplier scenario))
                               loaded).
        rewrite rentsAt_seq. rewrite <- Hmap, !map_map. reflexivity.
      - exact Hsum.
      - exact Hme.
      - exact Hae.
      - exact Hloan.
      - exact Hpay.
      - exact Hpp.
      - exact Hdp.
      - exact Hla.
      - exact Hir. }
  eexists. eexists. reflexivity.
Qed.

End ScenarioRuns.

(** * The break-even search ends *)
Section SearchTerminates.

Import financing.
Local Open Scope Q_scope.

Lemma normalize_testScenario f d :
  float64.eqb (InexactFloat64 d) f0 = false ->
  normalize (scenarioFinancial f (testScenario f d))
  = scenarioFinancial f (testScenario f d).
Proof.
  intro Hnz. unfold normalize.
  cbn [testScenario scenarioFinancial Scenario.RentMultiplier
       Scenario.DownPayment Scenario.InterestRate Scenario.LoanTerm
       Financial.DownPayment Financial.PurchasePrice Financial.LoanAmount
       Financial.InterestRate Financial.LoanTermYears Financial.Expenses
       Financial.AskingPrice].
  rewrite Hnz. cbn [andb].
  destruct (float64.eqb _ f0 && float64.ltb f0 _); reflexivity.
Qed.

Lemma NewFromFloat_Ok_finite x d :
  NewFromFloat x = Ok d -> float64.is_finite x = true.
Proof.
  intro H. destruct (float64.is_finite x) eqn:E; [reflexivity |].
  rewrite (NewFromFloat_not_finite x E) in H. discriminate.
Qed.

Lemma halving_width n :
  inject_Z (99 * 2 ^ Z.of_nat (S n) + 1)
  == 2 * inject_Z (99 * 2 ^ Z.of_nat n + 1) - 1.
Proof.
  rewrite Nat2Z.inj_succ, Z.pow_succ_r by lia.
  replace (99 * (2 * 2 ^ Z.of_nat n) + 1)%Z
    with (2 * (99 * 2 ^ Z.of_nat n + 1) + - (1))%Z by lia.
  rewrite inject_Z_plus, inject_Z_mult, inject_Z_opp. reflexivity.
Qed.

Lemma midpoint_width low high w :
  Sub high low <= 2 * w - 1 ->
  let mid := DivRound (Add low high) (NewFromInt 2) DivisionPrecision in
  Sub mid low <= w /\ Sub high mid <= w.
Proof.
  intros Hw mid. pose proof (midpoint_error low high) as He.
  fold mid in He. apply Qabs_Qle_condition in He. destruct He as [He1 He2].
  rewrite Sub_correct in Hw. rewrite !Sub_correct.
  assert (E : (low + high) / 2 == (low + high) * (1 # 2)) by reflexivity.
  rewrite E in He1, He2.
  assert (Hs : (1 # 20000000000000000) <= 1 # 2) by (unfold Qle; simpl; lia).
  split; lra.
Qed.

Lemma rate_finite f rs price c0 :
  cashFlowAt f rs price = Ok c0 ->
  float64.is_finite (InterestRatePercent f) = true.
Proof.
  intro Hc0. unfold cashFlowAt in Hc0.
  destruct (sumFloats _ Zero) as [income | e]; [| discriminate].
  destruct (NewFromFloat _) as [expenses | e]; [| discriminate].
  cbn [rbind] in Hc0.
  destruct (scenarioLoan f price) as [l | e] eqn:El; [| discriminate].
  unfold scenarioLoan, NewLoan in El.
  destruct (LoanTerm.Years _) as [y | e]; [| discriminate].
  cbn [rbind] in El. destruct (y <=? 0)%Z; [discriminate |].
  unfold NewInterestRate in El.
  destruct (NewFromFloat (InterestRatePercent f)) as [d | e] eqn:Ed;
    [| discriminate].
  exact (NewFromFloat_Ok_finite _ _ Ed).
Qed.

(** Fuel beyond what a search needs does not change its result. *)
Lemma breakEvenSearch_more_fuel p tolerance : forall fuel low high h r,
  breakEvenSearch fuel p low high tolerance h = Ok r ->
  forall fuel', (fuel <= fuel')%nat ->
                breakEvenSearch fuel' p low high tolerance h = Ok r.
Proof.
  induction fuel as [| fuel IH]; intros low high h r H fuel' Hle.
  - cbn [breakEvenSearch] in H.
    destruct (GreaterThan (Sub high low) tolerance) eqn:G; [discriminate |].
    destruct fuel'; cbn [breakEvenSearch]; rewrite G; exact H.
  - destruct fuel' as [| fuel']; [lia |].
    cbn [breakEvenSearch] in H |- *.
    destruct (GreaterThan (Sub high low) tolerance) eqn:G; [| exact H].
    destruct r as [high' h'].
    apply bind_inv in H. destruct H as (mid & h1 & Hmid & H).
    rewrite (bind_Ok _ _ _ _ _ Hmid).
    apply bind_inv in H. destruct H as (prop & h2 & Hprop & H).
    rewrite (bind_Ok _ _ _ _ _ Hprop).
    apply bind_inv in H. destruct H as (f & h3 & Hf & H).
    rewrite (bind_Ok _ _ _ _ _ Hf).
    apply bind_inv in H. destruct H as (res & h4 & Hres & H).
    rewrite (bind_Ok _ _ _ _ _ Hres).
    destruct (ScenarioResult.IsPositive res);
      (apply (IH _ _ _ _ H); lia).
Qed.

Lemma FindBreakEvenDownPayment_more_fuel p h r fuel fuel' :
  FindBreakEvenDownPayment fuel p h = Ok r -> (fuel <= fuel')%nat ->
  FindBreakEvenDownPayment fuel' p h = Ok r.
Proof.
  intros H Hle. unfold FindBreakEvenDownPayment in H |- *.
  destruct r as [D h'].
  apply bind_inv in H. destruct H as (prop & h1 & Hprop & H).
  rewrite (bind_Ok _ _ _ _ _ Hprop).
  apply bind_inv in H. destruct H as (income & h2 & Hincome & H).
  rewrite (bind_Ok _ _ _ _ _ Hincome).
  apply bind_inv in H. destruct H as (f & h3 & Hf & H).
  rewrite (bind_Ok _ _ _ _ _ Hf).
  apply bind_inv in H. destruct H as (expenses & h4 & Hexp & H).
  rewrite (bind_Ok _ _ _ _ _ Hexp).
  destruct (LessThanOrEqual (Sub income expenses) Zero); [exact H |].
  apply bind_inv in H. destruct H as (pp & h5 & Hpp & H).
  rewrite (bind_Ok _ _ _ _ _ Hpp).
  apply bind_inv in H. destruct H as (tol & h6 & Htol & H).
  rewrite (bind_Ok _ _ _ _ _ Htol).
  apply bind_inv in H. destruct H as (high' & h7 & Hs & H).
  rewrite (bind_Ok _ _ _ _ _ (breakEvenSearch_more_fuel _ _ _ _ _ _ _ Hs _ Hle)).
  exact H.
Qed.

Variables (p : ptr) (h0 : Heap) (prop : Property.t) (f : Financial.t)
          (rs : list float64.t) (price : Z) (ae c0 : Decimal).
Hypothesis Hprop : nth_error (properties h0) p = Some prop.
Hypothesis Hf : nth_error (financials h0) (Property.Financial prop) = Some f.
Hypothesis Hrs : rentsAt h0 (Property.Units prop) = Some rs.
Hypothesis Hprice : (1 <= price < 2 ^ 52)%Z.
Hypothesis Hwhole : float64.to_int64 (Financial.PurchasePrice f) = price.
Hypothesis Hvalid :
  valid_binary float64.prec float64.emax (Financial.PurchasePrice f) = true.
Hypothesis Hae : NewFromFloat (TotalYearly (Financial.Expenses f)) = Ok ae.
Hypothesis Hc0 : cashFlowAt f rs price = Ok c0.

(** Every down payment that the search tries is analysed without a
    panic. *)
Lemma testScenario_runs d hc :
  preserves h0 hc -> 1 <= d -> d <= inject_Z price ->
  exists result h', analyzeScenario p (testScenario f d) hc = Ok (result, h').
Proof.
  intros Hpres H1 H2. pose proof Hpres as (HU & HF & HP).
  assert (H3 : d < inject_Z (2 ^ 52)).
  { apply (Qle_lt_trans _ _ _ H2). rewrite <- Zlt_Qlt. lia. }
  destruct (to_int64_of_Q d H1 H3) as [_ Hnz].
  destruct (cashFlowAt_defined f rs price
              (float64.to_int64 (InexactFloat64 d)) c0 Hc0) as [cf Hcf].
  rewrite <- (scenarioCashFlow_at f rs d Hnz) in Hcf.
  destruct (whole_float_shape _ price Hvalid Hwhole Hprice)
    as (m & e & Epp & _ & _).
  apply (analyzeScenario_Ok p _ hc prop f rs cf ae);
    try rewrite (normalize_testScenario f d Hnz).
  - apply HP, Hprop.
  - apply HF, Hf.
  - eapply rentsAt_preserves; [exact Hpres | exact Hrs].
  - exact Hcf.
  - exact Hae.
  - cbn [scenarioFinancial Financial.PurchasePrice]. rewrite Epp. reflexivity.
  - cbn [scenarioFinancial testScenario Financial.DownPayment
         Scenario.DownPayment].
    destruct (of_Q_shape d H1 H3) as (m' & e' & E' & _).
    unfold InexactFloat64. rewrite E'. reflexivity.
  - cbn [scenarioFinancial testScenario Financial.LoanAmount
         Scenario.DownPayment].
    unfold InexactFloat64.
    exact (sub_price_finite _ price d Hvalid Hwhole Hprice H1 H3).
  - exact (rate_finite f rs price c0 Hc0).
Qed.

(** A search between bounds at most [99 * 2^n + 1] apart ends within [n]
    steps, with the same result whatever the fuel beyond [n]. *)
Lemma breakEvenSearch_total : forall n low high hc,
  preserves h0 hc -> searchBounds f rs price low high ->
  Sub high low <= inject_Z (99 * 2 ^ Z.of_nat n + 1) ->
  exists high' h',
    forall fuel, (n <= fuel)%nat ->
                 breakEvenSearch fuel p low high 100 hc = Ok (high', h').
Proof.
  induction n as [| n IH]; intros low high hc Hpres Hb Hw.
  - assert (G : GreaterThan (Sub high low) 100 = false)
      by (apply GreaterThan_false; exact Hw).
    exists high, hc. intros fuel _.
    destruct fuel; cbn [breakEvenSearch]; rewrite G; reflexivity.
  - destruct (GreaterThan (Sub high low) 100) eqn:G.
    + pose proof G as Hgt. apply GreaterThan_true in Hgt.
      pose proof Hb as (Hl0 & Hl & Hh0 & Hh & _).
      set (mid := DivRound (Add low high) (NewFromInt 2) DivisionPrecision).
      destruct (midpoint_range low high price Hl0 Hl Hh Hgt) as [Hm1 Hm2].
      fold mid in Hm1, Hm2.
      destruct (testScenario_runs mid hc Hpres Hm1 Hm2) as (res & h1 & Hres).
      pose proof (analyzeScenario_preserves _ _ _ _ _ Hres) as Hp1.
      pose proof Hpres as (HU & HF & HP).
      destruct (analyzeScenario_value p _ hc res h1 prop f rs
                  (HP _ _ Hprop) (HF _ _ Hf)
                  (rentsAt_preserves _ _ _ _ Hpres Hrs) Hres)
        as (Hcf & Hpos & _).
      destruct (searchBounds_step f rs price Hprice low high _ Hb Hgt Hcf)
        as [Hup Hdown].
      fold mid in Hup, Hdown.
      rewrite halving_width in Hw.
      destruct (midpoint_width low high _ Hw) as [Wl Wh].
      fold mid in Wl, Wh.
      assert (Hpres1 : preserves h0 h1) by (eapply preserves_trans; eassumption).
      assert (Hstep : forall fuel,
                 breakEvenSearch (S fuel) p low high 100 hc
                 = if ScenarioResult.IsPositive res
                   then breakEvenSearch fuel p low mid 100 h1
                   else breakEvenSearch fuel p mid high 100 h1).
      { intro fuel. cbn [breakEvenSearch]. rewrite G.
        rewrite (bind_Ok _ _ _ _ _ (lift_Ok _ hc _ (midpoint_Ok low high))).
        rewrite (bind_Ok _ _ _ _ _ (load_Ok properties p hc prop (HP _ _ Hprop))).
        rewrite (bind_Ok _ _ _ _ _
                   (load_Ok financials _ hc f (HF _ _ Hf))).
        fold mid. fold (testScenario f mid).
        rewrite (bind_Ok _ _ _ _ _ Hres).
        destruct (ScenarioResult.IsPositive res); reflexivity. }
      destruct (ScenarioResult.IsPositive res) eqn:Epos.
      * symmetry in Hpos. apply GreaterThan_true in Hpos.
        destruct (IH low mid h1 Hpres1 (Hup Hpos) Wl) as (high' & h' & Hrun).
        exists high', h'. intros fuel Hfuel.
        destruct fuel as [| fuel]; [lia |].
        rewrite Hstep. apply Hrun. lia.
      * symmetry in Hpos. apply GreaterThan_false in Hpos.
        destruct (IH mid high h1 Hpres1 (Hdown Hpos) Wh) as (high' & h' & Hrun).
        exists high', h'. intros fuel Hfuel.
        destruct fuel as [| fuel]; [lia |].
        rewrite Hstep. apply Hrun. lia.
    + exists high, hc. intros fuel _.
      destruct fuel; cbn [breakEvenSearch]; rewrite G; reflexivity.
Qed.

End SearchTerminates.

(** C3 (amended).  Take a property whose purchase price is a float64 value
    that is a whole number of dollars from 1 to below 2^52, whose rents are
    float64 values that sum to more than the monthly expenses, whose yearly
    expenses are finite, and whose purchase without a loan can be evaluated.
    Then [FindBreakEvenDownPayment] returns: its search ends within 46
    halvings, so every run with at least that much fuel gives the same down
    payment [D] and the same heap.  [D] is a whole amount from 1 to the
    price; substituted into a scenario with the interest rate, the loan term
    and the rents unchanged it leaves a positive monthly cash flow; and when
    [D] exceeds 101, the down payment [D - 101] leaves a monthly cash flow
    that is zero or negative. *)
Theorem FindBreakEvenDownPayment_boundary
        (p : ptr) (h : Heap) (prop : Property.t)
        (f : Financial.t) (rs : list float64.t)
        (income expenses yearly c0 : Decimal) (price : Z) :
  nth_error (properties h) p = Some prop ->
  nth_error (financials h) (Property.Financial prop) = Some f ->
  rentsAt h (Property.Units prop) = Some rs ->
  Forall (fun r => valid_binary float64.prec float64.emax r = true) rs ->
  sumFloats rs Zero = Ok income ->
  NewFromFloat (TotalMonthly (Financial.Expenses f)) = Ok expenses ->
  NewFromFloat (TotalYearly (Financial.Expenses f)) = Ok yearly ->
  (expenses < income)%Q ->
  valid_binary float64.prec float64.emax (Financial.PurchasePrice f) = true ->
  NewFromFloat (Financial.PurchasePrice f) = Ok (NewFromInt price) ->
  float64.to_int64 (Financial.PurchasePrice f) = price ->
  1 <= price < 2 ^ 52 ->
  cashFlowAt f rs price = Ok c0 ->
  exists (D : Decimal) (h' : Heap),
    (forall fuel : nat,
        (46 <= fuel)%nat -> FindBreakEvenDownPayment fuel p h = Ok (D, h')) /\
    exists d : Z,
      (D == inject_Z d)%Q /\ 1 <= d <= price /\
      (exists cf, scenarioCashFlow f rs (testScenario f D) = Ok cf /\ (0 < cf)%Q) /\
      (101 < d ->
       exists cf,
         scenarioCashFlow f rs (testScenario f (Sub D (NewFromInt 101))) = Ok cf /\
         (cf <= 0)%Q).
Proof.
  intros Hprop Hf Hrs Hv Hi He Hae Hav Hvalid Hpp Hwhole Hprice Hc0.
  assert (E : LessThanOrEqual (Sub income expenses) Zero = false).
  { apply LessThanOrEqual_false. rewrite Sub_correct. unfold Zero. lra. }
  assert (Hb0 : searchBounds f rs price Zero (NewFromInt price)).
  { unfold searchBounds, Zero, NewFromInt.
    assert (0 <= inject_Z price)%Q
      by (change 0%Q with (inject_Z 0); rewrite <- Zle_Qle; lia).
    repeat (split; [assumption || apply Qle_refl |]).
    split; left; reflexivity. }
  assert (Hw0 : (Sub (NewFromInt price) Zero
                 <= inject_Z (99 * 2 ^ Z.of_nat 46 + 1))%Q).
  { rewrite Sub_correct. unfold NewFromInt, Zero.
    assert (Hc : 2 ^ 52 <= 99 * 2 ^ Z.of_nat 46 + 1) by (vm_compute; discriminate).
    assert (Hle : (inject_Z price <= inject_Z (99 * 2 ^ Z.of_nat 46 + 1))%Q)
      by (rewrite <- Zle_Qle; lia).
    lra. }
  destruct (breakEvenSearch_total p h prop f rs price yearly c0 Hprop Hf Hrs
              Hprice Hwhole Hvalid Hae Hc0 46%nat Zero (NewFromInt price) h
              (preserves_refl h) Hb0 Hw0) as (high & h1 & Hrun).
  exists (Round high 0), h1. split.
  - intros fuel Hfuel.
    rewrite (FindBreakEvenDownPayment_unfold p h prop f rs income expenses
               Hprop Hf Hrs Hi He).
    rewrite E.
    rewrite (bind_Ok _ _ _ _ _ (lift_Ok _ h _ Hpp)).
    rewrite (bind_Ok _ _ _ _ _ (lift_Ok _ h _ NewFromFloat_100)).
    rewrite (bind_Ok _ _ _ _ _ (Hrun fuel Hfuel)). reflexivity.
  - pose proof (Hrun 46%nat (le_n 46)) as Hs.
    apply (breakEvenSearch_invariant p h prop f rs Hprop Hf Hrs
             (searchBounds f rs price)) in Hs.
    + destruct Hs as (low & Hb & Hw & _).
      exact (searchBounds_result f rs price Hprice Hwhole low high income expenses
               c0 Hb Hw Hv Hi He Hav Hc0).
    + intros low0 high0 cf Hb Hw Hcf.
      exact (searchBounds_step f rs price Hprice low0 high0 cf Hb Hw Hcf).
    + apply preserves_refl.
    + exact Hb0.
Qed.

Lemma FindBreakEvenDownPayment_boundary_witness :
  exists D h' cf,
    FindBreakEvenDownPayment 46 0%nat (sample_heap 200000 0 600 1500 500)
    = Ok (D, h') /\
    scenarioCashFlow (sample_financial 200000 0 600 500) [float64.of_Q 1500]
                     (testScenario (sample_financial 200000 0 600 500) D)
    = Ok cf /\
    (0 < cf)%Q.
Proof.
  destruct (FindBreakEvenDownPayment_boundary
              0%nat (sample_heap 200000 0 600 1500 500) sample_property
              (sample_financial 200000 0 600 500) [float64.of_Q 1500]
              1500%Q 500%Q 6000%Q 1000%Q 200000)
    as (D & h' & Hrun & d & _ & _ & (cf & Hcf & Hpos) & _).
  - reflexivity.
  - reflexivity.
  - reflexivity.
  - repeat constructor.
  - vm_compute. reflexivity.
  - vm_compute. reflexivity.
  - vm_compute. reflexivity.
  - vm_compute. reflexivity.
  - vm_compute. reflexivity.
  - vm_compute. reflexivity.
  - vm_compute. reflexivity.
  - vm_compute. split; [discriminate | reflexivity].
  - vm_compute. reflexivity.
  - exists D, h', cf. split; [exact (Hrun 46%nat (le_n 46)) |].
    split; assumption.
Defined.

(** A property bought for 102,300 at 600 basis points over ten years, with
    one unit rented at 1,134.635 a month and no expenses: the search returns
    200, and the scenario with a down payment of 200 - 100 still leaves a
    positive monthly cash flow. *)
Lemma FindBreakEvenDownPayment_tightness_counterexample :
  sumFloats [Unit.Rent (sample_unit (1134635 # 1000))] Zero
  = Ok (226927 # 200)%Q /\
  NewFromFloat (TotalMonthly (sample_expenses 0)) = Ok 0%Q /\
  (exists h',
      FindBreakEvenDownPayment 20 0%nat
        (sample_heap 102300 0 600 (1134635 # 1000) 0)
      = Ok (200%Q, h')) /\
  (exists result h'',
      analyzeScenario 0%nat
        (testScenario (sample_financial 102300 0 600 0)
                      (Sub 200%Q (NewFromInt 100)))
        (sample_heap 102300 0 600 (1134635 # 1000) 0) = Ok (result, h'') /\
      (0 < ScenarioResult.MonthlyCashFlow result)%Q /\
      ScenarioResult.IsPositive result = true).
Proof.
  split; [vm_compute; reflexivity |]. split; [vm_compute; reflexivity |].
  split.
  - vm_compute. eexists. reflexivity.
  - vm_compute. eexists. eexists. split; [reflexivity |].
    split; reflexivity.
Qed.

(** The price must be a whole number of dollars.  A property bought for
    1,000.60 at 600 basis points over ten years, with one unit rented at
    100.005 a month and expenses of 100: no down payment that the search
    tries leaves a positive cash flow, so it returns the price rounded,
    1,001; the loan is built from the price and the down payment cut to
    whole dollars, and the scenario with a down payment of 1,001 leaves a
    negative monthly cash flow. *)
Lemma FindBreakEvenDownPayment_fractional_price :
  NewFromFloat (Financial.PurchasePrice (sample_financial (10006 # 10) 0 600 100))
  = Ok (5003 # 5)%Q /\
  sumFloats [Unit.Rent (sample_unit (100005 # 1000))] Zero
  = Ok (20001 # 200)%Q /\
  NewFromFloat (TotalMonthly (sample_expenses 100)) = Ok 100%Q /\
  (exists h',
      forall fuel : nat,
        (4 <= fuel)%nat ->
        FindBreakEvenDownPayment fuel 0%nat
          (sample_heap (10006 # 10) 0 600 (100005 # 1000) 100)
        = Ok (1001%Q, h')) /\
  (exists result h'',
      analyzeScenario 0%nat
        (testScenario (sample_financial (10006 # 10) 0 600 100) 1001%Q)
        (sample_heap (10006 # 10) 0 600 (100005 # 1000) 100) = Ok (result, h'') /\
      (ScenarioResult.MonthlyCashFlow result < 0)%Q /\
      ScenarioResult.IsPositive result = false).
Proof.
  split; [vm_compute; reflexivity |]. split; [vm_compute; reflexivity |].
  split; [vm_compute; reflexivity |]. split.
  - eexists. intros fuel Hfuel.
    apply (FindBreakEvenDownPayment_more_fuel _ _ _ 4%nat fuel); [| exact Hfuel].
    vm_compute. reflexivity.
  - vm_compute. eexists. eexists. split; [reflexivity |].
    split; reflexivity.
Qed.

(** With rent of 3,000 against expenses of 500 and a price of 200,000 the
    cash flow is positive at every down payment tried: the search returns
    98, and 98 - 100 is no down payment at all. *)
Example FindBreakEvenDownPayment_low_end :
  (exists h',
      FindBreakEvenDownPayment 20 0%nat (sample_heap 200000 0 600 3000 500)
      = Ok (98%Q, h')) /\
  (exists result h'',
      analyzeScenario 0%nat
        (testScenario (sample_financial 200000 0 600 500)
                      (Sub 98%Q (NewFromInt 100)))
        (sample_heap 200000 0 600 3000 500) = Ok (result, h'') /\
      (0 < ScenarioResult.MonthlyCashFlow result)%Q).
Proof.
  split.
  - vm_compute. eexists. reflexivity.
  - vm_compute. eexists. eexists. split; reflexivity.
Qed.

(** The search tells a positive cash flow from the others: at 120,000 basis
    points the payment is the amount borrowed, and with a price of 800 and
    rent of 400 the search returns 500 while a down payment of 400 leaves a
    cash flow of exactly zero. *)
Example FindBreakEvenDownPayment_zero_cash_flow :
  (exists h',
      FindBreakEvenDownPayment 20 0%nat (sample_heap 800 0 120000 400 0)
      = Ok (500%Q, h')) /\
  (exists result h'',
      analyzeScenario 0%nat
        (testScenario (sample_financial 800 0 120000 0)
                      (Sub 500%Q (NewFromInt 100)))
        (sample_heap 800 0 120000 400 0) = Ok (result, h'') /\
      ScenarioResult.MonthlyCashFlow result = 0%Q).
Proof.
  split.
  - vm_compute. eexists. reflexivity.
  - vm_compute. eexists. eexists. split; reflexivity.
Qed.

(** * Normalization of the Financial block and repeated analysis *)
Section Normalization.

Local Open Scope nat_scope.

Lemma normalize_twice (f : Financial.t) : normalize (normalize f) = normalize f.
Proof.
  destruct f as [ap pp dp la ir lt ex]. unfold normalize.
  cbn [Financial.DownPayment Financial.PurchasePrice Financial.LoanAmount].
  repeat (match goal with
          | |- context [if ?c then _ else _] => destruct c eqn:?
          end;
          cbn [Financial.DownPayment Financial.PurchasePrice
               Financial.LoanAmount Financial.AskingPrice
               Financial.InterestRate Financial.LoanTermYears
               Financial.Expenses] in *);
    try reflexivity; congruence.
Qed.

Lemma normalize_Expenses f :
  Financial.Expenses (normalize f) = Financial.Expenses f.
Proof.
  unfold normalize.
  repeat (match goal with
          | |- context [if ?c then _ else _] => destruct c
          end; cbn [Financial.Expenses]);
    reflexivity.
Qed.

Lemma setFinancial_twice h fa x y :
  setFinancial (setFinancial h fa x) fa y = setFinancial h fa y.
Proof.
  unfold setFinancial. cbn [units financials properties].
  rewrite update_update. reflexivity.
Qed.

Lemma rentsAt_setFinancial h fa x us :
  rentsAt (setFinancial h fa x) us = rentsAt h us.
Proof.
  induction us as [| ua us IH]; [reflexivity |].
  cbn [rentsAt]. rewrite IH. reflexivity.
Qed.

Lemma financials_setFinancial h fa f x :
  nth_error (financials h) fa = Some f ->
  nth_error (financials (setFinancial h fa x)) fa = Some x.
Proof.
  intro H. cbn [setFinancial financials].
  apply nth_error_update_same. apply nth_error_Some. congruence.
Qed.

End Normalization.

(** X1.  [Financial.Normalize] is idempotent: once it has run, a second call
    on the same block returns and leaves the heap as it is, whatever the
    floats (NaN, infinities and an underflowing default included). *)
Theorem Normalize_idempotent (fa : ptr) (h h' : Heap) (u : unit) :
  Normalize fa h = Ok (u, h') -> Normalize fa h' = Ok (tt, h').
Proof.
  intro H. apply Normalize_inv in H. destruct H as (f & Hf & ->).
  rewrite (Normalize_Ok fa _ (normalize f)
             (financials_setFinancial h fa f _ Hf)).
  rewrite normalize_twice, setFinancial_twice. reflexivity.
Qed.

Lemma Normalize_idempotent_witness :
  exists h',
    Normalize 0%nat (sample_heap 200000 0 600 3000 500) = Ok (tt, h') /\
    Normalize 0%nat h' = Ok (tt, h') /\
    h' <> sample_heap 200000 0 600 3000 500.
Proof.
  assert (E : exists h', Normalize 0%nat (sample_heap 200000 0 600 3000 500)
                         = Ok (tt, h'))
    by (eexists; reflexivity).
  destruct E as (h' & E). exists h'. split; [exact E |].
  split; [exact (Normalize_idempotent _ _ _ _ E) |].
  intro Hh. rewrite Hh in E. vm_compute in E. discriminate E.
Defined.

(** X2.  A second [AnalyzeCashFlow] of the same property returns the same
    analysis and changes nothing: all that the first call writes is the
    normalization of the Financial block. *)
Theorem AnalyzeCashFlow_repeat (p : ptr) (h h' : Heap) (a : CashFlowAnalysis.t) :
  AnalyzeCashFlow p h = Ok (a, h') ->
  AnalyzeCashFlow p h' = Ok (a, h') /\
  exists prop f,
    nth_error (properties h) p = Some prop /\
    nth_error (financials h) (Property.Financial prop) = Some f /\
    h' = setFinancial h (Property.Financial prop) (normalize f).
Proof.
  intro H. apply AnalyzeCashFlow_inv in H.
  destruct H as (prop & f & rs & income & me & ae & loan & pay & pp & dp & la
                 & ir & Hprop & Hf & Hrs & Hsum & Hme & Hae & Hloan & Hpay
                 & Hpp & Hdp & Hla & Hir & -> & ->).
  split; [| exists prop, f; repeat split; assumption].
  rewrite (AnalyzeCashFlow_Ok p _ prop (normalize f) rs income me ae loan pay
             pp dp la ir).
  - rewrite normalize_twice, setFinancial_twice. reflexivity.
  - exact Hprop.
  - eapply financials_setFinancial. exact Hf.
  - rewrite rentsAt_setFinancial. exact Hrs.
  - exact Hsum.
  - rewrite normalize_Expenses. exact Hme.
  - rewrite normalize_Expenses. exact Hae.
  - rewrite normalize_twice. exact Hloan.
  - exact Hpay.
  - rewrite normalize_twice. exact Hpp.
  - rewrite normalize_twice. exact Hdp.
  - rewrite normalize_twice. exact Hla.
  - rewrite normalize_twice. exact Hir.
Qed.

Lemma AnalyzeCashFlow_repeat_witness :
  exists a h',
    AnalyzeCashFlow 0%nat (sample_heap 200000 0 600 3000 500) = Ok (a, h') /\
    AnalyzeCashFlow 0%nat h' = Ok (a, h').
Proof.
  assert (E : exists a h',
             AnalyzeCashFlow 0%nat (sample_heap 200000 0 600 3000 500)
             = Ok (a, h'))
    by (vm_compute; eexists; eexists; reflexivity).
  destruct E as (a & h' & E). exists a, h'. split; [exact E |].
  exact (proj1 (AnalyzeCashFlow_repeat _ _ _ _ E)).
Defined.

(** X3.  For a property with at least one unit, [FindBreakEvenRent] returns
    the total monthly cost (expenses plus the absolute monthly payment)
    divided by the number of units: that rent, charged on every unit, is
    within half a unit of the 16th fractional digit per unit of the cost.
    The call leaves the Financial block normalized. *)
Theorem FindBreakEvenRent_covers_cost
        (p : ptr) (h : Heap) (prop : Property.t) (f : Financial.t)
        (loan : Loan.t) (expenses pay : Decimal) :
  nth_error (properties h) p = Some prop ->
  nth_error (financials h) (Property.Financial prop) = Some f ->
  Property.Units prop <> [] ->
  NewFromFloat (TotalMonthly (Financial.Expenses f)) = Ok expenses ->
  loanOf (normalize f) = Ok loan ->
  MonthlyPayment loan = Ok pay ->
  exists rent,
    FindBreakEvenRent p h
    = Ok (rent, setFinancial h (Property.Financial prop) (normalize f)) /\
    let n := inject_Z (Z.of_nat (List.length (Property.Units prop))) in
    (Qabs (n * rent - (expenses + Qabs pay)) <= n * (1 # 20000000000000000))%Q.
Proof.
  intros Hprop Hf Hne Hexp Hloan Hpay.
  set (n := Z.of_nat (List.length (Property.Units prop))).
  assert (Hn : 1 <= n).
  { unfold n. destruct (Property.Units prop); [congruence | cbn; lia]. }
  exists (DivRound (Add expenses (Abs pay)) (NewFromInt n) DivisionPrecision).
  split.
  - unfold FindBreakEvenRent, loadProperty, loadFinancial.
    rewrite (bind_Ok _ _ _ _ _ (load_Ok properties p h prop Hprop)).
    fold n. assert (E : (n =? 0) = false) by (apply Z.eqb_neq; lia).
    rewrite E.
    rewrite (bind_Ok _ _ _ _ _ (load_Ok financials _ h f Hf)).
    rewrite (bind_Ok _ _ _ _ _ (lift_Ok _ h _ Hexp)).
    rewrite (bind_Ok _ _ _ _ _ (Loan_Ok _ h f loan Hf Hloan)).
    rewrite (bind_Ok _ _ _ _ _ (lift_Ok _ _ _ Hpay)).
    apply lift_Ok. unfold Div.
    assert (Ez : IsZero (NewFromInt n) = false).
    { apply IsZero_false. unfold NewFromInt. intro Hz.
      assert (inject_Z 1 <= inject_Z n)%Q by (rewrite <- Zle_Qle; lia).
      change (inject_Z 1) with 1%Q in *. lra. }
    rewrite Ez. reflexivity.
  - cbv zeta. fold n.
    pose proof (DivRound_error (Add expenses (Abs pay)) (NewFromInt n)
                  DivisionPrecision ltac:(unfold DivisionPrecision; lia)) as He.
    set (rent := DivRound (Add expenses (Abs pay)) (NewFromInt n) DivisionPrecision)
      in *.
    assert (Hq : (1 <= inject_Z n)%Q).
    { change 1%Q with (inject_Z 1). rewrite <- Zle_Qle. lia. }
    assert (Ecost : (Add expenses (Abs pay) / NewFromInt n * inject_Z n
                     == expenses + Qabs pay)%Q).
    { rewrite Add_correct, Abs_correct. unfold NewFromInt. field. lra. }
    change ((1 # 2) / pow10 DivisionPrecision)%Q
      with (1 # 20000000000000000)%Q in He.
    apply Qabs_Qle_condition in He. destruct He as [He1 He2].
    apply Qabs_Qle_condition. rewrite <- Ecost.
    set (q := (Add expenses (Abs pay) / NewFromInt n)%Q) in *.
    split; nra.
Qed.

Lemma FindBreakEvenRent_covers_cost_witness :
  exists rent h',
    FindBreakEvenRent 0%nat (sample_heap 200000 0 0 3000 500) = Ok (rent, h') /\
    (Qabs (1 * rent - (500 + Qabs 0)) <= 1 * (1 # 20000000000000000))%Q.
Proof.
  destruct (FindBreakEvenRent_covers_cost
              0%nat (sample_heap 200000 0 0 3000 500) sample_property
              (sample_financial 200000 0 0 500)
              {| Loan.HomePrice := 200000%Q; Loan.DownPayment := 40000%Q;
                 Loan.InterestRate := {| interestRate.rate := 0%Q |};
                 Loan.TermYears := 10; Loan.EnableRounding := true;
                 Loan.RoundingPlaces := 0; Loan.RoundingErrorTolerance := 0%Q |}
              500%Q 0%Q)
    as (rent & Hr & Hb).
  - reflexivity.
  - reflexivity.
  - discriminate.
  - vm_compute. reflexivity.
  - vm_compute. reflexivity.
  - vm_compute. reflexivity.
  - exists rent. eexists. split; [exact Hr | exact Hb].
Defined.

(** X4.  [FindBreakEvenDownPayment] never writes to the property it is given:
    every object of the heap it starts from (the base property, its units
    and its Financial block, which is not even normalized) reads the same
    when the call returns; the scenarios it tries live in fresh objects. *)
Theorem FindBreakEvenDownPayment_base_unchanged
        (fuel : nat) (p : ptr) (h h' : Heap) (d : Decimal) :
  FindBreakEvenDownPayment fuel p h = Ok (d, h') ->
  preserves h h' /\
  forall prop,
    nth_error (properties h) p = Some prop ->
    nth_error (properties h') p = Some prop /\
    (forall f, nth_error (financials h) (Property.Financial prop) = Some f ->
               nth_error (financials h') (Property.Financial prop) = Some f) /\
    (forall ua u, In ua (Property.Units prop) ->
                  nth_error (units h) ua = Some u ->
                  nth_error (units h') ua = Some u).
Proof.
  intro H.
  assert (Hp : preserves h h').
  { unfold FindBreakEvenDownPayment in H.
    apply bind_inv in H. destruct H as (prop & h1 & Hprop & H).
    apply load_inv in Hprop. destruct Hprop as [Hprop ->].
    apply bind_inv in H. destruct H as (income & h1 & Hsum & H).
    apply sumRents_inv in Hsum. destruct Hsum as (-> & rs & Hrs & _).
    apply bind_inv in H. destruct H as (f & h1 & Hf & H).
    apply load_inv in Hf. destruct Hf as [Hf ->].
    apply bind_inv in H. destruct H as (expenses & h1 & He & H).
    apply lift_inv in He. destruct He as [_ ->].
    destruct (LessThanOrEqual (Sub income expenses) Zero).
    - apply ret_inv in H. destruct H as [_ ->]. apply preserves_refl.
    - apply bind_inv in H. destruct H as (pp & h1 & Hpp & H).
      apply lift_inv in Hpp. destruct Hpp as [_ ->].
      apply bind_inv in H. destruct H as (tol & h1 & Ht & H).
      apply lift_inv in Ht. destruct Ht as [_ ->].
      apply bind_inv in H. destruct H as (high & h1 & Hs & H).
      apply ret_inv in H. destruct H as [_ ->].
      apply (breakEvenSearch_invariant p h prop f rs Hprop Hf Hrs
               (fun _ _ => True)) in Hs.
      + destruct Hs as (_ & _ & _ & Hpres). exact Hpres.
      + intros. split; trivial.
      + apply preserves_refl.
      + exact I. }
  split; [exact Hp |]. destruct Hp as (HU & HF & HP).
  intros prop Hprop. repeat split; auto.
Qed.

Lemma FindBreakEvenDownPayment_base_unchanged_witness :
  exists d h',
    FindBreakEvenDownPayment 20 0%nat (sample_heap 200000 0 600 1500 500)
    = Ok (d, h') /\
    nth_error (financials h') 0 = Some (sample_financial 200000 0 600 500).
Proof.
  assert (E : exists d h',
             FindBreakEvenDownPayment 20 0%nat (sample_heap 200000 0 600 1500 500)
             = Ok (d, h'))
    by (vm_compute; eexists; eexists; reflexivity).
  destruct E as (d & h' & E). exists d, h'. split; [exact E |].
  destruct (FindBreakEvenDownPayment_base_unchanged _ _ _ _ _ E) as [_ Hb].
  destruct (Hb sample_property eq_refl) as (_ & Hf & _).
  apply Hf. reflexivity.
Defined.

(** X5.  The degenerate cases of [CalculateIRR]: with no projections, or
    fewer than the holding period, it returns 0 without reading the
    property; with a zero down payment it returns 0; and with a holding
    period of zero or less (and projections, and a down payment that is not
    zero) the read of [projections[holdingYears-1]] panics. *)
Theorem CalculateIRR_degenerate
        (p : ptr) (projs : list YearlyProjection.t) (holdingYears : Z) (h : Heap) :
  (projs = [] \/ Z.of_nat (List.length projs) < holdingYears ->
   CalculateIRR p projs holdingYears h = Ok (Zero, h)) /\
  (forall prop f downPayment,
     projs <> [] -> holdingYears <= Z.of_nat (List.length projs) ->
     nth_error (properties h) p = Some prop ->
     nth_error (financials h) (Property.Financial prop) = Some f ->
     NewFromFloat (Financial.DownPayment f) = Ok downPayment ->
     ((downPayment == 0)%Q -> CalculateIRR p projs holdingYears h = Ok (Zero, h)) /\
     (~ (downPayment == 0)%Q -> holdingYears <= 0 ->
      CalculateIRR p projs holdingYears h = Panic IndexOutOfRange)).
Proof.
  split.
  - intros [-> | Hlt]; unfold CalculateIRR; [reflexivity |].
    apply Z.ltb_lt in Hlt. rewrite Hlt, orb_true_r. reflexivity.
  - intros prop f dp Hne Hle Hprop Hf Hdp.
    assert (E1 : (Z.of_nat (List.length projs) =? 0) = false).
    { apply Z.eqb_neq. destruct projs; [congruence | cbn; lia]. }
    assert (E2 : (Z.of_nat (List.length projs) <? holdingYears) = false)
      by (apply Z.ltb_ge; lia).
    assert (Hpre : CalculateIRR p projs holdingYears h =
                   if IsZero dp then Ok (Zero, h)
                   else if holdingYears - 1 <? 0 then Panic IndexOutOfRange
                        else CalculateIRR p projs holdingYears h).
    { unfold CalculateIRR at 1. rewrite E1, E2. cbn [orb].
      unfold loadProperty, loadFinancial.
      rewrite (bind_Ok _ _ _ _ _ (load_Ok properties p h prop Hprop)).
      rewrite (bind_Ok _ _ _ _ _ (load_Ok financials _ h f Hf)).
      rewrite (bind_Ok _ _ _ _ _ (lift_Ok _ h _ Hdp)).
      destruct (IsZero dp) eqn:Ez; [reflexivity |].
      destruct (holdingYears - 1 <? 0) eqn:Eh; [reflexivity |].
      unfold CalculateIRR. rewrite E1, E2. cbn [orb].
      unfold loadProperty, loadFinancial.
      rewrite (bind_Ok _ _ _ _ _ (load_Ok properties p h prop Hprop)).
      rewrite (bind_Ok _ _ _ _ _ (load_Ok financials _ h f Hf)).
      rewrite (bind_Ok _ _ _ _ _ (lift_Ok _ h _ Hdp)).
      rewrite Ez, Eh. reflexivity. }
    split.
    + intro Hz. apply IsZero_true in Hz. rewrite Hpre, Hz. reflexivity.
    + intros Hnz Hh. apply IsZero_false in Hnz. rewrite Hpre, Hnz.
      assert (Eh : (holdingYears - 1 <? 0) = true) by (apply Z.ltb_lt; lia).
      rewrite Eh. reflexivity.
Qed.

Lemma CalculateIRR_degenerate_witness :
  CalculateIRR 0%nat [sample_year] 5 (sample_heap 200000 40000 600 3000 500)
  = Ok (Zero, sample_heap 200000 40000 600 3000 500) /\
  CalculateIRR 0%nat [sample_year] 1 (sample_heap 200000 0 600 3000 500)
  = Ok (Zero, sample_heap 200000 0 600 3000 500) /\
  CalculateIRR 0%nat [sample_year] 0 (sample_heap 200000 40000 600 3000 500)
  = Panic IndexOutOfRange.
Proof.
  split; [| split].
  - apply (proj1 (CalculateIRR_degenerate 0%nat [sample_year] 5
                    (sample_heap 200000 40000 600 3000 500))).
    right. vm_compute. reflexivity.
  - refine (proj1 (proj2 (CalculateIRR_degenerate 0%nat [sample_year] 1
                            (sample_heap 200000 0 600 3000 500))
                     sample_property (sample_financial 200000 0 600 500) 0%Q
                     _ _ eq_refl eq_refl eq_refl) _).
    + discriminate.
    + vm_compute. discriminate.
    + reflexivity.
  - refine (proj2 (proj2 (CalculateIRR_degenerate 0%nat [sample_year] 0
                            (sample_heap 200000 40000 600 3000 500))
                     sample_property (sample_financial 200000 40000 600 500)
                     40000%Q _ _ eq_refl eq_refl _) _ _).
    + discriminate.
    + vm_compute. discriminate.
    + vm_compute. reflexivity.
    + vm_compute. discriminate.
    + vm_compute. discriminate.
Defined.

(** * Loan terms *)
Section LoanTerms.

Lemma Years_known (years : LoanTerm.t) :
  0 <= years <= 3 ->
  exists y, LoanTerm.Years years = Ok y /\ 10 <= y <= 30.
Proof.
  intro H.
  assert (E : years = 0 \/ years = 1 \/ years = 2 \/ years = 3) by lia.
  destruct E as [-> | [-> | [-> | ->]]]; eexists; (split; [reflexivity | lia]).
Qed.

Lemma Years_unknown (years : LoanTerm.t) :
  ~ 0 <= years <= 3 -> LoanTerm.Years years = Panic UnknownLoanTerm.
Proof.
  intro H. destruct years as [| p | p]; [exfalso; apply H; lia | | reflexivity].
  destruct p as [q | q |]; [destruct q | destruct q |];
    try reflexivity; exfalso; apply H; lia.
Qed.

End LoanTerms.

(** X6.  [NewLoan] succeeds exactly when the term is one of the four
    constants and the interest rate is a finite float64.  A term that is
    none of the constants panics in [Years] ("Unknown loan term") whatever
    the rate is; for a known term the only failure is the decimal library
    refusing NaN or an infinity; each known term has a positive number of
    years, so the invalid-term panic is never raised.  The loan built
    borrows the home price less the down payment over twelve periods a
    year. *)
Theorem NewLoan_defined
        (homePrice downPayment : Z) (interestRate : float64.t)
        (years : LoanTerm.t) (roundingErrorTolerance : Decimal) :
  (0 <= years <= 3 -> float64.is_finite interestRate = true ->
   exists l y,
     NewLoan homePrice downPayment interestRate years roundingErrorTolerance
     = Ok l /\
     LoanTerm.Years years = Ok y /\
     (LoanAmount l == inject_Z (homePrice - downPayment))%Q /\
     Loan.TermYears l = y /\
     0 < periods l /\ periods l = 12 * y) /\
  (0 <= years <= 3 -> float64.is_finite interestRate = false ->
   NewLoan homePrice downPayment interestRate years roundingErrorTolerance
   = Panic NotFinite) /\
  (~ 0 <= years <= 3 ->
   NewLoan homePrice downPayment interestRate years roundingErrorTolerance
   = Panic UnknownLoanTerm) /\
  NewLoan homePrice downPayment interestRate years roundingErrorTolerance
  <> Panic InvalidLoanTerm.
Proof.
  assert (Hknown : 0 <= years <= 3 ->
            exists y, LoanTerm.Years years = Ok y /\ 10 <= y <= 30 /\
              NewLoan homePrice downPayment interestRate years
                      roundingErrorTolerance
              = rbind (NewInterestRate interestRate) (fun ir =>
                  Ok {| Loan.HomePrice := NewFromInt homePrice;
                        Loan.DownPayment := NewFromInt downPayment;
                        Loan.InterestRate := ir;
                        Loan.TermYears := y;
                        Loan.EnableRounding := true;
                        Loan.RoundingPlaces := 0;
                        Loan.RoundingErrorTolerance := roundingErrorTolerance |})).
  { intro Hk. destruct (Years_known years Hk) as (y & Ey & Hy).
    exists y. split; [exact Ey |]. split; [exact Hy |].
    unfold NewLoan. rewrite Ey. cbn [rbind].
    assert (E : (y <=? 0) = false) by (apply Z.leb_gt; lia).
    rewrite E. reflexivity. }
  assert (Hunknown : ~ 0 <= years <= 3 ->
            NewLoan homePrice downPayment interestRate years
                    roundingErrorTolerance = Panic UnknownLoanTerm).
  { intro Hu. unfold NewLoan. rewrite (Years_unknown years Hu). reflexivity. }
  split; [| split; [| split]].
  - intros Hk Hfin. destruct (Hknown Hk) as (y & Ey & Hy & ->).
    unfold NewInterestRate.
    destruct (NewFromFloat_finite interestRate Hfin) as [d Hd]. rewrite Hd.
    cbn [rbind Div]. change (IsZero (NewFromInt pointDevider)) with false.
    cbn [rbind]. eexists. exists y. split; [reflexivity |].
    split; [exact Ey |]. split; [| split; [reflexivity |]].
    + unfold LoanAmount. cbn [Loan.HomePrice Loan.DownPayment].
      rewrite Sub_correct. unfold NewFromInt, Zminus.
      rewrite inject_Z_plus, inject_Z_opp. reflexivity.
    + unfold periods. cbn [Loan.TermYears].
      rewrite wrap64_small by lia. lia.
  - intros Hk Hfin. destruct (Hknown Hk) as (y & _ & _ & ->).
    unfold NewInterestRate.
    rewrite (NewFromFloat_not_finite interestRate Hfin). reflexivity.
  - exact Hunknown.
  - destruct (Z_le_dec 0 years) as [H0 | H0];
      [destruct (Z_le_dec years 3) as [H3 | H3] |].
    + destruct (Hknown (conj H0 H3)) as (y & _ & _ & ->).
      unfold NewInterestRate.
      destruct (NewFromFloat interestRate) as [d | e] eqn:Ed.
      * cbn [rbind Div]. change (IsZero (NewFromInt pointDevider)) with false.
        cbn [rbind]. discriminate.
      * cbn [rbind]. intro H. inversion H as [He]. subst e.
        destruct interestRate as [s | s | | s m x]; cbn [NewFromFloat] in Ed;
          try discriminate.
        destruct (float64.shortest m x). discriminate.
    + rewrite Hunknown by lia. discriminate.
    + rewrite Hunknown by lia. discriminate.
Qed.

Lemma NewLoan_defined_witness :
  (exists l, NewLoan 300000 60000 (float64.of_Q 6) LoanTerm.Term10Years Zero = Ok l /\
             (LoanAmount l == 240000)%Q /\ periods l = 120) /\
  NewLoan 300000 60000 S754_nan LoanTerm.Term10Years Zero = Panic NotFinite /\
  NewLoan 300000 60000 (float64.of_Q 6) 30 Zero = Panic UnknownLoanTerm.
Proof.
  assert (Hk : 0 <= LoanTerm.Term10Years <= 3) by (unfold LoanTerm.Term10Years; lia).
  assert (Hu : ~ 0 <= 30 <= 3) by lia.
  split; [| split].
  - destruct (proj1 (NewLoan_defined 300000 60000 (float64.of_Q 6)
                       LoanTerm.Term10Years Zero) Hk eq_refl)
      as (l & y & Hl & Hy & Ha & _ & _ & Hp).
    exists l. split; [exact Hl |]. split; [exact Ha |].
    rewrite Hp. cbn in Hy. inversion Hy. reflexivity.
  - apply (proj1 (proj2 (NewLoan_defined 300000 60000 S754_nan
                           LoanTerm.Term10Years Zero)) Hk). reflexivity.
  - apply (proj1 (proj2 (proj2 (NewLoan_defined 300000 60000 (float64.of_Q 6)
                                  30 Zero))) Hu).
Defined.

(** X7.  At the same rate over the same term, a loan that borrows less
    (and not less than nothing) has a monthly payment, whenever the larger
    loan has one, that is no larger in absolute value. *)
Theorem MonthlyPayment_grows_with_principal (l1 l2 : Loan.t) (m2 : Decimal) :
  Loan.InterestRate l1 = Loan.InterestRate l2 ->
  Loan.TermYears l1 = Loan.TermYears l2 ->
  (0 <= LoanAmount l1)%Q -> (LoanAmount l1 <= LoanAmount l2)%Q ->
  MonthlyPayment l2 = Ok m2 ->
  exists m1, MonthlyPayment l1 = Ok m1 /\ (Abs m1 <= Abs m2)%Q.
Proof.
  intros Hi Ht H0 H12 E2.
  destruct (MonthlyPayment_defined l1 l2 m2 Hi Ht E2) as [m1 E1].
  exists m1. split; [exact E1 |].
  exact (MonthlyPayment_monotone l1 l2 m1 m2 Hi Ht H0 H12 E1 E2).
Qed.

Lemma MonthlyPayment_grows_with_principal_witness :
  exists m1 m2,
    MonthlyPayment loan_6pct_10y = Ok m2 /\
    MonthlyPayment
      {| Loan.HomePrice := 300000%Q; Loan.DownPayment := 100000%Q;
         Loan.InterestRate := {| interestRate.rate := (6 # 100)%Q |};
         Loan.TermYears := 10; Loan.EnableRounding := true;
         Loan.RoundingPlaces := 0; Loan.RoundingErrorTolerance := 0%Q |}
    = Ok m1 /\
    (Abs m1 <= Abs m2)%Q.
Proof.
  assert (E : exists m2, MonthlyPayment loan_6pct_10y = Ok m2)
    by (vm_compute; eexists; reflexivity).
  destruct E as (m2 & E).
  destruct (MonthlyPayment_grows_with_principal
              {| Loan.HomePrice := 300000%Q; Loan.DownPayment := 100000%Q;
                 Loan.InterestRate := {| interestRate.rate := (6 # 100)%Q |};
                 Loan.TermYears := 10; Loan.EnableRounding := true;
                 Loan.RoundingPlaces := 0; Loan.RoundingErrorTolerance := 0%Q |}
              loan_6pct_10y m2 eq_refl eq_refl)
    as (m1 & E1 & Hle).
  - vm_compute. discriminate.
  - vm_compute. discriminate.
  - exact E.
  - exists m1, m2. split; [exact E |]. split; [exact E1 | exact Hle].
Defined.

(** * The payment against interest and principal *)
Section PaymentBounds.

Local Open Scope Q_scope.

(** Compound growth less one is at most the simple interest on the grown
    amount. *)
Lemma growth_minus_one (r : Q) (k : nat) :
  0 < r ->
  (1 + r) ^ Z.of_nat k - 1 <= inject_Z (Z.of_nat k) * r * (1 + r) ^ Z.of_nat k /\
  1 <= (1 + r) ^ Z.of_nat k.
Proof.
  intro Hr. induction k as [| k [IH1 IH2]].
  - change (Z.of_nat 0) with 0%Z. change ((1 + r) ^ 0) with 1.
    change (inject_Z 0) with 0. split; lra.
  - rewrite Nat2Z.inj_succ. unfold Z.succ.
    rewrite Qpower_plus by lra. rewrite inject_Z_plus.
    change ((1 + r) ^ 1) with (1 + r). change (inject_Z 1) with 1.
    set (g := (1 + r) ^ Z.of_nat k) in *.
    assert (Hk : 0 <= inject_Z (Z.of_nat k)).
    { change 0 with (inject_Z 0). rewrite <- Zle_Qle. lia. }
    split; nra.
Qed.

End PaymentBounds.

(** X8.  For a positive monthly rate, a positive number of periods and a
    principal that is not negative, the monthly payment is defined, covers
    the interest of the first month ([r * P]) and, paid over all the periods,
    repays at least the principal; both up to the rounding of the division,
    half a unit of the 16th fractional digit. *)
Theorem MonthlyPayment_covers_interest_and_principal (l : Loan.t) :
  (0 < monthlyRate l)%Q -> 0 < periods l -> (0 <= LoanAmount l)%Q ->
  exists m,
    MonthlyPayment l = Ok m /\
    (monthlyRate l * LoanAmount l - (1 # 20000000000000000) <= m)%Q /\
    (LoanAmount l <= inject_Z (periods l) * (m + (1 # 20000000000000000)))%Q.
Proof.
  intros Hr Hn HP.
  pose proof (growth_gt_1 l Hr Hn) as Hg.
  pose proof (growth_positive_periods l Hn) as Eg.
  destruct (growth_minus_one (monthlyRate l) (Z.to_nat (periods l)) Hr)
    as [Hb _].
  rewrite Z2Nat.id in Hb by lia. rewrite <- Eg in Hb.
  rewrite MonthlyPayment_unfold.
  assert (E1 : IsZero (monthlyRate l) = false) by (apply IsZero_false; lra).
  assert (E2 : (periods l =? 0) = false) by (apply Z.eqb_neq; lia).
  rewrite E1, E2. cbn [orb]. unfold Div.
  assert (E3 : IsZero (Sub (growth l) (NewFromInt 1)) = false).
  { apply IsZero_false. rewrite Sub_correct. change (NewFromInt 1) with 1%Q. lra. }
  rewrite E3. eexists. split; [reflexivity |].
  pose proof (DivRound_error
                (Mul (Mul (monthlyRate l) (LoanAmount l)) (growth l))
                (Sub (growth l) (NewFromInt 1)) DivisionPrecision
                ltac:(unfold DivisionPrecision; lia)) as He.
  change ((1 # 2) / pow10 DivisionPrecision)%Q
    with (1 # 20000000000000000)%Q in He.
  set (m := DivRound _ _ _) in *.
  set (x := (Mul (Mul (monthlyRate l) (LoanAmount l)) (growth l)
             / Sub (growth l) (NewFromInt 1))%Q) in *.
  assert (Ex : (x * (growth l - 1)
                == monthlyRate l * LoanAmount l * growth l)%Q).
  { unfold x. rewrite !Mul_correct, Sub_correct.
    change (NewFromInt 1) with 1%Q. field. lra. }
  apply Qabs_Qle_condition in He. destruct He as [He1 He2].
  assert (Hn' : (1 <= inject_Z (periods l))%Q).
  { change 1%Q with (inject_Z 1). rewrite <- Zle_Qle. lia. }
  set (g := growth l) in *. set (r := monthlyRate l) in *.
  set (P := LoanAmount l) in *. set (n := inject_Z (periods l)) in *.
  assert (Hx1 : (r * P <= x)%Q) by nra.
  assert (Hx2 : (P <= n * x)%Q) by nra.
  split; nra.
Qed.

Lemma MonthlyPayment_covers_interest_and_principal_witness :
  exists m,
    MonthlyPayment loan_6pct_10y = Ok m /\
    (monthlyRate loan_6pct_10y * LoanAmount loan_6pct_10y
     - (1 # 20000000000000000) <= m)%Q /\
    (LoanAmount loan_6pct_10y
     <= inject_Z (periods loan_6pct_10y) * (m + (1 # 20000000000000000)))%Q.
Proof.
  apply MonthlyPayment_covers_interest_and_principal.
  - vm_compute. reflexivity.
  - vm_compute. reflexivity.
  - vm_compute. discriminate.
Defined.

(** * The yearly ledger of a projection *)
Section Ledger.

Local Open Scope Z_scope.

Variables (p : ptr) (schedule : list Row.t * option error)
          (rentGrowth expenseGrowth appreciation vacancyRate : Decimal)
          (annualMortgage downPayment : Decimal).

Lemma projectYear_ledger year st h st' h' prop f :
  nth_error (properties h) p = Some prop ->
  nth_error (financials h) (Property.Financial prop) = Some f ->
  projectYear p schedule rentGrowth expenseGrowth appreciation vacancyRate
              annualMortgage downPayment year st h = Ok (st', h') ->
  h' = h /\
  exists row initialLoan,
    NewFromFloat (Financial.LoanAmount f) = Ok initialLoan /\
    projections st' = projections st ++ [row] /\
    ledgerRow vacancyRate annualMortgage downPayment initialLoan row /\
    YearlyProjection.CumulativeCF row
      = Add (cumulativeCashFlow st) (YearlyProjection.CashFlow row) /\
    cumulativeCashFlow st' = YearlyProjection.CumulativeCF row.
Proof.
  intros Hprop Hf H. unfold projectYear in H.
  apply bind_inv in H. destruct H as (prop' & h1 & Hl & H).
  apply load_inv in Hl. destruct Hl as [Hl ->].
  rewrite Hprop in Hl. inversion Hl; subst prop'. clear Hl.
  apply bind_inv in H. destruct H as (f' & h1 & Hl & H).
  apply load_inv in Hl. destruct Hl as [Hl ->].
  rewrite Hf in Hl. inversion Hl; subst f'. clear Hl.
  apply bind_inv in H. destruct H as (il & h1 & Hil & H).
  apply lift_inv in Hil. destruct Hil as [Hil ->].
  apply bind_inv in H. destruct H as (pb & h1 & Hpb & H).
  assert (Hbal : h1 = h /\ (snd pb + fst pb == il)%Q).
  { destruct (_ && _) in Hpb.
    - apply ret_inv in Hpb. destruct Hpb as [-> ->]. split; [reflexivity |].
      cbn [fst snd]. rewrite Sub_correct. ring.
    - apply bind_inv in Hpb. destruct Hpb as (ty & h0 & Hty & Hpb).
      apply lift_inv in Hty. destruct Hty as [_ ->].
      apply bind_inv in Hpb. destruct Hpb as (lb & h2 & Hlb & Hpb).
      apply ret_inv in Hpb. destruct Hpb as [-> ->].
      assert (h2 = h).
      { destruct (0 <? _) in Hlb.
        - apply bind_inv in Hlb. destruct Hlb as (ty' & h3 & Hty' & Hlb).
          apply lift_inv in Hty'. destruct Hty' as [_ ->].
          apply bind_inv in Hlb. destruct Hlb as (fr & h3 & Hfr & Hlb).
          apply lift_inv in Hfr. destruct Hfr as [_ ->].
          apply ret_inv in Hlb. destruct Hlb as [_ ->]. reflexivity.
        - apply ret_inv in Hlb. destruct Hlb as [_ ->]. reflexivity. }
      split; [assumption |]. cbn [fst snd]. rewrite Sub_correct. ring. }
  destruct Hbal as [-> Hbal].
  apply bind_inv in H. destruct H as (coc & h1 & Hcoc & H).
  apply ret_inv in H. destruct H as [-> ->].
  assert (Hc : h1 = h /\
               coc = if GreaterThan downPayment Zero
                     then Mul (DivRound
                                 (Sub (Sub (Sub
                                    (if 1 <? year then Mul (currentRent st) rentGrowth
                                     else currentRent st)
                                    (Mul (if 1 <? year then Mul (currentRent st) rentGrowth
                                          else currentRent st) vacancyRate))
                                    (if 1 <? year then Mul (currentExpenses st) expenseGrowth
                                     else currentExpenses st))
                                    annualMortgage)
                                 downPayment DivisionPrecision) (NewFromInt 100)
                     else Zero).
  { destruct (GreaterThan downPayment Zero) eqn:G.
    - apply bind_inv in Hcoc. destruct Hcoc as (q & h2 & Hq & Hcoc).
      apply lift_inv in Hq. destruct Hq as [Hq ->].
      apply ret_inv in Hcoc. destruct Hcoc as [-> ->].
      split; [reflexivity |]. unfold Div in Hq.
      destruct (IsZero downPayment); [discriminate |].
      inversion Hq. reflexivity.
    - apply ret_inv in Hcoc. destruct Hcoc as [-> ->]. split; reflexivity. }
  destruct Hc as [-> Hc].
  split; [reflexivity |].
  eexists. exists il. split; [exact Hil |].
  cbn [projections cumulativeCashFlow]. split; [reflexivity |].
  unfold ledgerRow.
  cbn [YearlyProjection.VacancyLoss YearlyProjection.GrossIncome
       YearlyProjection.EffectiveIncome YearlyProjection.NOI
       YearlyProjection.Expenses YearlyProjection.MortgagePayment
       YearlyProjection.CashFlow YearlyProjection.LoanBalance
       YearlyProjection.PrincipalPaid YearlyProjection.Equity
       YearlyProjection.EquityAtSale YearlyProjection.PropertyValue
       YearlyProjection.TotalReturn YearlyProjection.CumulativeCF
       YearlyProjection.CashOnCash].
  repeat split; try reflexivity; assumption.
Qed.

Lemma projectLoop_ledger count : forall year st h st' h' prop f,
  nth_error (properties h) p = Some prop ->
  nth_error (financials h) (Property.Financial prop) = Some f ->
  projectLoop count
    (projectYear p schedule rentGrowth expenseGrowth appreciation vacancyRate
                 annualMortgage downPayment) year st h = Ok (st', h') ->
  h' = h /\
  exists rows,
    projections st' = projections st ++ rows /\
    List.length rows = count /\
    runningTotal (cumulativeCashFlow st) rows /\
    (rows = [] \/
     exists initialLoan, NewFromFloat (Financial.LoanAmount f) = Ok initialLoan) /\
    forall initialLoan,
      NewFromFloat (Financial.LoanAmount f) = Ok initialLoan ->
      Forall (ledgerRow vacancyRate annualMortgage downPayment initialLoan) rows.
Proof.
  induction count as [| count IH]; intros year st h st' h' prop f Hprop Hf H.
  - apply ret_inv in H. destruct H as [-> ->]. split; [reflexivity |].
    exists []. rewrite app_nil_r.
    split; [reflexivity |]. split; [reflexivity |]. split; [exact I |].
    split; [left; reflexivity | intros; constructor].
  - cbn [projectLoop] in H.
    apply bind_inv in H. destruct H as (st1 & h1 & H1 & H).
    destruct (projectYear_ledger _ _ _ _ _ _ _ Hprop Hf H1)
      as (-> & row & il & Hil & Hrow & Hled & Hcum & Hst1).
    destruct (IH _ _ _ _ _ _ _ Hprop Hf H)
      as (-> & rows & Hrows & Hlen & Hrun & _ & Hall).
    split; [reflexivity |].
    exists (row :: rows). rewrite Hrows, Hrow, <- app_assoc.
    split; [reflexivity |]. split; [cbn; rewrite Hlen; reflexivity |].
    split; [| split].
    + cbn [runningTotal]. split; [exact Hcum |]. rewrite <- Hst1. exact Hrun.
    + right. exists il. exact Hil.
    + intros il' Hil'. rewrite Hil in Hil'. inversion Hil'; subst il'.
      constructor; [exact Hled | apply Hall; exact Hil].
Qed.

End Ledger.

(** X9.  The rows that [ProjectCashFlow] returns, one per year of the
    configuration (a negative number of years makes the allocation of the
    rows panic), keep a consistent ledger: in every row
    the vacancy loss is the gross income times the vacancy rate, effective
    income, NOI and cash flow follow by subtraction, the mortgage is twelve
    times the absolute monthly payment, loan balance plus principal paid is
    the loan amount of the normalized block, and the cumulative cash flow is
    the running sum of the cash flows.  Equity and cash-on-cash use the down
    payment as it stood before [Normalize] ran, so with a down payment left
    at 0 every row reports a cash-on-cash return of 0. *)
Theorem ProjectCashFlow_ledger
        (p : ptr) (config : ProjectionConfig.t) (h h' : Heap)
        (prop : Property.t) (f : Financial.t)
        (projs : list YearlyProjection.t) :
  nth_error (properties h) p = Some prop ->
  nth_error (financials h) (Property.Financial prop) = Some f ->
  ProjectCashFlow p config h = Ok (projs, h') ->
  exists loan pay downPayment vacancyRate,
    loanOf (normalize f) = Ok loan /\
    MonthlyPayment loan = Ok pay /\
    NewFromFloat (Financial.DownPayment f) = Ok downPayment /\
    NewFromFloat (ProjectionConfig.VacancyRate config) = Ok vacancyRate /\
    h' = setFinancial h (Property.Financial prop) (normalize f) /\
    0 <= ProjectionConfig.Years config /\
    Z.of_nat (List.length projs) = ProjectionConfig.Years config /\
    runningTotal Zero projs /\
    (forall initialLoan,
        NewFromFloat (Financial.LoanAmount (normalize f)) = Ok initialLoan ->
        Forall (ledgerRow vacancyRate (Mul (Abs pay) (NewFromInt 12))
                          downPayment initialLoan) projs) /\
    ((downPayment == 0)%Q ->
     Forall (fun row => YearlyProjection.CashOnCash row = Zero) projs).
Proof.
  intros Hprop Hf H. unfold ProjectCashFlow in H.
  destruct (ProjectionConfig.Years config <? 0) eqn:Eneg;
    [discriminate H |].
  apply Z.ltb_ge in Eneg.
  apply bind_inv in H. destruct H as (prop' & h1 & Hl & H).
  apply load_inv in Hl. destruct Hl as [Hl ->].
  rewrite Hprop in Hl. inversion Hl; subst prop'. clear Hl.
  apply bind_inv in H. destruct H as (rent & h1 & Hsum & H).
  apply sumRents_inv in Hsum. destruct Hsum as (-> & _).
  apply bind_inv in H. destruct H as (f' & h1 & Hl & H).
  apply load_inv in Hl. destruct Hl as [Hl ->].
  rewrite Hf in Hl. inversion Hl; subst f'. clear Hl.
  apply bind_inv in H. destruct H as (ae & h1 & Hae & H).
  apply lift_inv in Hae. destruct Hae as [_ ->].
  apply bind_inv in H. destruct H as (pv & h1 & Hpv & H).
  apply lift_inv in Hpv. destruct Hpv as [_ ->].
  apply bind_inv in H. destruct H as (dp & h1 & Hdp & H).
  apply lift_inv in Hdp. destruct Hdp as [Hdp ->].
  apply bind_inv in H. destruct H as (loan & h2 & Hloan & H).
  apply Loan_inv in Hloan. destruct Hloan as (f' & Hf' & -> & Hloan).
  rewrite Hf in Hf'. inversion Hf'; subst f'. clear Hf'.
  apply bind_inv in H. destruct H as (pay & h3 & Hpay & H).
  apply lift_inv in Hpay. destruct Hpay as [Hpay ->].
  apply bind_inv in H. destruct H as (sched & h4 & Hs & H).
  apply lift_inv in Hs. destruct Hs as [_ ->].
  apply bind_inv in H. destruct H as (rg & h5 & Hrg & H).
  apply lift_inv in Hrg. destruct Hrg as [_ ->].
  apply bind_inv in H. destruct H as (eg & h6 & Heg & H).
  apply lift_inv in Heg. destruct Heg as [_ ->].
  apply bind_inv in H. destruct H as (ap & h7 & Hap & H).
  apply lift_inv in Hap. destruct Hap as [_ ->].
  apply bind_inv in H. destruct H as (vr & h8 & Hvr & H).
  apply lift_inv in Hvr. destruct Hvr as [Hvr ->].
  apply bind_inv in H. destruct H as (st & h9 & Hloop & H).
  apply ret_inv in H. destruct H as [-> ->].
  apply (projectLoop_ledger p sched rg eg ap vr _ dp _ _ _ _ _ _ prop (normalize f))
    in Hloop.
  2:{ exact Hprop. }
  2:{ eapply financials_setFinancial. exact Hf. }
  cbn [projections cumulativeCashFlow app] in Hloop.
  destruct Hloop as (-> & rows & -> & Hlen & Hrun & Hil & Hall).
  exists loan, pay, dp, vr.
  split; [exact Hloan |]. split; [exact Hpay |]. split; [exact Hdp |].
  split; [exact Hvr |]. split; [reflexivity |]. split; [exact Eneg |].
  split; [rewrite Hlen; apply Z2Nat.id; exact Eneg |].
  split; [exact Hrun |]. split; [exact Hall |].
  intro Hz. destruct Hil as [-> | (il & Eil)]; [constructor |].
  specialize (Hall il Eil).
  eapply Forall_impl; [| exact Hall].
  intros row (_ & _ & _ & _ & _ & _ & _ & _ & _ & Hcoc).
  rewrite Hcoc.
  assert (G : GreaterThan dp Zero = false)
    by (apply GreaterThan_false; unfold Zero; lra).
  rewrite G. reflexivity.
Qed.

Lemma ProjectCashFlow_ledger_witness :
  exists projs h',
    ProjectCashFlow 0%nat sample_config (sample_heap 200000 0 0 3000 500)
    = Ok (projs, h') /\
    List.length projs = 2%nat /\
    runningTotal Zero projs /\
    Forall (fun row => YearlyProjection.CashOnCash row = Zero) projs.
Proof.
  assert (E : exists projs h',
             ProjectCashFlow 0%nat sample_config
                             (sample_heap 200000 0 0 3000 500)
             = Ok (projs, h'))
    by (vm_compute; eexists; eexists; reflexivity).
  destruct E as (projs & h' & E).
  destruct (ProjectCashFlow_ledger
              0%nat sample_config (sample_heap 200000 0 0 3000 500) h'
              sample_property (sample_financial 200000 0 0 500) projs
              eq_refl eq_refl E)
    as (loan & pay & dp & vr & _ & _ & Hdp & _ & _ & _ & Hlen & Hrun & _ & Hcoc).
  exists projs, h'. split; [exact E |].
  split; [apply Nat2Z.inj; exact Hlen |]. split; [exact Hrun |].
  apply Hcoc.
  assert (Edp : NewFromFloat (Financial.DownPayment (sample_financial 200000 0 0 500))
                = Ok 0%Q) by (vm_compute; reflexivity).
  rewrite Edp in Hdp. inversion Hdp. reflexivity.
Defined.

(** * Scenario comparisons *)
Section Comparisons.

Local Open Scope nat_scope.

Variables (p : ptr) (h : Heap) (prop : Property.t) (f : Financial.t)
          (rs : list float64.t).
Hypothesis Hprop : nth_error (properties h) p = Some prop.
Hypothesis Hf : nth_error (financials h) (Property.Financial prop) = Some f.
Hypothesis Hrs : rentsAt h (Property.Units prop) = Some rs.

Lemma compare_loop scenarios : forall acc hc results h',
  preserves h hc ->
  forRange scenarios
    (fun results scenario =>
       (result <- analyzeScenario p scenario ;; ret (results ++ [result]))%heap)
    acc hc = Ok (results, h') ->
  exists new, results = acc ++ new /\ Forall2 (resultOf f rs) scenarios new.
Proof.
  induction scenarios as [| s scenarios IH]; intros acc hc results h' Hpres H.
  - apply ret_inv in H. destruct H as [-> _].
    exists []. rewrite app_nil_r. split; [reflexivity | constructor].
  - cbn [forRange] in H.
    apply bind_inv in H. destruct H as (acc1 & h1 & Hstep & H).
    apply bind_inv in Hstep. destruct Hstep as (r & h2 & Hr & Hstep).
    apply ret_inv in Hstep. destruct Hstep as [-> ->].
    pose proof (analyzeScenario_preserves _ _ _ _ _ Hr) as Hp1.
    pose proof Hpres as (HU & HF & HP).
    destruct (analyzeScenario_value p s hc r h2 prop f rs
                (HP _ _ Hprop) (HF _ _ Hf)
                (rentsAt_preserves _ _ _ _ Hpres Hrs) Hr)
      as (Hcf & Hpos & Hsc).
    destruct (IH _ _ _ _ (preserves_trans _ _ _ Hpres Hp1) H)
      as (new & -> & Hall).
    exists (r :: new). rewrite <- app_assoc. split; [reflexivity |].
    constructor; [| exact Hall]. repeat split; assumption.
Qed.

End Comparisons.

(** X10.  [CompareScenarios] returns one result per scenario, in the order
    of the scenarios: the i-th result carries the i-th scenario, the monthly
    cash flow of that scenario on the base property, and is marked positive
    exactly when that cash flow is above zero. *)
Theorem CompareScenarios_in_order
        (p : ptr) (scenarios : list Scenario.t) (h h' : Heap)
        (prop : Property.t) (f : Financial.t) (rs : list float64.t)
        (results : list ScenarioResult.t) :
  nth_error (properties h) p = Some prop ->
  nth_error (financials h) (Property.Financial prop) = Some f ->
  rentsAt h (Property.Units prop) = Some rs ->
  CompareScenarios p scenarios h = Ok (results, h') ->
  List.length results = List.length scenarios /\
  Forall2 (resultOf f rs) scenarios results.
Proof.
  intros Hprop Hf Hrs H. unfold CompareScenarios in H.
  destruct (compare_loop p h prop f rs Hprop Hf Hrs scenarios [] h results h'
              (preserves_refl h) H) as (new & -> & Hall).
  cbn [app]. split; [| exact Hall].
  symmetry. eapply Forall2_length. exact Hall.
Qed.

Lemma CompareScenarios_in_order_witness :
  exists results h',
    CompareScenarios 0%nat [sample_scenario 0; sample_scenario 50000]
                     (sample_heap 200000 0 0 3000 500) = Ok (results, h') /\
    List.length results = 2%nat /\
    Forall2 (resultOf (sample_financial 200000 0 0 500) [float64.of_Q 3000])
            [sample_scenario 0; sample_scenario 50000] results.
Proof.
  assert (E : exists results h',
             CompareScenarios 0%nat [sample_scenario 0; sample_scenario 50000]
                              (sample_heap 200000 0 0 3000 500)
             = Ok (results, h'))
    by (vm_compute; eexists; eexists; reflexivity).
  destruct E as (results & h' & E). exists results, h'.
  split; [exact E |].
  exact (CompareScenarios_in_order
           0%nat [sample_scenario 0; sample_scenario 50000]
           (sample_heap 200000 0 0 3000 500) h' sample_property
           (sample_financial 200000 0 0 500) [float64.of_Q 3000] results
           eq_refl eq_refl eq_refl E).
Defined.

(** * The scenario of the current values *)
Section CurrentScenario.

Lemma loanOf_normalize_current f name multiplier :
  loanOf (normalize
            (scenarioFinancial f
               {| Scenario.Name := name;
                  Scenario.DownPayment := Financial.DownPayment f;
                  Scenario.InterestRate := Financial.InterestRate f;
                  Scenario.LoanTerm := Financial.LoanTermYears f;
                  Scenario.RentMultiplier := multiplier |}))
  = loanOf (normalize f).
Proof.
  destruct f as [ap pp dp la ir lt ex].
  unfold loanOf, normalize, scenarioFinancial, InterestRatePercent.
  cbn [Scenario.DownPayment Scenario.InterestRate Scenario.LoanTerm
       Financial.DownPayment Financial.PurchasePrice Financial.LoanAmount
       Financial.AskingPrice Financial.InterestRate Financial.LoanTermYears
       Financial.Expenses].
  repeat (match goal with
          | |- context [if ?c then _ else _] => destruct c
          end;
          cbn [Financial.DownPayment Financial.PurchasePrice
               Financial.LoanAmount Financial.AskingPrice
               Financial.InterestRate Financial.LoanTermYears
               Financial.Expenses]);
    reflexivity.
Qed.

End CurrentScenario.

(** X11.  The scenario that [DefaultScenario] makes of a property's current
    values reproduces the analysis of the property itself: for rents that
    are float64 values, [analyzeScenario] of it reports the monthly cash flow
    of [AnalyzeCashFlow] and the same verdict on its sign. *)
Theorem DefaultScenario_reproduces_analysis
        (p : ptr) (h h1 h2 : Heap) (scenario : Scenario.t)
        (a : CashFlowAnalysis.t) (result : ScenarioResult.t) :
  (forall prop ua u,
      nth_error (properties h) p = Some prop -> In ua (Property.Units prop) ->
      nth_error (units h) ua = Some u ->
      valid_binary float64.prec float64.emax (Unit.Rent u) = true) ->
  DefaultScenario p h = Ok (scenario, h) ->
  analyzeScenario p scenario h = Ok (result, h1) ->
  AnalyzeCashFlow p h = Ok (a, h2) ->
  ScenarioResult.MonthlyCashFlow result = CashFlowAnalysis.MonthlyCashFlow a /\
  ScenarioResult.IsPositive result = IsCashFlowPositive a.
Proof.
  intros Hvalid Hd Hs Ha.
  apply AnalyzeCashFlow_inv in Ha.
  destruct Ha as (prop & f & rs & income & me & ae & loan & pay & pp & dp & la
                  & ir & Hprop & Hf & Hrs & Hsum & Hme & _ & Hloan & Hpay
                  & _ & _ & _ & _ & _ & ->).
  unfold DefaultScenario in Hd.
  apply bind_inv in Hd. destruct Hd as (prop' & h3 & Hl & Hd).
  apply load_inv in Hl. destruct Hl as [Hl ->].
  rewrite Hprop in Hl. inversion Hl; subst prop'. clear Hl.
  apply bind_inv in Hd. destruct Hd as (f' & h3 & Hl & Hd).
  apply load_inv in Hl. destruct Hl as [Hl ->].
  rewrite Hf in Hl. inversion Hl; subst f'. clear Hl.
  apply ret_inv in Hd. destruct Hd as [-> _].
  destruct (analyzeScenario_value p _ h result h1 prop f rs Hprop Hf Hrs Hs)
    as (Hcf & Hpos & _).
  assert (Hv : Forall (fun r => valid_binary float64.prec float64.emax r = true) rs).
  { clear - Hvalid Hprop Hrs.
    assert (Hu : forall ua u, In ua (Property.Units prop) ->
                              nth_error (units h) ua = Some u ->
                              valid_binary float64.prec float64.emax (Unit.Rent u)
                              = true)
      by (intros; eapply Hvalid; eassumption).
    clear Hvalid Hprop. revert rs Hrs Hu.
    induction (Property.Units prop) as [| ua us IH]; intros rs Hrs Hu.
    - inversion Hrs. constructor.
    - cbn [rentsAt] in Hrs.
      destruct (nth_error (units h) ua) as [u |] eqn:Eu; [| discriminate].
      destruct (rentsAt h us) as [rs' |] eqn:Er; [| discriminate].
      inversion Hrs; subst rs. constructor.
      + apply (Hu ua u); [left; reflexivity | exact Eu].
      + apply IH; [reflexivity |]. intros ub u' Hin. apply Hu. right. exact Hin. }
  unfold scenarioCashFlow in Hcf.
  cbn [Scenario.RentMultiplier] in Hcf.
  rewrite (map_mul_f1 rs Hv), Hsum, Hme in Hcf. cbn [rbind] in Hcf.
  rewrite loanOf_normalize_current, Hloan in Hcf. cbn [rbind] in Hcf.
  rewrite Hpay in Hcf. cbn [rbind] in Hcf.
  inversion Hcf as [Hm].
  assert (Ea : CashFlowAnalysis.MonthlyCashFlow
                 (analysisOf income me ae pay pp dp la ir (Loan.TermYears loan))
               = Sub (Sub income me) (Abs pay)) by reflexivity.
  split.
  - rewrite Ea. reflexivity.
  - rewrite Hpos. unfold IsCashFlowPositive. rewrite Ea, <- Hm. reflexivity.
Qed.

Lemma DefaultScenario_reproduces_analysis_witness :
  exists result h1 a h2,
    DefaultScenario 0%nat (sample_heap 200000 0 0 3000 500)
    = Ok (sample_current, sample_heap 200000 0 0 3000 500) /\
    analyzeScenario 0%nat sample_current (sample_heap 200000 0 0 3000 500)
    = Ok (result, h1) /\
    AnalyzeCashFlow 0%nat (sample_heap 200000 0 0 3000 500) = Ok (a, h2) /\
    ScenarioResult.MonthlyCashFlow result = CashFlowAnalysis.MonthlyCashFlow a.
Proof.
  assert (Ed : DefaultScenario 0%nat (sample_heap 200000 0 0 3000 500)
               = Ok (sample_current, sample_heap 200000 0 0 3000 500))
    by reflexivity.
  assert (Es : exists result h1,
             analyzeScenario 0%nat sample_current
                             (sample_heap 200000 0 0 3000 500)
             = Ok (result, h1))
    by (vm_compute; eexists; eexists; reflexivity).
  destruct Es as (result & h1 & Es).
  assert (Ea : exists a h2,
             AnalyzeCashFlow 0%nat (sample_heap 200000 0 0 3000 500) = Ok (a, h2))
    by (vm_compute; eexists; eexists; reflexivity).
  destruct Ea as (a & h2 & Ea).
  exists result, h1, a, h2.
  split; [exact Ed |]. split; [exact Es |]. split; [exact Ea |].
  refine (proj1 (DefaultScenario_reproduces_analysis
                   0%nat (sample_heap 200000 0 0 3000 500) h1 h2 sample_current
                   a result _ Ed Es Ea)).
  intros prop ua u Hp Hin Hu.
  assert (Hprop : prop = sample_property) by (cbn in Hp; congruence).
  subst prop. destruct Hin as [<- | []].
  assert (Eu : u = sample_unit 3000) by (cbn in Hu; congruence).
  subst u. vm_compute. reflexivity.
Defined.

(** * Names in the comparison report *)
Section Truncation.

Local Open Scope nat_scope.

Lemma length_append (s1 s2 : string) :
  String.length (s1 ++ s2) = String.length s1 + String.length s2.
Proof. induction s1 as [| c s1 IH]; cbn; [reflexivity | rewrite IH; reflexivity]. Qed.

Lemma length_substring_0 (n : nat) : forall s,
  n <= String.length s -> String.length (String.substring 0 n s) = n.
Proof.
  induction n as [| n IH]; intros s H.
  - destruct s; reflexivity.
  - destruct s as [| c s]; cbn in *; [lia |]. rewrite IH by lia. reflexivity.
Qed.

Lemma substring_0_prefix (n : nat) : forall s,
  String.prefix (String.substring 0 n s) s = true.
Proof.
  induction n as [| n IH]; intros s.
  - destruct s; reflexivity.
  - destruct s as [| c s]; cbn; [reflexivity |].
    destruct (ascii_dec c c); [apply IH | congruence].
Qed.

End Truncation.

(** X12.  [truncateString] never returns more than [maxLen] bytes when
    [maxLen] is at least 2: a string that fits is returned as it is, a
    longer one is cut to its first [maxLen - 2] bytes followed by two dots,
    [maxLen] bytes in all.  With [maxLen] below 2 a string that does not fit
    makes the slice bound negative, and the call panics. *)
Theorem truncateString_bounded (s : string) (maxLen : Z) :
  (Z.of_nat (String.length s) <= maxLen -> truncateString s maxLen = Some s) /\
  (2 <= maxLen -> maxLen < Z.of_nat (String.length s) ->
   exists r,
     truncateString s maxLen = Some r /\
     Z.of_nat (String.length r) = maxLen /\
     r = (String.substring 0 (Z.to_nat (maxLen - 2)) s ++ "..")%string /\
     String.prefix (String.substring 0 (Z.to_nat (maxLen - 2)) s) s = true) /\
  (maxLen < 2 -> maxLen < Z.of_nat (String.length s) ->
   truncateString s maxLen = None).
Proof.
  unfold truncateString. split; [| split].
  - intro H. apply Z.leb_le in H. rewrite H. reflexivity.
  - intros H2 Hlt.
    assert (E1 : (Z.of_nat (String.length s) <=? maxLen) = false)
      by (apply Z.leb_gt; lia).
    assert (E2 : (maxLen - 2 <? 0) = false) by (apply Z.ltb_ge; lia).
    rewrite E1, E2. eexists. split; [reflexivity |].
    split; [| split; [reflexivity | apply substring_0_prefix]].
    rewrite length_append, length_substring_0 by lia. cbn [String.length]. lia.
  - intros H2 Hlt.
    assert (E1 : (Z.of_nat (String.length s) <=? maxLen) = false)
      by (apply Z.leb_gt; lia).
    assert (E2 : (maxLen - 2 <? 0) = true) by (apply Z.ltb_lt; lia).
    rewrite E1, E2. reflexivity.
Qed.

Lemma truncateString_bounded_witness :
  truncateString "Conservative 25% Down" 17 = Some "Conservative 25.."%string /\
  truncateString "20% Down" 17 = Some "20% Down"%string /\
  truncateString "20% Down" 1 = None.
Proof.
  split; [| split].
  - destruct (proj1 (proj2 (truncateString_bounded "Conservative 25% Down" 17))
                ltac:(lia) ltac:(cbn; lia)) as (r & Hr & _ & -> & _).
    exact Hr.
  - apply (proj1 (truncateString_bounded "20% Down" 17)). cbn. lia.
  - apply (proj2 (proj2 (truncateString_bounded "20% Down" 1))); cbn; lia.
Defined.

(** X13.  The block that [NewFinancial] allocates is already normalized: a
    zero down payment has been replaced by 20% of the purchase price and the
    loan amount is the purchase price less the down payment, so that
    [Normalize] on the new block changes nothing.  The allocation leaves
    every other object as it is. *)
Theorem NewFinancial_normalized
        (askingPrice purchasePrice downPayment interestRate : float64.t)
        (loanTermYears : LoanTerm.t) (h : Heap) :
  exists f,
    NewFinancial askingPrice purchasePrice downPayment interestRate
                 loanTermYears h
    = Ok (List.length (financials h),
          {| units := units h;
             financials := financials h ++ [f];
             properties := properties h |}) /\
    Financial.DownPayment f
    = (if float64.eqb downPayment f0
       then float64.mul purchasePrice defaultDownPaymentFactor
       else downPayment) /\
    Financial.LoanAmount f
    = float64.sub purchasePrice (Financial.DownPayment f) /\
    normalize f = f /\
    Normalize (List.length (financials h))
              {| units := units h;
                 financials := financials h ++ [f];
                 properties := properties h |}
    = Ok (tt, {| units := units h;
                 financials := financials h ++ [f];
                 properties := properties h |}).
Proof.
  eexists. split; [reflexivity |]. split; [reflexivity |].
  split; [reflexivity |].
  match goal with
  | |- normalize ?f = ?f /\ _ => assert (Hn : normalize f = f)
  end.
  { unfold normalize.
    cbn [Financial.DownPayment Financial.PurchasePrice Financial.LoanAmount].
    destruct (float64.eqb downPayment f0) eqn:E.
    - repeat (match goal with
              | |- context [if ?c then _ else _] => destruct c
              end;
              cbn [Financial.DownPayment Financial.PurchasePrice
                   Financial.LoanAmount Financial.AskingPrice
                   Financial.InterestRate Financial.LoanTermYears
                   Financial.Expenses]);
        reflexivity.
    - rewrite E. cbn [andb].
      repeat (match goal with
              | |- context [if ?c then _ else _] => destruct c
              end;
              cbn [Financial.DownPayment Financial.PurchasePrice
                   Financial.LoanAmount Financial.AskingPrice
                   Financial.InterestRate Financial.LoanTermYears
                   Financial.Expenses]);
        reflexivity. }
  split; [exact Hn |].
  erewrite Normalize_Ok.
  2:{ cbn [financials]. rewrite nth_error_app2 by lia.
      rewrite Nat.sub_diag. reflexivity. }
  rewrite Hn. unfold setFinancial. cbn [units financials properties].
  rewrite update_same_value; [reflexivity |].
  rewrite nth_error_app2 by lia. rewrite Nat.sub_diag. reflexivity.
Qed.

(** * Lookup of units *)
Section UnitLookup.

Local Open Scope nat_scope.

Lemma answers_dec u id :
  (String.eqb (Unit.Name u) id || String.eqb (uuid.String (Unit.Uuid u)) id = true
   <-> answers u id).
Proof.
  unfold answers. rewrite orb_true_iff, !String.eqb_eq. reflexivity.
Qed.

Lemma GetUnit_inv us : forall id h r h',
  Units.GetUnit us id h = Ok (r, h') ->
  h' = h /\
  match r with
  | Some ua =>
      exists before after u,
        us = before ++ ua :: after /\
        nth_error (units h) ua = Some u /\ answers u id /\
        noneAnswers h before id
  | None => noneAnswers h us id
  end.
Proof.
  induction us as [| ua us IH]; intros id h r h' H.
  - apply ret_inv in H. destruct H as [-> ->]. split; [reflexivity | constructor].
  - cbn [Units.GetUnit] in H.
    apply bind_inv in H. destruct H as (u & h1 & Hu & H).
    apply load_inv in Hu. destruct Hu as [Hu ->].
    destruct (String.eqb (Unit.Name u) id
              || String.eqb (uuid.String (Unit.Uuid u)) id) eqn:E.
    + apply ret_inv in H. destruct H as [-> ->]. split; [reflexivity |].
      exists [], us, u. split; [reflexivity |]. split; [exact Hu |].
      split; [apply answers_dec; exact E | constructor].
    + assert (Hno : ~ answers u id).
      { intro Ha. apply answers_dec in Ha. congruence. }
      destruct (IH _ _ _ _ H) as [-> Hr]. split; [reflexivity |].
      destruct r as [ub |].
      * destruct Hr as (before & after & v & -> & Hv & Ha & Hb).
        exists (ua :: before), after, v. split; [reflexivity |].
        split; [exact Hv |]. split; [exact Ha |].
        constructor; [exists u; split; assumption | exact Hb].
      * constructor; [exists u; split; assumption | exact Hr].
Qed.

Lemma GetUnit_found before : forall ua after u id h,
  noneAnswers h before id ->
  nth_error (units h) ua = Some u -> answers u id ->
  Units.GetUnit (before ++ ua :: after) id h = Ok (Some ua, h).
Proof.
  induction before as [| ub before IH]; intros ua after u id h Hno Hu Ha.
  - cbn [app Units.GetUnit]. unfold loadUnit.
    rewrite (bind_Ok _ _ _ _ _ (load_Ok units ua h u Hu)).
    apply answers_dec in Ha. rewrite Ha. reflexivity.
  - inversion Hno as [| x l (v & Hv & Hnv) Hrest]; subst.
    cbn [app Units.GetUnit]. unfold loadUnit.
    rewrite (bind_Ok _ _ _ _ _ (load_Ok units ub h v Hv)).
    destruct (String.eqb (Unit.Name v) id
              || String.eqb (uuid.String (Unit.Uuid v)) id) eqn:E.
    + exfalso. apply Hnv. apply answers_dec. exact E.
    + apply IH with (u := u); assumption.
Qed.

Lemma GetUnit_missing us : forall id h,
  noneAnswers h us id -> Units.GetUnit us id h = Ok (None, h).
Proof.
  induction us as [| ub us IH]; intros id h Hno; [reflexivity |].
  inversion Hno as [| x l (v & Hv & Hnv) Hrest]; subst.
  cbn [Units.GetUnit]. unfold loadUnit.
  rewrite (bind_Ok _ _ _ _ _ (load_Ok units ub h v Hv)).
  destruct (String.eqb (Unit.Name v) id
            || String.eqb (uuid.String (Unit.Uuid v)) id) eqn:E.
  - exfalso. apply Hnv. apply answers_dec. exact E.
  - apply IH. exact Hrest.
Qed.

End UnitLookup.

(** X14.  [Units.GetUnit] returns the first unit of the slice that answers
    to the identifier by its name or by its UUID string, and nil exactly
    when no unit does; it reads the units and writes nothing. *)
Theorem GetUnit_first_match (us : list ptr) (id : string) (h : Heap) :
  (forall r h',
     Units.GetUnit us id h = Ok (r, h') ->
     h' = h /\
     match r with
     | Some ua =>
         exists before after u,
           us = before ++ ua :: after /\
           nth_error (units h) ua = Some u /\ answers u id /\
           noneAnswers h before id
     | None => noneAnswers h us id
     end) /\
  (forall before ua after u,
     us = before ++ ua :: after -> noneAnswers h before id ->
     nth_error (units h) ua = Some u -> answers u id ->
     Units.GetUnit us id h = Ok (Some ua, h)) /\
  (noneAnswers h us id -> Units.GetUnit us id h = Ok (None, h)).
Proof.
  split; [| split].
  - intros r h' H. exact (GetUnit_inv us id h r h' H).
  - intros before ua after u -> Hno Hu Ha.
    exact (GetUnit_found before ua after u id h Hno Hu Ha).
  - exact (GetUnit_missing us id h).
Qed.

Lemma GetUnit_first_match_witness :
  Units.GetUnit [0%nat] "unit1" (sample_heap 200000 0 0 3000 500)
  = Ok (Some 0%nat, sample_heap 200000 0 0 3000 500) /\
  Units.GetUnit [0%nat] "unit2" (sample_heap 200000 0 0 3000 500)
  = Ok (None, sample_heap 200000 0 0 3000 500).
Proof.
  split.
  - apply (proj1 (proj2 (GetUnit_first_match
                           [0%nat] "unit1" (sample_heap 200000 0 0 3000 500)))
             [] 0%nat [] (sample_unit 3000)).
    + reflexivity.
    + constructor.
    + reflexivity.
    + left. reflexivity.
  - apply (proj2 (proj2 (GetUnit_first_match
                           [0%nat] "unit2" (sample_heap 200000 0 0 3000 500)))).
    constructor; [| constructor].
    exists (sample_unit 3000). split; [reflexivity |].
    intros [Hn | Hu]; [discriminate Hn |].
    vm_compute in Hu. discriminate Hu.
Defined.

(** * The builder's units *)
Section BuilderUnits.

Local Open Scope nat_scope.

Lemma update_app_last {A} (l : list A) x y :
  update (l ++ [x]) (List.length l) y = l ++ [y].
Proof. induction l as [| z l IH]; simpl; [reflexivity | rewrite IH; reflexivity]. Qed.

Lemma update_app_old {A} (l l' : list A) : forall a x,
  a < List.length l -> update (l ++ l') a x = update l a x ++ l'.
Proof.
  induction l as [| z l IH]; intros [| a] x H; simpl in *; try lia.
  - reflexivity.
  - rewrite IH by lia. reflexivity.
Qed.

Lemma nth_error_app_last {A} (l : list A) x :
  nth_error (l ++ [x]) (List.length l) = Some x.
Proof. induction l as [| z l IH]; simpl; [reflexivity | exact IH]. Qed.

(** Units that a heap holds are still there, unchanged, after the heap
    has grown by one unit and its properties were rewritten. *)
Lemma noneAnswers_grown h us id u ps :
  noneAnswers h us id ->
  noneAnswers {| units := units h ++ [u]; financials := financials h;
                 properties := ps |} us id.
Proof.
  intro H. induction H as [| ua us (v & Hv & Hn) _ IH]; constructor; [| exact IH].
  exists v. split; [| exact Hn]. cbn. apply nth_error_app_old. exact Hv.
Qed.

Lemma length_snoc {A} (l : list A) x :
  Z.of_nat (List.length (l ++ [x])) = (Z.of_nat (List.length l) + 1)%Z.
Proof. rewrite length_app. simpl. lia. Qed.

Variables (p : ptr) (id beds baths : Z) (sqft rent : float64.t).
Variables (h : Heap) (prop : Property.t).

Local Notation name := (nextUnitName prop).
Local Notation ua := (List.length (units h)).
Local Notation us := (Property.Units prop ++ [List.length (units h)]).
Local Notation fresh := (builtUnit id (nextUnitName prop) beds baths sqft f0).

Hypothesis Hp : nth_error (properties h) p = Some prop.

(** [Units.AddUnit] on the property's slice. *)
Lemma Units_AddUnit_Ok :
  Units.AddUnit (Property.Units prop) id beds baths sqft h
  = Ok (us, {| units := units h ++ [fresh]; financials := financials h;
               properties := properties h |}).
Proof.
  unfold Units.AddUnit, NewUnit.
  set (u0 := {| Unit.Uuid := id; Unit.Name := EmptyString; Unit.Bedrooms := beds;
                Unit.Bathrooms := baths; Unit.Size := sqft; Unit.Rent := f0;
                Unit.Occupied := false |}).
  set (h1 := {| units := units h ++ [u0]; financials := financials h;
                properties := properties h |}).
  assert (E1 : newUnit u0 h = Ok (ua, h1)) by reflexivity.
  rewrite (bind_Ok _ _ _ _ _ E1).
  assert (L1 : nth_error (units h1) ua = Some u0) by apply nth_error_app_last.
  unfold loadUnit.
  rewrite (bind_Ok _ _ _ _ _ (load_Ok units ua h1 u0 L1)).
  cbn [Unit.Uuid Unit.Name Unit.Bedrooms Unit.Bathrooms Unit.Size Unit.Rent
       Unit.Occupied u0].
  assert (E2 : storeUnit ua fresh h1
               = Ok (tt, {| units := units h ++ [fresh]; financials := financials h;
                            properties := properties h |})).
  { unfold storeUnit. rewrite L1. cbn [units financials properties h1].
    rewrite update_app_last. reflexivity. }
  unfold builtUnit, nextUnitName in E2 |- *.
  rewrite (bind_Ok _ _ _ _ _ E2). reflexivity.
Qed.

(** The builder's [AddUnit], given the unit that the lookup of the new
    name finds. *)
Lemma Builder_AddUnit_steps ub v :
  Units.GetUnit us name
    {| units := units h ++ [fresh]; financials := financials h;
       properties := update (properties h) p (withUnits prop us) |}
  = Ok (Some ub, {| units := units h ++ [fresh]; financials := financials h;
                    properties := update (properties h) p (withUnits prop us) |}) ->
  nth_error (units h ++ [fresh]) ub = Some v ->
  Builder.AddUnit p id beds baths sqft rent h
  = Ok (p, {| units := update (units h ++ [fresh]) ub (withRent v rent);
              financials := financials h;
              properties := update (properties h) p (withCountedUnits prop us) |}).
Proof.
  intros Eget Lv.
  assert (Hlt : p < List.length (properties h)).
  { apply nth_error_Some. congruence. }
  unfold Builder.AddUnit.
  unfold loadProperty at 1.
  rewrite (bind_Ok _ _ _ _ _ (load_Ok properties p h prop Hp)).
  rewrite (bind_Ok _ _ _ _ _ Units_AddUnit_Ok).
  fold (withUnits prop us).
  set (h2 := {| units := units h ++ [fresh]; financials := financials h;
                properties := properties h |}).
  set (h3 := {| units := units h ++ [fresh]; financials := financials h;
                properties := update (properties h) p (withUnits prop us) |}) in *.
  assert (E4 : storeProperty p (withUnits prop us) h2 = Ok (tt, h3)).
  { unfold storeProperty. cbn [properties h2]. rewrite Hp. reflexivity. }
  rewrite (bind_Ok _ _ _ _ _ E4).
  assert (L3 : nth_error (properties h3) p = Some (withUnits prop us)).
  { cbn [properties h3]. apply nth_error_update_same. exact Hlt. }
  unfold loadProperty at 1.
  rewrite (bind_Ok _ _ _ _ _ (load_Ok properties p h3 _ L3)).
  cbn [Property.Units withUnits].
  assert (Hname : ("unit" ++ strconv.Itoa (Z.of_nat (List.length us)))%string = name).
  { unfold nextUnitName. rewrite length_snoc. reflexivity. }
  rewrite Hname.
  rewrite (bind_Ok _ _ _ _ _ Eget).
  set (h4 := {| units := update (units h ++ [fresh]) ub (withRent v rent);
                financials := financials h;
                properties := update (properties h) p (withUnits prop us) |}).
  assert (E6 : SetRent ub rent h3 = Ok (tt, h4)).
  { unfold SetRent, loadUnit.
    rewrite (bind_Ok _ _ _ _ _ (load_Ok units ub h3 v Lv)).
    unfold storeUnit. cbn [units h3]. rewrite Lv. reflexivity. }
  rewrite (bind_Ok _ _ _ _ _ E6).
  assert (L4 : nth_error (properties h4) p = Some (withUnits prop us)) by exact L3.
  unfold loadProperty.
  rewrite (bind_Ok _ _ _ _ _ (load_Ok properties p h4 _ L4)).
  cbn [Property.PropertyName Property.Address Property.City Property.State
       Property.ZipCode Property.County Property.YearBuilt Property.NumberOfUnits
       Property.BuildingSF Property.LotSF Property.Units Property.Financial
       withUnits].
  fold (withCountedUnits prop us).
  assert (E7 : storeProperty p (withCountedUnits prop us) h4
               = Ok (tt, {| units := units h4; financials := financials h;
                            properties := update (properties h) p
                                            (withCountedUnits prop us) |})).
  { unfold storeProperty. rewrite L4. cbn [units financials properties h4].
    rewrite update_update. reflexivity. }
  rewrite (bind_Ok _ _ _ _ _ E7). reflexivity.
Qed.

End BuilderUnits.

(** X15.  [Property.AddUnit] of the builder, on a property none of whose
    units answers to the next name ["unit<n+1>"]: it allocates one unit with
    that name, the given rooms, size and rent, appends it to the property's
    units, sets [NumberOfUnits] to the new length and touches nothing else;
    a lookup of the new name then finds the new unit. *)
Theorem Builder_AddUnit_round_trip
        (p : ptr) (id beds baths : Z) (sqft rent : float64.t)
        (h : Heap) (prop : Property.t) :
  nth_error (properties h) p = Some prop ->
  noneAnswers h (Property.Units prop) (nextUnitName prop) ->
  exists h',
    Builder.AddUnit p id beds baths sqft rent h = Ok (p, h') /\
    units h' = units h ++ [builtUnit id (nextUnitName prop) beds baths sqft rent] /\
    financials h' = financials h /\
    properties h' =
      update (properties h) p
        (withCountedUnits prop (Property.Units prop ++ [List.length (units h)])) /\
    Units.GetUnit (Property.Units prop ++ [List.length (units h)])
                  (nextUnitName prop) h'
    = Ok (Some (List.length (units h)), h').
Proof.
  intros Hp Hno.
  set (fresh := builtUnit id (nextUnitName prop) beds baths sqft f0).
  set (us := Property.Units prop ++ [List.length (units h)]).
  assert (Eget :
    Units.GetUnit us (nextUnitName prop)
      {| units := units h ++ [fresh]; financials := financials h;
         properties := update (properties h) p (withUnits prop us) |}
    = Ok (Some (List.length (units h)),
          {| units := units h ++ [fresh]; financials := financials h;
             properties := update (properties h) p (withUnits prop us) |})).
  { apply GetUnit_found with (u := fresh).
    - apply noneAnswers_grown. exact Hno.
    - apply nth_error_app_last.
    - left. reflexivity. }
  eexists. split.
  - apply (Builder_AddUnit_steps p id beds baths sqft rent h prop Hp
             (List.length (units h)) fresh Eget).
    apply nth_error_app_last.
  - cbn [units financials properties].
    split; [apply update_app_last |]. split; [reflexivity |].
    split; [reflexivity |].
    rewrite update_app_last.
    apply GetUnit_found
      with (u := builtUnit id (nextUnitName prop) beds baths sqft rent).
    + apply noneAnswers_grown. exact Hno.
    + apply nth_error_app_last.
    + left. reflexivity.
Qed.

Lemma Builder_AddUnit_round_trip_witness :
  exists h',
    Builder.AddUnit 0%nat 7 3 2 (float64.of_Q 950) (float64.of_Q 1800)
                    (sample_heap 200000 0 0 3000 500) = Ok (0%nat, h') /\
    Units.GetUnit [0%nat; 1%nat] "unit2" h' = Ok (Some 1%nat, h').
Proof.
  assert (Hno : noneAnswers (sample_heap 200000 0 0 3000 500)
                            (Property.Units sample_property)
                            (nextUnitName sample_property)).
  { constructor; [| constructor].
    exists (sample_unit 3000). split; [reflexivity |].
    intros [Hn | Hu]; [discriminate Hn |].
    vm_compute in Hu. discriminate Hu. }
  destruct (Builder_AddUnit_round_trip
              0%nat 7 3 2 (float64.of_Q 950) (float64.of_Q 1800)
              (sample_heap 200000 0 0 3000 500) sample_property
              eq_refl Hno) as (h' & E & _ & _ & _ & G).
  exists h'. split; [exact E | exact G].
Defined.

(** X16.  [Property.AddUnit] of the builder, on a property one of whose
    units already answers to the next name ["unit<n+1>"]: the new unit is
    still appended, but the rent is written to the first unit that answers
    to the name, and the new unit keeps a rent of zero. *)
Theorem Builder_AddUnit_name_clash
        (p : ptr) (id beds baths : Z) (sqft rent : float64.t)
        (h : Heap) (prop : Property.t)
        (before after : list ptr) (ub : ptr) (v : Unit.t) :
  nth_error (properties h) p = Some prop ->
  Property.Units prop = before ++ ub :: after ->
  noneAnswers h before (nextUnitName prop) ->
  nth_error (units h) ub = Some v ->
  answers v (nextUnitName prop) ->
  Builder.AddUnit p id beds baths sqft rent h
  = Ok (p, {| units := update (units h) ub (withRent v rent)
                       ++ [builtUnit id (nextUnitName prop) beds baths sqft f0];
              financials := financials h;
              properties :=
                update (properties h) p
                  (withCountedUnits prop
                     (Property.Units prop ++ [List.length (units h)])) |}).
Proof.
  intros Hp Hus Hno Hv Ha.
  set (fresh := builtUnit id (nextUnitName prop) beds baths sqft f0).
  set (us := Property.Units prop ++ [List.length (units h)]).
  assert (Hlt : (ub < List.length (units h))%nat).
  { apply nth_error_Some. congruence. }
  assert (Eget :
    Units.GetUnit us (nextUnitName prop)
      {| units := units h ++ [fresh]; financials := financials h;
         properties := update (properties h) p (withUnits prop us) |}
    = Ok (Some ub,
          {| units := units h ++ [fresh]; financials := financials h;
             properties := update (properties h) p (withUnits prop us) |})).
  { unfold us. rewrite Hus, <- app_assoc. cbn [app].
    apply GetUnit_found with (u := v).
    - apply noneAnswers_grown. exact Hno.
    - cbn [units]. apply nth_error_app_old. exact Hv.
    - exact Ha. }
  rewrite (Builder_AddUnit_steps p id beds baths sqft rent h prop Hp ub v Eget
             (nth_error_app_old _ _ _ _ Hv)).
  rewrite update_app_old by exact Hlt. reflexivity.
Qed.

Lemma Builder_AddUnit_name_clash_witness :
  exists h',
    Builder.AddUnit 0%nat 7 3 2 f0 (float64.of_Q 1800) clash_heap = Ok (0%nat, h') /\
    units h' = [builtUnit 0 "unit2" 1 1 f0 (float64.of_Q 1800);
                builtUnit 7 "unit2" 3 2 f0 f0].
Proof.
  eexists. split.
  - apply (Builder_AddUnit_name_clash
             0%nat 7 3 2 f0 (float64.of_Q 1800) clash_heap sample_property
             [] [] 0%nat (builtUnit 0 "unit2" 1 1 f0 f0)
             eq_refl eq_refl (Forall_nil _) eq_refl (or_introl eq_refl)).
  - reflexivity.
Defined.

(** * Generated scenarios *)
Section GeneratedScenarios.

Variables (p : ptr) (h : Heap) (prop : Property.t) (f : Financial.t).
Hypothesis Hprop : nth_error (properties h) p = Some prop.
Hypothesis Hf : nth_error (financials h) (Property.Financial prop) = Some f.

Lemma down_payment_loop percentages : forall acc,
  forRange percentages
    (fun scenarios pct =>
       (prop <- loadProperty p ;;
        f' <- loadFinancial (Property.Financial prop) ;;
        ret (scenarios ++
             [{| Scenario.Name := (strconv.FormatFixed pct 0 ++ "% Down")%string;
                 Scenario.DownPayment :=
                   float64.mul (Financial.PurchasePrice f) (float64.div pct f100);
                 Scenario.InterestRate := Financial.InterestRate f';
                 Scenario.LoanTerm := Financial.LoanTermYears f';
                 Scenario.RentMultiplier := f1 |}]))%heap)
    acc h
  = Ok (acc ++ map (downPaymentScenario f) percentages, h).
Proof.
  induction percentages as [| pct percentages IH]; intro acc.
  - cbn [forRange map]. rewrite app_nil_r. reflexivity.
  - cbn [forRange map].
    erewrite bind_Ok.
    2:{ unfold loadProperty, loadFinancial.
        rewrite (bind_Ok _ _ _ _ _ (load_Ok properties p h prop Hprop)).
        rewrite (bind_Ok _ _ _ _ _ (load_Ok financials _ h f Hf)).
        reflexivity. }
    rewrite IH. rewrite <- app_assoc. reflexivity.
Qed.

Lemma GenerateDownPaymentScenarios_Ok percentages :
  GenerateDownPaymentScenarios p percentages h
  = Ok (map (downPaymentScenario f) percentages, h).
Proof.
  unfold GenerateDownPaymentScenarios, loadProperty, loadFinancial.
  rewrite (bind_Ok _ _ _ _ _ (load_Ok properties p h prop Hprop)).
  rewrite (bind_Ok _ _ _ _ _ (load_Ok financials _ h f Hf)).
  apply (down_payment_loop percentages []).
Qed.

Lemma GenerateInterestRateScenarios_loop rates : forall acc,
  forRange rates
    (fun scenarios rate =>
       (prop <- loadProperty p ;;
        f <- loadFinancial (Property.Financial prop) ;;
        ret (scenarios ++
             [{| Scenario.Name := (strconv.FormatFixed rate 2 ++ "% Rate")%string;
                 Scenario.DownPayment := Financial.DownPayment f;
                 Scenario.InterestRate := float64.mul rate f100;
                 Scenario.LoanTerm := Financial.LoanTermYears f;
                 Scenario.RentMultiplier := f1 |}]))%heap)
    acc h
  = Ok (acc ++ map (interestRateScenario f) rates, h).
Proof.
  induction rates as [| rate rates IH]; intro acc.
  - cbn [forRange map]. rewrite app_nil_r. reflexivity.
  - cbn [forRange map].
    erewrite bind_Ok.
    2:{ unfold loadProperty, loadFinancial.
        rewrite (bind_Ok _ _ _ _ _ (load_Ok properties p h prop Hprop)).
        rewrite (bind_Ok _ _ _ _ _ (load_Ok financials _ h f Hf)).
        reflexivity. }
    rewrite IH. rewrite <- app_assoc. reflexivity.
Qed.

End GeneratedScenarios.

(** X17.  [GenerateDownPaymentScenarios] returns one scenario per
    percentage, in the order given: named after the percentage, with the
    down payment [PurchasePrice * (pct / 100)], the property's rate and term
    and a rent multiplier of 1; it writes nothing.  The purchase price is
    read before the loop, so a property without a Financial block panics
    even for an empty list of percentages. *)
Theorem GenerateDownPaymentScenarios_map
        (p : ptr) (percentages : list float64.t) (h : Heap) (prop : Property.t) :
  nth_error (properties h) p = Some prop ->
  (forall f, nth_error (financials h) (Property.Financial prop) = Some f ->
             GenerateDownPaymentScenarios p percentages h
             = Ok (map (downPaymentScenario f) percentages, h)) /\
  (nth_error (financials h) (Property.Financial prop) = None ->
   GenerateDownPaymentScenarios p percentages h = Panic NilDereference).
Proof.
  intro Hprop. split.
  - intros f Hf. exact (GenerateDownPaymentScenarios_Ok p h prop f Hprop Hf percentages).
  - intro Hnone.
    unfold GenerateDownPaymentScenarios, loadProperty, loadFinancial.
    rewrite (bind_Ok _ _ _ _ _ (load_Ok properties p h prop Hprop)).
    unfold bind, load. rewrite Hnone. reflexivity.
Qed.

Lemma GenerateDownPaymentScenarios_map_witness :
  exists s10 s25,
    GenerateDownPaymentScenarios 0%nat [float64.of_Q 10; float64.of_Q 25]
                                 (sample_heap 200000 0 600 3000 500)
    = Ok ([s10; s25], sample_heap 200000 0 600 3000 500) /\
    Scenario.Name s10 = "10% Down"%string /\
    Scenario.DownPayment s10 = float64.of_Q 20000 /\
    Scenario.Name s25 = "25% Down"%string /\
    Scenario.DownPayment s25 = float64.of_Q 50000.
Proof.
  eexists. eexists. split.
  - apply (proj1 (GenerateDownPaymentScenarios_map
                    0%nat [float64.of_Q 10; float64.of_Q 25]
                    (sample_heap 200000 0 600 3000 500) sample_property eq_refl)
             (sample_financial 200000 0 600 500)).
    reflexivity.
  - vm_compute. repeat split.
Defined.

(** X18.  [GenerateInterestRateScenarios] returns one scenario per rate, in
    the order given: named after the rate with two decimals, with the
    property's down payment and term, the rate turned into basis points
    ([rate * 100]) and a rent multiplier of 1; it writes nothing.  The
    property is read inside the loop only, so an empty list of rates gives
    an empty list whatever the property is. *)
Theorem GenerateInterestRateScenarios_map
        (p : ptr) (rates : list float64.t) (h : Heap) :
  (forall prop f,
      nth_error (properties h) p = Some prop ->
      nth_error (financials h) (Property.Financial prop) = Some f ->
      GenerateInterestRateScenarios p rates h
      = Ok (map (interestRateScenario f) rates, h)) /\
  GenerateInterestRateScenarios p [] h = Ok ([], h).
Proof.
  split; [| reflexivity].
  intros prop f Hprop Hf.
  exact (GenerateInterestRateScenarios_loop p h prop f Hprop Hf rates []).
Qed.

Lemma GenerateInterestRateScenarios_map_witness :
  exists s,
    GenerateInterestRateScenarios 0%nat [float64.of_Q (13 # 2)]
                                  (sample_heap 200000 0 600 3000 500)
    = Ok ([s], sample_heap 200000 0 600 3000 500) /\
    Scenario.Name s = "6.50% Rate"%string /\
    Scenario.InterestRate s = float64.of_Q 650.
Proof.
  eexists. split.
  - apply (proj1 (GenerateInterestRateScenarios_map
                    0%nat [float64.of_Q (13 # 2)]
                    (sample_heap 200000 0 600 3000 500))
             sample_property (sample_financial 200000 0 600 500));
      reflexivity.
  - vm_compute. repeat split.
Defined.

(** * Scenarios without a down payment *)
Section ZeroDownScenario.

Local Open Scope nat_scope.
Local Open Scope heap_scope.

(** All the figures of a scenario result, from the base Financial block
    and rents. *)
Lemma analyzeScenario_figures p scenario h result h' prop f rs :
  nth_error (properties h) p = Some prop ->
  nth_error (financials h) (Property.Financial prop) = Some f ->
  rentsAt h (Property.Units prop) = Some rs ->
  analyzeScenario p scenario h = Ok (result, h') ->
  exists income me ae loan pay pp dp la ir,
    sumFloats (map (fun r => float64.mul r (Scenario.RentMultiplier scenario)) rs)
              Zero = Ok income /\
    NewFromFloat (TotalMonthly (Financial.Expenses f)) = Ok me /\
    NewFromFloat (TotalYearly (Financial.Expenses f)) = Ok ae /\
    loanOf (normalize (scenarioFinancial f scenario)) = Ok loan /\
    MonthlyPayment loan = Ok pay /\
    NewFromFloat (Financial.PurchasePrice (normalize (scenarioFinancial f scenario)))
    = Ok pp /\
    NewFromFloat (Financial.DownPayment (normalize (scenarioFinancial f scenario)))
    = Ok dp /\
    result =
      (let a := analysisOf income me ae pay pp dp la ir (Loan.TermYears loan) in
       {| ScenarioResult.Scenario := scenario;
          ScenarioResult.MonthlyCashFlow := CashFlowAnalysis.MonthlyCashFlow a;
          ScenarioResult.AnnualCashFlow := CashFlowAnalysis.AnnualCashFlow a;
          ScenarioResult.CashOnCash := CashFlowAnalysis.CashOnCash a;
          ScenarioResult.CapRate := CashFlowAnalysis.CapRate a;
          ScenarioResult.IsPositive := IsCashFlowPositive a |}).
Proof.
  intros Hprop Hf Hrs H. unfold analyzeScenario in H.
  apply bind_inv in H. destruct H as (prop' & h1 & Hl & H).
  apply load_inv in Hl. destruct Hl as [Hl ->].
  rewrite Hprop in Hl. inversion Hl; subst prop'. clear Hl.
  apply bind_inv in H. destruct H as (f' & h1 & Hl & H).
  apply load_inv in Hl. destruct Hl as [Hl ->].
  rewrite Hf in Hl. inversion Hl; subst f'. clear Hl.
  apply bind_inv in H. destruct H as (mfa & h1 & Hmf & H).
  unfold newFinancial in Hmf. inversion Hmf; subst mfa h1. clear Hmf.
  apply bind_inv in H. destruct H as (mpa & h2 & Hmp & H).
  unfold newProperty in Hmp. cbn [properties units financials] in Hmp.
  inversion Hmp; subst mpa h2. clear Hmp.
  apply bind_inv in H. destruct H as (u & h3 & Hloop & H).
  apply bind_inv in H. destruct H as (a & h4 & Han & H).
  apply ret_inv in H. destruct H as [-> ->].
  destruct (rentsAt_Forall2 _ _ _ Hrs) as (loaded & HF & Hmap).
  eapply scenario_units_loop with (loaded := loaded) in Hloop.
  2:{ cbn [units]. exact HF. }
  2:{ cbn [properties]. rewrite nth_error_app2 by lia.
      rewrite Nat.sub_diag. reflexivity. }
  cbn [units financials properties] in Hloop.
  destruct Hloop as (HU & HFi & HP).
  apply AnalyzeCashFlow_inv in Han.
  destruct Han as (prop' & f' & rs' & income & me & ae & loan & pay & pp & dp
                   & la & ir & Hprop' & Hf' & Hrs' & Hsum & Hme & Hae & Hloan
                   & Hpay & Hpp & Hdp & _ & _ & _ & ->).
  rewrite HP in Hprop'.
  rewrite nth_error_update_same in Hprop'
    by (rewrite length_app; simpl; lia).
  inversion Hprop'; subst prop'. clear Hprop'.
  cbn [withUnits Property.Financial Property.Units app] in Hf', Hrs'.
  rewrite HFi in Hf'. rewrite nth_error_app2 in Hf' by lia.
  rewrite Nat.sub_diag in Hf'. inversion Hf'; subst f'. clear Hf'.
  assert (Ers : rs' = map (fun r => float64.mul r (Scenario.RentMultiplier scenario)) rs).
  { destruct h3 as [U3 F3 P3]. cbn [units] in HU. subst U3.
    rewrite <- (length_map (scaledUnit (Scenario.RentMultiplier scenario)) loaded)
      in Hrs'.
    rewrite rentsAt_seq in Hrs'. inversion Hrs'; subst rs'.
    rewrite <- Hmap. rewrite !map_map. reflexivity. }
  subst rs'.
  exists income, me, ae, loan, pay, pp, dp, la, ir.
  repeat (split; [assumption |]). reflexivity.
Qed.

(** What [Normalize] makes of a scenario without a down payment is, but
    for the loan amount, what it makes of the scenario at the default
    down payment. *)
Lemma normalize_zero_down f s s' :
  float64.eqb (Scenario.DownPayment s) f0 = true ->
  float64.ltb f0 (Financial.PurchasePrice f) = true ->
  Scenario.DownPayment s'
  = float64.mul (Financial.PurchasePrice f) defaultDownPaymentFactor ->
  Scenario.InterestRate s' = Scenario.InterestRate s ->
  Scenario.LoanTerm s' = Scenario.LoanTerm s ->
  let n := normalize (scenarioFinancial f s) in
  let n' := normalize (scenarioFinancial f s') in
  Financial.PurchasePrice n = Financial.PurchasePrice n' /\
  Financial.DownPayment n = Financial.DownPayment n' /\
  Financial.DownPayment n
  = float64.mul (Financial.PurchasePrice f) defaultDownPaymentFactor /\
  Financial.InterestRate n = Financial.InterestRate n' /\
  Financial.LoanTermYears n = Financial.LoanTermYears n' /\
  Financial.Expenses n = Financial.Expenses n'.
Proof.
  intros Hz Hpos Hd Hi Ht. unfold normalize, scenarioFinancial.
  rewrite Hd, Hi, Ht.
  cbn [Financial.DownPayment Financial.PurchasePrice Financial.LoanAmount
       Financial.AskingPrice Financial.InterestRate Financial.LoanTermYears
       Financial.Expenses].
  rewrite Hz, Hpos. cbn [andb].
  cbn [Financial.DownPayment Financial.PurchasePrice Financial.LoanAmount
       Financial.AskingPrice Financial.InterestRate Financial.LoanTermYears
       Financial.Expenses].
  rewrite Hpos, !andb_true_r.
  repeat (match goal with
          | |- context [if ?c then _ else _] => destruct c
          end;
          cbn [Financial.DownPayment Financial.PurchasePrice
               Financial.LoanAmount Financial.AskingPrice
               Financial.InterestRate Financial.LoanTermYears
               Financial.Expenses]);
    repeat split.
Qed.

End ZeroDownScenario.

(** X19.  A scenario without a down payment is analysed at the default
    down payment of 20%: for a property with a positive purchase price,
    [CompareScenarios] reports for a scenario whose down payment is zero
    the monthly and annual cash flow, cash-on-cash return, cap rate and
    verdict that it reports for a scenario of the same rate, term and rent
    multiplier whose down payment is [PurchasePrice * 0.2]. *)
Theorem CompareScenarios_zero_down_is_default
        (p : ptr) (h h' : Heap) (prop : Property.t) (f : Financial.t)
        (rs : list float64.t) (s s' : Scenario.t) (r r' : ScenarioResult.t) :
  nth_error (properties h) p = Some prop ->
  nth_error (financials h) (Property.Financial prop) = Some f ->
  rentsAt h (Property.Units prop) = Some rs ->
  float64.ltb f0 (Financial.PurchasePrice f) = true ->
  float64.eqb (Scenario.DownPayment s) f0 = true ->
  Scenario.DownPayment s'
  = float64.mul (Financial.PurchasePrice f) defaultDownPaymentFactor ->
  Scenario.InterestRate s' = Scenario.InterestRate s ->
  Scenario.LoanTerm s' = Scenario.LoanTerm s ->
  Scenario.RentMultiplier s' = Scenario.RentMultiplier s ->
  CompareScenarios p [s; s'] h = Ok ([r; r'], h') ->
  ScenarioResult.Scenario r = s /\ ScenarioResult.Scenario r' = s' /\
  sameFigures r r'.
Proof.
  intros Hprop Hf Hrs Hpos Hz Hd Hi Ht Hm H.
  unfold CompareScenarios in H. cbn [forRange] in H.
  apply bind_inv in H. destruct H as (acc1 & h1 & H1 & H).
  apply bind_inv in H1. destruct H1 as (r1 & h1' & Hr1 & H1).
  apply ret_inv in H1. destruct H1 as [-> ->].
  apply bind_inv in H. destruct H as (acc2 & h2 & H2 & H).
  apply bind_inv in H2. destruct H2 as (r2 & h2' & Hr2 & H2).
  apply ret_inv in H2. destruct H2 as [-> ->].
  apply ret_inv in H. destruct H as [E _].
  cbn [app] in E. inversion E; subst r1 r2. clear E.
  pose proof (analyzeScenario_preserves _ _ _ _ _ Hr1) as Hpres.
  pose proof Hpres as (_ & HF & HP).
  destruct (analyzeScenario_figures p _ h r h1' prop f rs Hprop Hf Hrs Hr1)
    as (income & me & ae & loan & pay & pp & dp & la & ir
        & Hsum & Hme & Hae & Hloan & Hpay & Hpp & Hdp & ->).
  destruct (analyzeScenario_figures p _ h1' r' h2' prop f rs
              (HP _ _ Hprop) (HF _ _ Hf) (rentsAt_preserves _ _ _ _ Hpres Hrs) Hr2)
    as (income' & me' & ae' & loan' & pay' & pp' & dp' & la' & ir'
        & Hsum' & Hme' & Hae' & Hloan' & Hpay' & Hpp' & Hdp' & ->).
  destruct (normalize_zero_down f s s' Hz Hpos Hd Hi Ht)
    as (Epp & Edp & _ & Eir & Elt & _).
  rewrite Hm in Hsum'.
  assert (income' = income) by congruence. subst income'.
  assert (me' = me) by congruence. subst me'.
  assert (ae' = ae) by congruence. subst ae'.
  assert (loan' = loan).
  { unfold loanOf, InterestRatePercent in Hloan, Hloan'.
    rewrite <- Epp, <- Edp, <- Eir, <- Elt in Hloan'. congruence. }
  subst loan'.
  assert (pay' = pay) by congruence. subst pay'.
  assert (pp' = pp) by (rewrite <- Epp in Hpp'; congruence). subst pp'.
  assert (dp' = dp) by (rewrite <- Edp in Hdp'; congruence). subst dp'.
  split; [reflexivity |]. split; [reflexivity |].
  unfold sameFigures, IsCashFlowPositive, analysisOf.
  cbn [ScenarioResult.MonthlyCashFlow ScenarioResult.AnnualCashFlow
       ScenarioResult.CashOnCash ScenarioResult.CapRate ScenarioResult.IsPositive
       CashFlowAnalysis.MonthlyCashFlow CashFlowAnalysis.AnnualCashFlow
       CashFlowAnalysis.CashOnCash CashFlowAnalysis.CapRate].
  repeat split.
Qed.

Lemma CompareScenarios_zero_down_is_default_witness :
  exists r r' h',
    CompareScenarios 0%nat
      [downPaymentScenario (sample_financial 200000 0 600 500) f0;
       downPaymentScenario (sample_financial 200000 0 600 500) (float64.of_Q 20)]
      (sample_heap 200000 0 600 3000 500)
    = Ok ([r; r'], h') /\
    sameFigures r r'.
Proof.
  assert (E : exists r r' h',
             CompareScenarios 0%nat
               [downPaymentScenario (sample_financial 200000 0 600 500) f0;
                downPaymentScenario (sample_financial 200000 0 600 500)
                                    (float64.of_Q 20)]
               (sample_heap 200000 0 600 3000 500)
             = Ok ([r; r'], h'))
    by (vm_compute; eexists; eexists; eexists; reflexivity).
  destruct E as (r & r' & h' & E).
  assert (Hpos : float64.ltb f0 (Financial.PurchasePrice
                                   (sample_financial 200000 0 600 500)) = true)
    by (vm_compute; reflexivity).
  assert (Hz : float64.eqb
                 (Scenario.DownPayment
                    (downPaymentScenario (sample_financial 200000 0 600 500) f0))
                 f0 = true)
    by (vm_compute; reflexivity).
  assert (Hd : Scenario.DownPayment
                 (downPaymentScenario (sample_financial 200000 0 600 500)
                                      (float64.of_Q 20))
               = float64.mul (Financial.PurchasePrice
                                (sample_financial 200000 0 600 500))
                             defaultDownPaymentFactor)
    by (vm_compute; reflexivity).
  exists r, r', h'. split; [exact E |].
  exact (proj2 (proj2 (CompareScenarios_zero_down_is_default
                   0%nat (sample_heap 200000 0 600 3000 500) h' sample_property
                   (sample_financial 200000 0 600 500) [float64.of_Q 3000]
                   (downPaymentScenario (sample_financial 200000 0 600 500) f0)
                   (downPaymentScenario (sample_financial 200000 0 600 500)
                                        (float64.of_Q 20))
                   r r' eq_refl eq_refl eq_refl Hpos Hz Hd eq_refl eq_refl eq_refl
                   E))).
Defined.

(** * Interest rates and their percentage *)
Section RatePercent.

Local Open Scope Q_scope.

Lemma NewFromFloat_canonical p d : NewFromFloat p = Ok d -> Qred d = d.
Proof.
  destruct p as [s | s | | s m e]; cbn [NewFromFloat]; intro H; try discriminate.
  - inversion H. reflexivity.
  - destruct (float64.shortest m e) as [c q].
    assert (E : d = Qred ((if s then -1 else 1) * inject_Z c * Qpower 10 q))
      by congruence.
    rewrite E. apply Qred_complete. apply Qred_correct.
Qed.

(** Division by 100 at sixteen places is exact on a decimal of at most
    fourteen places. *)
Lemma DivRound_100_exact d n :
  d * pow10 14 == inject_Z n ->
  DivRound d (NewFromInt pointDevider) DivisionPrecision * 100 == d.
Proof.
  intro Hn. rewrite DivRound_correct.
  assert (E : d / NewFromInt pointDevider * pow10 DivisionPrecision == inject_Z n).
  { rewrite <- Hn. unfold pow10, NewFromInt, pointDevider, DivisionPrecision.
    change (inject_Z (10 ^ 16)) with (inject_Z (10 ^ 14) * 100).
    change (inject_Z 100) with 100. field. }
  rewrite (round_half_away_inject _ _ E). rewrite <- Hn.
  unfold pow10, DivisionPrecision.
  change (inject_Z (10 ^ 16)) with (inject_Z (10 ^ 14) * 100).
  field. discriminate.
Qed.

End RatePercent.

(** X20.  The percentage survives [NewInterestRate]: when the decimal that
    [NewFromFloat] makes of the percentage has at most fourteen decimal
    places, the division by 100 is exact, so the rate times 100 is that
    decimal, the points are the decimal times 100 and [AnnualRate] is the
    float64 of that very decimal. *)
Theorem NewInterestRate_keeps_percent (p : float64.t) (d : Decimal) (n : Z) :
  NewFromFloat p = Ok d ->
  (d * pow10 14 == inject_Z n)%Q ->
  exists ir,
    NewInterestRate p = Ok ir /\
    (interestRate.Decimal ir * 100 == d)%Q /\
    (interestRate.Points ir == d * 100)%Q /\
    interestRate.AnnualRate ir = InexactFloat64 d.
Proof.
  intros Hd Hn.
  pose proof (DivRound_100_exact d n Hn) as Hx.
  unfold NewInterestRate. rewrite Hd. cbn [rbind].
  unfold Div. change (IsZero (NewFromInt pointDevider)) with false. cbn [rbind].
  eexists. split; [reflexivity |].
  unfold interestRate.Decimal, interestRate.Points, interestRate.AnnualRate.
  cbn [interestRate.rate].
  split; [exact Hx |]. split.
  - rewrite Mul_correct.
    change (NewFromInt (pointDevider * 100)) with (100 * 100)%Q.
    rewrite Qmult_assoc, Hx. reflexivity.
  - f_equal. unfold Mul.
    etransitivity; [| exact (NewFromFloat_canonical p d Hd)].
    apply Qred_complete. exact Hx.
Qed.

Lemma NewInterestRate_keeps_percent_witness :
  exists ir,
    NewInterestRate (float64.of_Q (13 # 4)) = Ok ir /\
    (interestRate.Points ir == 325)%Q /\
    interestRate.AnnualRate ir = float64.of_Q (13 # 4).
Proof.
  assert (Hd : NewFromFloat (float64.of_Q (13 # 4)) = Ok (13 # 4))
    by (vm_compute; reflexivity).
  assert (Hn : ((13 # 4) * pow10 14 == inject_Z 325000000000000)%Q)
    by (vm_compute; reflexivity).
  destruct (NewInterestRate_keeps_percent
              (float64.of_Q (13 # 4)) (13 # 4) 325000000000000 Hd Hn)
    as (ir & E & _ & Hp & Ha).
  exists ir. split; [exact E |]. split.
  - rewrite Hp. reflexivity.
  - exact Ha.
Defined.

(** * The full analysis *)
Section FullAnalysisFacts.

Local Open Scope nat_scope.
Local Open Scope heap_scope.

Lemma unit_info_loop us : forall acc h infos h',
  forRange us
    (fun units ua =>
       unit <- loadUnit ua ;;
       rent <- lift (NewFromFloat (Unit.Rent unit)) ;;
       ret (units ++ [{| UnitInfo.Name := Unit.Name unit;
                         UnitInfo.Bedrooms := Unit.Bedrooms unit;
                         UnitInfo.Bathrooms := Unit.Bathrooms unit;
                         UnitInfo.Size := Unit.Size unit;
                         UnitInfo.Rent := rent |}]))
    acc h = Ok (infos, h') ->
  h' = h /\ exists new, infos = acc ++ new /\ Forall2 (describes h) us new.
Proof.
  induction us as [| ua us IH]; intros acc h infos h' H.
  - apply ret_inv in H. destruct H as [-> ->]. split; [reflexivity |].
    exists []. rewrite app_nil_r. split; [reflexivity | constructor].
  - cbn [forRange] in H.
    apply bind_inv in H. destruct H as (acc1 & h1 & Hstep & H).
    apply bind_inv in Hstep. destruct Hstep as (u & hx & Hu & Hstep).
    apply load_inv in Hu. destruct Hu as [Hu ->].
    apply bind_inv in Hstep. destruct Hstep as (rent & hx & Hr & Hstep).
    apply lift_inv in Hr. destruct Hr as [Hr ->].
    apply ret_inv in Hstep. destruct Hstep as [-> ->].
    apply IH in H. destruct H as [-> (new & -> & Hall)].
    split; [reflexivity |].
    eexists (_ :: new). rewrite <- app_assoc. split; [reflexivity |].
    constructor; [| exact Hall].
    exists u. repeat split; assumption.
Qed.

(** The rents that the analysis lists add up as the rents of the units
    do. *)
Lemma described_rents h us infos :
  Forall2 (describes h) us infos ->
  forall acc, exists rs,
    rentsAt h us = Some rs /\
    sumFloats rs acc
    = Ok (fold_left (fun total unit => Add total (UnitInfo.Rent unit)) infos acc).
Proof.
  induction 1 as [| ua ui us infos (u & Hu & _ & _ & _ & _ & Hr) _ IH]; intro acc.
  - exists []. split; reflexivity.
  - destruct (IH (Add acc (UnitInfo.Rent ui))) as (rs & Hrs & Hsum).
    exists (Unit.Rent u :: rs). cbn [rentsAt sumFloats fold_left].
    rewrite Hu, Hrs, Hr. split; [reflexivity | exact Hsum].
Qed.

Lemma analyzeScenario_scenario p s h r h' :
  analyzeScenario p s h = Ok (r, h') -> ScenarioResult.Scenario r = s.
Proof.
  unfold analyzeScenario. intro H.
  apply bind_inv in H. destruct H as (prop & h1 & _ & H).
  apply bind_inv in H. destruct H as (f & h2 & _ & H).
  apply bind_inv in H. destruct H as (mfa & h3 & _ & H).
  apply bind_inv in H. destruct H as (mpa & h4 & _ & H).
  apply bind_inv in H. destruct H as (u & h5 & _ & H).
  apply bind_inv in H. destruct H as (a & h6 & _ & H).
  apply ret_inv in H. destruct H as [-> _]. reflexivity.
Qed.

Lemma compare_loop_scenarios p scenarios : forall acc h results h',
  forRange scenarios
    (fun results scenario =>
       result <- analyzeScenario p scenario ;; ret (results ++ [result]))
    acc h = Ok (results, h') ->
  map ScenarioResult.Scenario results
  = map ScenarioResult.Scenario acc ++ scenarios.
Proof.
  induction scenarios as [| s scenarios IH]; intros acc h results h' H.
  - apply ret_inv in H. destruct H as [-> _]. rewrite app_nil_r. reflexivity.
  - cbn [forRange] in H.
    apply bind_inv in H. destruct H as (acc1 & h1 & Hstep & H).
    apply bind_inv in Hstep. destruct Hstep as (r & h2 & Hr & Hstep).
    apply ret_inv in Hstep. destruct Hstep as [-> ->].
    apply IH in H. rewrite H, map_app, <- app_assoc. cbn [map app].
    rewrite (analyzeScenario_scenario _ _ _ _ _ Hr). reflexivity.
Qed.

Lemma GenerateDownPaymentScenarios_inv p percentages h scenarios h' :
  GenerateDownPaymentScenarios p percentages h = Ok (scenarios, h') ->
  h' = h /\
  exists prop f,
    nth_error (properties h) p = Some prop /\
    nth_error (financials h) (Property.Financial prop) = Some f /\
    scenarios = map (downPaymentScenario f) percentages.
Proof.
  intro H. pose proof H as H0. unfold GenerateDownPaymentScenarios in H0.
  apply bind_inv in H0. destruct H0 as (prop & h1 & Hprop & H0).
  apply load_inv in Hprop. destruct Hprop as [Hprop ->].
  apply bind_inv in H0. destruct H0 as (f & h1 & Hf & _).
  apply load_inv in Hf. destruct Hf as [Hf ->].
  rewrite (GenerateDownPaymentScenarios_Ok p h prop f Hprop Hf) in H.
  assert (E1 : map (downPaymentScenario f) percentages = scenarios) by congruence.
  assert (E2 : h = h') by congruence.
  split; [symmetry; exact E2 |].
  exists prop, f. split; [exact Hprop |]. split; [exact Hf |].
  symmetry. exact E1.
Qed.

End FullAnalysisFacts.

(** X21.  What [AnalyzeWithConfig] puts together is consistent: the units
    of the analysis describe the property's units in order, with the
    decimal of each rent; the rents listed add up to the monthly gross
    income of the cash-flow analysis; the scenarios compared are those of
    10, 15, 20, 25 and 30 percent down, in that order; and the internal
    rates of return are computed only for five or more projected years
    (else they are zero), the holding period being the number of projected
    years. *)
Theorem AnalyzeWithConfig_consistent
        (fuel : nat) (p : ptr) (projConfig : ProjectionConfig.t)
        (h h' : Heap) (a : FullAnalysis.t) :
  AnalyzeWithConfig fuel p projConfig h = Ok (a, h') ->
  exists prop,
    nth_error (properties h) p = Some prop /\
    Forall2 (describes h) (Property.Units prop) (FullAnalysis.Units a) /\
    FullAnalysis.TotalMonthlyRent a
    = CashFlowAnalysis.MonthlyGrossIncome (FullAnalysis.CashFlow a) /\
    map (fun r => Scenario.Name (ScenarioResult.Scenario r)) (FullAnalysis.Scenarios a)
    = ["10% Down"; "15% Down"; "20% Down"; "25% Down"; "30% Down"]%string /\
    ((List.length (FullAnalysis.Projections a) < 5)%nat ->
     FullAnalysis.IRR a = IRRAnalysis.zero) /\
    ((5 <= List.length (FullAnalysis.Projections a))%nat ->
     IRRAnalysis.HoldingYears (FullAnalysis.IRR a)
     = Z.of_nat (List.length (FullAnalysis.Projections a))).
Proof.
  intro H. unfold AnalyzeWithConfig in H.
  apply bind_inv in H. destruct H as (prop & h1 & Hprop & H).
  apply load_inv in Hprop. destruct Hprop as [Hprop ->].
  apply bind_inv in H. destruct H as (infos & h1 & Hunits & H).
  apply unit_info_loop in Hunits. destruct Hunits as [-> (new & -> & Hall)].
  cbn [app] in H.
  apply bind_inv in H. destruct H as (cashFlow & h1 & Hcf & H).
  apply bind_inv in H. destruct H as (ber & h2 & _ & H).
  apply bind_inv in H. destruct H as (bed & h3 & _ & H).
  apply bind_inv in H. destruct H as (scenarios & h4 & Hgen & H).
  apply bind_inv in H. destruct H as (results & h5 & Hcmp & H).
  apply bind_inv in H. destruct H as (projections & h6 & _ & H).
  apply bind_inv in H. destruct H as (irr & h7 & Hirr & H).
  apply ret_inv in H. destruct H as [-> _].
  cbn [FullAnalysis.Units FullAnalysis.CashFlow FullAnalysis.Scenarios
       FullAnalysis.Projections FullAnalysis.IRR].
  exists prop. split; [exact Hprop |]. split; [exact Hall |].
  split; [| split; [| split]].
  - apply AnalyzeCashFlow_inv in Hcf.
    destruct Hcf as (prop' & f & rs & income & me & ae & loan & pay & pp & dp
                     & la & ir & Hprop' & _ & Hrs & Hsum & _ & _ & _ & _ & _ & _
                     & _ & _ & _ & ->).
    assert (prop' = prop) by congruence. subst prop'.
    destruct (described_rents h _ _ Hall Zero) as (rs' & Hrs' & Hsum').
    assert (rs' = rs) by congruence. subst rs'.
    unfold FullAnalysis.TotalMonthlyRent. cbn [FullAnalysis.Units].
    unfold analysisOf. cbn [CashFlowAnalysis.MonthlyGrossIncome].
    congruence.
  - apply GenerateDownPaymentScenarios_inv in Hgen.
    destruct Hgen as [-> (prop' & f & _ & _ & ->)].
    unfold CompareScenarios in Hcmp.
    apply compare_loop_scenarios in Hcmp. cbn [map app] in Hcmp.
    rewrite <- map_map, Hcmp.
    cbn [map downPaymentScenario Scenario.Name].
    vm_compute. reflexivity.
  - intro Hlt.
    assert (E : (5 <=? Z.of_nat (List.length projections)) = false)
      by (apply Z.leb_gt; lia).
    rewrite E in Hirr. apply ret_inv in Hirr. destruct Hirr as [-> _].
    reflexivity.
  - intro Hge.
    assert (E : (5 <=? Z.of_nat (List.length projections)) = true)
      by (apply Z.leb_le; lia).
    rewrite E in Hirr.
    apply bind_inv in Hirr. destruct Hirr as (five & h8 & _ & Hirr).
    apply bind_inv in Hirr. destruct Hirr as (ten & h9 & _ & Hirr).
    apply ret_inv in Hirr. destruct Hirr as [-> _]. reflexivity.
Qed.

Lemma AnalyzeWithConfig_consistent_witness :
  exists a h',
    AnalyzeWithConfig 20 0%nat sample_config (sample_heap 200000 0 0 3000 500)
    = Ok (a, h') /\
    FullAnalysis.TotalMonthlyRent a
    = CashFlowAnalysis.MonthlyGrossIncome (FullAnalysis.CashFlow a) /\
    FullAnalysis.IRR a = IRRAnalysis.zero.
Proof.
  assert (E : exists a h',
             AnalyzeWithConfig 20 0%nat sample_config
                               (sample_heap 200000 0 0 3000 500) = Ok (a, h') /\
             List.length (FullAnalysis.Projections a) = 2%nat)
    by (vm_compute; eexists; eexists; split; reflexivity).
  destruct E as (a & h' & E & L).
  exists a, h'. split; [exact E |].
  destruct (AnalyzeWithConfig_consistent
              20 0%nat sample_config (sample_heap 200000 0 0 3000 500) h' a E)
    as (prop & _ & _ & Ht & _ & Hz & _).
  split; [exact Ht |]. apply Hz. rewrite L. lia.
Defined.

(** * The builder's financial settings *)
Section BuilderFinancial.

Local Open Scope nat_scope.
Local Open Scope heap_scope.

Lemma assign_Ok p set h prop f :
  nth_error (properties h) p = Some prop ->
  nth_error (financials h) (Property.Financial prop) = Some f ->
  Builder.assign p set h
  = Ok (tt, setFinancial h (Property.Financial prop) (set f)).
Proof.
  intros Hprop Hf. unfold Builder.assign, loadProperty, loadFinancial.
  rewrite (bind_Ok _ _ _ _ _ (load_Ok properties p h prop Hprop)).
  rewrite (bind_Ok _ _ _ _ _ (load_Ok financials _ h f Hf)).
  unfold storeFinancial. rewrite Hf. reflexivity.
Qed.

Lemma New_Ok name h :
  Builder.New name h = Ok (List.length (properties h), afterNew name h).
Proof. reflexivity. Qed.

(** A chain of assignments on the property that [New] made. *)
Lemma assign_new name h set f :
  Builder.assign (List.length (properties h)) set
    (setFinancial (afterNew name h) (List.length (financials h)) f)
  = Ok (tt, setFinancial (afterNew name h) (List.length (financials h)) (set f)).
Proof.
  set (hf := setFinancial (afterNew name h) (List.length (financials h)) f).
  assert (Hprop : exists prop,
             nth_error (properties hf) (List.length (properties h)) = Some prop /\
             Property.Financial prop = List.length (financials h)).
  { eexists. split; [apply nth_error_app_last | reflexivity]. }
  destruct Hprop as (prop & Hprop & Efa).
  assert (Hf : nth_error (financials hf) (Property.Financial prop) = Some f).
  { rewrite Efa. apply financials_setFinancial with (f := Builder.zeroFinancial).
    cbn [afterNew financials]. apply nth_error_app_last. }
  rewrite (assign_Ok _ set hf prop f Hprop Hf), Efa.
  unfold hf. rewrite setFinancial_twice. reflexivity.
Qed.

Lemma afterNew_setFinancial name h :
  afterNew name h
  = setFinancial (afterNew name h) (List.length (financials h)) Builder.zeroFinancial.
Proof.
  unfold setFinancial. cbn [afterNew units financials properties].
  rewrite update_app_last. reflexivity.
Qed.

Lemma mul_zero_finite x :
  float64.is_finite x = true -> float64.eqb (float64.mul f0 x) f0 = true.
Proof. destruct x as [s | s | | s m e]; intro H; try discriminate; reflexivity. Qed.

Lemma Purchase_new name h purchasePrice askingPrice f :
  Builder.Purchase (List.length (properties h)) purchasePrice askingPrice
    (setFinancial (afterNew name h) (List.length (financials h)) f)
  = Ok (List.length (properties h),
        setFinancial (afterNew name h) (List.length (financials h))
          {| Financial.AskingPrice :=
               match askingPrice with
               | first :: _ => first
               | [] => purchasePrice
               end;
             Financial.PurchasePrice := purchasePrice;
             Financial.DownPayment := Financial.DownPayment f;
             Financial.LoanAmount := Financial.LoanAmount f;
             Financial.InterestRate := Financial.InterestRate f;
             Financial.LoanTermYears := Financial.LoanTermYears f;
             Financial.Expenses := Financial.Expenses f |}).
Proof.
  unfold Builder.Purchase.
  rewrite (bind_Ok _ _ _ _ _ (assign_new name h _ f)).
  rewrite (bind_Ok _ _ _ _ _ (assign_new name h _ _)).
  reflexivity.
Qed.

Lemma WithDownPaymentPercent_new name h percent f :
  Builder.WithDownPaymentPercent (List.length (properties h)) percent
    (setFinancial (afterNew name h) (List.length (financials h)) f)
  = Ok (List.length (properties h),
        setFinancial (afterNew name h) (List.length (financials h))
          {| Financial.AskingPrice := Financial.AskingPrice f;
             Financial.PurchasePrice := Financial.PurchasePrice f;
             Financial.DownPayment :=
               float64.mul (Financial.PurchasePrice f) (float64.div percent f100);
             Financial.LoanAmount := Financial.LoanAmount f;
             Financial.InterestRate := Financial.InterestRate f;
             Financial.LoanTermYears := Financial.LoanTermYears f;
             Financial.Expenses := Financial.Expenses f |}).
Proof.
  unfold Builder.WithDownPaymentPercent.
  rewrite (bind_Ok _ _ _ _ _ (assign_new name h _ f)).
  reflexivity.
Qed.

End BuilderFinancial.

(** X22.  The order of the builder's calls matters for a down payment given
    as a percentage.  On a property fresh from [New], [Purchase] followed by
    [WithDownPaymentPercent] sets the down payment to
    [purchasePrice * (percent / 100)]; in the other order the percentage is
    taken of the price of zero, the down payment stays zero, and
    [Normalize] later puts the default 20% of the purchase price in its
    place. *)
Theorem Builder_percent_after_purchase
        (name : string) (purchasePrice percent : float64.t)
        (askingPrice : list float64.t) (h : Heap) :
  float64.is_finite (float64.div percent f100) = true ->
  float64.ltb f0 purchasePrice = true ->
  exists f1 f2,
    (p <- Builder.New name ;;
     p <- Builder.Purchase p purchasePrice askingPrice ;;
     Builder.WithDownPaymentPercent p percent)%heap h
    = Ok (List.length (properties h),
          setFinancial (afterNew name h) (List.length (financials h)) f1) /\
    (p <- Builder.New name ;;
     p <- Builder.WithDownPaymentPercent p percent ;;
     Builder.Purchase p purchasePrice askingPrice)%heap h
    = Ok (List.length (properties h),
          setFinancial (afterNew name h) (List.length (financials h)) f2) /\
    Financial.PurchasePrice f1 = purchasePrice /\
    Financial.PurchasePrice f2 = purchasePrice /\
    Financial.DownPayment f1
    = float64.mul purchasePrice (float64.div percent f100) /\
    float64.eqb (Financial.DownPayment f2) f0 = true /\
    Financial.DownPayment (normalize f2)
    = float64.mul purchasePrice defaultDownPaymentFactor.
Proof.
  intros Hfin Hpos.
  pose proof (mul_zero_finite _ Hfin) as Hz.
  eexists. eexists. split; [| split].
  - rewrite (bind_Ok _ _ _ _ _ (New_Ok name h)).
    rewrite (afterNew_setFinancial name h) at 1.
    rewrite (bind_Ok _ _ _ _ _ (Purchase_new name h _ _ _)).
    apply WithDownPaymentPercent_new.
  - rewrite (bind_Ok _ _ _ _ _ (New_Ok name h)).
    rewrite (afterNew_setFinancial name h) at 1.
    rewrite (bind_Ok _ _ _ _ _ (WithDownPaymentPercent_new name h _ _)).
    apply Purchase_new.
  - cbn [Financial.PurchasePrice Financial.DownPayment Builder.zeroFinancial].
    split; [reflexivity |]. split; [reflexivity |]. split; [reflexivity |].
    split; [exact Hz |].
    unfold normalize.
    cbn [Financial.PurchasePrice Financial.DownPayment Financial.LoanAmount].
    rewrite Hz, Hpos. cbn [andb].
    cbn [Financial.PurchasePrice Financial.DownPayment Financial.LoanAmount].
    match goal with
    | |- context [if ?c then _ else _] => destruct c
    end; reflexivity.
Qed.

Lemma Builder_percent_after_purchase_witness :
  exists f1 f2 h1 h2,
    (p <- Builder.New "Duplex" ;;
     p <- Builder.Purchase p (float64.of_Q 400000) [] ;;
     Builder.WithDownPaymentPercent p (float64.of_Q 25))%heap
      (sample_heap 200000 0 600 3000 500) = Ok (1%nat, h1) /\
    nth_error (financials h1) 1%nat = Some f1 /\
    Financial.DownPayment f1 = float64.of_Q 100000 /\
    (p <- Builder.New "Duplex" ;;
     p <- Builder.WithDownPaymentPercent p (float64.of_Q 25) ;;
     Builder.Purchase p (float64.of_Q 400000) [])%heap
      (sample_heap 200000 0 600 3000 500) = Ok (1%nat, h2) /\
    nth_error (financials h2) 1%nat = Some f2 /\
    Financial.DownPayment (normalize f2) = float64.of_Q 80000.
Proof.
  assert (Hfin : float64.is_finite (float64.div (float64.of_Q 25) f100) = true)
    by (vm_compute; reflexivity).
  assert (Hpos : float64.ltb f0 (float64.of_Q 400000) = true)
    by (vm_compute; reflexivity).
  destruct (Builder_percent_after_purchase
              "Duplex" (float64.of_Q 400000) (float64.of_Q 25) []
              (sample_heap 200000 0 600 3000 500) Hfin Hpos)
    as (f1 & f2 & E1 & E2 & _ & _ & D1 & _ & D2).
  exists f1, f2. eexists. eexists.
  split; [exact E1 |]. split; [reflexivity |].
  split; [rewrite D1; vm_compute; reflexivity |].
  split; [exact E2 |]. split; [reflexivity |].
  rewrite D2. vm_compute. reflexivity.
Defined.

(** * The rate of return without a change of sign *)
Section AverageReturn.

Local Open Scope Q_scope.

Lemma fold_left_Add (l : list Q) : forall acc : Q,
  fold_left (fun total cf => Add total cf) l acc == acc + sumQ l.
Proof.
  induction l as [| x l IH]; intro acc; cbn [fold_left sumQ fold_right].
  - ring.
  - rewrite IH, Add_correct. fold (sumQ l). ring.
Qed.

Lemma sumQ_update (l : list Q) : forall (n : nat) (x : Q),
  (n < List.length l)%nat ->
  sumQ (update l n (Add (nth n l Zero) x)) == sumQ l + x.
Proof.
  induction l as [| y l IH]; intros [| n] x Hn; cbn [List.length] in Hn; try lia;
    cbn [update nth sumQ fold_right].
  - rewrite Add_correct. fold (sumQ l). ring.
  - fold (sumQ l). fold (sumQ (update l n (Add (nth n l Zero) x))).
    rewrite IH by lia. ring.
Qed.

(** The cash flows of a holding period add up to the yearly cash flows
    and the sale proceeds, less the investment. *)
Lemma sumQ_buildCashFlows (initialInvestment saleProceeds : Q) projs holdingYears :
  (0 <= holdingYears <= Z.of_nat (List.length projs))%Z ->
  sumQ (buildCashFlows initialInvestment saleProceeds projs holdingYears)
  == initialInvestment
     + sumQ (map YearlyProjection.CashFlow
                 (firstn (Z.to_nat holdingYears) projs))
     + saleProceeds.
Proof.
  intro HH. unfold buildCashFlows.
  rewrite sumQ_update.
  - unfold sumQ. cbn [fold_right]. ring.
  - cbn [List.length]. rewrite length_map, length_firstn. lia.
Qed.

End AverageReturn.

(** X23.  When the net present values at the rates -0.99 and 2.00 do not
    differ in sign, [CalculateIRR] does not search: it returns the average
    yearly return on the down payment in percent, that is the total of the
    cash flows (the yearly cash flows of the holding period and the equity
    at sale, less the down payment) divided by the down payment and by the
    number of years, each division at sixteen places, times 100. *)
Theorem CalculateIRR_no_sign_change
        (p : ptr) (projs : list YearlyProjection.t) (holdingYears : Z) (h : Heap)
        (prop : Property.t) (f : Financial.t) (downPayment : Decimal)
        (saleYear : YearlyProjection.t) (npvLow npvHigh : Decimal) :
  nth_error (properties h) p = Some prop ->
  nth_error (financials h) (Property.Financial prop) = Some f ->
  NewFromFloat (Financial.DownPayment f) = Ok downPayment ->
  ~ (downPayment == 0)%Q ->
  1 <= holdingYears <= Z.of_nat (List.length projs) ->
  nth_error projs (Z.to_nat (holdingYears - 1)) = Some saleYear ->
  let cashFlows :=
    buildCashFlows (Neg downPayment) (YearlyProjection.EquityAtSale saleYear)
                   projs holdingYears in
  calculateNPV cashFlows lowest = Ok npvLow ->
  calculateNPV cashFlows highest = Ok npvHigh ->
  Sign npvLow = Sign npvHigh ->
  exists totalCashFlow,
    (totalCashFlow
     == sumQ (map YearlyProjection.CashFlow (firstn (Z.to_nat holdingYears) projs))
        + YearlyProjection.EquityAtSale saleYear - downPayment)%Q /\
    CalculateIRR p projs holdingYears h
    = Ok (Mul (DivRound (DivRound totalCashFlow downPayment DivisionPrecision)
                        (NewFromInt holdingYears) DivisionPrecision)
              (NewFromInt 100), h).
Proof.
  intros Hprop Hf Hdp Hnz HH Hsale cashFlows Hlow Hhigh Hsign.
  exists (fold_left (fun total cf => Add total cf) cashFlows Zero). split.
  - rewrite fold_left_Add. unfold cashFlows.
    rewrite sumQ_buildCashFlows by lia.
    rewrite Neg_correct. unfold Zero. ring.
  - unfold CalculateIRR.
    assert (E1 : (Z.of_nat (List.length projs) =? 0) = false)
      by (apply Z.eqb_neq; lia).
    assert (E2 : (Z.of_nat (List.length projs) <? holdingYears) = false)
      by (apply Z.ltb_ge; lia).
    rewrite E1, E2. cbn [orb].
    unfold loadProperty, loadFinancial.
    rewrite (bind_Ok _ _ _ _ _ (load_Ok properties p h prop Hprop)).
    rewrite (bind_Ok _ _ _ _ _ (load_Ok financials _ h f Hf)).
    rewrite (bind_Ok _ _ _ _ _ (lift_Ok _ h _ Hdp)).
    pose proof Hnz as Hnz'. apply IsZero_false in Hnz'. rewrite Hnz'.
    assert (E3 : (holdingYears - 1 <? 0) = false) by (apply Z.ltb_ge; lia).
    rewrite E3, Hsale.
    rewrite (bind_Ok _ _ _ _ _ (lift_Ok _ h _ NewFromFloat_lowest)).
    rewrite (bind_Ok _ _ _ _ _ (lift_Ok _ h _ NewFromFloat_highest)).
    rewrite (bind_Ok _ _ _ _ _ (lift_Ok _ h _ NewFromFloat_irrTolerance)).
    fold cashFlows.
    rewrite (bind_Ok _ _ _ _ _ (lift_Ok _ h _ Hlow)).
    rewrite (bind_Ok _ _ _ _ _ (lift_Ok _ h _ Hhigh)).
    apply Z.eqb_eq in Hsign. rewrite Hsign.
    assert (Hy : IsZero (NewFromInt holdingYears) = false).
    { apply IsZero_false. unfold NewFromInt. intro E.
      assert (E' : inject_Z holdingYears == inject_Z 0) by exact E.
      rewrite inject_Z_injective in E'. lia. }
    unfold Div. rewrite Hnz', Hy. reflexivity.
Qed.

Lemma CalculateIRR_no_sign_change_witness :
  exists totalCashFlow,
    (totalCashFlow == 41000)%Q /\
    CalculateIRR 0%nat [sample_year] 1 (sample_heap 200000 10000 600 3000 500)
    = Ok (Mul (DivRound (DivRound totalCashFlow 10000%Q DivisionPrecision)
                        (NewFromInt 1) DivisionPrecision)
              (NewFromInt 100),
          sample_heap 200000 10000 600 3000 500).
Proof.
  assert (Hd : NewFromFloat (Financial.DownPayment
                               (sample_financial 200000 10000 600 500))
               = Ok 10000%Q) by (vm_compute; reflexivity).
  assert (Hnz : ~ (10000 == 0)%Q) by discriminate.
  assert (HH : 1 <= 1 <= Z.of_nat (List.length [sample_year])) by (cbn; lia).
  assert (Hlow : exists v, calculateNPV
                   (buildCashFlows (Neg 10000%Q)
                      (YearlyProjection.EquityAtSale sample_year) [sample_year] 1)
                   lowest = Ok v /\ Sign v = 1)
    by (vm_compute; eexists; split; reflexivity).
  assert (Hhigh : exists v, calculateNPV
                   (buildCashFlows (Neg 10000%Q)
                      (YearlyProjection.EquityAtSale sample_year) [sample_year] 1)
                   highest = Ok v /\ Sign v = 1)
    by (vm_compute; eexists; split; reflexivity).
  destruct Hlow as (vl & Hlow & Sl). destruct Hhigh as (vh & Hhigh & Sh).
  destruct (CalculateIRR_no_sign_change
              0%nat [sample_year] 1 (sample_heap 200000 10000 600 3000 500)
              sample_property (sample_financial 200000 10000 600 500)
              10000%Q sample_year vl vh eq_refl eq_refl Hd Hnz HH eq_refl
              Hlow Hhigh (eq_trans Sl (eq_sym Sh)))
    as (total & Ht & E).
  exists total. split; [| exact E].
  rewrite Ht. reflexivity.
Defined.

(** * The balance of the cash-flow analysis *)

(** X24.  In every analysis that [AnalyzeCashFlow] returns the mortgage is
    not negative, so the cash flow is at most the net operating income; the
    property is cash-flow positive exactly when the monthly income exceeds
    the monthly expenses and mortgage together; and the annual cash flow is
    twelve times the monthly one, corrected by the difference between
    twelve times the monthly expenses and the annual expenses (which are
    converted to decimals separately). *)
Theorem AnalyzeCashFlow_balance (p : ptr) (h h' : Heap) (a : CashFlowAnalysis.t) :
  AnalyzeCashFlow p h = Ok (a, h') ->
  (0 <= CashFlowAnalysis.MonthlyMortgage a)%Q /\
  (CashFlowAnalysis.MonthlyCashFlow a <= CashFlowAnalysis.MonthlyNOI a)%Q /\
  (IsCashFlowPositive a = true <->
   (CashFlowAnalysis.MonthlyExpenses a + CashFlowAnalysis.MonthlyMortgage a
    < CashFlowAnalysis.MonthlyGrossIncome a)%Q) /\
  (CashFlowAnalysis.AnnualCashFlow a
   == 12 * CashFlowAnalysis.MonthlyCashFlow a
      + (12 * CashFlowAnalysis.MonthlyExpenses a
         - CashFlowAnalysis.AnnualExpenses a))%Q.
Proof.
  intro H. apply AnalyzeCashFlow_inv in H.
  destruct H as (prop & f & rs & income & me & ae & loan & pay & pp & dp & la
                 & ir & _ & _ & _ & _ & _ & _ & _ & _ & _ & _ & _ & _ & _ & ->).
  unfold IsCashFlowPositive, analysisOf.
  cbn [CashFlowAnalysis.MonthlyMortgage CashFlowAnalysis.MonthlyCashFlow
       CashFlowAnalysis.MonthlyNOI CashFlowAnalysis.MonthlyExpenses
       CashFlowAnalysis.MonthlyGrossIncome CashFlowAnalysis.AnnualCashFlow
       CashFlowAnalysis.AnnualExpenses].
  assert (Hm : (0 <= Abs pay)%Q).
  { rewrite Abs_correct. apply Qabs_nonneg. }
  split; [exact Hm |]. split; [| split].
  - rewrite Sub_correct. unfold Decimal in *. lra.
  - split.
    + intro G. apply GreaterThan_true in G. unfold Zero in G.
      rewrite !Sub_correct in G. unfold Decimal in *. lra.
    + intro L. apply GreaterThan_true. unfold Zero.
      rewrite !Sub_correct. unfold Decimal in *. lra.
  - rewrite !Sub_correct, !Mul_correct.
    change (NewFromInt 12) with 12%Q. ring.
Qed.

Lemma AnalyzeCashFlow_balance_witness :
  exists a h',
    AnalyzeCashFlow 0%nat (sample_heap 200000 0 0 3000 500) = Ok (a, h') /\
    (0 <= CashFlowAnalysis.MonthlyMortgage a)%Q.
Proof.
  assert (E : exists a h',
             AnalyzeCashFlow 0%nat (sample_heap 200000 0 0 3000 500) = Ok (a, h'))
    by (vm_compute; eexists; eexists; reflexivity).
  destruct E as (a & h' & E).
  exists a, h'. split; [exact E |].
  exact (proj1 (AnalyzeCashFlow_balance
                  0%nat (sample_heap 200000 0 0 3000 500) h' a E)).
Defined.
